(* ===== verification/_CoqProject ===== *)
-Q . S2P
Prelude.v
Crc32.v
Sysvar.v
SysvarImage.v
SysvarLib.v
SysvarStore.v
SysvarFlash.v
SysvarCmd.v
Logos.v
TsSequencer.v
DvbTools.v
LogUtils.v
LogUploader.v
LogUploaderMac.v
LogUploaderSpec.v
KvExtract.v
Upload.v
LogUploaderMain.v
Anonid.v
Hnvram.v
HnvramSpec.v
Sysmgr.v
SysmgrSpec.v
TaxSignature.v
TaxSpec.v
AnonPcap.v
AnonPcapSpec.v
Isoping.v
IsopingSession.v
IsopingServer.v
IsopingHandshake.v
Experiments.v
ExperimentsSpec.v
Mmap.v
MmapSpec.v
Isostream.v
IsostreamSpec.v
