(* ===== verification/Prelude.v ===== *)
(** * Verification of the gfiber-platform C programs

    The repository holds the programs of a set-top box and router platform: small
    tools and daemons, each built on its own.  This development models those that
    keep state of value or decide what leaves the device, one file or group of files
    per program, and proves what each is for.

    ** The programs, and the files that model them

    - The system variables (sysvar/): names and values kept in flash, in two pairs of
      partitions (read-write and read-only, two copies each).  [Crc32] has the checksum
      and its polynomial specification; [Sysvar] every function of sysvar/lib/sysvar.c
      (image and linked list of one buffer); [SysvarImage] the format of the image;
      [SysvarLib] every function of sysvar/lib/sysvar_lib.c over an interface to the
      MTD driver ([MtdDriver], laws [MtdLaws]); [SysvarStore] the abstract store (two
      finite maps) and the simulation; [SysvarFlash] a NOR flash that satisfies the
      interface; [SysvarCmd] the command line and console of sysvar/sysvar_cmd.c.
    - The log processor (cmds/logos.c, [Logos]): cleans lines and limits their rate
      with three token buckets before they reach the kernel log.
    - The log uploader (logupload/client/): [LogUtils] is utils.c, [LogUploader]
      log_uploader.c (the reader of the kernel log), [LogUploaderMac] and
      [LogUploaderSpec] what that reader guarantees, [KvExtract] kvextract.c, [Upload]
      upload.c, and [LogUploaderMain] log_uploader_main.c, which runs them all.
    - The identifier tool (cmds/anonid.c, [Anonid]): prints the identifier that the log
      uploader puts in place of a MAC address, with its own copy of the code.
    - The transport stream tools (dvbutils/): [TsSequencer] is tssequencer.c and
      common.c, [DvbTools] dvbtune.c and dvbnet.c; crc32.c is in [Crc32].
    - The NVRAM tool (hnvram/hnvram_main.c, [Hnvram]): reads and writes the variables
      kept by a vendor library; [HnvramSpec] has the map of variables, what the library
      promises, and the options as steps on the map.
    - The system manager (sysmgr/, with the clock arithmetic of base/time.cc): [Sysmgr]
      is the daemon that reads temperatures, sets the fan and switches the box off;
      [SysmgrSpec] the function a probe computes and what follows from it.
    - The signatures of WiFi stations (taxonomy/tax_signature.c, [TaxSignature]):
      the elements of probe and association requests as a text; [TaxSpec] says which
      text, and that a hostile frame can neither overrun an array nor put other
      characters in it.
    - Anonymous captures (taxonomy/anonymize_pcap.c, [AnonPcap]): rewrites a capture
      without names of networks and device parts of addresses; [AnonPcapSpec] shows that
      they cannot be told from what is written, and that [TaxSignature] still can take
      the signatures from it.
    - Isochronous ping (cmds/isoping.cc, isoping.h): [Isoping] has the packets, the
      sessions with the queue of their times, the cookies, every handler and the rounds of
      the main loop; [IsopingSession] shows what a session works out (losses, receipts,
      delays), [IsopingServer] the map and the queue, that only a client that returned a
      cookie has a session, and that the server does not go wrong; [IsopingHandshake] the
      three packets of a handshake, when packets are sent, and the inputs that break it.
    - The experiments library (libexperiments/, [Experiments]): programs register the
      experiments they know, files in a directory switch them on and off, and a command
      registers a name with the system; [ExperimentsSpec] has the machine that it is, and
      shows that a restart changes nothing, when requests take effect and that commands end.
    - The register tool (cmds/mmap.c, [Mmap]): a script interpreter that maps files and
      reads and writes words of them; [MmapSpec] has the transactions on the MDIO bus, the
      memory behind the slots, and scripts as lines; it runs tests of the repository.
    - Streams at a fixed rate (cmds/isostream.c, [Isostream]): a server that sends at a
      fixed average rate, and a client that measures how often, how much and for how long
      the stream is behind; [IsostreamSpec] shows the rate the server keeps, what a dropout
      is and that the client reports those, and that a smooth stream has none.

    Definitions keep the names of the C functions.  A part of a function that has a
    definition of its own (a loop, a branch) is named after what it does.

    ** How C is modelled

    - Memory: an object is the list of its bytes ([Prelude]: [buf_get], [buf_set],
      [buf_fill], [strcpy], [snprintf_at]); an access outside it, or reading a string
      that has no terminator, is [Ub].  [outcome] has the three ways a run can go:
      [Ret], [Ub], and [OutOfFuel] for a loop whose bound was reached.  The state of a
      program is a record, threaded by the monad [M].
    - Integers are [Z] with their wrap-around written out ([u8], [u32], [s32], [ulong]
      of the platform's width, ...).  A signed overflow wraps as the compilers in use
      do with two's complement, except where a definition says it is undefined.
    - What the programs call but the repository does not hold is a parameter: a class
      of operations ([Allocator], [Clock], [MtdDriver], zlib, libcurl, HMAC, the NVRAM
      library, the answers of the operating system), with a second class of laws where
      a theorem relies on documented behaviour.  Each such theorem has a witness over a
      concrete instance.
    - Output is a list of messages in the state; the text is the code's, the trailing
      line feed of a message is left out where each message is one element.
    - getopt is not run: the options it answers are the input of the option loops.

    ** Fuel

    Loops that do not follow the structure of their data have fuel.  [while_loop] in
    [Prelude] has the rule: a measure below the fuel never runs out.  The callers give
    the length of the buffer plus one (Logos, LogUploader, SysvarImage), the number of
    rounds the loop can make (seven for a MAC address, four for the partitions), or the
    length of the input that is left (keys typed, bytes read).  The theorems state
    [Ret], so none of them is true because a loop ran out of fuel.  The loops of main
    programs that do not end are runs over a finite list of events.

    ** What the theorems show

    - Round trips: an image gives back the list it was saved from ([SysvarImage]), also
      over a restart ([SysvarStore]); the NVRAM tool reads what it wrote, in all its
      formats; kernel log lines, the counter file and interface addresses parse to what
      they were printed from.
    - Refinement: sequences of setvar and getvar are operations on two maps; options of
      the NVRAM tool are steps on a map; rounds of the system manager are its
      controller; the experiments library is a machine of markers; what the log uploader
      collects is a function of the entries of the kernel log.
    - Safety: a save that is cut off at any point leaves a valid copy on the flash; one
      valid copy is enough to load and repair; the counter of the log uploader moves
      only after a successful upload; no MAC address is left in a line; the calls of
      libcurl follow its protocol; every list of pairs is freed exactly when it is not
      returned; the rate limiter never lets through more than its buckets allow.
    - Equivalence: the unrolled checksum is the polynomial one; compressing in place is
      compressing; the form is sent whole however it is asked for; the client of a stream
      reports the dropouts there were; lines do not depend
      on how read cuts the input; the two programs that name MAC addresses agree.
    - Control: the duty cycle of the fan follows the temperatures, reaches its ends and
      stays on its scale; the box is switched off on the third hot probe in a row.
    - Network: isoping's server gives a session only for a returned cookie and goes wrong
      only in the stated cases; sides agree on a rate; what is due is sent; losses,
      receipts and delays are what they are called; a signature is that of its frame,
      and that of its anonymous copy; a stream is never ahead of its rate.
    - Errors: the theorems about what goes wrong (values that do not fit, an input that
      ends, a time limit that becomes negative, reads past the end) state exactly when,
      on the code as it is.

    ** Not modelled

    - logos.c: rejuvinate_process, and signals that interrupt a running handler.
    - The log messages and the parsing of flags of the C++ programs; of isoping.cc also the
      set-up of the sockets and the statistics printed at the end.
    - Terminal settings, the text of strerror, leaks and the freeing of memory, except
      where a theorem is about them ([KvExtract], [Sysvar], [Upload]'s handles).
    - base/ and speedtest/ (C++ libraries from other projects: WebRTC's base, googletest
      and googlemock, and a client built on curl and threads); diags/, gpio-mailbox/,
      spectralanalyzer/, rcu_audio/, libstacktrace/, py_mtd/: reads and writes of
      hardware registers, drivers and vendor libraries whose sources are not here;
      cryptdev/ (device mapper, loop devices and a TPM library, in the order of the
      calls), signing/ (reads one header) and the other tools of cmds/ (loops around
      system calls, with little state of their own); the Python and shell programs.
*)

From Stdlib Require Export ZArith Lia.
From Stdlib Require Ascii String.
Export (notations) String.
From stdpp Require Export base tactics numbers option relations list.
Export stdpp.list.

Open Scope Z_scope.

(** ** Outcomes of running C code *)

(** [Ret a]: the code ran to its end with result [a].  [Ub]: it performed an
    access the C standard leaves undefined (a read or write outside the object,
    a missing string terminator).  [OutOfFuel]: the bound given to a loop of the
    model was reached; the termination theorems exclude it. *)
Inductive outcome (A : Type) : Type :=
  | Ret (a : A)
  | Ub
  | OutOfFuel.
Arguments Ret {A} a.
Arguments Ub {A}.
Arguments OutOfFuel {A}.

#[export] Instance outcome_ret : MRet outcome := @Ret.
#[export] Instance outcome_bind : MBind outcome := fun A B f m =>
  match m with Ret a => f a | Ub => Ub | OutOfFuel => OutOfFuel end.
#[export] Instance outcome_fmap : FMap outcome := fun A B f m =>
  match m with Ret a => Ret (f a) | Ub => Ub | OutOfFuel => OutOfFuel end.

Lemma outcome_bind_Ret {A B} (m : outcome A) (f : A → outcome B) b :
  m ≫= f = Ret b ↔ ∃ a, m = Ret a ∧ f a = Ret b.
Proof.
  destruct m; split; simpl; [by eauto|by intros (? & [= <-] & ?)|done|by intros (? & ? & _)|done|].
  by intros (? & ? & _).
Qed.

Lemma outcome_bind_assoc {A B C} (m : outcome A) (f : A → outcome B) (g : B → outcome C) :
  (m ≫= f) ≫= g = m ≫= (λ a, f a ≫= g).
Proof. by destruct m. Qed.

Lemma outcome_bind_ret_l {A B} (a : A) (f : A → outcome B) : (Ret a ≫= f) = f a.
Proof. done. Qed.

(** The model of a C function that reads and writes program state [S]. *)
Definition M (S A : Type) : Type := S → outcome (A * S).

#[export] Instance M_ret {S} : MRet (M S) := fun A a s => Ret (a, s).
#[export] Instance M_bind {S} : MBind (M S) := fun A B f m s =>
  match m s with
  | Ret (a, s') => f a s'
  | Ub => Ub
  | OutOfFuel => OutOfFuel
  end.

#[export] Instance M_fmap {S} : FMap (M S) := fun A B f m s =>
  match m s with
  | Ret (a, s') => Ret (f a, s')
  | Ub => Ub
  | OutOfFuel => OutOfFuel
  end.

Definition gets {S A} (f : S → A) : M S A := fun s => Ret (f s, s).
Definition modify {S} (f : S → S) : M S unit := fun s => Ret (tt, f s).
Definition lift {S A} (m : outcome A) : M S A := fun s => a ← m; Ret (a, s).
Definition stuck {S A} : M S A := fun _ => Ub.

Lemma M_bind_unfold {S A B} (m : M S A) (f : A → M S B) s :
  (m ≫= f) s = match m s with
               | Ret (a, s') => f a s' | Ub => Ub | OutOfFuel => OutOfFuel end.
Proof. done. Qed.

Lemma M_bind_eq {S A B} (m : M S A) (f : A → M S B) s a s' :
  m s = Ret (a, s') → (m ≫= f) s = f a s'.
Proof. intros H. by rewrite M_bind_unfold, H. Qed.

Lemma M_bind_Ret {S A B} (m : M S A) (f : A → M S B) s b s'' :
  (m ≫= f) s = Ret (b, s'') ↔ ∃ a s', m s = Ret (a, s') ∧ f a s' = Ret (b, s'').
Proof.
  rewrite M_bind_unfold. destruct (m s) as [[a s']| |]; split; [by eauto| |done| |done|];
    intros (? & ? & Heq & ?); [by injection Heq as -> ->|done|done].
Qed.

Lemma M_bind_lift {S A B} (a : A) (f : A → M S B) s : (lift (Ret a) ≫= f) s = f a s.
Proof. done. Qed.

(** Every run of [m] that returns relates its first and last state by [R]. *)
Definition keeps {S A} (R : relation S) (m : M S A) : Prop :=
  ∀ s a s', m s = Ret (a, s') → R s s'.

Section keeps.
Context {S : Type} (R : relation S) `{!Reflexive R, !Transitive R}.

Lemma keeps_ret {A} (a : A) : keeps R (mret a).
Proof. intros s a' s' [= _ <-]. reflexivity. Qed.
Lemma keeps_bind {A B} (m : M S A) (f : A → M S B) :
  keeps R m → (∀ a, keeps R (f a)) → keeps R (m ≫= f).
Proof.
  intros Hm Hf s b s'' (a & s' & H1 & H2)%M_bind_Ret. etrans; [by eapply Hm|by eapply Hf].
Qed.
Lemma keeps_fmap {A B} (m : M S A) (f : A → B) : keeps R m → keeps R (f <$> m).
Proof.
  intros Hm s b s'. unfold fmap, M_fmap. destruct (m s) as [[a s1]| |] eqn:E; [|done..].
  intros [= _ <-]. by eapply Hm.
Qed.
Lemma keeps_gets {A} (f : S → A) : keeps R (gets f).
Proof. intros s a s' [= _ <-]. reflexivity. Qed.
Lemma keeps_modify f : (∀ s, R s (f s)) → keeps R (modify f).
Proof. intros Hf s a s' [= _ <-]. apply Hf. Qed.
Lemma keeps_lift {A} (m : outcome A) : keeps R (lift m).
Proof. intros s a s'. unfold lift. destruct m; [|done..]. intros [= _ <-]. reflexivity. Qed.
End keeps.

(** A run of [m] from [s] returns, and its result and last state satisfy [Q]. *)
Definition runs {S A} (m : M S A) (Q : A → S → Prop) (s : S) : Prop :=
  match m s with Ret (a, s') => Q a s' | _ => False end.

Section runs.
Context {S : Type}.
Lemma runs_ret {A} (a : A) (Q : A → S → Prop) s : Q a s → runs (mret a) Q s.
Proof. done. Qed.
Lemma runs_bind {A B} (m : M S A) (f : A → M S B) Q s : runs m (λ a s', runs (f a) Q s') s → runs (m ≫= f) Q s.
Proof. unfold runs. rewrite M_bind_unfold. by destruct (m s) as [[]| |]. Qed.
Lemma runs_gets {A} (f : S → A) (Q : A → S → Prop) s : Q (f s) s → runs (gets f) Q s.
Proof. done. Qed.
Lemma runs_modify (f : S → S) (Q : unit → S → Prop) s : Q tt (f s) → runs (modify f) Q s.
Proof. done. Qed.
Lemma runs_lift {A} (m : outcome A) a (Q : A → S → Prop) s : m = Ret a → Q a s → runs (lift m) Q s.
Proof. by intros ->. Qed.
Lemma runs_mono {A} (m : M S A) (P Q : A → S → Prop) s : runs m P s → (∀ a s', P a s' → Q a s') → runs m Q s.
Proof. unfold runs. destruct (m s) as [[]| |]; auto. Qed.
Lemma runs_Ret {A} (m : M S A) (Q : A → S → Prop) s : runs m Q s ↔ ∃ a s', m s = Ret (a, s') ∧ Q a s'.
Proof.
  unfold runs. destruct (m s) as [[a s']| |]; split; [by eauto| |done| |done|];
    intros (? & ? & Heq & ?); [by injection Heq as -> ->|done|done].
Qed.
End runs.

(** ** Machine integers *)

Definition u8 (x : Z) : Z := x mod 256.
Definition u16 (x : Z) : Z := x mod 2 ^ 16.
Definition u32 (x : Z) : Z := x mod 2 ^ 32.
Definition u64 (x : Z) : Z := x mod 2 ^ 64.
Definition s32 (x : Z) : Z := (x + 2 ^ 31) mod 2 ^ 32 - 2 ^ 31.
Definition s64 (x : Z) : Z := (x + 2 ^ 63) mod 2 ^ 64 - 2 ^ 63.

Lemma s64_id x : - 2 ^ 63 ≤ x < 2 ^ 63 → s64 x = x.
Proof. intros. unfold s64. rewrite Z.mod_small; lia. Qed.
Lemma s32_id x : - 2 ^ 31 ≤ x < 2 ^ 31 → s32 x = x.
Proof. intros. unfold s32. rewrite Z.mod_small; lia. Qed.

(** The width of C's [unsigned long] depends on the platform the programs are
    built for (32 bits on the ARM and MIPS boards, 64 on a 64-bit host). *)
Class CPlatform := {
  ulong_bits : Z;
  ulong_bits_ge : 32 ≤ ulong_bits;
}.
Definition ulong `{!CPlatform} (x : Z) : Z := x mod 2 ^ ulong_bits.
Lemma ulong_id `{!CPlatform} x : 0 ≤ x < 2 ^ 32 → ulong x = x.
Proof.
  intros Hx. unfold ulong. apply Z.mod_small.
  pose proof ulong_bits_ge. pose proof (Z.pow_le_mono_r 2 32 ulong_bits). lia.
Qed.

(** A signed integer of the width of [long] ([ssize_t], [long]). *)
Definition sword `{!CPlatform} (x : Z) : Z :=
  (x + 2 ^ (ulong_bits - 1)) mod 2 ^ ulong_bits - 2 ^ (ulong_bits - 1).

Lemma sword_id `{!CPlatform} x : - 2 ^ (ulong_bits - 1) ≤ x < 2 ^ (ulong_bits - 1) → sword x = x.
Proof.
  intros Hx. unfold sword. pose proof ulong_bits_ge.
  replace (2 ^ ulong_bits) with (2 * 2 ^ (ulong_bits - 1)).
  - rewrite Z.mod_small by lia. lia.
  - rewrite <-Z.pow_succ_r by lia. f_equal. lia.
Qed.

Definition ilp32 : CPlatform := {| ulong_bits := 32; ulong_bits_ge := ltac:(lia) |}.
Definition lp64 : CPlatform := {| ulong_bits := 64; ulong_bits_ge := ltac:(lia) |}.

(** The monotonic time in milliseconds that the [n]th reading of the clock gives. *)
Class Clock := clock : nat → Z.

Definition is_byte (b : Z) : Prop := 0 ≤ b < 256.
#[export] Instance is_byte_dec b : Decision (is_byte b).
Proof. unfold is_byte. apply _. Defined.

Abbreviation bytes := (list Z).
Abbreviation all_bytes := (Forall is_byte).

Lemma u8_byte x : is_byte (u8 x).
Proof. unfold is_byte, u8. apply Z.mod_pos_bound. lia. Qed.
Lemma u8_id x : is_byte x → u8 x = x.
Proof. intros. apply Z.mod_small. done. Qed.
(** A test of all bytes. *)
Lemma byte_all (P : Z → bool) b : forallb P (seqZ 0 256) = true → is_byte b → P b = true.
Proof. intros Hall Hb. rewrite forallb_forall in Hall. apply Hall. apply list_elem_of_In, elem_of_seqZ. unfold is_byte in Hb. lia. Qed.
Lemma u8_land x : u8 x = Z.land x 255.
Proof. unfold u8. by change 255 with (Z.ones 8); rewrite Z.land_ones by lia. Qed.

(** ** Memory: an allocated object is the list of its bytes *)

Definition buf_get (l : bytes) (i : Z) : outcome Z :=
  if decide (0 ≤ i) then
    match l !! Z.to_nat i with Some b => Ret b | None => Ub end
  else Ub.

Definition buf_set (l : bytes) (i : Z) (v : Z) : outcome bytes :=
  if decide (0 ≤ i < Z.of_nat (length l)) then Ret (<[Z.to_nat i := v]> l) else Ub.

(** [memset(l + i, v, n)] *)
Definition buf_fill (l : bytes) (i : Z) (v : Z) (n : Z) : outcome bytes :=
  if decide (0 ≤ i ∧ 0 ≤ n ∧ i + n ≤ Z.of_nat (length l)) then
    Ret (take (Z.to_nat i) l ++ replicate (Z.to_nat n) v ++ drop (Z.to_nat (i + n)) l)
  else Ub.

Lemma buf_get_Ret l i b : buf_get l i = Ret b ↔ 0 ≤ i ∧ l !! Z.to_nat i = Some b.
Proof.
  unfold buf_get. case_decide as Hi; [|split; [done|by intros [? _]]].
  destruct (l !! _) eqn:E; split.
  - by intros [= <-].
  - by intros [_ [= <-]].
  - done.
  - by intros [_ ?].
Qed.

Lemma buf_get_Some l (i : nat) b : l !! i = Some b → buf_get l (Z.of_nat i) = Ret b.
Proof. intros. apply buf_get_Ret. rewrite Nat2Z.id. split; [lia|done]. Qed.

Lemma buf_get_no_fuel l i : buf_get l i ≠ OutOfFuel.
Proof. unfold buf_get. case_decide; [|done]. by destruct (l !! _). Qed.

Lemma buf_get_in_range l i :
  0 ≤ i < Z.of_nat (length l) → ∃ b, buf_get l i = Ret b ∧ l !! Z.to_nat i = Some b.
Proof.
  intros Hi. destruct (lookup_lt_is_Some_2 l (Z.to_nat i)) as [b Hb]; [lia|].
  exists b. split; [|done]. apply buf_get_Ret. split; [lia|done].
Qed.

Lemma buf_get_nth l i : 0 ≤ i < Z.of_nat (length l) → buf_get l i = Ret (nth (Z.to_nat i) l 0).
Proof.
  intros Hi. destruct (buf_get_in_range l i Hi) as (b & -> & Hb). f_equal. symmetry.
  by apply nth_lookup_Some.
Qed.

Lemma buf_set_in_range l i v :
  0 ≤ i < Z.of_nat (length l) → buf_set l i v = Ret (<[Z.to_nat i := v]> l).
Proof. intros. unfold buf_set. by rewrite decide_True. Qed.

Lemma buf_set_length l i v l' : buf_set l i v = Ret l' → length l' = length l.
Proof. unfold buf_set. case_decide; [|done]. intros [= <-]. apply length_insert. Qed.

Lemma buf_fill_length l i v n l' : buf_fill l i v n = Ret l' → length l' = length l.
Proof.
  unfold buf_fill. case_decide; [|done]. intros [= <-].
  rewrite !length_app, length_take, length_replicate, length_drop. lia.
Qed.

Lemma buf_set_app (l1 l2 : bytes) i x v :
  Z.of_nat (length l1) = i → buf_set (l1 ++ x :: l2) i v = Ret (l1 ++ v :: l2).
Proof.
  intros <-. rewrite buf_set_in_range by (rewrite length_app; simpl; lia).
  by rewrite Nat2Z.id, insert_app_r_alt, Nat.sub_diag by lia.
Qed.

Lemma buf_get_app (l1 l2 : bytes) i x :
  Z.of_nat (length l1) = i → buf_get (l1 ++ x :: l2) i = Ret x.
Proof. intros <-. apply buf_get_Some. by rewrite list_lookup_middle. Qed.

Lemma buf_fill_app (l1 l2 l3 : bytes) i v n :
  Z.of_nat (length l1) = i → Z.of_nat (length l2) = n →
  buf_fill (l1 ++ l2 ++ l3) i v n = Ret (l1 ++ replicate (length l2) v ++ l3).
Proof.
  intros <- <-. unfold buf_fill.
  rewrite decide_True by (rewrite !length_app; lia).
  rewrite <-Nat2Z.inj_add, !Nat2Z.id, take_app_length.
  do 3 f_equal. rewrite (assoc_L (++)), <-length_app. apply drop_app_length.
Qed.

(** ** C strings

    A [char *] argument whose object is not itself written by the code is the
    list of its bytes before the terminator; [cstr] reads such a string out of an
    array. *)

Definition NUL : Z := 0.
Definition is_cstr (s : bytes) : Prop := Forall (λ b, is_byte b ∧ b ≠ NUL) s.
#[export] Instance is_cstr_dec s : Decision (is_cstr s).
Proof. unfold is_cstr. apply _. Defined.

Fixpoint cstr (arr : bytes) : outcome bytes :=
  match arr with
  | [] => Ub
  | b :: arr => if decide (b = NUL) then Ret [] else s ← cstr arr; Ret (b :: s)
  end.

Definition strlen (s : bytes) : Z := Z.of_nat (length s).

Lemma cstr_app s rest : Forall (λ b, b ≠ NUL) s → cstr (s ++ NUL :: rest) = Ret s.
Proof.
  induction 1 as [|b s Hb _ IH]; simpl; [done|].
  rewrite decide_False by done. by rewrite IH.
Qed.

Lemma cstr_unterminated s : Forall (λ b, b ≠ NUL) s → cstr s = Ub.
Proof.
  induction 1 as [|b s Hb _ IH]; simpl; [done|]. rewrite decide_False by done. by rewrite IH.
Qed.

Lemma cstr_Ret arr s : cstr arr = Ret s → ∃ rest, arr = s ++ NUL :: rest ∧ Forall (λ b, b ≠ NUL) s.
Proof.
  revert s. induction arr as [|b arr IH]; simpl; [done|]. intros s.
  case_decide as Hb.
  - intros [= <-]. exists arr. by subst.
  - intros (s' & Hs' & [= <-])%outcome_bind_Ret.
    destruct (IH _ Hs') as (rest & -> & ?). exists rest. split; [done|by constructor].
Qed.

Lemma cstr_no_fuel arr : cstr arr ≠ OutOfFuel.
Proof.
  induction arr as [|b arr IH]; simpl; [done|]. case_decide; [done|].
  by destruct (cstr arr).
Qed.

Lemma is_cstr_nonul s : is_cstr s → Forall (λ b, b ≠ NUL) s.
Proof. intros H. eapply Forall_impl; [exact H|]. by intros ? []. Qed.
Lemma is_cstr_bytes s : is_cstr s → all_bytes s.
Proof. intros H. eapply Forall_impl; [exact H|]. by intros ? []. Qed.

(** A string literal of the source. *)
Definition lit (s : String.string) : bytes :=
  List.map (λ c, Z.of_N (Ascii.N_of_ascii c)) (String.list_ascii_of_string s).
Arguments lit s%_string_scope.

(** ** The allocator

    [malloc_ok n] says whether the [n]th call of [malloc] since the program
    started succeeds; the heap state is the number of calls made, and a call that
    succeeds returns its number as a fresh address. *)
Class Allocator := malloc_ok : nat → bool.
Abbreviation heap := nat.

(** The identity of an allocated object, which pointer comparisons decide. *)
Abbreviation addr := nat.

Definition malloc `{Allocator} (h : heap) : option addr * heap :=
  (if malloc_ok h then Some h else None, S h).

(** The allocator that never fails. *)
Definition unlimited_memory : Allocator := fun _ => true.

(** [strcpy(arr, s)] *)
Definition strcpy (arr s : bytes) : outcome bytes :=
  if decide (length s < length arr)%nat then Ret (s ++ NUL :: drop (S (length s)) arr) else Ub.

Lemma strcpy_run arr s : (length s < length arr)%nat →
  strcpy arr s = Ret (s ++ NUL :: drop (S (length s)) arr).
Proof. intros. unfold strcpy. by rewrite decide_True. Qed.

(** The string at the start of some bytes, of which the end is a terminator. *)
Fixpoint nul_text (l : bytes) : bytes :=
  match l with [] => [] | c :: l => if decide (c = NUL) then [] else c :: nul_text l end.

Lemma nul_text_cstr l rest : cstr (l ++ NUL :: rest) = Ret (nul_text l).
Proof. induction l as [|c l IH]; [done|]. simpl. case_decide; [done|]. by rewrite IH. Qed.
Lemma nul_text_nonul l : Forall (λ c, c ≠ NUL) (nul_text l).
Proof. induction l as [|c l IH]; simpl; [constructor|]. case_decide; by constructor. Qed.
Lemma nul_text_id l : Forall (λ c, c ≠ NUL) l → nul_text l = l.
Proof. induction 1 as [|c l Hc _ IH]; simpl; [done|]. rewrite decide_False by done. by rewrite IH. Qed.
Lemma nul_text_app_nul l rest : nul_text (l ++ NUL :: rest) = nul_text l.
Proof. induction l as [|c l IH]; [done|]. simpl. case_decide; [done|]. by rewrite IH. Qed.
Lemma nul_text_length l : (length (nul_text l) ≤ length l)%nat.
Proof. induction l as [|c l IH]; simpl; [done|]. case_decide; simpl; lia. Qed.

(** The [%d] of printf: the digits of [n], most significant first; [fuel] bounds
    their number. *)
Fixpoint digits (fuel : nat) (n : Z) (acc : bytes) : bytes :=
  match fuel with
  | O => acc
  | S fuel =>
      let acc := 48 + n mod 10 :: acc in
      if n <? 10 then acc else digits fuel (n / 10) acc
  end.
Definition dec (n : Z) : bytes :=
  let d := digits (S (Z.to_nat (Z.log2 (Z.abs n)))) (Z.abs n) [] in
  if n <? 0 then 45 :: d else d.

(** snprintf's fields *)
Definition pad (n : nat) (c : Z) (t : bytes) : bytes := replicate (n - length t) c ++ t.
Definition dec0 (n : nat) (v : Z) : bytes :=
  if v <? 0 then 45 :: pad (n - 1) 48 (dec (- v)) else pad n 48 (dec v).

(** The hexadecimal digits of an unsigned int; [fuel] bounds their number. *)
Fixpoint hex_digits (fuel : nat) (n : Z) (acc : bytes) : bytes :=
  match fuel with
  | O => acc
  | S fuel =>
      let d := n mod 16 in
      let acc := (if d <? 10 then 48 + d else 87 + d) :: acc in
      if n <? 16 then acc else hex_digits fuel (n / 16) acc
  end.
(** [%02x] of an int *)
Definition hex02 (v : Z) : bytes := pad 2 48 (hex_digits 8 (u32 v) []).

(** [snprintf(buf + off, size, ...)] of a text: what fits is stored with a
    terminator, the result is the length of the text. *)
Definition snprintf_at (buf : bytes) (off size : Z) (txt : bytes) : outcome (Z * bytes) :=
  let len := Z.of_nat (length txt) in
  if size <=? 0 then Ret (len, buf)
  else
    let stored := take (Z.to_nat (size - 1)) txt ++ [NUL] in
    if decide (0 ≤ off ∧ off + Z.of_nat (length stored) ≤ Z.of_nat (length buf)) then
      Ret (len, take (Z.to_nat off) buf ++ stored ++ drop (Z.to_nat off + length stored) buf)
    else Ub.

Lemma snprintf_at_run buf off size txt :
  0 < size → 0 ≤ off → off + size ≤ Z.of_nat (length buf) →
  ∃ rest, snprintf_at buf off size txt =
    Ret (Z.of_nat (length txt), take (Z.to_nat off) buf ++ take (Z.to_nat (size - 1)) txt ++ NUL :: rest) ∧
    length (take (Z.to_nat off) buf ++ take (Z.to_nat (size - 1)) txt ++ NUL :: rest) = length buf.
Proof.
  intros Hs Ho Hfit. unfold snprintf_at. destruct (Z.leb_spec size 0); [lia|].
  rewrite decide_True by (rewrite length_app, length_take; simpl; lia).
  eexists. split; [by rewrite <-(assoc_L (++))|].
  rewrite !length_app. cbn [length]. rewrite length_drop, ?length_app, !length_take. cbn [length]. lia.
Qed.

(** atoi and atoll: white space, a sign, digits; a value out of range is undefined. *)
Definition isspace (c : Z) : bool := (c =? 32) || ((9 <=? c) && (c <=? 13)).
Fixpoint skip_space (s : bytes) : bytes :=
  match s with c :: t => if isspace c then skip_space t else s | [] => [] end.
Fixpoint parse_digits (s : bytes) (acc : Z) : Z :=
  match s with
  | c :: s => if (48 <=? c) && (c <=? 57) then parse_digits s (10 * acc + (c - 48)) else acc
  | [] => acc
  end.
(** A sign and what follows it. *)
Definition signed_digits (s : bytes) : bool * bytes :=
  match skip_space s with
  | c :: t => if c =? 45 then (true, t) else if c =? 43 then (false, t) else (false, c :: t)
  | [] => (false, [])
  end.
Definition parse_int (s : bytes) : Z :=
  let '(neg, s) := signed_digits s in
  if neg : bool then - parse_digits s 0 else parse_digits s 0.
Definition int_within (bits : Z) (v : Z) : outcome Z :=
  if (- 2 ^ (bits - 1) <=? v) && (v <? 2 ^ (bits - 1)) then Ret v else Ub.
Definition atoi (s : bytes) : outcome Z := int_within 32 (parse_int s).
Definition atoll (s : bytes) : outcome Z := int_within 64 (parse_int s).

Definition is_digit (c : Z) : Prop := 48 ≤ c ≤ 57.
Definition not_digit_first (l : bytes) : Prop := ∀ c l', l = c :: l' → c < 48 ∨ 57 < c.

Lemma parse_digits_app a b acc :
  Forall is_digit a → not_digit_first b →
  parse_digits (a ++ b) acc = fold_left (λ v c, 10 * v + (c - 48)) a acc.
Proof.
  intros Ha Hb. revert acc. induction Ha as [|c a Hc _ IH]; intros acc.
  - simpl. destruct b as [|c b]; [done|]. specialize (Hb c b eq_refl). simpl.
    destruct (Z.leb_spec 48 c), (Z.leb_spec c 57); simpl; lia || done.
  - unfold is_digit in Hc. simpl.
    destruct (Z.leb_spec 48 c), (Z.leb_spec c 57); simpl; [apply IH|lia..].
Qed.

Lemma digits_spec fuel : ∀ n acc,
  (0 < fuel)%nat → 0 ≤ n < 2 ^ Z.of_nat fuel →
  ∃ l, digits fuel n acc = l ++ acc ∧ l ≠ [] ∧ Forall is_digit l ∧
    fold_left (λ v c, 10 * v + (c - 48)) l 0 = n ∧
    (n < 10 ^ Z.of_nat (length l)) ∧ (length l = 1%nat ∨ 10 ^ (Z.of_nat (length l) - 1) ≤ n).
Proof.
  induction fuel as [|fuel IH]; intros n acc Hf Hn; [lia|]. cbn [digits].
  pose proof (Z.div_mod n 10). pose proof (Z.mod_pos_bound n 10).
  assert (is_digit (48 + n mod 10)) as Hd by (unfold is_digit; lia).
  destruct (Z.ltb_spec n 10) as [Hlt|Hge].
  - exists [48 + n mod 10]. rewrite Z.mod_small in * by lia.
    split_and!; [done|done|by constructor|simpl; lia|simpl; lia|by left].
  - rewrite Nat2Z.inj_succ, Z.pow_succ_r in Hn by lia.
    assert (0 < fuel)%nat as Hf' by (destruct fuel; [simpl in Hn; lia|lia]).
    destruct (IH (n / 10) (48 + n mod 10 :: acc)) as (l & -> & Hne & Hl & Hv & Hup & Hlo); [done|lia|].
    exists (l ++ [48 + n mod 10]). rewrite <-(assoc_L (++)), fold_left_app, Hv, length_app. simpl.
    assert (0 < length l)%nat by (destruct l; [done|simpl; lia]).
    split_and!; [done|by destruct l|apply Forall_app; by split; [|constructor]|lia| |right].
    + rewrite Nat2Z.inj_add, Z.pow_add_r by lia. lia.
    + replace (Z.of_nat (length l + 1) - 1) with (Z.succ (Z.of_nat (length l) - 1)) by lia.
      rewrite Z.pow_succ_r by lia. destruct Hlo as [Hlo|Hlo]; [rewrite Hlo; simpl; lia|lia].
Qed.

(** The decimal text of a natural number: digits only, and its value. *)
Lemma dec_digits n : 0 ≤ n →
  dec n ≠ [] ∧ Forall is_digit (dec n) ∧
  fold_left (λ v c, 10 * v + (c - 48)) (dec n) 0 = n ∧
  (length (dec n) = 1%nat ∨ 10 ^ (Z.of_nat (length (dec n)) - 1) ≤ n).
Proof.
  intros Hn. unfold dec. destruct (Z.ltb_spec n 0); [lia|].
  rewrite Z.abs_eq by lia.
  destruct (digits_spec (S (Z.to_nat (Z.log2 n))) n []) as (l & Hl & ? & ? & ? & _ & ?); [lia| |].
  { pose proof (Z.log2_nonneg n). rewrite Nat2Z.inj_succ, Z2Nat.id by done.
    destruct (decide (n = 0)) as [->|]; [done|]. pose proof (Z.log2_spec n). lia. }
  rewrite app_nil_r in Hl. rewrite Hl. done.
Qed.

Lemma dec_length n k : 0 ≤ n < 10 ^ Z.of_nat k → (0 < k)%nat → (length (dec n) ≤ k)%nat.
Proof.
  intros Hn Hk. destruct (dec_digits n) as (_ & _ & _ & [->|H]); [lia|lia|].
  destruct (decide (length (dec n) ≤ k)%nat) as [|Hgt]; [done|].
  assert (10 ^ Z.of_nat k ≤ 10 ^ (Z.of_nat (length (dec n)) - 1)) by (apply Z.pow_le_mono_r; lia). lia.
Qed.

Lemma dec_length_signed v k : Z.abs v < 10 ^ Z.of_nat k → (0 < k)%nat → (length (dec v) ≤ S k)%nat.
Proof.
  intros Hv Hk. destruct (Z.ltb_spec v 0) as [Hneg|]; [|pose proof (dec_length v k); lia].
  pose proof (dec_length (- v) k) as H. unfold dec in *. rewrite Z.abs_opp in H.
  destruct (Z.ltb_spec v 0); [|lia]. destruct (Z.ltb_spec (- v) 0); [lia|]. cbn [length]. lia.
Qed.

(** Reading back a printed number. *)
Lemma parse_digits_dec n rest :
  0 ≤ n → not_digit_first rest → parse_digits (dec n ++ rest) 0 = n.
Proof.
  intros Hn Hr. destruct (dec_digits n Hn) as (_ & Hd & Hv & _).
  by rewrite parse_digits_app.
Qed.

Lemma skip_space_dec n rest : 0 ≤ n → ∃ c t, dec n ++ rest = c :: t ∧ is_digit c ∧ skip_space (dec n ++ rest) = c :: t.
Proof.
  intros Hn. destruct (dec_digits n Hn) as (Hne & Hd & _).
  destruct (dec n) as [|c t]; [done|]. exists c, (t ++ rest). apply Forall_cons in Hd as [Hc _].
  split_and!; [done|done|]. simpl. unfold isspace, is_digit in *.
  destruct (Z.eqb_spec c 32), (Z.leb_spec 9 c), (Z.leb_spec c 13); simpl; lia || done.
Qed.

Lemma signed_digits_dec n rest : 0 ≤ n → signed_digits (dec n ++ rest) = (false, dec n ++ rest).
Proof.
  intros Hn. destruct (skip_space_dec n rest Hn) as (c & t & Ht & Hc & Hs).
  unfold signed_digits. rewrite Hs, Ht. unfold is_digit in Hc.
  destruct (Z.eqb_spec c 45), (Z.eqb_spec c 43); lia || done.
Qed.

Lemma parse_int_dec n rest : 0 ≤ n → not_digit_first rest → parse_int (dec n ++ rest) = n.
Proof.
  intros Hn Hr. unfold parse_int. rewrite signed_digits_dec by done. by apply parse_digits_dec.
Qed.

(** [strncpy(dst, s, n)] as the [n] bytes it stores: the first [n] bytes of the
    string, padded with NULs (and not terminated when the string is [n] long). *)
Definition strncpy (n : nat) (s : bytes) : bytes := take n (s ++ replicate n NUL).

Lemma length_strncpy n s : length (strncpy n s) = n.
Proof. unfold strncpy. rewrite length_take, length_app, length_replicate. lia. Qed.

Lemma strncpy_short n s : (length s ≤ n)%nat → strncpy n s = s ++ replicate (n - length s) NUL.
Proof.
  intros. unfold strncpy. rewrite take_app_ge by lia.
  rewrite take_replicate. do 2 f_equal. lia.
Qed.

Lemma strncpy_long n s : (n ≤ length s)%nat → strncpy n s = take n s.
Proof. intros. unfold strncpy. by rewrite take_app_le. Qed.

(** [strncmp(a, b, n) == 0] *)
Fixpoint strncmp_eq (n : nat) (a b : bytes) : bool :=
  match n with
  | O => true
  | S n =>
      let x := default NUL (head a) in
      let y := default NUL (head b) in
      if negb (x =? y) then false
      else if x =? NUL then true
      else strncmp_eq n (tail a) (tail b)
  end.

Lemma strncpy_S n x a : strncpy (S n) (x :: a) = x :: strncpy n a.
Proof.
  unfold strncpy. simpl. f_equal.
  replace (NUL :: replicate n NUL) with (replicate n NUL ++ [NUL])
    by (rewrite <-replicate_S_end; done).
  rewrite (assoc_L (++)), take_app_le; [done|]. rewrite length_app, length_replicate. lia.
Qed.

(** [strncmp] against a field written by [strncpy] decides equality of the
    first [n] characters. *)
Lemma strncmp_eq_strncpy n a b :
  Forall (λ x, x ≠ NUL) a → Forall (λ x, x ≠ NUL) b →
  strncmp_eq n (strncpy n a) b = true ↔ take n a = take n b.
Proof.
  revert a b. induction n as [|n IH]; intros a b Ha Hb; [done|].
  destruct Ha as [|x a Hx Ha], Hb as [|y b Hy Hb]; unfold NUL in *.
  - done.
  - simpl. destruct y; [done|by split..].
  - rewrite strncpy_S. simpl. unfold NUL. destruct (Z.eqb_spec x 0); [done|]. by split.
  - rewrite strncpy_S. simpl. unfold NUL. destruct (Z.eqb_spec x y) as [->|]; simpl.
    + destruct (Z.eqb_spec y 0); [done|]. rewrite IH by done.
      split; [by intros ->|by intros [= ->]].
    + split; [done|]. by intros [= ? _].
Qed.

#[global] Arguments strncmp_eq : simpl never.
#[global] Arguments strncpy : simpl never.

(** ** Words as bytes *)

(** The value of little-endian bytes, and the [n] low bytes of a value. *)
Fixpoint le_combine (l : bytes) : Z :=
  match l with [] => 0 | b :: l => b + 256 * le_combine l end.
Fixpoint le_split (n : nat) (v : Z) : bytes :=
  match n with O => [] | S n => u8 v :: le_split n (v / 256) end.

Lemma testbit_above w x n : 0 ≤ x < 2 ^ w → 0 ≤ w ≤ n → Z.testbit x n = false.
Proof.
  intros Hx Hn. destruct (decide (x = 0)) as [->|]; [apply Z.bits_0|].
  apply Z.bits_above_log2; [lia|]. apply (Z.lt_le_trans _ w); [|lia].
  apply Z.log2_lt_pow2; lia.
Qed.

Lemma byte_lxor_shift b x : is_byte b → b + 256 * x = Z.lxor b (Z.shiftl x 8).
Proof.
  intros Hb. rewrite <-Z.add_nocarry_lxor.
  - rewrite Z.shiftl_mul_pow2 by lia. change (2 ^ 8) with 256. lia.
  - apply Z.bits_inj'. intros n Hn. rewrite Z.land_spec, Z.bits_0.
    destruct (Z.ltb_spec n 8).
    + rewrite Z.shiftl_spec_low by lia. apply andb_false_r.
    + by rewrite (testbit_above 8 b) by (unfold is_byte in Hb; lia).
Qed.

Lemma length_le_split n v : length (le_split n v) = n.
Proof. revert v. induction n as [|n IH]; intros v; simpl; [done|]. by rewrite IH. Qed.

Lemma le_split_bytes n v : all_bytes (le_split n v).
Proof. revert v. induction n as [|n IH]; intros v; simpl; constructor; [apply u8_byte|apply IH]. Qed.

Lemma le_combine_bound l : all_bytes l → 0 ≤ le_combine l < 256 ^ Z.of_nat (length l).
Proof.
  induction 1 as [|b l Hb _ IH]; simpl; [lia|].
  rewrite <-Nat.add_1_l, Nat2Z.inj_add, Z.pow_add_r by lia.
  unfold is_byte in Hb. change (256 ^ Z.of_nat 1) with 256. lia.
Qed.

Lemma le_combine_split n v : 0 ≤ v < 256 ^ Z.of_nat n → le_combine (le_split n v) = v.
Proof.
  revert v. induction n as [|n IH]; intros v Hv; simpl; [change (256 ^ Z.of_nat 0) with 1 in Hv; lia|].
  rewrite <-Nat.add_1_l, Nat2Z.inj_add, Z.pow_add_r in Hv by lia.
  change (256 ^ Z.of_nat 1) with 256 in Hv. rewrite IH.
  - unfold u8. pose proof (Z.div_mod v 256). lia.
  - split; [apply Z.div_pos; lia|]. apply Z.div_lt_upper_bound; lia.
Qed.

Lemma le_split_combine l : all_bytes l → le_split (length l) (le_combine l) = l.
Proof.
  induction 1 as [|b l Hb _ IH]; simpl; [done|]. unfold is_byte in Hb. f_equal.
  - unfold u8. rewrite Z.mul_comm, Z.mod_add by lia. by apply Z.mod_small.
  - rewrite Z.mul_comm, Z.div_add by lia. rewrite (Z.div_small b) by lia. exact IH.
Qed.

Lemma le_combine_inj l1 l2 :
  all_bytes l1 → all_bytes l2 → length l1 = length l2 → le_combine l1 = le_combine l2 → l1 = l2.
Proof.
  intros H1 H2 Hlen Heq. rewrite <-(le_split_combine l1), <-(le_split_combine l2) by done.
  by rewrite Hlen, Heq.
Qed.

(** ** Loops *)

(** [while (cond s) s = body s;] with at most [fuel] iterations. *)
Fixpoint while_loop {S} (fuel : nat) (cond : S → bool) (body : S → outcome S) (s : S) : outcome S :=
  match fuel with
  | O => OutOfFuel
  | Datatypes.S fuel =>
      if cond s then s' ← body s; while_loop fuel cond body s' else Ret s
  end.

(** Total correctness: an invariant kept by a body that never goes wrong, and a
    measure that bounds the number of iterations. *)
Lemma while_rule {S} (I : S → Prop) (m : S → nat) cond body fuel (s : S) :
  (∀ s, I s → cond s = true → ∃ s', body s = Ret s' ∧ I s' ∧ (m s' < m s)%nat) →
  I s → (m s < fuel)%nat →
  ∃ s', while_loop fuel cond body s = Ret s' ∧ I s' ∧ cond s' = false.
Proof.
  intros Hbody. revert s. induction fuel as [|fuel IH]; intros s HI Hm; [lia|]. simpl.
  destruct (cond s) eqn:Hc; [|by eauto].
  destruct (Hbody s HI Hc) as (s' & -> & HI' & Hlt). simpl. apply IH; [done|lia].
Qed.

#[global] Arguments while_loop : simpl never.

(** Tactics used throughout. *)
Ltac simplify_out :=
  repeat match goal with
  | H : (_ ≫= _) = Ret _ |- _ => apply outcome_bind_Ret in H as (? & ? & ?)
  | H : (_ ≫= _) _ = Ret _ |- _ => apply M_bind_Ret in H as (? & ? & ? & ?)
  | H : Ret _ = Ret _ |- _ => injection H; clear H; intros; subst
  | H : Ub = Ret _ |- _ => discriminate H
  | H : OutOfFuel = Ret _ |- _ => discriminate H
  | H : mret _ = Ret _ |- _ => unfold mret, outcome_ret in H
  end.

(** Equality of lists up to the associativity of [++]. *)
Ltac apps := simpl; repeat (rewrite <-app_assoc; simpl); rewrite ?app_nil_r; done.

(** Constant indices as natural numbers. *)
Ltac nat_indices :=
  repeat match goal with
  | |- context [Z.to_nat ?z] => let n := eval vm_compute in (Z.to_nat z) in change (Z.to_nat z) with n
  end.

Ltac case_if :=
  match goal with
  | |- context [if ?b then _ else _] =>
      lazymatch type of b with
      | bool => destruct b eqn:?
      | _ => case_decide
      end
  end.

(** Split a [keeps] goal along the structure of the program. *)
Create HintDb keeps_db.
#[export] Hint Extern 1 (keeps _ (mret _)) => apply keeps_ret; apply _ : keeps_db.
#[export] Hint Extern 1 (keeps _ (gets _)) => apply keeps_gets; apply _ : keeps_db.
#[export] Hint Extern 1 (keeps _ (lift _)) => apply keeps_lift; apply _ : keeps_db.
Ltac keeps_auto :=
  repeat first
    [ solve [eauto with keeps_db nocore]
    | match goal with
      | |- keeps _ (_ <$> _) => apply keeps_fmap
      | |- keeps _ (_ ≫= _) => apply keeps_bind; [apply _| |intros]
      | |- keeps _ (match ?x with _ => _ end) => destruct x
      end ].

(** Texts without a terminator inside. *)
Definition nonul (s : bytes) : Prop := Forall (λ c, c ≠ NUL) s.
Lemma nonul_app a b : nonul a → nonul b → nonul (a ++ b).
Proof. apply Forall_app_2. Qed.
Lemma nonul_cons c a : c ≠ NUL → nonul a → nonul (c :: a).
Proof. by constructor. Qed.
Lemma nonul_nil : nonul [].
Proof. constructor. Qed.
Lemma dec_nonul v : nonul (dec v).
Proof.
  unfold dec. destruct (dec_digits (Z.abs v)) as (_ & Hd & _); [lia|].
  assert (nonul (dec (Z.abs v))) as Hn by (eapply Forall_impl; [exact Hd|]; unfold is_digit, NUL; lia).
  unfold dec in Hn. destruct (Z.ltb_spec (Z.abs v) 0); [lia|]. rewrite Z.abs_eq in Hn by lia.
  destruct (v <? 0); [by constructor|done].
Qed.

Create HintDb nonul_db.
#[export] Hint Resolve nonul_app nonul_cons nonul_nil dec_nonul : nonul_db.
#[export] Hint Extern 1 (nonul (lit _)) => by apply (bool_decide_unpack _); vm_compute : nonul_db.
#[export] Hint Extern 1 (_ ≠ NUL) => discriminate : nonul_db.

Create HintDb c_db.
Create Rewrite HintDb len.
#[export] Hint Resolve u8_byte is_cstr_nonul is_cstr_bytes : c_db.
#[export] Hint Rewrite @length_app @length_replicate @length_take @length_drop
  @length_insert @length_fmap length_strncpy : len.
Ltac len := autorewrite with len; simpl; try lia.
