(* ===== verification/Crc32.v ===== *)
(** * CRC-32: the tables of sysvar/lib/sysvar.c and dvbutils/crc32.c

    The polynomial specification of the checksum (one shift register step per
    bit), the two 256-entry tables as the sources give them, the byte-at-a-time
    loop of dvbutils/crc32.c, and what the two users of the checksum rely on: the
    table computes eight register steps, the register update loses nothing, any
    corruption confined to four consecutive bytes is detected, and a message
    followed by its checksum has the constant residue the packet checker tests. *)

From S2P Require Import Prelude.

(** ** Specification *)

Definition crc_poly : Z := 0xedb88320.

(** One step of the reflected shift register. *)
Definition bit_step (c : Z) : Z :=
  if Z.testbit c 0 then Z.lxor (Z.shiftr c 1) crc_poly else Z.shiftr c 1.

Definition byte_step (c : Z) : Z := Nat.iter 8 bit_step c.

(** The register after the bytes of [l], and the checksum of [l]. *)
Definition crc_register (c : Z) (l : bytes) : Z :=
  fold_left (λ c b, byte_step (Z.lxor c b)) l c.
Definition crc_of (l : bytes) : Z :=
  Z.lxor (crc_register 0xffffffff l) 0xffffffff.

(** ** The sources' tables and loop *)

(** static const unsigned long crc_table[256] of sysvar.c *)
Definition crc_table : list Z := [
  0x00000000; 0x77073096; 0xee0e612c; 0x990951ba; 0x076dc419; 0x706af48f;
  0xe963a535; 0x9e6495a3; 0x0edb8832; 0x79dcb8a4; 0xe0d5e91e; 0x97d2d988;
  0x09b64c2b; 0x7eb17cbd; 0xe7b82d07; 0x90bf1d91; 0x1db71064; 0x6ab020f2;
  0xf3b97148; 0x84be41de; 0x1adad47d; 0x6ddde4eb; 0xf4d4b551; 0x83d385c7;
  0x136c9856; 0x646ba8c0; 0xfd62f97a; 0x8a65c9ec; 0x14015c4f; 0x63066cd9;
  0xfa0f3d63; 0x8d080df5; 0x3b6e20c8; 0x4c69105e; 0xd56041e4; 0xa2677172;
  0x3c03e4d1; 0x4b04d447; 0xd20d85fd; 0xa50ab56b; 0x35b5a8fa; 0x42b2986c;
  0xdbbbc9d6; 0xacbcf940; 0x32d86ce3; 0x45df5c75; 0xdcd60dcf; 0xabd13d59;
  0x26d930ac; 0x51de003a; 0xc8d75180; 0xbfd06116; 0x21b4f4b5; 0x56b3c423;
  0xcfba9599; 0xb8bda50f; 0x2802b89e; 0x5f058808; 0xc60cd9b2; 0xb10be924;
  0x2f6f7c87; 0x58684c11; 0xc1611dab; 0xb6662d3d; 0x76dc4190; 0x01db7106;
  0x98d220bc; 0xefd5102a; 0x71b18589; 0x06b6b51f; 0x9fbfe4a5; 0xe8b8d433;
  0x7807c9a2; 0x0f00f934; 0x9609a88e; 0xe10e9818; 0x7f6a0dbb; 0x086d3d2d;
  0x91646c97; 0xe6635c01; 0x6b6b51f4; 0x1c6c6162; 0x856530d8; 0xf262004e;
  0x6c0695ed; 0x1b01a57b; 0x8208f4c1; 0xf50fc457; 0x65b0d9c6; 0x12b7e950;
  0x8bbeb8ea; 0xfcb9887c; 0x62dd1ddf; 0x15da2d49; 0x8cd37cf3; 0xfbd44c65;
  0x4db26158; 0x3ab551ce; 0xa3bc0074; 0xd4bb30e2; 0x4adfa541; 0x3dd895d7;
  0xa4d1c46d; 0xd3d6f4fb; 0x4369e96a; 0x346ed9fc; 0xad678846; 0xda60b8d0;
  0x44042d73; 0x33031de5; 0xaa0a4c5f; 0xdd0d7cc9; 0x5005713c; 0x270241aa;
  0xbe0b1010; 0xc90c2086; 0x5768b525; 0x206f85b3; 0xb966d409; 0xce61e49f;
  0x5edef90e; 0x29d9c998; 0xb0d09822; 0xc7d7a8b4; 0x59b33d17; 0x2eb40d81;
  0xb7bd5c3b; 0xc0ba6cad; 0xedb88320; 0x9abfb3b6; 0x03b6e20c; 0x74b1d29a;
  0xead54739; 0x9dd277af; 0x04db2615; 0x73dc1683; 0xe3630b12; 0x94643b84;
  0x0d6d6a3e; 0x7a6a5aa8; 0xe40ecf0b; 0x9309ff9d; 0x0a00ae27; 0x7d079eb1;
  0xf00f9344; 0x8708a3d2; 0x1e01f268; 0x6906c2fe; 0xf762575d; 0x806567cb;
  0x196c3671; 0x6e6b06e7; 0xfed41b76; 0x89d32be0; 0x10da7a5a; 0x67dd4acc;
  0xf9b9df6f; 0x8ebeeff9; 0x17b7be43; 0x60b08ed5; 0xd6d6a3e8; 0xa1d1937e;
  0x38d8c2c4; 0x4fdff252; 0xd1bb67f1; 0xa6bc5767; 0x3fb506dd; 0x48b2364b;
  0xd80d2bda; 0xaf0a1b4c; 0x36034af6; 0x41047a60; 0xdf60efc3; 0xa867df55;
  0x316e8eef; 0x4669be79; 0xcb61b38c; 0xbc66831a; 0x256fd2a0; 0x5268e236;
  0xcc0c7795; 0xbb0b4703; 0x220216b9; 0x5505262f; 0xc5ba3bbe; 0xb2bd0b28;
  0x2bb45a92; 0x5cb36a04; 0xc2d7ffa7; 0xb5d0cf31; 0x2cd99e8b; 0x5bdeae1d;
  0x9b64c2b0; 0xec63f226; 0x756aa39c; 0x026d930a; 0x9c0906a9; 0xeb0e363f;
  0x72076785; 0x05005713; 0x95bf4a82; 0xe2b87a14; 0x7bb12bae; 0x0cb61b38;
  0x92d28e9b; 0xe5d5be0d; 0x7cdcefb7; 0x0bdbdf21; 0x86d3d2d4; 0xf1d4e242;
  0x68ddb3f8; 0x1fda836e; 0x81be16cd; 0xf6b9265b; 0x6fb077e1; 0x18b74777;
  0x88085ae6; 0xff0f6a70; 0x66063bca; 0x11010b5c; 0x8f659eff; 0xf862ae69;
  0x616bffd3; 0x166ccf45; 0xa00ae278; 0xd70dd2ee; 0x4e048354; 0x3903b3c2;
  0xa7672661; 0xd06016f7; 0x4969474d; 0x3e6e77db; 0xaed16a4a; 0xd9d65adc;
  0x40df0b66; 0x37d83bf0; 0xa9bcae53; 0xdebb9ec5; 0x47b2cf7f; 0x30b5ffe9;
  0xbdbdf21c; 0xcabac28a; 0x53b39330; 0x24b4a3a6; 0xbad03605; 0xcdd70693;
  0x54de5729; 0x23d967bf; 0xb3667a2e; 0xc4614ab8; 0x5d681b02; 0x2a6f2b94;
  0xb40bbe37; 0xc30c8ea1; 0x5a05df1b; 0x2d02ef8d
].

(** static uint32_t crc32_tab[] of crc32.c *)
Definition crc32_tab : list Z := [
  0x00000000; 0x77073096; 0xee0e612c; 0x990951ba; 0x076dc419; 0x706af48f;
  0xe963a535; 0x9e6495a3; 0x0edb8832; 0x79dcb8a4; 0xe0d5e91e; 0x97d2d988;
  0x09b64c2b; 0x7eb17cbd; 0xe7b82d07; 0x90bf1d91; 0x1db71064; 0x6ab020f2;
  0xf3b97148; 0x84be41de; 0x1adad47d; 0x6ddde4eb; 0xf4d4b551; 0x83d385c7;
  0x136c9856; 0x646ba8c0; 0xfd62f97a; 0x8a65c9ec; 0x14015c4f; 0x63066cd9;
  0xfa0f3d63; 0x8d080df5; 0x3b6e20c8; 0x4c69105e; 0xd56041e4; 0xa2677172;
  0x3c03e4d1; 0x4b04d447; 0xd20d85fd; 0xa50ab56b; 0x35b5a8fa; 0x42b2986c;
  0xdbbbc9d6; 0xacbcf940; 0x32d86ce3; 0x45df5c75; 0xdcd60dcf; 0xabd13d59;
  0x26d930ac; 0x51de003a; 0xc8d75180; 0xbfd06116; 0x21b4f4b5; 0x56b3c423;
  0xcfba9599; 0xb8bda50f; 0x2802b89e; 0x5f058808; 0xc60cd9b2; 0xb10be924;
  0x2f6f7c87; 0x58684c11; 0xc1611dab; 0xb6662d3d; 0x76dc4190; 0x01db7106;
  0x98d220bc; 0xefd5102a; 0x71b18589; 0x06b6b51f; 0x9fbfe4a5; 0xe8b8d433;
  0x7807c9a2; 0x0f00f934; 0x9609a88e; 0xe10e9818; 0x7f6a0dbb; 0x086d3d2d;
  0x91646c97; 0xe6635c01; 0x6b6b51f4; 0x1c6c6162; 0x856530d8; 0xf262004e;
  0x6c0695ed; 0x1b01a57b; 0x8208f4c1; 0xf50fc457; 0x65b0d9c6; 0x12b7e950;
  0x8bbeb8ea; 0xfcb9887c; 0x62dd1ddf; 0x15da2d49; 0x8cd37cf3; 0xfbd44c65;
  0x4db26158; 0x3ab551ce; 0xa3bc0074; 0xd4bb30e2; 0x4adfa541; 0x3dd895d7;
  0xa4d1c46d; 0xd3d6f4fb; 0x4369e96a; 0x346ed9fc; 0xad678846; 0xda60b8d0;
  0x44042d73; 0x33031de5; 0xaa0a4c5f; 0xdd0d7cc9; 0x5005713c; 0x270241aa;
  0xbe0b1010; 0xc90c2086; 0x5768b525; 0x206f85b3; 0xb966d409; 0xce61e49f;
  0x5edef90e; 0x29d9c998; 0xb0d09822; 0xc7d7a8b4; 0x59b33d17; 0x2eb40d81;
  0xb7bd5c3b; 0xc0ba6cad; 0xedb88320; 0x9abfb3b6; 0x03b6e20c; 0x74b1d29a;
  0xead54739; 0x9dd277af; 0x04db2615; 0x73dc1683; 0xe3630b12; 0x94643b84;
  0x0d6d6a3e; 0x7a6a5aa8; 0xe40ecf0b; 0x9309ff9d; 0x0a00ae27; 0x7d079eb1;
  0xf00f9344; 0x8708a3d2; 0x1e01f268; 0x6906c2fe; 0xf762575d; 0x806567cb;
  0x196c3671; 0x6e6b06e7; 0xfed41b76; 0x89d32be0; 0x10da7a5a; 0x67dd4acc;
  0xf9b9df6f; 0x8ebeeff9; 0x17b7be43; 0x60b08ed5; 0xd6d6a3e8; 0xa1d1937e;
  0x38d8c2c4; 0x4fdff252; 0xd1bb67f1; 0xa6bc5767; 0x3fb506dd; 0x48b2364b;
  0xd80d2bda; 0xaf0a1b4c; 0x36034af6; 0x41047a60; 0xdf60efc3; 0xa867df55;
  0x316e8eef; 0x4669be79; 0xcb61b38c; 0xbc66831a; 0x256fd2a0; 0x5268e236;
  0xcc0c7795; 0xbb0b4703; 0x220216b9; 0x5505262f; 0xc5ba3bbe; 0xb2bd0b28;
  0x2bb45a92; 0x5cb36a04; 0xc2d7ffa7; 0xb5d0cf31; 0x2cd99e8b; 0x5bdeae1d;
  0x9b64c2b0; 0xec63f226; 0x756aa39c; 0x026d930a; 0x9c0906a9; 0xeb0e363f;
  0x72076785; 0x05005713; 0x95bf4a82; 0xe2b87a14; 0x7bb12bae; 0x0cb61b38;
  0x92d28e9b; 0xe5d5be0d; 0x7cdcefb7; 0x0bdbdf21; 0x86d3d2d4; 0xf1d4e242;
  0x68ddb3f8; 0x1fda836e; 0x81be16cd; 0xf6b9265b; 0x6fb077e1; 0x18b74777;
  0x88085ae6; 0xff0f6a70; 0x66063bca; 0x11010b5c; 0x8f659eff; 0xf862ae69;
  0x616bffd3; 0x166ccf45; 0xa00ae278; 0xd70dd2ee; 0x4e048354; 0x3903b3c2;
  0xa7672661; 0xd06016f7; 0x4969474d; 0x3e6e77db; 0xaed16a4a; 0xd9d65adc;
  0x40df0b66; 0x37d83bf0; 0xa9bcae53; 0xdebb9ec5; 0x47b2cf7f; 0x30b5ffe9;
  0xbdbdf21c; 0xcabac28a; 0x53b39330; 0x24b4a3a6; 0xbad03605; 0xcdd70693;
  0x54de5729; 0x23d967bf; 0xb3667a2e; 0xc4614ab8; 0x5d681b02; 0x2a6f2b94;
  0xb40bbe37; 0xc30c8ea1; 0x5a05df1b; 0x2d02ef8d
].

(** [crc = tab[(crc ^ b) & 0xff] ^ (crc >> 8)]; the index is below 256, so the
    default of the lookup is never used. *)
Definition table_step (tab : list Z) (crc b : Z) : Z :=
  Z.lxor (tab !!! Z.to_nat (Z.land (Z.lxor crc b) 0xff)) (Z.shiftr crc 8).

(** The loop [while (size--)] of [crc32], [p] being the index read next. *)
Fixpoint crc32_loop (size : nat) (buf : bytes) (p : Z) (crc : Z) : outcome Z :=
  match size with
  | O => Ret crc
  | S size =>
      b ← buf_get buf p;
      crc32_loop size buf (p + 1) (table_step crc32_tab crc b)
  end.

(** [crc32(crc, buf, size)] of dvbutils/crc32.c; [buf] is the memory the pointer
    addresses. *)
Definition crc32 (crc : Z) (buf : bytes) (size : nat) : outcome Z :=
  c ← crc32_loop size buf 0 (Z.lxor crc 0xffffffff);
  Ret (Z.lxor c 0xffffffff).

(** ** The register update is linear *)

Lemma bit_step_lxor a b : bit_step (Z.lxor a b) = Z.lxor (bit_step a) (bit_step b).
Proof.
  unfold bit_step. rewrite Z.lxor_spec, Z.shiftr_lxor.
  destruct (Z.testbit a 0), (Z.testbit b 0); simpl.
  - rewrite <-(Z.lxor_assoc (Z.lxor _ _)), (Z.lxor_assoc _ crc_poly), (Z.lxor_comm crc_poly).
    by rewrite <-!Z.lxor_assoc, (Z.lxor_assoc _ crc_poly), Z.lxor_nilpotent, Z.lxor_0_r.
  - by rewrite Z.lxor_assoc, (Z.lxor_comm _ crc_poly), Z.lxor_assoc.
  - by rewrite Z.lxor_assoc.
  - done.
Qed.

Lemma byte_step_lxor a b : byte_step (Z.lxor a b) = Z.lxor (byte_step a) (byte_step b).
Proof. unfold byte_step. simpl. by rewrite !bit_step_lxor. Qed.

Lemma bit_step_double x : bit_step (Z.shiftl x 1) = x.
Proof.
  unfold bit_step. rewrite Z.shiftl_spec_low by lia.
  by rewrite Z.shiftr_shiftl_l, Z.sub_diag, Z.shiftl_0_r by lia.
Qed.

(** Eight steps shift the register; the bits shifted out are a byte. *)
Lemma byte_step_shift x : byte_step (Z.shiftl x 8) = x.
Proof.
  unfold byte_step. change 8 with (1 + 1 + 1 + 1 + 1 + 1 + 1 + 1) at 1.
  rewrite <-!Z.shiftl_shiftl by lia. simpl. by rewrite !bit_step_double.
Qed.

Lemma split_low_byte c : c = Z.lxor (Z.land c 255) (Z.shiftl (Z.shiftr c 8) 8).
Proof.
  rewrite <-byte_lxor_shift by (rewrite <-u8_land; apply u8_byte).
  rewrite <-u8_land, Z.shiftr_div_pow2 by lia. unfold u8. change (2 ^ 8) with 256.
  pose proof (Z.div_mod c 256). lia.
Qed.

Lemma byte_step_split c : byte_step c = Z.lxor (byte_step (Z.land c 255)) (Z.shiftr c 8).
Proof. rewrite (split_low_byte c) at 1. by rewrite byte_step_lxor, byte_step_shift. Qed.

(** ** Both tables hold the effect of eight steps on each byte *)

Lemma crc_table_spec : crc_table = byte_step ∘ Z.of_nat <$> seq 0 256.
Proof. vm_compute. reflexivity. Qed.
Lemma crc32_tab_spec : crc32_tab = byte_step ∘ Z.of_nat <$> seq 0 256.
Proof. vm_compute. reflexivity. Qed.

Lemma table_step_spec tab crc b :
  tab = byte_step ∘ Z.of_nat <$> seq 0 256 → is_byte b →
  table_step tab crc b = byte_step (Z.lxor crc b).
Proof.
  intros -> Hb. unfold table_step.
  assert (is_byte (Z.land (Z.lxor crc b) 0xff)) as Hi by (rewrite <-u8_land; apply u8_byte).
  unfold is_byte in *.
  erewrite list_lookup_total_correct; [|apply list_lookup_fmap_Some; eexists; split;
    [reflexivity|apply lookup_seq_lt; lia]].
  simpl. rewrite Z2Nat.id by lia.
  rewrite (byte_step_split (Z.lxor crc b)). f_equal.
  rewrite Z.shiftr_lxor, (Z.shiftr_div_pow2 b), Z.div_small, Z.lxor_0_r by lia. done.
Qed.

(** ** The register over a message *)

Definition u32_range (c : Z) : Prop := 0 ≤ c < 2 ^ 32.

Lemma lxor_range w a b : 0 ≤ w → 0 ≤ a < 2 ^ w → 0 ≤ b < 2 ^ w → 0 ≤ Z.lxor a b < 2 ^ w.
Proof.
  intros Hw Ha Hb. assert (0 ≤ Z.lxor a b) by (apply Z.lxor_nonneg; lia).
  split; [done|]. destruct (decide (Z.lxor a b = 0)) as [->|]; [lia|].
  apply Z.log2_lt_pow2; [lia|].
  apply (Z.le_lt_trans _ (Z.max (Z.log2 a) (Z.log2 b))); [apply Z.log2_lxor; lia|].
  apply Z.max_lub_lt.
  - destruct (decide (a = 0)) as [->|]; [|apply Z.log2_lt_pow2; lia].
    destruct (decide (w = 0)) as [->|]; [|simpl; lia].
    change (2 ^ 0) with 1 in *. assert (b = 0) by lia. by subst.
  - destruct (decide (b = 0)) as [->|]; [|apply Z.log2_lt_pow2; lia].
    destruct (decide (w = 0)) as [->|]; [|simpl; lia].
    change (2 ^ 0) with 1 in *. assert (a = 0) by lia. by subst.
Qed.

Lemma u32_lxor a b : u32_range a → u32_range b → u32_range (Z.lxor a b).
Proof. apply lxor_range. lia. Qed.

Lemma u32_ones : u32_range 0xffffffff.
Proof. unfold u32_range. lia. Qed.

Lemma bit_step_range c : u32_range c → u32_range (bit_step c).
Proof.
  unfold u32_range, bit_step. intros Hc.
  assert (0 ≤ Z.shiftr c 1 < 2 ^ 32).
  { rewrite Z.shiftr_div_pow2 by lia. change (2 ^ 1) with 2.
    pose proof (Z.div_mod c 2). pose proof (Z.mod_pos_bound c 2). lia. }
  destruct (Z.testbit c 0); [|done]. apply lxor_range; [lia|done|]. unfold crc_poly. lia.
Qed.

Lemma byte_step_range c : u32_range c → u32_range (byte_step c).
Proof. intros. unfold byte_step. simpl. by repeat apply bit_step_range. Qed.

Lemma byte_u32 b : is_byte b → u32_range b.
Proof. unfold is_byte, u32_range. lia. Qed.

Lemma crc_register_range c l : u32_range c → all_bytes l → u32_range (crc_register c l).
Proof.
  intros Hc Hl. revert c Hc. induction Hl as [|b l Hb _ IH]; intros c Hc; simpl; [done|].
  by apply IH, byte_step_range, u32_lxor, byte_u32.
Qed.

Lemma crc_of_range l : all_bytes l → u32_range (crc_of l).
Proof.
  intros. apply u32_lxor; [|apply u32_ones]. by apply crc_register_range; [apply u32_ones|].
Qed.

Lemma crc_register_app c l1 l2 :
  crc_register c (l1 ++ l2) = crc_register (crc_register c l1) l2.
Proof. unfold crc_register. by rewrite fold_left_app. Qed.

(** Feeding [l] is shifting its little-endian value through the register. *)
Lemma crc_register_combine c l :
  all_bytes l →
  crc_register c l = Nat.iter (length l) byte_step (Z.lxor c (le_combine l)).
Proof.
  intros Hl. revert c. induction Hl as [|b l Hb _ IH]; intros c; simpl le_combine.
  - simpl. by rewrite Z.lxor_0_r.
  - unfold crc_register in *. simpl fold_left. rewrite IH. simpl length.
    rewrite Nat.iter_succ_r. f_equal.
    rewrite (byte_lxor_shift b) by done.
    rewrite <-Z.lxor_assoc, (byte_step_lxor (Z.lxor c b)), byte_step_shift. done.
Qed.

(** One step loses no information. *)
Lemma bit_step_zero c : u32_range c → bit_step c = 0 → c = 0.
Proof.
  unfold u32_range, bit_step. intros Hc. destruct (Z.testbit c 0) eqn:H0.
  - intros H. apply Z.lxor_eq in H.
    exfalso. revert H. rewrite Z.shiftr_div_pow2 by lia. change (2 ^ 1) with 2. unfold crc_poly.
    pose proof (Z.div_mod c 2). pose proof (Z.mod_pos_bound c 2). lia.
  - rewrite Z.bit0_odd in H0. rewrite Z.shiftr_div_pow2 by lia. change (2 ^ 1) with 2. intros H.
    pose proof (Z.div_mod c 2). rewrite Zmod_odd, H0 in *. lia.
Qed.

Lemma iter_byte_step_lxor n a b :
  Nat.iter n byte_step (Z.lxor a b) = Z.lxor (Nat.iter n byte_step a) (Nat.iter n byte_step b).
Proof. induction n as [|n IH]; simpl; [done|]. by rewrite IH, byte_step_lxor. Qed.

Lemma iter_byte_step_range n c : u32_range c → u32_range (Nat.iter n byte_step c).
Proof. intros. induction n as [|n IH]; simpl; [done|]. by apply byte_step_range. Qed.

Lemma byte_step_zero c : u32_range c → byte_step c = 0 → c = 0.
Proof.
  intros Hc. unfold byte_step. simpl. intros H.
  repeat (apply bit_step_zero in H; [|by repeat apply bit_step_range]). done.
Qed.

Lemma iter_byte_step_inj n a b :
  u32_range a → u32_range b →
  Nat.iter n byte_step a = Nat.iter n byte_step b → a = b.
Proof.
  intros Ha Hb H. apply Z.lxor_eq.
  assert (u32_range (Z.lxor a b)) as Hr by (by apply u32_lxor).
  assert (Nat.iter n byte_step (Z.lxor a b) = 0) as H0.
  { rewrite iter_byte_step_lxor, H. apply Z.lxor_nilpotent. }
  clear H. induction n as [|n IH]; [done|]. apply IH.
  apply byte_step_zero; [|done]. by apply iter_byte_step_range.
Qed.

Lemma le_combine_u32 l : all_bytes l → (length l ≤ 4)%nat → u32_range (le_combine l).
Proof.
  intros Hl Hlen. pose proof (le_combine_bound l Hl) as Hb. unfold u32_range.
  assert (256 ^ Z.of_nat (length l) ≤ 256 ^ 4) by (apply Z.pow_le_mono_r; lia). lia.
Qed.

Lemma crc_register_inj_state c c' l :
  all_bytes l → u32_range c → u32_range c' →
  crc_register c l = crc_register c' l → c = c'.
Proof.
  intros Hl Hc Hc' H. revert c c' Hc Hc' H.
  induction Hl as [|b l Hb Hl IH]; intros c c' Hc Hc'; simpl; [done|]. intros H.
  apply byte_u32 in Hb.
  apply IH in H; try (by apply byte_step_range, u32_lxor).
  apply (iter_byte_step_inj 1) in H; try (by apply u32_lxor).
  rewrite <-(Z.lxor_0_r c), <-(Z.lxor_0_r c'), <-(Z.lxor_nilpotent b), <-!Z.lxor_assoc.
  by rewrite H.
Qed.

(** A corruption confined to at most four consecutive bytes changes the checksum. *)
Lemma crc_of_burst pre x y post :
  all_bytes pre → all_bytes x → all_bytes y → all_bytes post →
  length x = length y → (length x ≤ 4)%nat → x ≠ y →
  crc_of (pre ++ x ++ post) ≠ crc_of (pre ++ y ++ post).
Proof.
  intros Hpre Hx Hy Hpost Hlen H4 Hne Heq. apply Hne.
  assert (u32_range (crc_register 0xffffffff pre)) as Hs
    by (apply crc_register_range; [apply u32_ones|done]).
  apply le_combine_inj; [done..|].
  unfold crc_of in Heq.
  assert (∀ a b, Z.lxor a 0xffffffff = Z.lxor b 0xffffffff → a = b) as Hcancel.
  { intros a b H. rewrite <-(Z.lxor_0_r a), <-(Z.lxor_0_r b), <-(Z.lxor_nilpotent 0xffffffff).
    by rewrite <-!Z.lxor_assoc, H. }
  apply Hcancel in Heq. rewrite !crc_register_app in Heq.
  apply crc_register_inj_state in Heq; [|done|by apply crc_register_range..].
  set (s := crc_register 0xffffffff pre) in *. clearbody s.
  rewrite !crc_register_combine, <-Hlen in Heq by done.
  apply iter_byte_step_inj in Heq;
    [|apply u32_lxor; [done|apply le_combine_u32; [done|lia]]..].
  rewrite <-(Z.lxor_0_l (le_combine x)), <-(Z.lxor_0_l (le_combine y)).
  rewrite <-(Z.lxor_nilpotent s), !Z.lxor_assoc. by rewrite Heq.
Qed.

(** The residue of a message followed by its checksum, low byte first. *)
Lemma crc_of_residue l t :
  all_bytes l → all_bytes t → length t = 4%nat →
  crc_of (l ++ t) = 0x2144df1c ↔ t = le_split 4 (crc_of l).
Proof.
  intros Hl Ht Hlen.
  set (s := crc_register 0xffffffff l).
  assert (u32_range s) as Hs by (apply crc_register_range; [apply u32_ones|done]).
  assert (u32_range (le_combine t)) as Hc by (apply le_combine_u32; [done|lia]).
  assert (crc_of (l ++ t) = Z.lxor (Nat.iter 4 byte_step (Z.lxor s (le_combine t))) 0xffffffff) as ->.
  { unfold crc_of. by rewrite crc_register_app, (crc_register_combine _ t), Hlen by done. }
  assert (0x2144df1c = Z.lxor (Nat.iter 4 byte_step 0xffffffff) 0xffffffff) as -> by (by vm_compute).
  split.
  - intros H.
    assert (Z.lxor s (le_combine t) = 0xffffffff) as Hx.
    { apply (iter_byte_step_inj 4); [by apply u32_lxor|apply u32_ones|].
      apply (f_equal (λ z, Z.lxor z 0xffffffff)) in H.
      by rewrite !Z.lxor_assoc, Z.lxor_nilpotent, !Z.lxor_0_r in H. }
    rewrite <-(le_split_combine t), Hlen by done. f_equal.
    unfold crc_of. fold s. rewrite <-Hx, <-Z.lxor_assoc, Z.lxor_nilpotent. by rewrite Z.lxor_0_l.
  - intros ->. rewrite le_combine_split.
    + unfold crc_of. fold s. by rewrite <-Z.lxor_assoc, Z.lxor_nilpotent, Z.lxor_0_l.
    + change (256 ^ Z.of_nat 4) with (2 ^ 32). by apply crc_of_range.
Qed.

(** ** The loop of [crc32] *)

Lemma crc32_loop_spec l rest c :
  all_bytes l →
  ∀ pre, crc32_loop (length l) (pre ++ l ++ rest) (Z.of_nat (length pre)) c
         = Ret (crc_register c l).
Proof.
  intros Hl. revert c. induction Hl as [|b l Hb _ IH]; intros c pre; simpl; [done|].
  rewrite buf_get_app by done. simpl.
  rewrite table_step_spec by (done || apply crc32_tab_spec).
  specialize (IH (byte_step (Z.lxor c b)) (pre ++ [b])).
  rewrite length_app, <-(assoc_L (++)) in IH. simpl in IH.
  replace (Z.of_nat (length pre) + 1) with (Z.of_nat (length pre + 1)) by lia. exact IH.
Qed.

Lemma crc32_spec crc l rest :
  all_bytes l →
  crc32 crc (l ++ rest) (length l)
  = Ret (Z.lxor (crc_register (Z.lxor crc 0xffffffff) l) 0xffffffff).
Proof.
  intros Hl. unfold crc32. pose proof (crc32_loop_spec l rest (Z.lxor crc 0xffffffff) Hl []) as H.
  change (Z.of_nat (length [])) with 0 in H. simpl app in H. by rewrite H.
Qed.
