(* ===== verification/Sysvar.v ===== *)
(** * The system variable buffer: sysvar/lib/sysvar.c

    A [sysvar_buf] holds a flash image of the variables ([data], [total_len] bytes
    of records followed by a write counter and a checksum) and the same variables
    as a linked list.  [save_var] writes the list into the image, [load_var] reads
    the image into the list. *)

From S2P Require Import Prelude Crc32.

(** ** sysvar/include/sysvar.h *)

Definition SYSVAR_WC32 : Z := 4.
Definition SYSVAR_CRC32 : Z := 4.
Definition SYSVAR_HEAD : Z := SYSVAR_WC32 + SYSVAR_CRC32.
Definition SYSVAR_NAME : Z := 32.
Definition NAME_LEN : nat := 32.
Definition SYSVAR_STR_TO_BUF : Z := 0x00.
Definition SYSVAR_BUF_TO_STR : Z := 0xff.
Definition SYSVAR_BLOCK_SIZE : Z := 0x00010000.

Definition SYSVAR_GET_MODE : Z := 0.
Definition SYSVAR_SET_MODE : Z := 1.
Definition SYSVAR_LOAD_MODE : Z := 2.
Definition SYSVAR_SAVE_MODE : Z := 3.

Definition SYSVAR_SUCCESS : Z := 0.
Definition SYSVAR_MEMORY_ERR : Z := -1.
Definition SYSVAR_OPEN_ERR : Z := -2.
Definition SYSVAR_READ_ERR : Z := -3.
Definition SYSVAR_WRITE_ERR : Z := -4.
Definition SYSVAR_ERASE_ERR : Z := -5.
Definition SYSVAR_LOAD_ERR : Z := -6.
Definition SYSVAR_SAVE_ERR : Z := -7.
Definition SYSVAR_GET_ERR : Z := -8.
Definition SYSVAR_SET_ERR : Z := -9.
Definition SYSVAR_DELETE_ERR : Z := -10.
Definition SYSVAR_PARAM_ERR : Z := -11.
Definition SYSVAR_CRC_ERR : Z := -12.
Definition SYSVAR_READONLY_ERR : Z := -13.
Definition SYSVAR_EXISTED_ERR : Z := -14.
Definition SYSVAR_DEBUG_ERR : Z := -15.

(** struct sysvar_list: [name] is the first 32 bytes of the array, the ones
    [strncpy] writes; byte 33 of a node that [set_var] allocates is never
    written.  [next] is the list structure itself. *)
Record sysvar_list := Var {
  var_addr : addr;
  var_name : bytes;
  var_value : option bytes;
  var_len : Z;
}.

Record sysvar_buf := Buf {
  data : bytes;
  data_len : Z;
  total_len : Z;
  free_len : Z;
  used_len : Z;
  loaded : bool;
  modified : bool;
  readonly : bool;
  failed : bool * bool;
  vars : list sysvar_list;       (* buf->list->next and what follows it *)
}.

Definition set_data d b := Buf d (data_len b) (total_len b) (free_len b) (used_len b)
  (loaded b) (modified b) (readonly b) (failed b) (vars b).
Definition set_lens free used b := Buf (data b) (data_len b) (total_len b) free used
  (loaded b) (modified b) (readonly b) (failed b) (vars b).
Definition set_loaded x b := Buf (data b) (data_len b) (total_len b) (free_len b) (used_len b)
  x (modified b) (readonly b) (failed b) (vars b).
Definition set_modified x b := Buf (data b) (data_len b) (total_len b) (free_len b) (used_len b)
  (loaded b) x (readonly b) (failed b) (vars b).
Definition set_failed x b := Buf (data b) (data_len b) (total_len b) (free_len b) (used_len b)
  (loaded b) (modified b) (readonly b) x (vars b).
Definition set_vars vs b := Buf (data b) (data_len b) (total_len b) (free_len b) (used_len b)
  (loaded b) (modified b) (readonly b) (failed b) vs.

(** ** Checksum, copy and the header words *)

Definition INIT_CRC : Z := 0xffffffff.

(** DO1(buf): the state is the register and the index the pointer [buf] has
    reached. *)
Definition DO1 (d : bytes) (s : Z * Z) : outcome (Z * Z) :=
  let '(crc, p) := s in
  b ← buf_get d p; Ret (table_step crc_table crc b, p + 1).
Definition DO2 d s := s ← DO1 d s; DO1 d s.
Definition DO4 d s := s ← DO2 d s; DO2 d s.
Definition DO8 d s := s ← DO4 d s; DO4 d s.

Definition sysvar_crc (d : bytes) (len : Z) : outcome Z :=
  let crc := Z.lxor 0 INIT_CRC in
  '(crc, p, len) ← while_loop (S (Z.to_nat len))
    (λ '(_, _, len), 8 <=? len)
    (λ '(crc, p, len), '(crc, p) ← DO8 d (crc, p); Ret (crc, p, len - 8))
    (crc, 0, len);
  '(crc, p, len) ← while_loop (S (Z.to_nat len))
    (λ '(_, _, len), negb (len =? 0))
    (λ '(crc, p, len), '(crc, p) ← DO1 d (crc, p); Ret (crc, p, len - 1))
    (crc, p, len);
  Ret (Z.lxor crc INIT_CRC).

Definition sysvar_len (b : sysvar_buf) (len : Z) : sysvar_buf :=
  let used := used_len b + len in
  let used := if used <? 0 then 0 else used in
  let used := if used >? total_len b then total_len b else used in
  set_lens (total_len b - used) used b.

(** The [for] loop of [sysvar_copy] with [n] iterations left; [i = len - n]. *)
Fixpoint sysvar_copy_loop (n : nat) (dst : bytes) (doff : Z) (src : bytes) (soff : Z)
    (i : Z) (end_ : Z) : outcome bytes :=
  match n with
  | O => Ret dst
  | S n =>
      c ← buf_get src (soff + i);
      if c =? end_ then Ret dst
      else
        dst ← buf_set dst (doff + i) c;
        sysvar_copy_loop n dst doff src soff (i + 1) end_
  end.

(** [sysvar_copy(dst + doff, src + soff, len, end_)] *)
Definition sysvar_copy (dst : bytes) (doff : Z) (src : bytes) (soff : Z) (len end_ : Z)
    : outcome bytes :=
  if end_ =? SYSVAR_STR_TO_BUF then
    dst ← buf_fill dst doff 0xff len;
    sysvar_copy_loop (Z.to_nat len) dst doff src soff 0 end_
  else if end_ =? SYSVAR_BUF_TO_STR then
    dst ← buf_fill dst doff 0 (len + 1);
    sysvar_copy_loop (Z.to_nat len) dst doff src soff 0 end_
  else Ret dst.

Section with_platform.
Context `{!CPlatform}.

(** Four bytes at [len], least significant first, accumulated in an
    [unsigned long]. *)
Definition get_le32 (d : bytes) (len : Z) : outcome Z :=
  x ← buf_get d (len + 3);
  y ← buf_get d (len + 2); let x := ulong (ulong (Z.shiftl x 8) + y) in
  y ← buf_get d (len + 1); let x := ulong (ulong (Z.shiftl x 8) + y) in
  y ← buf_get d len; Ret (ulong (ulong (Z.shiftl x 8) + y)).

Definition put_le32 (d : bytes) (len v : Z) : outcome bytes :=
  d ← buf_set d (len + 3) (u8 (Z.shiftr v 24));
  d ← buf_set d (len + 2) (u8 (Z.shiftr v 16));
  d ← buf_set d (len + 1) (u8 (Z.shiftr v 8));
  buf_set d len (u8 v).

Definition get_wc32 (b : sysvar_buf) : outcome Z := get_le32 (data b) (total_len b).

Definition set_wc32 (b : sysvar_buf) : outcome sysvar_buf :=
  wc ← get_wc32 b;
  let wc := ulong (wc + 1) in
  d ← put_le32 (data b) (total_len b) wc;
  Ret (set_data d b).

Definition get_crc32 (b : sysvar_buf) : outcome Z :=
  get_le32 (data b) (total_len b + SYSVAR_WC32).

Definition set_crc32 (b : sysvar_buf) : outcome sysvar_buf :=
  crc ← sysvar_crc (data b) (total_len b);
  d ← put_le32 (data b) (total_len b + SYSVAR_WC32) crc;
  Ret (set_data d b).

Definition check_var (b : sysvar_buf) (mode : Z) : outcome (Z * sysvar_buf) :=
  if mode =? SYSVAR_LOAD_MODE then
    crc0 ← get_crc32 b;
    crc1 ← sysvar_crc (data b) (total_len b);
    if crc0 =? crc1 then Ret (SYSVAR_SUCCESS, set_modified false b)
    else Ret (SYSVAR_CRC_ERR, b)
  else if mode =? SYSVAR_SAVE_MODE then
    b ← set_wc32 b;
    Ret (SYSVAR_SUCCESS, set_modified false b)
  else if mode =? SYSVAR_SET_MODE then
    b ← set_crc32 b;
    Ret (SYSVAR_SUCCESS, set_modified true b)
  else Ret (SYSVAR_PARAM_ERR, b).

Definition clear_buf (b : sysvar_buf) : outcome sysvar_buf :=
  d ← buf_fill (data b) 0 0xff (data_len b);
  let b := set_loaded true (set_data d b) in
  b ← set_wc32 b;
  set_crc32 b.
End with_platform.

(** ** The variable list *)

Section with_allocator.
Context `{!Allocator}.

Definition set_var (h : heap) (b : sysvar_buf) (name value : bytes)
    : outcome (Z * (heap * sysvar_buf)) :=
  let name_len := strlen name in
  let value_len := strlen value in
  if name_len >? SYSVAR_NAME then Ret (SYSVAR_PARAM_ERR, (h, b))
  else
    match malloc h with
    | (None, h) => Ret (SYSVAR_MEMORY_ERR, (h, b))
    | (Some var, h) =>
        match malloc h with
        | (None, h) => Ret (SYSVAR_MEMORY_ERR, (h, b))   (* free(var) *)
        | (Some _, h) =>
            let v := {| var_addr := var;
                        var_name := strncpy NAME_LEN name;
                        var_value := Some value;
                        var_len := SYSVAR_NAME + 2 + value_len |} in
            let b := set_vars (vars b ++ [v]) b in
            Ret (SYSVAR_SUCCESS, (h, sysvar_len b (var_len v)))
        end
    end.
End with_allocator.

(** The walk of [delete_var] that unlinks the node [var]. *)
Fixpoint unlink (vs : list sysvar_list) (var : addr) : option (list sysvar_list) :=
  match vs with
  | [] => None
  | v :: vs =>
      if decide (var_addr v = var) then Some vs
      else (v ::.) <$> unlink vs var
  end.

(** [delete_var(buf, var)]; [var] points to a node that is still allocated. *)
Definition delete_var (b : sysvar_buf) (var : sysvar_list) : Z * sysvar_buf :=
  match unlink (vars b) (var_addr var) with
  | None => (SYSVAR_DELETE_ERR, b)
  | Some vs => (SYSVAR_SUCCESS, sysvar_len (set_vars vs b) (- var_len var))
  end.

(** The loop of [clear_var]: [curr] is the rest of the list, whose nodes are
    still allocated. *)
Fixpoint clear_var_loop (curr : list sysvar_list) (b : sysvar_buf) (ret : Z) : Z * sysvar_buf :=
  match curr with
  | [] => (ret, b)
  | v :: rest =>
      if ret =? SYSVAR_SUCCESS then
        let '(ret, b) := delete_var b v in clear_var_loop rest b ret
      else (ret, b)
  end.

Definition clear_var (b : sysvar_buf) : Z * sysvar_buf :=
  clear_var_loop (vars b) b SYSVAR_SUCCESS.

(** [name] is [None] for a null pointer. *)
Definition find_var (b : sysvar_buf) (name : option bytes) : option sysvar_list :=
  name ← name;
  head (filter (λ v, strncmp_eq NAME_LEN (var_name v) name = true) (vars b)).

(** [get_var(var, name, value, len)] fills the caller's arrays [name] and
    [value] and returns them with the code. *)
Definition copy_into (dst : bytes) (src : bytes) : outcome bytes :=
  if decide (length src ≤ length dst)%nat then Ret (src ++ drop (length src) dst) else Ub.

Definition get_var (var : sysvar_list) (name value : bytes) (len : Z)
    : outcome (Z * bytes * bytes) :=
  if len <=? 0 then
    value ← buf_set value 0 NUL; Ret (SYSVAR_GET_ERR, name, value)
  else
    name ← copy_into name (strncpy NAME_LEN (var_name var));
    match var_value var with
    | None => value ← buf_set value 0 NUL; Ret (SYSVAR_GET_ERR, name, value)
    | Some v =>
        value ← copy_into value (strncpy (Z.to_nat len) v);
        Ret (SYSVAR_SUCCESS, name, value)
    end.

(** ** Moving variables between the image and the list *)

Section load_save.
Context `{!CPlatform, !Allocator}.

(** The [for] loop of [load_var]; each iteration advances by at least 34. *)
Fixpoint load_loop (fuel : nat) (i : Z) (h : heap) (b : sysvar_buf) (ret : Z)
    : outcome (Z * (heap * sysvar_buf)) :=
  match fuel with
  | O => OutOfFuel
  | S fuel =>
      if (i <? total_len b) && (ret =? SYSVAR_SUCCESS) then
        c ← buf_get (data b) i;
        if c =? 0xff then Ret (ret, (h, b))                       (* break *)
        else
          name ← sysvar_copy (replicate 33 0) 0 (data b) i SYSVAR_NAME SYSVAR_BUF_TO_STR;
          let i := i + SYSVAR_NAME in
          hi ← buf_get (data b) i;
          lo ← buf_get (data b) (i + 1);
          let len := Z.shiftl hi 8 + lo in
          if (len <? 0) || (len >? free_len b) then Ret (SYSVAR_PARAM_ERR, (h, b))
          else
            match malloc h with
            | (None, h) => Ret (SYSVAR_MEMORY_ERR, (h, b))
            | (Some _, h) =>
                let i := i + 2 in
                value ← sysvar_copy (replicate (Z.to_nat (len + 1)) 0) 0 (data b) i len
                          SYSVAR_BUF_TO_STR;
                name ← cstr name;
                value ← cstr value;
                '(ret, (h, b)) ← set_var h b name value;
                load_loop fuel (i + len) h b ret
            end
      else Ret (ret, (h, b))
  end.

Definition load_fuel (b : sysvar_buf) : nat := S (Z.to_nat (total_len b)).

Definition load_var (h : heap) (b : sysvar_buf) : outcome (Z * (heap * sysvar_buf)) :=
  let '(ret, b) := clear_var b in
  load_loop (load_fuel b) 0 h b ret.

(** The [for] loop of [save_var]: the image and whether the loop ended
    normally ([false]: the early return of SYSVAR_PARAM_ERR). *)
Fixpoint save_loop (curr : list sysvar_list) (i total used : Z) (d : bytes)
    : outcome (bool * bytes) :=
  match curr with
  | [] => Ret (true, d)
  | v :: next =>
      if i <? total then
        d ← sysvar_copy d i (var_name v) 0 SYSVAR_NAME SYSVAR_STR_TO_BUF;
        let i := i + SYSVAR_NAME in
        match var_value v with
        | None => Ub
        | Some value =>
            let len := strlen value in
            if (len <? 0) || (len >? used) then Ret (false, d)
            else
              d ← buf_set d i (u8 (Z.shiftr len 8));
              d ← buf_set d (i + 1) (u8 len);
              let i := i + 2 in
              d ← sysvar_copy d i (value ++ [NUL]) 0 len SYSVAR_STR_TO_BUF;
              save_loop next (i + len) total used d
        end
      else Ret (true, d)
  end.

Definition save_var (b : sysvar_buf) : outcome (Z * sysvar_buf) :=
  d ← buf_fill (data b) 0 0xff (data_len b);
  '(ok, d) ← save_loop (vars b) 0 (total_len b) (used_len b) d;
  if ok : bool then check_var (set_data d b) SYSVAR_SET_MODE
  else Ret (SYSVAR_PARAM_ERR, set_data d b).
End load_save.

(** ** Printing *)

Definition TAB : Z := 9.
Definition LF : Z := 10.

(** The line of [print_var] for one node; the name is read up to a NUL, and its
    33rd byte is not initialised. *)
Definition print_line (ro : bool) (v : sysvar_list) : outcome bytes :=
  name ← cstr (var_name v);
  match var_value v with
  | None => Ub
  | Some value =>
      Ret (name ++ [TAB] ++ (if ro then [82; 79] else [82; 87]) ++ [TAB] ++ value ++ [LF])
  end.

Fixpoint print_lines (ro : bool) (vs : list sysvar_list) : outcome bytes :=
  match vs with
  | [] => Ret []
  | v :: vs => l ← print_line ro v; ls ← print_lines ro vs; Ret (l ++ ls)
  end.

Definition print_var (b : sysvar_buf) : outcome bytes := print_lines (readonly b) (vars b).

(** What [dump_buf] prints. *)
Inductive dump_item :=
  | DumpAddr (a : Z)           (* "[%08x] " *)
  | DumpHex (v : Z)            (* "%02x " *)
  | DumpNoHex                  (* "   " *)
  | DumpChar (c : Z)           (* "%c" *)
  | DumpNewline.

Definition dump_hex (b : sysvar_buf) (k : Z) : outcome dump_item :=
  if k <? data_len b then v ← buf_get (data b) k; Ret (DumpHex v) else Ret DumpNoHex.

Definition dump_ascii (b : sysvar_buf) (k : Z) : outcome dump_item :=
  if k <? data_len b then
    c ← buf_get (data b) k;
    if (32 <=? c) && (c <? 127) then Ret (DumpChar c) else Ret (DumpChar 46)
  else Ret (DumpChar 32).

Fixpoint collect {A} (f : Z → outcome A) (n : nat) (j : Z) : outcome (list A) :=
  match n with
  | O => Ret []
  | S n => x ← f j; xs ← collect f n (j + 1); Ret (x :: xs)
  end.

Fixpoint dump_loop (fuel : nat) (b : sysvar_buf) (start len i : Z) : outcome (list dump_item) :=
  match fuel with
  | O => OutOfFuel
  | S fuel =>
      if i <? start + len then
        hex ← collect (λ j, dump_hex b (i + j)) 16 0;
        ascii ← collect (λ j, dump_ascii b (i + j)) 16 0;
        rest ← dump_loop fuel b start len (i + 16);
        Ret (DumpAddr (u32 (start + i)) :: hex ++ ascii ++ DumpNewline :: rest)
      else Ret []
  end.

Definition dump_buf (b : sysvar_buf) (start len : Z) : outcome (list dump_item) :=
  dump_loop (S (Z.to_nat len)) b start len start.

(** ** [sysvar_crc] computes the checksum of its bytes *)

Definition crc_at (d : bytes) (p : nat) : Z := crc_register INIT_CRC (take p d).

Lemma crc_at_S d p b : d !! p = Some b → crc_at d (S p) = byte_step (Z.lxor (crc_at d p) b).
Proof.
  intros Hb. unfold crc_at. rewrite (take_S_r _ _ _ Hb), crc_register_app. done.
Qed.

Lemma DO1_spec d p :
  all_bytes d → (p < length d)%nat →
  DO1 d (crc_at d p, Z.of_nat p) = Ret (crc_at d (p + 1), Z.of_nat (p + 1)).
Proof.
  intros Hd Hp. destruct (lookup_lt_is_Some_2 d p Hp) as [b Hb].
  unfold DO1. rewrite (buf_get_Some _ _ _ Hb). simpl.
  rewrite table_step_spec by (apply crc_table_spec || by eapply Forall_lookup_1).
  rewrite Nat.add_1_r, (crc_at_S _ _ _ Hb). do 2 f_equal. lia.
Qed.

(** Doubling a step: DO2, DO4 and DO8 at once. *)
Lemma DO_twice d (f : bytes → Z * Z → outcome (Z * Z)) n p :
  (∀ q, (q + n ≤ length d)%nat →
        f d (crc_at d q, Z.of_nat q) = Ret (crc_at d (q + n), Z.of_nat (q + n))) →
  (p + (n + n) ≤ length d)%nat →
  (s ← f d (crc_at d p, Z.of_nat p); f d s)
  = Ret (crc_at d (p + (n + n)), Z.of_nat (p + (n + n))).
Proof.
  intros Hf Hp. rewrite Hf by lia. simpl. rewrite Hf by lia. by rewrite <-Nat.add_assoc.
Qed.

Lemma DO8_spec d p :
  all_bytes d → (p + 8 ≤ length d)%nat →
  DO8 d (crc_at d p, Z.of_nat p) = Ret (crc_at d (p + 8), Z.of_nat (p + 8)).
Proof.
  intros Hd. apply (DO_twice d DO4 4). intros q. apply (DO_twice d DO2 2). intros r.
  apply (DO_twice d DO1 1). intros. apply DO1_spec; [done|lia].
Qed.

Lemma sysvar_crc_spec d len :
  all_bytes d → (len ≤ length d)%nat → sysvar_crc d (Z.of_nat len) = Ret (crc_of (take len d)).
Proof.
  intros Hd Hlen. unfold sysvar_crc. rewrite Z.lxor_0_l.
  set (I := λ s : Z * Z * Z, let '(crc, p, n) := s in
    ∃ q k, crc = crc_at d q ∧ p = Z.of_nat q ∧ n = Z.of_nat k ∧ (q + k = len)%nat).
  destruct (while_rule I (λ '(_, _, n), Z.to_nat n) (λ '(_, _, len), 8 <=? len)
    (λ '(crc, p, len), '(crc, p) ← DO8 d (crc, p); Ret (crc, p, len - 8))
    (S (Z.to_nat (Z.of_nat len))) (INIT_CRC, 0, Z.of_nat len))
    as ([[crc p] n] & -> & (q & k & -> & -> & -> & Hq) & _).
  - intros [[? ?] ?] (q & k & -> & -> & -> & Hq) Hk%Z.leb_le.
    rewrite DO8_spec by (done || lia). simpl.
    eexists (_, _, _). split; [done|]. split; [|lia].
    exists (q + 8)%nat, (k - 8)%nat. split_and!; [done|done|lia|lia].
  - exists 0%nat, len. split_and!; [|lia..]. done.
  - simpl. lia.
  - cbn [mbind outcome_bind].
    destruct (while_rule I (λ '(_, _, n), Z.to_nat n) (λ '(_, _, len), negb (len =? 0))
      (λ '(crc, p, len), '(crc, p) ← DO1 d (crc, p); Ret (crc, p, len - 1))
      (S (Z.to_nat (Z.of_nat k))) (crc_at d q, Z.of_nat q, Z.of_nat k))
      as ([[crc p] n] & -> & (q' & k' & -> & -> & -> & Hq') & Hn).
    + intros [[? ?] ?] (q' & k' & -> & -> & -> & Hq') Hk%negb_true_iff%Z.eqb_neq.
      rewrite DO1_spec by (done || lia). simpl.
      eexists (_, _, _). split; [done|]. split; [|lia].
      exists (q' + 1)%nat, (k' - 1)%nat. split_and!; [done|done|lia|lia].
    + by exists q, k.
    + simpl. lia.
    + simpl. apply negb_false_iff, Z.eqb_eq in Hn.
      assert (q' = len) as -> by lia. done.
Qed.

(** ** The header words *)

Section header.
Context `{!CPlatform}.

Lemma get_le32_spec pre b0 b1 b2 b3 post :
  is_byte b0 → is_byte b1 → is_byte b2 → is_byte b3 →
  get_le32 (pre ++ b0 :: b1 :: b2 :: b3 :: post) (Z.of_nat (length pre))
  = Ret (le_combine [b0; b1; b2; b3]).
Proof.
  unfold is_byte. intros. unfold get_le32.
  rewrite (buf_get_app pre _ _ b0) by done.
  change (b0 :: b1 :: b2 :: b3 :: post) with ([b0] ++ b1 :: b2 :: b3 :: post).
  rewrite (assoc_L (++)), (buf_get_app (pre ++ [b0])) by len.
  change (b1 :: b2 :: b3 :: post) with ([b1] ++ b2 :: b3 :: post).
  rewrite (assoc_L (++)), (buf_get_app ((pre ++ [b0]) ++ [b1])) by len.
  change (b2 :: b3 :: post) with ([b2] ++ b3 :: post).
  rewrite (assoc_L (++)), (buf_get_app (((pre ++ [b0]) ++ [b1]) ++ [b2])) by len.
  simpl. rewrite !Z.shiftl_mul_pow2 by lia. change (2 ^ 8) with 256.
  rewrite (ulong_id (b3 * 256)), (ulong_id (b3 * 256 + b2)) by lia.
  rewrite (ulong_id ((b3 * 256 + b2) * 256)), (ulong_id ((b3 * 256 + b2) * 256 + b1)) by lia.
  set (x := (b3 * 256 + b2) * 256 + b1). assert (0 ≤ x < 256 * 256 * 256) by lia.
  rewrite (ulong_id (x * 256)), (ulong_id (x * 256 + b0)) by lia. f_equal. lia.
Qed.

Lemma put_le32_spec pre b0 b1 b2 b3 post v :
  put_le32 (pre ++ b0 :: b1 :: b2 :: b3 :: post) (Z.of_nat (length pre)) v
  = Ret (pre ++ le_split 4 v ++ post).
Proof.
  unfold put_le32. simpl le_split.
  rewrite !Z.shiftr_div_pow2 by lia.
  change (2 ^ 8) with 256. change (2 ^ 16) with (256 * 256). change (2 ^ 24) with (256 * 256 * 256).
  rewrite <-!Z.div_div by lia.
  change (b0 :: b1 :: b2 :: b3 :: post) with ([b0; b1; b2] ++ b3 :: post).
  rewrite (assoc_L (++)), buf_set_app by len. simpl. rewrite <-(assoc_L (++)). simpl.
  change (b0 :: b1 :: b2 :: ?x) with ([b0; b1] ++ b2 :: x).
  rewrite (assoc_L (++)), buf_set_app by len. simpl. rewrite <-(assoc_L (++)). simpl.
  change (b0 :: b1 :: ?x) with ([b0] ++ b1 :: x).
  rewrite (assoc_L (++)), buf_set_app by len. simpl. rewrite <-(assoc_L (++)). simpl.
  by rewrite buf_set_app by len.
Qed.
End header.

(** ** The image: records, write counter, checksum *)

Definition image (body : bytes) (wc crc : Z) : bytes := body ++ le_split 4 wc ++ le_split 4 crc.

Record buf_shape (b : sysvar_buf) : Prop := {
  shape_data : Z.of_nat (length (data b)) = data_len b;
  shape_total : data_len b = total_len b + SYSVAR_HEAD;
  shape_nonneg : 0 ≤ total_len b;
  shape_bytes : all_bytes (data b);
}.

(** A buffer whose data is the image of [body], [wc] and [crc]. *)
Record buf_image (b : sysvar_buf) (body : bytes) (wc crc : Z) : Prop := {
  image_data : data b = image body wc crc;
  image_body : Z.of_nat (length body) = total_len b;
  image_len : data_len b = total_len b + SYSVAR_HEAD;
  image_bytes : all_bytes body;
  image_wc : u32_range wc;
  image_crc : u32_range crc;
}.

Lemma length_image body wc crc : length (image body wc crc) = (length body + 8)%nat.
Proof. unfold image. rewrite !length_app, !length_le_split. lia. Qed.

Lemma image_all_bytes body wc crc : all_bytes body → all_bytes (image body wc crc).
Proof. intros. unfold image. rewrite !Forall_app. auto using le_split_bytes. Qed.

Lemma buf_image_shape b body wc crc : buf_image b body wc crc → buf_shape b.
Proof.
  intros [Hd Hb Hl Hby Hw Hc]. split.
  - rewrite Hd, length_image. unfold SYSVAR_HEAD, SYSVAR_WC32, SYSVAR_CRC32 in *. lia.
  - done.
  - lia.
  - rewrite Hd. by apply image_all_bytes.
Qed.

Lemma le_split_4_inv l : all_bytes l → length l = 4%nat → ∃ v, l = le_split 4 v ∧ u32_range v.
Proof.
  intros Hl Hlen. exists (le_combine l). split.
  - by rewrite <-Hlen, le_split_combine.
  - apply le_combine_u32; [done|lia].
Qed.

Lemma buf_shape_image b : buf_shape b → ∃ body wc crc, buf_image b body wc crc.
Proof.
  intros [Hd Ht Hn Hb]. unfold SYSVAR_HEAD, SYSVAR_WC32, SYSVAR_CRC32 in *.
  set (n := Z.to_nat (total_len b)).
  destruct (le_split_4_inv (take 4 (drop n (data b)))) as (wc & Hwc & ?).
  { by apply Forall_take, Forall_drop. }
  { rewrite length_take, length_drop. lia. }
  destruct (le_split_4_inv (drop 4 (drop n (data b)))) as (crc & Hcrc & ?).
  { by apply Forall_drop, Forall_drop. }
  { rewrite !length_drop. lia. }
  exists (take n (data b)), wc, crc. split; try done.
  - unfold image. rewrite <-Hwc, <-Hcrc. by rewrite !take_drop.
  - rewrite length_take. lia.
  - by apply Forall_take.
Qed.

Section image.
Context `{!CPlatform}.
Implicit Types (b : sysvar_buf) (body : bytes).

Lemma get_wc32_image b body wc crc : buf_image b body wc crc → get_wc32 b = Ret wc.
Proof.
  intros [Hd Hb _ _ Hw _]. unfold get_wc32. rewrite Hd, <-Hb. unfold image. simpl.
  rewrite get_le32_spec by apply u8_byte. f_equal. exact (le_combine_split 4 wc Hw).
Qed.

Lemma image_at_crc body wc crc :
  image body wc crc = (body ++ le_split 4 wc) ++ le_split 4 crc ++ [].
Proof. unfold image. by rewrite app_nil_r, (assoc_L (++)). Qed.

Lemma crc_offset b body wc : Z.of_nat (length body) = total_len b →
  total_len b + SYSVAR_WC32 = Z.of_nat (length (body ++ le_split 4 wc)).
Proof. intros. rewrite length_app, length_le_split. unfold SYSVAR_WC32. lia. Qed.

Lemma get_crc32_image b body wc crc : buf_image b body wc crc → get_crc32 b = Ret crc.
Proof.
  intros [Hd Hb _ _ _ Hc]. unfold get_crc32. rewrite Hd, (crc_offset b body wc) by done.
  rewrite image_at_crc. simpl le_split at 2. cbn [app].
  rewrite get_le32_spec by apply u8_byte. f_equal. exact (le_combine_split 4 crc Hc).
Qed.

Lemma le_split_4_ulong v : 0 ≤ v ≤ 2 ^ 32 → le_split 4 (ulong v) = le_split 4 (u32 v).
Proof.
  intros Hv. destruct (decide (v = 2 ^ 32)) as [->|].
  - unfold ulong, u32. rewrite Z_mod_same_full.
    destruct (decide (ulong_bits = 32)) as [->|]; [by rewrite Z_mod_same_full|].
    rewrite Z.mod_small; [done|]. split; [lia|].
    apply Z.pow_lt_mono_r; [lia|pose proof ulong_bits_ge; lia|pose proof ulong_bits_ge; lia].
  - rewrite ulong_id by lia. unfold u32. by rewrite Z.mod_small by lia.
Qed.

Lemma u32_u32_range v : u32_range (u32 v).
Proof. unfold u32_range, u32. apply Z.mod_pos_bound. lia. Qed.

(** [set_wc32] adds one to the counter, modulo 2^32 whatever [unsigned long] is. *)
Lemma set_wc32_image b body wc crc :
  buf_image b body wc crc →
  ∃ b', set_wc32 b = Ret b' ∧ b' = set_data (image body (u32 (wc + 1)) crc) b ∧
    buf_image b' body (u32 (wc + 1)) crc.
Proof.
  intros Hi. pose proof Hi as [Hd Hb Hl Hby Hw Hc]. unfold u32_range in Hw.
  eexists. split_and!; [|reflexivity|].
  - unfold set_wc32. rewrite (get_wc32_image _ _ _ _ Hi). cbn [mbind outcome_bind].
    rewrite Hd, <-Hb. unfold image at 1. cbn [le_split app].
    rewrite put_le32_spec. cbn [mbind outcome_bind].
    rewrite le_split_4_ulong by lia. done.
  - split; try done. apply u32_u32_range.
Qed.

Lemma sysvar_crc_image b body wc crc :
  buf_image b body wc crc → sysvar_crc (data b) (total_len b) = Ret (crc_of body).
Proof.
  intros [Hd Hb _ Hby _ _]. rewrite Hd, <-Hb.
  rewrite sysvar_crc_spec.
  - do 2 f_equal. apply take_app_length.
  - by apply image_all_bytes.
  - rewrite length_image. lia.
Qed.

Lemma set_crc32_image b body wc crc :
  buf_image b body wc crc →
  ∃ b', set_crc32 b = Ret b' ∧ b' = set_data (image body wc (crc_of body)) b ∧
    buf_image b' body wc (crc_of body).
Proof.
  intros Hi. pose proof Hi as [Hd Hb Hl Hby Hw Hc]. eexists. split_and!; [|reflexivity|].
  - unfold set_crc32. rewrite (sysvar_crc_image _ _ _ _ Hi). cbn [mbind outcome_bind].
    rewrite Hd, (crc_offset b body wc), image_at_crc by done. cbn [le_split app].
    rewrite put_le32_spec. cbn [mbind outcome_bind]. unfold image.
    by rewrite app_nil_r, (assoc_L (++)).
  - split; try done. by apply crc_of_range.
Qed.

Lemma check_var_load_image b body wc crc :
  buf_image b body wc crc →
  check_var b SYSVAR_LOAD_MODE =
    Ret (if crc =? crc_of body then (SYSVAR_SUCCESS, set_modified false b)
         else (SYSVAR_CRC_ERR, b)).
Proof.
  intros Hi. unfold check_var. simpl.
  rewrite (get_crc32_image _ _ _ _ Hi). cbn [mbind outcome_bind].
  rewrite (sysvar_crc_image _ _ _ _ Hi). cbn [mbind outcome_bind].
  by destruct (crc =? crc_of body).
Qed.

Lemma clear_buf_image b :
  buf_shape b →
  let body := replicate (Z.to_nat (total_len b)) 0xff in
  ∃ b', clear_buf b = Ret b' ∧
    b' = set_loaded true (set_data (image body 0 (crc_of body)) b) ∧
    buf_image b' body 0 (crc_of body).
Proof.
  intros [Hd Ht Hn Hb] body. unfold clear_buf, buf_fill, SYSVAR_HEAD, SYSVAR_WC32, SYSVAR_CRC32 in *.
  rewrite decide_True by lia. cbn [mbind outcome_bind].
  set (b1 := set_loaded true _).
  assert (buf_image b1 body 0xffffffff 0xffffffff) as Hi1.
  { split; simpl; try done.
    - rewrite drop_ge by lia. rewrite app_nil_r.
      replace (Z.to_nat (data_len b)) with (Z.to_nat (total_len b) + 8)%nat by lia.
      by rewrite replicate_add.
    - unfold body. rewrite length_replicate. lia.
    - apply Forall_replicate. done.
  }
  destruct (set_wc32_image _ _ _ _ Hi1) as (b2 & -> & -> & Hi2). cbn [mbind outcome_bind].
  destruct (set_crc32_image _ _ _ _ Hi2) as (b3 & -> & -> & Hi3).
  eexists. split_and!; [done|done|exact Hi3].
Qed.
End image.

(** ** The list of variables *)

(** A node as [set_var] builds it. *)
Record var_ok (v : sysvar_list) (name value : bytes) : Prop := {
  ok_name : var_name v = strncpy NAME_LEN name;
  ok_value : var_value v = Some value;
  ok_len : var_len v = SYSVAR_NAME + 2 + strlen value;
  ok_cname : is_cstr name;
  ok_name_len : (length name ≤ NAME_LEN)%nat;
  ok_cvalue : is_cstr value;
}.

(** The bytes all the nodes of a list take in the image. *)
Definition total_used (vs : list sysvar_list) : Z := foldr (λ v n, var_len v + n) 0 vs.

(** [vs] holds, in order, the variables of [l] (pairs of name and value). *)
Definition holds (vs : list sysvar_list) (l : list (bytes * bytes)) : Prop :=
  Forall2 (λ v '(name, value), var_ok v name value) vs l.

(** Bookkeeping that every operation on the list keeps: the used and free bytes
    add up, [used_len] never exceeds what the nodes need, and nodes are distinct
    objects allocated before the heap's next address. *)
Record list_wf (h : heap) (b : sysvar_buf) : Prop := {
  wf_used : 0 ≤ used_len b ≤ total_len b;
  wf_bound : used_len b ≤ total_used (vars b);
  wf_free : free_len b = total_len b - used_len b;
  wf_nodup : NoDup (var_addr <$> vars b);
  wf_fresh : Forall (λ v, var_addr v < h)%nat (vars b);
  wf_len : Forall (λ v, SYSVAR_NAME + 2 ≤ var_len v) (vars b);
}.

Lemma total_used_app l1 l2 : total_used (l1 ++ l2) = total_used l1 + total_used l2.
Proof. induction l1 as [|v l1 IH]; simpl; lia. Qed.

Lemma total_used_nonneg vs : Forall (λ v, SYSVAR_NAME + 2 ≤ var_len v) vs → 0 ≤ total_used vs.
Proof. unfold SYSVAR_NAME. induction 1; simpl; lia. Qed.

Lemma sysvar_len_used b n :
  used_len (sysvar_len b n) = Z.min (Z.max 0 (used_len b + n)) (Z.max 0 (total_len b)) ∨
  total_len b < 0.
Proof.
  unfold sysvar_len. simpl.
  destruct (Z.ltb_spec (used_len b + n) 0); rewrite Z.gtb_ltb;
    match goal with |- context [?x <? ?y] => destruct (Z.ltb_spec x y) end; lia.
Qed.

Lemma sysvar_len_vars b n : vars (sysvar_len b n) = vars b.
Proof. done. Qed.

Section set_var.
Context `{!Allocator}.
Implicit Types (h : heap) (b : sysvar_buf).

Lemma set_var_too_long h b name value :
  SYSVAR_NAME < strlen name → set_var h b name value = Ret (SYSVAR_PARAM_ERR, (h, b)).
Proof. intros. unfold set_var. by rewrite (proj2 (Z.gtb_gt _ _)) by lia. Qed.

(** A successful [set_var] appends one node. *)
Lemma set_var_ok h b name value :
  is_cstr name → is_cstr value → strlen name ≤ SYSVAR_NAME →
  malloc_ok h = true → malloc_ok (S h) = true →
  ∃ v, set_var h b name value
       = Ret (SYSVAR_SUCCESS,
              (S (S h), sysvar_len (set_vars (vars b ++ [v]) b) (var_len v))) ∧
    var_ok v name value ∧ var_addr v = h.
Proof.
  intros Hn Hv Hl Hm1 Hm2. unfold set_var, malloc.
  destruct (Z.gtb_spec (strlen name) SYSVAR_NAME); [lia|].
  rewrite Hm1, Hm2. eexists. split; [reflexivity|]. split; [|done].
  split; try done. unfold strlen, SYSVAR_NAME, NAME_LEN in *. lia.
Qed.

Lemma set_var_no_memory h b name value :
  strlen name ≤ SYSVAR_NAME → malloc_ok h && malloc_ok (S h) = false →
  ∃ h', set_var h b name value = Ret (SYSVAR_MEMORY_ERR, (h', b)) ∧ (h ≤ h')%nat.
Proof.
  intros Hl Hm. unfold set_var, malloc.
  destruct (Z.gtb_spec (strlen name) SYSVAR_NAME); [lia|].
  destruct (malloc_ok h); simpl in *; [rewrite Hm|]; eexists; (split; [done|]); lia.
Qed.

Lemma list_wf_heap h h' b : (h ≤ h')%nat → list_wf h b → list_wf h' b.
Proof.
  intros Hle [H1 H2 H3 H4 H5 H6]. split; try done.
  eapply Forall_impl; [exact H5|]. simpl. lia.
Qed.

Lemma list_wf_append h b v :
  list_wf h b → var_addr v = h → SYSVAR_NAME + 2 ≤ var_len v →
  list_wf (S h) (sysvar_len (set_vars (vars b ++ [v]) b) (var_len v)).
Proof.
  intros [H1 H2 H3 H4 H5 H6] Ha Hl. unfold SYSVAR_NAME in Hl.
  pose proof (sysvar_len_used (set_vars (vars b ++ [v]) b) (var_len v)) as Hu.
  split.
  - simpl in *. lia.
  - rewrite sysvar_len_vars. simpl vars. rewrite total_used_app. simpl in *. lia.
  - simpl. lia.
  - rewrite sysvar_len_vars. simpl. rewrite fmap_app. apply NoDup_app. split_and!.
    + done.
    + intros x Hx [->|Hx']%elem_of_cons; [|by apply elem_of_nil in Hx'].
      apply list_elem_of_fmap in Hx as (w & Hw & Hin).
      rewrite Forall_forall in H5. apply H5 in Hin. lia.
    + apply NoDup_singleton.
  - rewrite sysvar_len_vars. apply Forall_app. split.
    + eapply Forall_impl; [exact H5|]. simpl. lia.
    + constructor; [lia|done].
  - apply Forall_app. split; [done|]. by constructor.
Qed.

Lemma set_var_wf h b name value ret h' b' :
  list_wf h b → set_var h b name value = Ret (ret, (h', b')) →
  list_wf h' b' ∧ (h ≤ h')%nat.
Proof.
  intros Hwf. unfold set_var, malloc.
  destruct (strlen name >? SYSVAR_NAME); [intros [= <- <- <-]; split; [done|lia]|].
  destruct (malloc_ok h); [destruct (malloc_ok (S h))|]; intros [= <- <- <-]; (split; [|lia]).
  - apply (list_wf_heap (S h)); [lia|]. apply (list_wf_append h); [done|done|].
    simpl. unfold SYSVAR_NAME, strlen. lia.
  - by eapply list_wf_heap; [|done]; lia.
  - by eapply list_wf_heap; [|done]; lia.
Qed.
End set_var.

Lemma unlink_app vs1 v vs2 :
  var_addr v ∉ (var_addr <$> vs1) → unlink (vs1 ++ v :: vs2) (var_addr v) = Some (vs1 ++ vs2).
Proof.
  induction vs1 as [|w vs1 IH]; simpl; intros Hni; [by rewrite decide_True|].
  apply not_elem_of_cons in Hni as [Hne Hni].
  rewrite decide_False by done. by rewrite IH.
Qed.

Lemma unlink_none vs a : a ∉ (var_addr <$> vs) → unlink vs a = None.
Proof.
  induction vs as [|w vs IH]; simpl; [done|]. intros [Hne Hni]%not_elem_of_cons.
  rewrite decide_False by done. by rewrite IH.
Qed.

(** Deleting a node of the list removes exactly that node. *)
Lemma delete_var_ok h b vs1 v vs2 :
  list_wf h b → vars b = vs1 ++ v :: vs2 →
  delete_var b v = (SYSVAR_SUCCESS, sysvar_len (set_vars (vs1 ++ vs2) b) (- var_len v)) ∧
  list_wf h (sysvar_len (set_vars (vs1 ++ vs2) b) (- var_len v)).
Proof.
  intros [H1 H2 H3 H4 H5 H6] Hv. rewrite Hv in *. split.
  - unfold delete_var. rewrite Hv, unlink_app; [done|].
    rewrite fmap_app in H4. apply NoDup_app in H4 as (_ & H4 & _). intros Hin.
    apply (H4 _ Hin). left.
  - pose proof (sysvar_len_used (set_vars (vs1 ++ vs2) b) (- var_len v)) as Hu.
    apply Forall_app in H5 as [H5a H5b]. apply Forall_cons in H5b as [_ H5b].
    apply Forall_app in H6 as [H6a H6b]. apply Forall_cons in H6b as [Hl H6b].
    pose proof (total_used_nonneg _ H6a). pose proof (total_used_nonneg _ H6b).
    rewrite total_used_app in H2. simpl in H2. unfold SYSVAR_NAME in Hl.
    split; rewrite ?sysvar_len_vars.
    + simpl in *. lia.
    + simpl vars. rewrite total_used_app. simpl in *. lia.
    + simpl. lia.
    + simpl. rewrite fmap_app in *. simpl in H4. apply NoDup_app in H4 as (Ha & Hb & Hc).
      apply NoDup_cons in Hc as [_ Hc]. apply NoDup_app. split_and!; [done| |done].
      intros x Hx Hx'. apply (Hb x Hx). by right.
    + by apply Forall_app.
    + by apply Forall_app.
Qed.

Lemma delete_var_not_found b v :
  var_addr v ∉ (var_addr <$> vars b) → delete_var b v = (SYSVAR_DELETE_ERR, b).
Proof. intros. unfold delete_var. by rewrite unlink_none. Qed.

(** [clear_var] always succeeds, empties the list and frees the whole image,
    even after [sysvar_len] has clamped the count. *)
Lemma clear_var_spec h b :
  list_wf h b →
  clear_var b = (SYSVAR_SUCCESS, set_lens (total_len b) 0 (set_vars [] b)).
Proof.
  unfold clear_var.
  remember (vars b) as vs eqn:Hvs. revert b Hvs.
  induction vs as [|v vs IH]; intros b Hvs Hwf.
  - destruct Hwf as [H1 H2 H3 _ _ _]. rewrite <-Hvs in H2. simpl in *.
    destruct b; simpl in *. unfold set_lens, set_vars. simpl. do 2 f_equal; [lia|lia|done].
  - destruct (delete_var_ok h b [] v vs Hwf) as [Hd Hwf']; [by rewrite <-Hvs|].
    cbn [clear_var_loop app]. rewrite Hd. cbn.
    rewrite IH; [|done|exact Hwf']. done.
Qed.

(** [find_var] returns the first node whose name agrees on 32 characters. *)
Lemma find_var_spec b name v :
  find_var b (Some name) = Some v ↔
  ∃ vs1 vs2, vars b = vs1 ++ v :: vs2 ∧ strncmp_eq NAME_LEN (var_name v) name = true ∧
    Forall (λ w, strncmp_eq NAME_LEN (var_name w) name = false) vs1.
Proof.
  unfold find_var. simpl. split.
  - induction (vars b) as [|w vs IH]; [done|]. rewrite filter_cons.
    case_decide as Hw.
    + intros [= ->]. by exists [], vs.
    + intros (vs1 & vs2 & -> & Heq & Hall)%IH. exists (w :: vs1), vs2.
      split_and!; [done|done|]. constructor; [by apply not_true_is_false|done].
  - intros (vs1 & vs2 & -> & Heq & Hall). rewrite filter_app.
    replace (filter _ vs1) with (@nil sysvar_list).
    + rewrite filter_cons, decide_True by done. done.
    + induction Hall as [|w vs1 Hw _ IH]; [done|].
      rewrite filter_cons, decide_False by congruence. done.
Qed.

Lemma find_var_none b name :
  find_var b (Some name) = None ↔
  Forall (λ w, strncmp_eq NAME_LEN (var_name w) name = false) (vars b).
Proof.
  unfold find_var. simpl. induction (vars b) as [|w vs IH]; [done|].
  rewrite filter_cons, Forall_cons. case_decide as Hw.
  - split; [done|]. intros [? _]. congruence.
  - rewrite IH. split; [|tauto]. split; [by apply not_true_is_false|done].
Qed.
