(* ===== verification/SysvarImage.v ===== *)
(** * The variable records of an image: save_var and load_var against a format

    The record format as a function ([encode]), what [save_var] writes in terms of
    it, and what [load_var] recovers from it: the round trip, the capacity limit
    and the behaviour beyond it. *)

From S2P Require Import Prelude Crc32 Sysvar.

(** ** The record format *)

Abbreviation variable := (bytes * bytes)%type.

(** name, padded with 0xff to 32 bytes; big-endian 16-bit length; value. *)
Definition encode_var (nv : variable) : bytes :=
  nv.1 ++ replicate (NAME_LEN - length nv.1) 0xff
  ++ [u8 (Z.shiftr (strlen nv.2) 8); u8 (strlen nv.2)] ++ nv.2.

Definition encode (l : list variable) : bytes := l ≫= encode_var.

Definition encode_size (l : list variable) : Z :=
  foldr (λ nv n, SYSVAR_NAME + 2 + strlen nv.2 + n) 0 l.

(** The body of an image that holds [l]. *)
Definition encode_body (total : Z) (l : list variable) : bytes :=
  encode l ++ replicate (Z.to_nat (total - encode_size l)) 0xff.

(** What the format can represent: a name of 1 to 32 characters and a value of
    less than 64K, neither containing the byte 0xff. *)
Definition savable (nv : variable) : Prop :=
  is_cstr nv.1 ∧ nv.1 ≠ [] ∧ (length nv.1 ≤ NAME_LEN)%nat ∧ Forall (.≠ 0xff) nv.1 ∧
  is_cstr nv.2 ∧ Forall (.≠ 0xff) nv.2 ∧ strlen nv.2 < 65536.

#[export] Instance savable_dec nv : Decision (savable nv).
Proof. unfold savable. apply _. Defined.

Lemma encode_cons nv l : encode (nv :: l) = encode_var nv ++ encode l.
Proof. done. Qed.

Lemma length_encode_var nv :
  (length nv.1 ≤ NAME_LEN)%nat → length (encode_var nv) = (34 + length nv.2)%nat.
Proof.
  intros. unfold encode_var. rewrite !length_app, length_replicate. simpl.
  unfold NAME_LEN in *. lia.
Qed.

Lemma length_encode l :
  Forall (λ nv, (length nv.1 ≤ NAME_LEN)%nat) l →
  Z.of_nat (length (encode l)) = encode_size l.
Proof.
  induction 1 as [|nv l Hn _ IH]; [done|]. rewrite encode_cons, length_app, length_encode_var by done.
  simpl. unfold SYSVAR_NAME, strlen. lia.
Qed.

Lemma encode_size_nonneg l : 0 ≤ encode_size l.
Proof. induction l as [|nv l IH]; simpl; unfold SYSVAR_NAME, strlen; lia. Qed.

Lemma holds_size vs l : holds vs l → total_used vs = encode_size l.
Proof.
  induction 1 as [|v [n val] vs l Hv _ IH]; simpl; [done|]. rewrite IH, (ok_len _ _ _ Hv). done.
Qed.

Lemma holds_name_len vs l : holds vs l → Forall (λ nv, (length nv.1 ≤ NAME_LEN)%nat) l.
Proof. induction 1 as [|v [n val] vs l Hv _ IH]; constructor; [apply Hv|done]. Qed.

(** ** [sysvar_copy] *)

Lemma copy_loop_spec s end_ :
  Forall (.≠ end_) s →
  ∀ n dpre x dpost doff spre srest soff i,
  length x = length s → (length s ≤ n)%nat →
  ((length s < n)%nat → head srest = Some end_) →
  doff + i = Z.of_nat (length dpre) → soff + i = Z.of_nat (length spre) →
  sysvar_copy_loop n (dpre ++ x ++ dpost) doff (spre ++ s ++ srest) soff i end_
  = Ret (dpre ++ s ++ dpost).
Proof.
  induction 1 as [|c s Hc _ IH]; intros n dpre x dpost doff spre srest soff i Hx Hn Hend Hd Hs.
  - apply nil_length_inv in Hx as ->. destruct n as [|n]; [done|]. simpl.
    destruct srest as [|e srest]; simpl in Hend; [discriminate Hend; lia|].
    injection Hend as ->; [|lia]. rewrite buf_get_app by lia. simpl. by rewrite Z.eqb_refl.
  - destruct x as [|y x]; [done|]. destruct n as [|n]; [simpl in Hn; lia|].
    cbn [sysvar_copy_loop app]. rewrite buf_get_app by lia. cbn [mbind outcome_bind].
    destruct (Z.eqb_spec c end_); [done|].
    rewrite buf_set_app by lia. cbn [mbind outcome_bind].
    specialize (IH n (dpre ++ [c]) x dpost doff (spre ++ [c]) srest soff (i + 1)).
    rewrite <-!(assoc_L (++)) in IH. apply IH.
    + by injection Hx.
    + simpl in Hn. lia.
    + intros. apply Hend. simpl. lia.
    + rewrite length_app. simpl. lia.
    + rewrite length_app. simpl. lia.
Qed.

Lemma copy_to_buf s n dpre old dpost spre srest doff soff :
  Forall (.≠ NUL) s → length old = n → (length s ≤ n)%nat →
  ((length s < n)%nat → head srest = Some NUL) →
  doff = Z.of_nat (length dpre) → soff = Z.of_nat (length spre) →
  sysvar_copy (dpre ++ old ++ dpost) doff (spre ++ s ++ srest) soff (Z.of_nat n) SYSVAR_STR_TO_BUF
  = Ret (dpre ++ s ++ replicate (n - length s) 0xff ++ dpost).
Proof.
  intros Hs Hold Hn Hend -> ->. unfold sysvar_copy.
  change (SYSVAR_STR_TO_BUF =? SYSVAR_STR_TO_BUF) with true. cbv iota.
  rewrite buf_fill_app by lia. cbn [mbind outcome_bind]. rewrite Nat2Z.id, Hold.
  replace n with (length s + (n - length s))%nat at 2 by lia.
  rewrite replicate_add, <-(assoc_L (++)).
  apply copy_loop_spec; [done|by rewrite length_replicate|done|done|lia|lia].
Qed.

Lemma copy_to_str s n dpre old dpost spre srest doff soff :
  Forall (.≠ 0xff) s → length old = S n → (length s ≤ n)%nat →
  ((length s < n)%nat → head srest = Some 0xff) →
  doff = Z.of_nat (length dpre) → soff = Z.of_nat (length spre) →
  sysvar_copy (dpre ++ old ++ dpost) doff (spre ++ s ++ srest) soff (Z.of_nat n) SYSVAR_BUF_TO_STR
  = Ret (dpre ++ s ++ replicate (S n - length s) 0 ++ dpost).
Proof.
  intros Hs Hold Hn Hend -> ->. unfold sysvar_copy.
  change (SYSVAR_BUF_TO_STR =? SYSVAR_STR_TO_BUF) with false.
  change (SYSVAR_BUF_TO_STR =? SYSVAR_BUF_TO_STR) with true. cbv iota.
  rewrite buf_fill_app by lia. cbn [mbind outcome_bind]. rewrite Nat2Z.id, Hold.
  replace (S n) with (length s + (S n - length s))%nat at 1 by lia.
  rewrite replicate_add, <-(assoc_L (++)).
  apply copy_loop_spec; [done|by rewrite length_replicate|done|done|lia|lia].
Qed.

(** ** [save_var] *)

Lemma save_record v name value dpre old dpost :
  var_ok v name value → length old = (34 + length value)%nat →
  ∀ i total used, i = Z.of_nat (length dpre) → i < total → strlen value ≤ used →
  ∀ next, save_loop (v :: next) i total used (dpre ++ old ++ dpost)
  = save_loop next (i + var_len v) total used (dpre ++ encode_var (name, value) ++ dpost).
Proof.
  intros [Hn Hv Hl Hcn Hnl Hcv] Hold i total used Hi Hlt Hused next.
  cbn [save_loop]. rewrite (proj2 (Z.ltb_lt _ _) Hlt).
  rewrite <-(take_drop 32 old), <-(assoc_L (++)).
  rewrite Hn, strncpy_short by done.
  change SYSVAR_NAME with (Z.of_nat NAME_LEN).
  pose proof (copy_to_buf name NAME_LEN dpre (take 32 old) (drop 32 old ++ dpost) []
    (replicate (NAME_LEN - length name) NUL) i 0) as Hcopy. cbn [app] in Hcopy.
  rewrite Hcopy; clear Hcopy; [|by apply is_cstr_nonul| |done| |done|done].
  2: { rewrite length_take. unfold NAME_LEN. lia. }
  2: { intros. by destruct (NAME_LEN - length name)%nat eqn:E; [lia|]. }
  cbn [mbind outcome_bind]. rewrite Hv.
  destruct (Z.ltb_spec (strlen value) 0); [unfold strlen in *; lia|].
  destruct (Z.gtb_spec (strlen value) used); [lia|]. cbn [orb].
  set (pad := name ++ replicate (NAME_LEN - length name) 0xff).
  assert (length pad = 32%nat) as Hpad.
  { unfold pad. rewrite length_app, length_replicate. unfold NAME_LEN in *. lia. }
  assert (length (drop 32 old) = (2 + length value)%nat) as Hdrop by (rewrite length_drop; lia).
  destruct (drop 32 old) as [|x [|y vold]]; [done..|]. simpl in Hdrop.
  rewrite (assoc_L (++) name), (assoc_L (++) dpre). fold pad. cbn [app].
  rewrite (buf_set_app (dpre ++ pad)) by (rewrite length_app; unfold NAME_LEN; lia).
  cbn [mbind outcome_bind].
  change (?a :: y :: ?b) with ([a] ++ y :: b). rewrite (assoc_L (++)).
  rewrite (buf_set_app ((dpre ++ pad) ++ _)) by (rewrite !length_app; simpl; unfold NAME_LEN; lia).
  cbn [mbind outcome_bind]. rewrite <-(assoc_L (++)). cbn [app].
  set (hdr := [u8 (Z.shiftr (strlen value) 8); u8 (strlen value)]).
  change (_ :: u8 (strlen value) :: vold ++ dpost) with (hdr ++ vold ++ dpost).
  rewrite (assoc_L (++)).
  pose proof (copy_to_buf value (length value) ((dpre ++ pad) ++ hdr) vold dpost [] [NUL]
    (i + Z.of_nat NAME_LEN + 2) 0) as Hcopy. cbn [app] in Hcopy.
  change (strlen value) with (Z.of_nat (length value)) in *. rewrite Hcopy; clear Hcopy.
  - cbn [mbind outcome_bind]. rewrite Nat.sub_diag. cbn [replicate app].
    f_equal; [rewrite Hl; unfold SYSVAR_NAME, NAME_LEN; lia|].
    unfold encode_var, pad, hdr. cbn [fst snd]. by rewrite <-!(assoc_L (++)).
  - by apply is_cstr_nonul.
  - lia.
  - lia.
  - lia.
  - rewrite !length_app. simpl. unfold NAME_LEN. lia.
  - done.
Qed.

Lemma save_loop_spec vs l :
  holds vs l →
  ∀ dpre old dpost i total used,
  Z.of_nat (length old) = encode_size l → i = Z.of_nat (length dpre) →
  i + encode_size l ≤ total → encode_size l ≤ used →
  save_loop vs i total used (dpre ++ old ++ dpost) = Ret (true, dpre ++ encode l ++ dpost).
Proof.
  induction 1 as [|v [name value] vs l Hv _ IH]; intros dpre old dpost i total used Hold Hi Ht Hu.
  - simpl in Hold. by destruct old.
  - simpl in Hold, Ht, Hu. pose proof (encode_size_nonneg l). unfold SYSVAR_NAME, strlen in *.
    rewrite <-(take_drop (34 + length value) old), <-(assoc_L (++)).
    rewrite (save_record v name value); [|done| |done| |].
    2: { rewrite length_take. lia. }
    2: { lia. }
    2: { unfold strlen. lia. }
    rewrite (assoc_L (++)), IH.
    + rewrite encode_cons. by rewrite <-!(assoc_L (++)).
    + rewrite length_drop. lia.
    + rewrite length_app, length_encode_var by apply Hv. cbn [snd].
      rewrite (ok_len _ _ _ Hv). unfold SYSVAR_NAME, strlen. lia.
    + rewrite (ok_len _ _ _ Hv). unfold SYSVAR_NAME, strlen. lia.
    + lia.
Qed.

Lemma encode_var_bytes nv : is_cstr nv.1 → is_cstr nv.2 → all_bytes (encode_var nv).
Proof.
  intros H1 H2. unfold encode_var. rewrite !Forall_app. split_and!.
  - by apply is_cstr_bytes.
  - apply Forall_replicate. unfold is_byte. lia.
  - repeat constructor; try apply u8_byte.
  - by apply is_cstr_bytes.
Qed.

Lemma encode_bytes vs l : holds vs l → all_bytes (encode l).
Proof.
  induction 1 as [|v [n val] vs l Hv _ IH]; [by constructor|].
  rewrite encode_cons, Forall_app. split; [|done]. by apply encode_var_bytes; apply Hv.
Qed.

Lemma encode_body_length total l :
  Forall (λ nv, (length nv.1 ≤ NAME_LEN)%nat) l → encode_size l ≤ total →
  Z.of_nat (length (encode_body total l)) = total.
Proof.
  intros Hl Ht. unfold encode_body. rewrite length_app, length_replicate.
  pose proof (length_encode l Hl). lia.
Qed.

Section save.
Context `{!CPlatform}.

(** Within its capacity [save_var] writes exactly the encoding of the list, a
    write counter of all ones and the checksum. *)
Lemma save_var_image b l :
  buf_shape b → holds (vars b) l →
  encode_size l ≤ total_len b → encode_size l ≤ used_len b →
  ∃ b', save_var b = Ret (SYSVAR_SUCCESS, set_modified true b') ∧
    b' = set_data (image (encode_body (total_len b) l) 0xffffffff
                     (crc_of (encode_body (total_len b) l))) b ∧
    buf_image b' (encode_body (total_len b) l) 0xffffffff
      (crc_of (encode_body (total_len b) l)).
Proof.
  intros [Hd Ht Hn Hby] Hl Hcap Hused.
  pose proof (encode_size_nonneg l). pose proof (holds_name_len _ _ Hl) as Hnl.
  unfold SYSVAR_HEAD, SYSVAR_WC32, SYSVAR_CRC32 in Ht.
  unfold save_var, buf_fill. rewrite decide_True by lia. cbn [mbind outcome_bind].
  rewrite drop_ge by lia. rewrite app_nil_r. cbn [app take].
  replace (Z.to_nat (data_len b))
    with (Z.to_nat (encode_size l) + (Z.to_nat (total_len b - encode_size l) + 8))%nat by lia.
  rewrite replicate_add.
  rewrite (save_loop_spec (vars b) l Hl [] (replicate _ 0xff));
    [|rewrite length_replicate; lia|done|lia|done].
  cbn [mbind outcome_bind app].
  set (body := encode_body (total_len b) l).
  set (b1 := set_data _ b).
  assert (buf_image b1 body 0xffffffff 0xffffffff) as Hi.
  { split; simpl; try done.
    - unfold image, body, encode_body. by rewrite replicate_add, <-(assoc_L (++)).
    - by apply encode_body_length.
    - apply Forall_app. split; [by eapply encode_bytes|]. by apply Forall_replicate. }
  destruct (set_crc32_image _ _ _ _ Hi) as (b2 & Hs & -> & Hi2).
  eexists. split_and!; [|reflexivity|].
  - unfold check_var. simpl. by rewrite Hs.
  - destruct Hi2. by split.
Qed.
End save.

(** ** [load_var] *)

Section load.
Context `{!CPlatform, !Allocator}.
Implicit Types (h : heap) (b : sysvar_buf).

(** A successful iteration: the record of [(name, value)] at index [i]. *)
Lemma load_record h b dpre name value rest i fuel :
  savable (name, value) → data b = dpre ++ encode_var (name, value) ++ rest →
  i = Z.of_nat (length dpre) → i < total_len b → strlen value ≤ free_len b →
  (∀ k, malloc_ok k = true) →
  ∃ v, var_ok v name value ∧
    load_loop (S fuel) i h b SYSVAR_SUCCESS
    = load_loop fuel (i + var_len v) (S (S (S h)))
        (sysvar_len (set_vars (vars b ++ [v]) b) (var_len v)) SYSVAR_SUCCESS.
Proof.
  intros (Hcn & Hne & Hnl & Hnf & Hcv & Hvf & Hvl) Hd Hi Hlt Hfree Hm. cbn [fst snd] in *.
  destruct (set_var_ok (S h) b name value) as (v & Hset & Hv & _); [done..| |done|done|].
  { unfold strlen, SYSVAR_NAME, NAME_LEN in *. lia. }
  exists v. split; [done|].
  cbn [load_loop]. rewrite (proj2 (Z.ltb_lt _ _) Hlt). rewrite Z.eqb_refl. cbn [andb].
  set (pad := replicate (NAME_LEN - length name) 0xff).
  set (hdr := [u8 (Z.shiftr (strlen value) 8); u8 (strlen value)]).
  assert (data b = dpre ++ name ++ (pad ++ hdr ++ value ++ rest)) as Hd1.
  { rewrite Hd. unfold encode_var, pad, hdr. cbn [fst snd]. by rewrite <-!(assoc_L (++)). }
  assert (length (name ++ pad) = 32%nat) as Hpad.
  { unfold pad. rewrite length_app, length_replicate. unfold NAME_LEN in *. lia. }
  destruct name as [|c name']; [done|].
  assert (buf_get (data b) i = Ret c) as -> by (rewrite Hd1; apply buf_get_app; lia).
  cbn [mbind outcome_bind]. apply Forall_cons in Hnf as Hc. destruct Hc as [Hc _].
  destruct (Z.eqb_spec c 255); [done|].
  set (name := c :: name') in *.
  pose proof (copy_to_str name 32 [] (replicate 33 0) [] dpre (pad ++ hdr ++ value ++ rest) 0 i)
    as Hcopy.
  rewrite !app_nil_r in Hcopy. cbn [app] in Hcopy. rewrite <-Hd1 in Hcopy.
  change SYSVAR_NAME with (Z.of_nat 32).
  rewrite Hcopy; clear Hcopy; [|done|done|done| |done|done].
  2: { intros. unfold pad, NAME_LEN. by destruct (32 - length name)%nat eqn:E; [lia|]. }
  cbn [mbind outcome_bind].
  assert (data b = (dpre ++ name ++ pad) ++ u8 (Z.shiftr (strlen value) 8)
    :: u8 (strlen value) :: value ++ rest) as Hd2.
  { rewrite Hd1. unfold hdr. by rewrite <-!(assoc_L (++)). }
  assert (Z.of_nat (length (dpre ++ name ++ pad)) = i + 32) as Hlen2.
  { rewrite length_app, Hpad. lia. }
  rewrite Hd2 at 1. rewrite buf_get_app by lia. cbn [mbind outcome_bind].
  change (?x :: ?y :: value ++ rest) with ([x] ++ y :: value ++ rest) in Hd2.
  rewrite (assoc_L (++)) in Hd2. rewrite Hd2 at 1.
  rewrite buf_get_app by (rewrite length_app, Nat2Z.inj_add, Hlen2; done). cbn [mbind outcome_bind].
  assert (Z.shiftl (u8 (Z.shiftr (strlen value) 8)) 8 + u8 (strlen value) = strlen value) as ->.
  { unfold u8. unfold strlen in *. rewrite Z.shiftl_mul_pow2, Z.shiftr_div_pow2 by lia.
    change (2 ^ 8) with 256. rewrite (Z.mod_small (_ / 256)).
    - pose proof (Z.div_mod (Z.of_nat (length value)) 256). lia.
    - split; [apply Z.div_pos; lia|]. apply Z.div_lt_upper_bound; lia. }
  destruct (Z.ltb_spec (strlen value) 0); [unfold strlen in *; lia|].
  destruct (Z.gtb_spec (strlen value) (free_len b)); [lia|]. cbn [orb].
  unfold malloc at 1. rewrite Hm.
  assert (data b = ((dpre ++ name ++ pad) ++ hdr) ++ value ++ rest) as Hd3.
  { rewrite Hd2. unfold hdr. by rewrite <-!(assoc_L (++)). }
  pose proof (copy_to_str value (length value) [] (replicate (S (length value)) 0) []
    ((dpre ++ name ++ pad) ++ hdr) rest 0 (i + 32 + 2)) as Hcopy.
  rewrite !app_nil_r in Hcopy. cbn [app] in Hcopy. rewrite <-Hd3 in Hcopy.
  change (strlen value) with (Z.of_nat (length value)).
  replace (Z.to_nat (Z.of_nat (length value) + 1)) with (S (length value)) by lia.
  change (Z.of_nat 32) with 32.
  rewrite Hcopy; clear Hcopy; [|done|by rewrite length_replicate|done|lia|done|].
  2: { rewrite length_app, Nat2Z.inj_add, Hlen2. simpl. lia. }
  cbn [mbind outcome_bind].
  replace (33 - length name)%nat with (S (32 - length name)) by (unfold NAME_LEN in *; lia).
  cbn [replicate]. rewrite cstr_app by (by apply is_cstr_nonul). cbn [mbind outcome_bind].
  replace (S (length value) - length value)%nat with 1%nat by lia. cbn [replicate].
  rewrite cstr_app by (by apply is_cstr_nonul). cbn [mbind outcome_bind].
  rewrite Hset. cbn [mbind outcome_bind]. f_equal. rewrite (ok_len _ _ _ Hv).
  unfold SYSVAR_NAME, strlen. lia.
Qed.

Lemma load_loop_spec l :
  Forall savable l →
  ∀ fuel h b dpre rest i,
  data b = dpre ++ encode l ++ rest → i = Z.of_nat (length dpre) →
  i + encode_size l ≤ total_len b → used_len b = i → free_len b = total_len b - used_len b →
  (i + encode_size l < total_len b → head rest = Some 0xff) →
  (∀ k, malloc_ok k = true) → (length l < fuel)%nat →
  ∃ h' vs, holds vs l ∧
    load_loop fuel i h b SYSVAR_SUCCESS
    = Ret (SYSVAR_SUCCESS, (h',
        set_lens (total_len b - (i + encode_size l)) (i + encode_size l)
          (set_vars (vars b ++ vs) b))).
Proof.
  induction 1 as [|[name value] l Hs _ IH];
    intros fuel h b dpre rest i Hd Hi Ht Hu Hf Hrest Hm Hfuel;
    (destruct fuel as [|fuel]; [simpl in Hfuel; lia|]).
  - exists h, []. split; [constructor|]. simpl in Ht, Hrest.
    replace (i + encode_size []) with i by (simpl; lia). rewrite app_nil_r.
    assert (set_lens (total_len b - i) i (set_vars (vars b) b) = b) as ->.
    { destruct b; simpl in *. unfold set_lens, set_vars. simpl. by subst. }
    cbn [load_loop]. destruct (Z.ltb_spec i (total_len b)); [|done]. cbn [andb].
    rewrite Z.eqb_refl. destruct rest as [|c rest]; [discriminate Hrest; lia|].
    injection Hrest as ->; [|lia]. rewrite Hd. cbn [encode mbind list_bind app].
    change (encode [] ++ 255 :: rest) with (255 :: rest).
    rewrite (buf_get_app dpre rest i 255) by done. done.
  - pose proof (encode_size_nonneg l). cbn [encode_size foldr] in Ht. fold (encode_size l) in Ht.
    cbn [snd] in Ht. unfold SYSVAR_NAME in Ht.
    assert (0 ≤ strlen value) by (unfold strlen; lia).
    destruct (load_record h b dpre name value (encode l ++ rest) i fuel)
      as (v & Hv & ->); [done| |done|lia|lia|done|].
    { rewrite Hd, encode_cons. by rewrite <-!(assoc_L (++)). }
    set (b' := sysvar_len _ _).
    assert (var_len v = 34 + strlen value) as Hvl.
    { rewrite (ok_len _ _ _ Hv). unfold SYSVAR_NAME. lia. }
    pose proof (sysvar_len_used (set_vars (vars b ++ [v]) b) (var_len v)) as Hused.
    change (total_len (set_vars _ b)) with (total_len b) in Hused.
    change (used_len (set_vars _ b)) with (used_len b) in Hused. fold b' in Hused.
    assert (used_len b' = i + var_len v) as Hu' by lia.
    destruct (IH fuel (S (S (S h))) b' (dpre ++ encode_var (name, value)) rest (i + var_len v))
      as (h' & vs & Hvs & Hload); [..|].
    + change (data b') with (data b). rewrite Hd, encode_cons. by rewrite <-!(assoc_L (++)).
    + rewrite length_app, length_encode_var by apply Hs. cbn [snd]. unfold strlen in *. lia.
    + change (total_len b') with (total_len b). lia.
    + done.
    + done.
    + intros. apply Hrest. cbn [encode_size foldr snd]. fold (encode_size l).
      unfold SYSVAR_NAME. change (total_len b') with (total_len b) in *. lia.
    + done.
    + simpl in Hfuel. lia.
    + exists h', (v :: vs). split; [by constructor|]. rewrite Hload.
      change (total_len b') with (total_len b).
      do 3 f_equal. cbn [encode_size foldr snd]. fold (encode_size l).
      unfold SYSVAR_NAME. rewrite Hvl.
      replace (i + (34 + strlen value) + encode_size l)
        with (i + (32 + 2 + strlen value + encode_size l)) by lia.
      unfold b', sysvar_len, set_lens, set_vars. simpl. by rewrite <-(assoc_L (++)).
Qed.

Lemma encode_size_length l : (length l ≤ Z.to_nat (encode_size l))%nat.
Proof.
  induction l as [|nv l IH]; [simpl; lia|]. simpl. pose proof (encode_size_nonneg l).
  unfold SYSVAR_NAME, strlen. lia.
Qed.

(** [load_var] recovers the list from the encoding. *)
Lemma load_var_encode h b l tail :
  list_wf h b → Forall savable l → encode_size l ≤ total_len b →
  data b = encode_body (total_len b) l ++ tail →
  (∀ k, malloc_ok k = true) →
  ∃ h' vs, holds vs l ∧
    load_var h b
    = Ret (SYSVAR_SUCCESS, (h',
        set_lens (total_len b - encode_size l) (encode_size l) (set_vars vs b))).
Proof.
  intros Hwf Hs Hcap Hd Hm. unfold load_var. rewrite (clear_var_spec h) by done.
  cbn [load_fuel total_len set_lens set_vars].
  destruct (load_loop_spec l Hs (S (Z.to_nat (total_len b))) h
    (set_lens (total_len b) 0 (set_vars [] b)) []
    (replicate (Z.to_nat (total_len b - encode_size l)) 255 ++ tail) 0)
    as (h' & vs & Hvs & Hload); [..|].
  - change (data (set_lens _ _ _)) with (data b). rewrite Hd. unfold encode_body.
    by rewrite <-(assoc_L (++)).
  - done.
  - change (total_len (set_lens _ _ _)) with (total_len b). lia.
  - done.
  - simpl. lia.
  - simpl. intros. destruct (Z.to_nat (total_len b - encode_size l)) eqn:E; [lia|done].
  - done.
  - pose proof (encode_size_length l). lia.
  - exists h', vs. split; [done|]. exact Hload.
Qed.
End load.

(** ** Termination on every image *)

Lemma bind_no_fuel {A B} (m : outcome A) (f : A → outcome B) :
  m ≠ OutOfFuel → (∀ a, m = Ret a → f a ≠ OutOfFuel) → m ≫= f ≠ OutOfFuel.
Proof. destruct m; simpl; auto. Qed.

Lemma buf_set_no_fuel l i v : buf_set l i v ≠ OutOfFuel.
Proof. unfold buf_set. by case_decide. Qed.
Lemma buf_fill_no_fuel l i v n : buf_fill l i v n ≠ OutOfFuel.
Proof. unfold buf_fill. by case_decide. Qed.

#[export] Hint Resolve buf_get_no_fuel buf_set_no_fuel buf_fill_no_fuel cstr_no_fuel : c_db.

Lemma copy_loop_no_fuel n : ∀ dst doff src soff i e,
  sysvar_copy_loop n dst doff src soff i e ≠ OutOfFuel.
Proof.
  induction n as [|n IH]; intros; simpl; [done|].
  apply bind_no_fuel; [auto with c_db|]. intros c _. destruct (c =? e); [done|].
  apply bind_no_fuel; auto with c_db.
Qed.

Lemma sysvar_copy_no_fuel dst doff src soff len e : sysvar_copy dst doff src soff len e ≠ OutOfFuel.
Proof.
  unfold sysvar_copy.
  repeat case_if; try done; apply bind_no_fuel; auto using copy_loop_no_fuel with c_db.
Qed.

Section termination.
Context `{!CPlatform, !Allocator}.

Lemma set_var_no_fuel h b name value : set_var h b name value ≠ OutOfFuel.
Proof.
  unfold set_var, malloc. case_if; [done|].
  by destruct (malloc_ok h); [destruct (malloc_ok (S h))|].
Qed.

Lemma set_var_total_len h b name value ret h' b' :
  set_var h b name value = Ret (ret, (h', b')) → total_len b' = total_len b.
Proof.
  unfold set_var, malloc. destruct (strlen name >? SYSVAR_NAME); [by intros [= <- <- <-]|].
  by destruct (malloc_ok h); [destruct (malloc_ok (S h))|]; intros [= <- <- <-].
Qed.

Lemma load_loop_no_fuel fuel : ∀ i h b ret,
  (Z.to_nat (total_len b - i) < fuel)%nat → load_loop fuel i h b ret ≠ OutOfFuel.
Proof.
  induction fuel as [|fuel IH]; intros i h b ret Hfuel; [lia|]. cbn [load_loop].
  destruct (Z.ltb_spec i (total_len b)); [|done]. cbn [andb].
  destruct (ret =? SYSVAR_SUCCESS); [|done].
  apply bind_no_fuel; [auto with c_db|]. intros c _. destruct (c =? 255); [done|].
  apply bind_no_fuel; [apply sysvar_copy_no_fuel|]. intros name _.
  apply bind_no_fuel; [auto with c_db|]. intros hi _.
  apply bind_no_fuel; [auto with c_db|]. intros lo _.
  destruct (_ || _) eqn:Hlen; [done|]. apply orb_false_iff in Hlen as [Hlen%Z.ltb_ge _].
  unfold malloc. destruct (malloc_ok h); [|done].
  apply bind_no_fuel; [apply sysvar_copy_no_fuel|]. intros value _.
  apply bind_no_fuel; [auto with c_db|]. intros name' _.
  apply bind_no_fuel; [auto with c_db|]. intros value' _.
  apply bind_no_fuel; [apply set_var_no_fuel|]. intros [ret' [h' b']] Hset.
  apply IH. rewrite (set_var_total_len _ _ _ _ _ _ _ Hset). unfold SYSVAR_NAME. lia.
Qed.
End termination.

(** ** Beyond the capacity *)

(** The record written at [i] when its value runs past the end of the image. *)
Lemma save_record_overrun v name value d i total used next :
  var_ok v name value → 0 ≤ i < total → strlen value ≤ used →
  Z.of_nat (length d) < i + var_len v →
  save_loop (v :: next) i total used d = Ub.
Proof.
  intros Hv Hi Hu Hover. pose proof Hv as [Hn Hval Hl Hcn Hnl Hcv].
  unfold SYSVAR_NAME, strlen in *. cbn [save_loop]. rewrite (proj2 (Z.ltb_lt _ _)) by lia.
  destruct (decide (i + 32 ≤ Z.of_nat (length d))) as [Hfit|].
  2: { unfold sysvar_copy. cbn. unfold buf_fill. rewrite decide_False by (unfold SYSVAR_NAME; lia). done. }
  set (n := Z.to_nat i).
  pose proof (copy_to_buf name NAME_LEN (take n d) (take 32 (drop n d)) (drop 32 (drop n d)) []
    (replicate (NAME_LEN - length name) NUL) i 0) as Hcopy. cbn [app] in Hcopy.
  rewrite !take_drop in Hcopy. change SYSVAR_NAME with (Z.of_nat NAME_LEN).
  rewrite Hn, strncpy_short by done.
  rewrite Hcopy; clear Hcopy; [|by apply is_cstr_nonul| |done| | |done].
  2: { rewrite length_take, length_drop. unfold NAME_LEN. lia. }
  2: { intros. by destruct (NAME_LEN - length name)%nat eqn:E; [lia|]. }
  2: { rewrite length_take. lia. }
  cbn [mbind outcome_bind]. rewrite Hval. unfold strlen.
  destruct (Z.ltb_spec (Z.of_nat (length value)) 0); [lia|].
  destruct (Z.gtb_spec (Z.of_nat (length value)) used); [lia|]. cbn [orb].
  set (d1 := take n d ++ _).
  assert (length d1 = length d) as Hd1.
  { unfold d1. rewrite !length_app, length_replicate, length_take, !length_drop.
    unfold NAME_LEN in *. lia. }
  destruct (buf_set d1 _ _) as [d2| |] eqn:H2; [|done|by apply buf_set_no_fuel in H2].
  cbn [mbind outcome_bind]. apply buf_set_length in H2.
  destruct (buf_set d2 _ _) as [d3| |] eqn:H3; [|done|by apply buf_set_no_fuel in H3].
  cbn [mbind outcome_bind]. apply buf_set_length in H3.
  unfold sysvar_copy. cbn. unfold buf_fill. rewrite decide_False; [done|].
  unfold NAME_LEN. lia.
Qed.

(** ** The list operations as a transition system *)

Inductive list_step `{!CPlatform, !Allocator} : heap * sysvar_buf → heap * sysvar_buf → Prop :=
  | step_set h b name value ret h' b' :
      set_var h b name value = Ret (ret, (h', b')) → list_step (h, b) (h', b')
  | step_delete h b v :
      v ∈ vars b → list_step (h, b) (h, (delete_var b v).2)
  | step_clear h b : list_step (h, b) (h, (clear_var b).2)
  | step_load h b ret h' b' :
      load_var h b = Ret (ret, (h', b')) → list_step (h, b) (h', b').

Lemma load_loop_wf `{!CPlatform, !Allocator} fuel : ∀ i h b ret ret' h' b',
  list_wf h b → load_loop fuel i h b ret = Ret (ret', (h', b')) → list_wf h' b'.
Proof.
  induction fuel as [|fuel IH]; intros i h b ret ret' h' b' Hwf; [done|]. cbn [load_loop].
  destruct (_ && _); [|by intros [= <- <- <-]].
  intros (c & _ & Hr)%outcome_bind_Ret. destruct (c =? 255); [by injection Hr as <- <- <-|].
  apply outcome_bind_Ret in Hr as (name & _ & Hr).
  apply outcome_bind_Ret in Hr as (hi & _ & Hr). apply outcome_bind_Ret in Hr as (lo & _ & Hr).
  destruct (_ || _); [by injection Hr as <- <- <-|]. unfold malloc in Hr.
  assert (list_wf (S h) b) as Hwf' by (eapply list_wf_heap; [|done]; lia).
  destruct (malloc_ok h); [|by injection Hr as <- <- <-].
  apply outcome_bind_Ret in Hr as (value & _ & Hr).
  apply outcome_bind_Ret in Hr as (n' & _ & Hr). apply outcome_bind_Ret in Hr as (v' & _ & Hr).
  apply outcome_bind_Ret in Hr as ([r [h1 b1]] & Hset & Hr).
  eapply IH; [|exact Hr]. by eapply set_var_wf.
Qed.

Lemma list_step_wf `{!CPlatform, !Allocator} h b h' b' :
  list_wf h b → list_step (h, b) (h', b') → list_wf h' b'.
Proof.
  intros Hwf Hstep. inversion Hstep as [? ? ? ? ? ? ? Hs|? ? v Hv|? ?|? ? ? ? ? Hl]; subst.
  - by eapply set_var_wf.
  - apply list_elem_of_split in Hv as (vs1 & vs2 & Hvs).
    by destruct (delete_var_ok h' b vs1 v vs2 Hwf Hvs) as [-> ?].
  - rewrite (clear_var_spec h') by done. destruct Hwf. simpl.
    split; simpl; try done; try lia; constructor.
  - unfold load_var in Hl. rewrite (clear_var_spec h) in Hl by done.
    eapply load_loop_wf; [|exact Hl]. destruct Hwf.
    split; simpl; try done; try lia; constructor.
Qed.

(** ** Properties *)

Definition demo_buf : sysvar_buf :=
  {| data := replicate 88 0; data_len := 88; total_len := 80; free_len := 80; used_len := 0;
     loaded := false; modified := false; readonly := false; failed := (false, false);
     vars := [] |}.

Definition demo_name : bytes := [83; 78].
Definition demo_value : bytes := [49; 50; 51].

Lemma demo_shape : buf_shape demo_buf.
Proof. by split; vm_compute; repeat constructor. Defined.

Lemma demo_wf : list_wf 0 demo_buf.
Proof.
  split; simpl; try done; try lia; constructor.
Defined.

Definition demo_var : sysvar_list :=
  {| var_addr := 7; var_name := strncpy NAME_LEN demo_name; var_value := Some demo_value;
     var_len := 37 |}.

Lemma demo_var_ok : var_ok demo_var demo_name demo_value.
Proof. split; try done; by repeat constructor. Defined.

(** C1: Saving and loading is a round trip.  For any list of variables the record
    format can represent (non-empty names of at most 32 characters, values under
    64K, no byte 0xff) that fits in the image, [save_var] succeeds, and [load_var]
    on any buffer of the same size holding the image it produced succeeds and
    rebuilds the same names and values in the same order, with [used_len] their
    exact size, whatever the buffer's list held before. *)
Theorem save_load_roundtrip `{!CPlatform, !Allocator} b l h b2 :
  buf_shape b → holds (vars b) l → Forall savable l →
  used_len b = encode_size l → encode_size l ≤ total_len b →
  (∀ k, malloc_ok k = true) →
  list_wf h b2 → total_len b2 = total_len b →
  ∃ b1, save_var b = Ret (SYSVAR_SUCCESS, b1) ∧
    (data b2 = data b1 →
     ∃ h' b3, load_var h b2 = Ret (SYSVAR_SUCCESS, (h', b3)) ∧
       holds (vars b3) l ∧ used_len b3 = encode_size l ∧ data b3 = data b1).
Proof.
  intros Hsh Hl Hs Hu Hcap Hm Hwf Ht.
  destruct (save_var_image b l) as (b1 & Hsave & Hb1 & Hi); [done|done|done|lia|].
  exists (set_modified true b1). split; [done|]. intros Hd. simpl in Hd.
  rewrite (image_data _ _ _ _ Hi) in Hd. unfold image in Hd.
  destruct (load_var_encode h b2 l (le_split 4 0xffffffff ++ le_split 4
    (crc_of (encode_body (total_len b) l)))) as (h' & vs & Hvs & Hload);
    [done|done|by rewrite Ht|by rewrite Ht|done|].
  eexists h', _. split; [exact Hload|]. split_and!; [done|done|].
  simpl. by rewrite Hd, (image_data _ _ _ _ Hi).
Qed.

Definition demo_full : sysvar_buf := set_vars [demo_var] (set_lens 43 37 demo_buf).

Lemma save_load_roundtrip_witness :
  ∃ b1, @save_var lp64 demo_full = Ret (SYSVAR_SUCCESS, b1) ∧
    (data (set_data (data b1) demo_buf) = data b1 →
     ∃ h' b3, @load_var unlimited_memory 0 (set_data (data b1) demo_buf)
       = Ret (SYSVAR_SUCCESS, (h', b3)) ∧ holds (vars b3) [(demo_name, demo_value)] ∧
       used_len b3 = 37 ∧ data b3 = data b1).
Proof.
  destruct (@save_var lp64 demo_full) as [[r b1]| |] eqn:E; [|vm_compute in E; done..].
  edestruct (@save_load_roundtrip lp64 unlimited_memory demo_full [(demo_name, demo_value)] 0
    (set_data (data b1) demo_buf)) as (b1' & H1 & H2).
  - by split; vm_compute; repeat constructor.
  - constructor; [apply demo_var_ok|constructor].
  - constructor; [|constructor]. apply (bool_decide_unpack _). by vm_compute.
  - done.
  - vm_compute. discriminate.
  - done.
  - split; simpl; try done; try lia; constructor.
  - done.
  - rewrite E in H1. injection H1 as -> ->. exists b1'. split; [done|exact H2].
Defined.

(** C31: The checksum loop of sysvar.c, unrolled eight bytes at a time over the
    256-entry table, computes the CRC-32 of its polynomial specification on every
    buffer and length. *)
Theorem sysvar_crc_correct d len :
  all_bytes d → (len ≤ length d)%nat →
  sysvar_crc d (Z.of_nat len) = Ret (Z.lxor (crc_register 0xffffffff (take len d)) 0xffffffff).
Proof. apply sysvar_crc_spec. Qed.

Lemma sysvar_crc_correct_witness :
  sysvar_crc [49; 50; 51; 52; 53; 54; 55; 56; 57; 0] 9 = Ret 0xcbf43926.
Proof.
  change 9 with (Z.of_nat 9). rewrite (sysvar_crc_correct [49; 50; 51; 52; 53; 54; 55; 56; 57; 0] 9).
  - by vm_compute.
  - by repeat constructor.
  - simpl. lia.
Defined.

(** A window [x] of a message that lies inside its first part [body]. *)
Lemma app_window (pre x post body tl : bytes) :
  pre ++ x ++ post = body ++ tl → (length pre + length x ≤ length body)%nat →
  let k := (length body - (length pre + length x))%nat in
  body = pre ++ x ++ take k post ∧ tl = drop k post.
Proof.
  intros Heq Hlen k.
  assert (take (length body) (body ++ tl) = body) as Ht by apply take_app_length.
  assert (drop (length body) (body ++ tl) = tl) as Hd by apply drop_app_length.
  rewrite <-Heq, (assoc_L (++)) in Ht, Hd.
  rewrite take_app_ge in Ht by (rewrite length_app; lia).
  rewrite drop_app_ge in Hd by (rewrite length_app; lia).
  rewrite length_app in Ht, Hd. split; [by rewrite <-Ht at 1; rewrite <-(assoc_L (++))|done].
Qed.

(** The checksum detects bursts.  If [check_var] accepts an image, then it
    answers SYSVAR_CRC_ERR on every image that differs from it in at most four
    consecutive bytes of the variables. *)
Theorem check_var_detects_burst `{!CPlatform} b b0 b' pre x y post :
  buf_shape b → data b = pre ++ x ++ post →
  Z.of_nat (length pre + length x) ≤ total_len b →
  check_var b SYSVAR_LOAD_MODE = Ret (SYSVAR_SUCCESS, b0) →
  buf_shape b' → data b' = pre ++ y ++ post → total_len b' = total_len b →
  length x = length y → (length x ≤ 4)%nat → x ≠ y →
  check_var b' SYSVAR_LOAD_MODE = Ret (SYSVAR_CRC_ERR, b').
Proof.
  intros Hsh Hd Hin Hok Hsh' Hd' Ht Hlen H4 Hne.
  destruct (buf_shape_image _ Hsh) as (body & wc & crc & Hi).
  destruct (buf_shape_image _ Hsh') as (body' & wc' & crc' & Hi').
  rewrite (check_var_load_image _ _ _ _ Hi) in Hok.
  destruct (Z.eqb_spec crc (crc_of body)) as [Hcrc|]; [|done].
  rewrite (check_var_load_image _ _ _ _ Hi').
  pose proof Hi as [Hd1 Hb1 _ Hby1 Hw1 Hc1]. pose proof Hi' as [Hd2 Hb2 _ Hby2 Hw2 Hc2].
  unfold image in Hd1, Hd2. rewrite Hd in Hd1. rewrite Hd' in Hd2.
  set (k := (length body - (length pre + length x))%nat).
  destruct (app_window pre x post body (le_split 4 wc ++ le_split 4 crc)) as [Hbody Htl];
    [done|lia|]. fold k in Hbody, Htl.
  destruct (app_window pre y post body' (le_split 4 wc' ++ le_split 4 crc')) as [Hbody' Htl'];
    [done|lia|].
  replace (length body' - (length pre + length y))%nat with k in Hbody', Htl' by lia.
  assert (crc' = crc) as ->.
  { rewrite <-Htl in Htl'; apply app_inj_1 in Htl' as [_ Hcc]; [|by rewrite !length_le_split].
    rewrite <-(le_combine_split 4 crc), <-(le_combine_split 4 crc') by done. by rewrite Hcc. }
  rewrite Hbody in Hby1. rewrite Hbody' in Hby2.
  rewrite !Forall_app in Hby1, Hby2.
  destruct (Z.eqb_spec crc (crc_of body')) as [Heq|]; [|done].
  exfalso. rewrite Hcrc, Hbody, Hbody' in Heq. revert Heq. apply crc_of_burst; tauto.
Qed.

Definition demo_saved : bytes :=
  match @save_var lp64 demo_full with Ret (_, b) => data b | _ => [] end.

Lemma check_var_detects_burst_witness :
  @check_var lp64 (set_data (65 :: drop 1 demo_saved) demo_buf) SYSVAR_LOAD_MODE
  = Ret (SYSVAR_CRC_ERR, set_data (65 :: drop 1 demo_saved) demo_buf).
Proof.
  eapply (@check_var_detects_burst lp64 (set_data demo_saved demo_buf) _ _ []
    [83] [65] (drop 1 demo_saved)).
  - by split; vm_compute; repeat constructor.
  - by vm_compute.
  - by vm_compute.
  - by vm_compute.
  - by split; vm_compute; repeat constructor.
  - done.
  - done.
  - done.
  - simpl. lia.
  - done.
Defined.

(** [load_var] terminates on every image, whatever the record lengths found in
    it: the loop bound of the model is never reached. *)
Theorem load_var_terminates `{!CPlatform, !Allocator} h b : load_var h b ≠ OutOfFuel.
Proof.
  unfold load_var, load_fuel. destruct (clear_var b) as [ret b'].
  apply load_loop_no_fuel. lia.
Qed.


Definition demo_set : heap * sysvar_buf :=
  match @set_var unlimited_memory 0 demo_buf demo_name demo_value with
  | Ret (_, s) => s
  | _ => (0%nat, demo_buf)
  end.


(** Nothing checks the capacity when a variable is set.  With an empty list, a
    value too long for the image but not longer than [total_len] is accepted by
    [set_var], and the [save_var] that follows writes past the end of the image. *)
Theorem save_var_overflow `{!CPlatform, !Allocator} h b name value :
  buf_shape b → vars b = [] → used_len b = 0 →
  is_cstr name → is_cstr value → strlen name ≤ SYSVAR_NAME →
  data_len b < SYSVAR_NAME + 2 + strlen value → strlen value ≤ total_len b → 0 < total_len b →
  malloc_ok h = true → malloc_ok (S h) = true →
  ∃ h' b', set_var h b name value = Ret (SYSVAR_SUCCESS, (h', b')) ∧ save_var b' = Ub.
Proof.
  intros [Hd Ht Hn Hby] Hv Hu Hcn Hcv Hl Hlow Hhigh Hpos Hm1 Hm2.
  destruct (set_var_ok h b name value Hcn Hcv Hl Hm1 Hm2) as (v & Hset & Hok & _).
  eexists _, _. split; [exact Hset|]. rewrite Hv. cbn [app].
  pose proof (sysvar_len_used (set_vars [v] b) (var_len v)) as Hused.
  change (total_len (set_vars _ b)) with (total_len b) in Hused.
  change (used_len (set_vars _ b)) with (used_len b) in Hused.
  set (b' := sysvar_len (set_vars [v] b) (var_len v)) in *. rewrite Hu, (ok_len _ _ _ Hok) in Hused.
  unfold SYSVAR_NAME, strlen in *. unfold save_var.
  change (data b') with (data b). change (data_len b') with (data_len b).
  destruct (buf_fill _ _ _ _) as [d| |] eqn:Hfill; [|done|by apply buf_fill_no_fuel in Hfill].
  apply buf_fill_length in Hfill. cbn [mbind outcome_bind].
  change (vars b') with [v]. change (total_len b') with (total_len b).
  rewrite (save_record_overrun v name value); [done|done|lia| |].
  - unfold strlen. lia.
  - rewrite (ok_len _ _ _ Hok). unfold SYSVAR_NAME, strlen. lia.
Qed.

Definition long_value : bytes := replicate 60 65.

Lemma save_var_overflow_witness :
  ∃ h' b', @set_var unlimited_memory 0 demo_buf demo_name long_value
           = Ret (SYSVAR_SUCCESS, (h', b')) ∧ @save_var lp64 b' = Ub.
Proof.
  apply (@save_var_overflow lp64 unlimited_memory 0 demo_buf demo_name long_value);
    first [apply demo_shape | done | by repeat constructor].
Defined.

(** The write counter never survives a save.  Whatever the counter was,
    [save_var] fills the whole block with 0xff before writing the records, so the
    two passes of [check_var(SYSVAR_SAVE_MODE)] that a save to both partitions makes
    always leave the counters 0 and 1. *)
Theorem save_var_resets_write_counter `{!CPlatform} b l :
  buf_shape b → holds (vars b) l → encode_size l ≤ total_len b → encode_size l ≤ used_len b →
  ∃ b1 b2 b3, save_var b = Ret (SYSVAR_SUCCESS, b1) ∧
    check_var b1 SYSVAR_SAVE_MODE = Ret (SYSVAR_SUCCESS, b2) ∧ get_wc32 b2 = Ret 0 ∧
    check_var b2 SYSVAR_SAVE_MODE = Ret (SYSVAR_SUCCESS, b3) ∧ get_wc32 b3 = Ret 1.
Proof.
  intros Hsh Hl Hcap Hu.
  destruct (save_var_image b l Hsh Hl Hcap Hu) as (b1 & Hsave & _ & Hi).
  assert (buf_image (set_modified true b1) (encode_body (total_len b) l) 0xffffffff
    (crc_of (encode_body (total_len b) l))) as Hi1 by (destruct Hi; by split).
  destruct (set_wc32_image _ _ _ _ Hi1) as (b2 & Hw2 & _ & Hi2).
  assert (buf_image (set_modified false b2) (encode_body (total_len b) l) 0
    (crc_of (encode_body (total_len b) l))) as Hi2' by (destruct Hi2; by split).
  destruct (set_wc32_image _ _ _ _ Hi2') as (b3 & Hw3 & _ & Hi3).
  exists (set_modified true b1), (set_modified false b2), (set_modified false b3).
  split_and!; [done| | | |].
  - unfold check_var. simpl. by rewrite Hw2.
  - by apply (get_wc32_image _ _ _ _ Hi2').
  - unfold check_var. simpl. by rewrite Hw3.
  - apply (get_wc32_image _ (encode_body (total_len b) l) 1
      (crc_of (encode_body (total_len b) l))). destruct Hi3; by split.
Qed.

Lemma save_var_resets_write_counter_witness :
  ∃ b1 b2 b3, @save_var lp64 demo_full = Ret (SYSVAR_SUCCESS, b1) ∧
    @check_var lp64 b1 SYSVAR_SAVE_MODE = Ret (SYSVAR_SUCCESS, b2) ∧ @get_wc32 lp64 b2 = Ret 0 ∧
    @check_var lp64 b2 SYSVAR_SAVE_MODE = Ret (SYSVAR_SUCCESS, b3) ∧ @get_wc32 lp64 b3 = Ret 1.
Proof.
  apply (@save_var_resets_write_counter lp64 demo_full [(demo_name, demo_value)]).
  - by split; vm_compute; repeat constructor.
  - constructor; [apply demo_var_ok|constructor].
  - vm_compute. discriminate.
  - vm_compute. discriminate.
Defined.
