(* ===== verification/SysvarLib.v ===== *)
(** * Redundant storage of the system variables: sysvar/lib/sysvar_lib.c

    Two buffers (read-write, read-only), each stored twice on MTD partitions.  The
    MTD driver (open, lseek, read, write, ioctl) is an interface: [MtdDriver] gives
    its operations and [MtdLaws] what the code relies on. *)

From S2P Require Import Prelude Crc32 Sysvar SysvarImage.

(** ** The MTD driver *)

(** The system calls the library makes on a device, as state transformers of the
    driver.  [mtd_open i] opens the [i]th device name; [mtd_read] answers the
    return value and the bytes stored in the caller's buffer; [mtd_unlock] the
    return value and whether [errno] is EOPNOTSUPP; [mtd_getinfo] the return value
    and the erase size. *)
Class MtdDriver (D : Type) := {
  mtd_open : nat → D → Z * D;
  mtd_lseek : Z → Z → D → D;
  mtd_read : Z → Z → D → (Z * bytes) * D;
  mtd_write : Z → bytes → D → Z * D;
  mtd_getinfo : Z → D → (Z * Z) * D;
  mtd_unlock : Z → Z → Z → D → (Z * bool) * D;
  mtd_erase : Z → Z → Z → D → Z * D;
  mtd_lock : Z → Z → Z → D → Z * D;
  mtd_close : Z → D → D;
}.

(** The documented behaviour: [media fd] is what the device holds and [fpos fd] the
    file position.  A failing call may leave anything on its own device, and
    nothing is promised about when calls fail. *)
Class MtdLaws (D : Type) `{!MtdDriver D} := {
  media : Z → D → bytes;
  fpos : Z → D → Z;
  media_lseek fd off d fd' : media fd' (mtd_lseek fd off d) = media fd' d;
  fpos_lseek fd off d : fpos fd (mtd_lseek fd off d) = off;
  media_read fd n d r bs d' : mtd_read fd n d = ((r, bs), d') →
    (∀ fd', media fd' d' = media fd' d) ∧ Z.of_nat (length bs) ≤ Z.max 0 n ∧ all_bytes bs;
  read_full fd n d r bs d' : mtd_read fd n d = ((r, bs), d') → fpos fd d = 0 → r = n →
    bs = take (Z.to_nat n) (media fd d) ∧ Z.of_nat (length bs) = n;
  media_write fd bs d r d' : mtd_write fd bs d = (r, d') →
    ∀ fd', fd' ≠ fd → media fd' d' = media fd' d;
  write_full fd bs d r d' : mtd_write fd bs d = (r, d') → fpos fd d = 0 → all_bytes bs →
    r = Z.of_nat (length bs) → Forall (eq 0xff) (take (length bs) (media fd d)) →
    take (length bs) (media fd d') = bs;
  media_getinfo fd d r d' : mtd_getinfo fd d = (r, d') → ∀ fd', media fd' d' = media fd' d;
  getinfo_u32 fd d : 0 ≤ (mtd_getinfo fd d).1.2 < 2 ^ 32;
  media_unlock fd st len d r d' : mtd_unlock fd st len d = (r, d') →
    ∀ fd', media fd' d' = media fd' d;
  media_erase fd st len d r d' : mtd_erase fd st len d = (r, d') →
    ∀ fd', fd' ≠ fd → media fd' d' = media fd' d;
  erase_length fd st len d r d' : mtd_erase fd st len d = (r, d') →
    length (media fd d') = length (media fd d);
  erase_ok fd st len d d' : mtd_erase fd st len d = (0, d') →
    ∀ i x, media fd d' !! i = Some x →
      (st ≤ Z.of_nat i < st + len → x = 0xff) ∧
      (¬ st ≤ Z.of_nat i < st + len → media fd d !! i = Some x);
}.

(** A device on which every call succeeds; [unlock] may be unsupported. *)
Class MtdReliable (D : Type) `{!MtdDriver D, !MtdLaws D} := {
  rel_read fd n d : fpos fd d = 0 → 0 ≤ n ≤ Z.of_nat (length (media fd d)) →
    (mtd_read fd n d).1.1 = n;
  rel_write fd bs d : fpos fd d = 0 → all_bytes bs → (length bs ≤ length (media fd d))%nat →
    (mtd_write fd bs d).1 = Z.of_nat (length bs);
  rel_getinfo fd d : (mtd_getinfo fd d).1.1 = 0 ∧ 0 < (mtd_getinfo fd d).1.2 ≤ 2 ^ 31;
  rel_unlock fd st len d : (mtd_unlock fd st len d).1.1 = 0 ∨ (mtd_unlock fd st len d).1.2 = true;
  rel_erase fd st len d : (mtd_erase fd st len d).1 = 0;
}.

(** ** Library state *)

Definition SYSVAR_MTD_DEVICE : nat := 4.
Definition SYSVAR_RW_BUF : Z := 0.
Definition SYSVAR_RO_BUF : Z := 2.
Definition SYSVAR_MTD_OFFSET : Z := 0.
Definition SYSVAR_MTD_READ : Z := 0.
Definition SYSVAR_MTD_WRITE : Z := 1.
Definition SYSVAR_MTD_ERASE : Z := 2.

(** What a [data] or [list] pointer of a buffer is. *)
Inductive pointer := Null | Live | Dangling.
#[export] Instance pointer_eq_dec : EqDecision pointer.
Proof. solve_decision. Defined.

Record slot := Slot {
  buf : sysvar_buf;
  data_ptr : pointer;
  list_ptr : pointer;
}.

(** Which of the two global buffers a pointer designates. *)
Inductive which := RW | RO.
#[export] Instance which_eq_dec : EqDecision which.
Proof. solve_decision. Defined.

(** The messages of [print_err] and the other output of the library. *)
Inductive message :=
  | MsgErr (what : bytes) (idx : Z)
  | MsgText (text : bytes)
  | MsgStderr (text : bytes)
  | MsgDump (items : list dump_item)
  | MsgInfo (rw : bool) (idx data_len total_len used_len wc crc : Z).

Record lib (D : Type) := Lib {
  dev : D;
  mtd_dev : list Z;
  mtd_dev_unlocked : list bool;
  rw_buf : slot;
  ro_buf : slot;
  verbose : bool;
  heap_of : heap;
  out : list message;
}.
Arguments Lib {D}.
Arguments dev {D}. Arguments mtd_dev {D}. Arguments mtd_dev_unlocked {D}.
Arguments rw_buf {D}. Arguments ro_buf {D}. Arguments verbose {D}.
Arguments heap_of {D}. Arguments out {D}.

(** The contents of a fresh 64K block, which [malloc] leaves unspecified. *)
Class Garbage := garbage : nat → Z.

Section lib.
Context `{HP : CPlatform, HA : Allocator, HG : Garbage} {D : Type} `{!MtdDriver D}.
Abbreviation LM := (M (lib D)).

Definition set_dev (d : D) (s : lib D) := Lib d (mtd_dev s) (mtd_dev_unlocked s) (rw_buf s)
  (ro_buf s) (verbose s) (heap_of s) (out s).
Definition set_mtd_dev f (s : lib D) := Lib (dev s) f (mtd_dev_unlocked s) (rw_buf s)
  (ro_buf s) (verbose s) (heap_of s) (out s).
Definition set_unlocked u (s : lib D) := Lib (dev s) (mtd_dev s) u (rw_buf s)
  (ro_buf s) (verbose s) (heap_of s) (out s).
Definition set_heap h (s : lib D) := Lib (dev s) (mtd_dev s) (mtd_dev_unlocked s) (rw_buf s)
  (ro_buf s) (verbose s) h (out s).
Definition set_verbose v (s : lib D) := Lib (dev s) (mtd_dev s) (mtd_dev_unlocked s) (rw_buf s)
  (ro_buf s) v (heap_of s) (out s).
Definition add_out m (s : lib D) := Lib (dev s) (mtd_dev s) (mtd_dev_unlocked s) (rw_buf s)
  (ro_buf s) (verbose s) (heap_of s) (out s ++ [m]).
Definition get_slot (w : which) (s : lib D) : slot :=
  match w with RW => rw_buf s | RO => ro_buf s end.
Definition set_slot (w : which) x (s : lib D) : lib D :=
  match w with
  | RW => Lib (dev s) (mtd_dev s) (mtd_dev_unlocked s) x (ro_buf s) (verbose s) (heap_of s) (out s)
  | RO => Lib (dev s) (mtd_dev s) (mtd_dev_unlocked s) (rw_buf s) x (verbose s) (heap_of s) (out s)
  end.

(** A driver call. *)
Definition driver {A} (f : D → A * D) : LM A := fun s =>
  let '(a, d) := f (dev s) in Ret (a, set_dev d s).
Definition driver_ (f : D → D) : LM unit := modify (λ s, set_dev (f (dev s)) s).

(** Access through a buffer pointer: both its blocks must be live. *)
Definition on_buf {A} (w : which) (f : heap → sysvar_buf → outcome (A * (heap * sysvar_buf)))
    : LM A := fun s =>
  let x := get_slot w s in
  if decide (data_ptr x = Live ∧ list_ptr x = Live) then
    '(a, (h, b)) ← f (heap_of s) (buf x);
    Ret (a, set_heap h (set_slot w (Slot b Live Live) s))
  else Ub.

Definition use_buf {A} (w : which) (f : sysvar_buf → outcome (A * sysvar_buf)) : LM A :=
  on_buf w (λ h b, '(a, b) ← f b; Ret (a, (h, b))).
Definition read_buf {A} (w : which) (f : sysvar_buf → outcome A) : LM A :=
  use_buf w (λ b, a ← f b; Ret (a, b)).

Definition fd_of (idx : nat) : LM Z := fun s =>
  match mtd_dev s !! idx with Some fd => Ret (fd, s) | None => Ub end.

Definition say (m : message) : LM unit := modify (add_out m).

Definition print_err (what : bytes) (idx : Z) : LM unit := fun s =>
  Ret (tt, if verbose s then add_out (MsgErr what idx) s else s).

Definition set_mtd_verbose (v : bool) : LM unit := modify (set_verbose v).

(** [sysvar_buf_init(buf, is_ro)] *)
Definition empty_buf (is_ro : bool) : sysvar_buf :=
  {| data := (λ i, u8 (garbage i)) <$> seq 0 (Z.to_nat SYSVAR_BLOCK_SIZE);
     data_len := SYSVAR_BLOCK_SIZE;
     total_len := SYSVAR_BLOCK_SIZE - SYSVAR_HEAD;
     free_len := SYSVAR_BLOCK_SIZE - SYSVAR_HEAD;
     used_len := 0; loaded := false; modified := false; readonly := is_ro;
     failed := (false, false); vars := [] |}.

Definition zero_buf : sysvar_buf :=
  {| data := []; data_len := 0; total_len := 0; free_len := 0; used_len := 0;
     loaded := false; modified := false; readonly := false; failed := (false, false);
     vars := [] |}.

Definition lib_malloc : LM (option addr) := fun s =>
  let '(p, h) := malloc (heap_of s) in Ret (p, set_heap h s).

Definition sysvar_buf_init (w : which) (is_ro : bool) : LM bool :=
  modify (set_slot w (Slot zero_buf Null Null));;
  p ← lib_malloc;
  match p with
  | None => print_err (lit "allocate data buffer ") (-1);; mret false
  | Some _ =>
      p ← lib_malloc;
      match p with
      | None =>
          print_err (lit "allocate data list ") (-1);;
          modify (set_slot w (Slot zero_buf Dangling Null));;     (* free(buf->data) *)
          mret false
      | Some _ => modify (set_slot w (Slot (empty_buf is_ro) Live Live));; mret true
      end
  end.

(** [check_mtd]: [n] devices left to look at. *)
Fixpoint check_mtd_loop (n : nat) (i : nat) : LM Z :=
  match n with
  | O => mret SYSVAR_SUCCESS
  | S n =>
      fd ← fd_of i;
      if fd <? 0 then print_err (lit "open MTD device ") (Z.of_nat i);; mret SYSVAR_OPEN_ERR
      else check_mtd_loop n (S i)
  end.
Definition check_mtd : LM Z := check_mtd_loop SYSVAR_MTD_DEVICE 0.

(** The [while] loop of [erase_mtd]; [ei.start] is a 32-bit unsigned field. *)
Fixpoint erase_loop (fuel : nat) (idx : nat) (fd start length : Z) : LM Z :=
  match fuel with
  | O => fun _ => OutOfFuel
  | S fuel =>
      if start <? SYSVAR_BLOCK_SIZE then
        '(res, notsupp) ← driver (mtd_unlock fd start length);
        if negb (res =? 0) && negb notsupp then
          print_err (lit "unlock MTD device ") (Z.of_nat idx);; mret SYSVAR_ERASE_ERR
        else
          (if res =? 0
           then modify (λ s, set_unlocked (<[idx := true]> (mtd_dev_unlocked s)) s)
           else mret tt);;
          r ← driver (mtd_erase fd start length);
          if negb (r =? 0) then print_err (lit "erase MTD device ") (Z.of_nat idx);; mret SYSVAR_ERASE_ERR
          else erase_loop fuel idx fd (u32 (start + length)) length
      else mret SYSVAR_SUCCESS
  end.

Definition erase_fuel : nat := S (Z.to_nat SYSVAR_BLOCK_SIZE).

Definition erase_mtd (idx : nat) : LM Z :=
  fd ← fd_of idx;
  '(r, erasesize) ← driver (mtd_getinfo fd);
  if negb (r =? 0) then print_err (lit "getinfo MTD device ") (Z.of_nat idx);; mret SYSVAR_ERASE_ERR
  else erase_loop erase_fuel idx fd 0 erasesize.

(** [lseek] to the start, then [read] of [data_len] bytes into the buffer. *)
Definition read_part (w : which) (i : nat) : LM Z :=
  fd ← fd_of i;
  driver_ (mtd_lseek fd SYSVAR_MTD_OFFSET);;
  n ← read_buf w (λ b, Ret (data_len b));
  '(r, bs) ← driver (mtd_read fd n);
  use_buf w (λ b, d ← copy_into (data b) bs; Ret (tt, set_data d b));;
  mret r.

Definition write_part (w : which) (i : nat) : LM Z :=
  fd ← fd_of i;
  driver_ (mtd_lseek fd SYSVAR_MTD_OFFSET);;
  b ← read_buf w Ret;
  driver (mtd_write fd (take (Z.to_nat (data_len b)) (data b))).

(** [recovery_err:] of [data_recovery] *)
Definition recovery_err (w : which) (idx : nat) : LM Z :=
  use_buf w (λ b, b ← clear_buf b; Ret (tt, b));;
  print_err (lit "recover MTD device ") (Z.of_nat idx);;
  mret SYSVAR_SUCCESS.

(** The body of the loop of [data_recovery]: [None] is [continue]. *)
Definition recovery_step (w : which) (idx i j : nat) : LM (option Z) :=
  n ← read_buf w (λ b, Ret (data_len b));
  r ← read_part w i;
  if negb (r =? n) then mret None
  else
    c ← use_buf w (λ b, check_var b SYSVAR_LOAD_MODE);
    if c =? SYSVAR_SUCCESS then
      e ← erase_mtd j;
      if negb (e =? 0) then Some <$> recovery_err w idx
      else
        c ← use_buf w (λ b, check_var b SYSVAR_SAVE_MODE);
        if negb (c =? 0) then Some <$> recovery_err w idx
        else
          r ← write_part w j;
          if negb (r =? n) then
            print_err (lit "write MTD device ") (Z.of_nat j);; Some <$> recovery_err w idx
          else
            use_buf w (λ b, Ret (tt, set_loaded true b));;
            mret (Some SYSVAR_SUCCESS)
    else mret None.

Definition data_recovery (w : which) (idx : nat) : LM Z :=
  r ← recovery_step w idx idx (idx + 1);
  match r with
  | Some r => mret r
  | None =>
      r ← recovery_step w idx (idx + 1) idx;
      match r with Some r => mret r | None => recovery_err w idx end
  end.

Definition set_failed_at (j : bool) (x : bool) (b : sysvar_buf) : sysvar_buf :=
  set_failed (if j then ((failed b).1, x) else (x, (failed b).2)) b.

(** One iteration of the loop of [data_load]; [j] is the index into [failed]. *)
Definition data_load_step (w : which) (i : nat) (j : bool) : LM unit :=
  use_buf w (λ b, Ret (tt, set_failed_at j false b));;
  n ← read_buf w (λ b, Ret (data_len b));
  r ← read_part w i;
  (if negb (r =? n) then use_buf w (λ b, Ret (tt, set_failed_at j true b)) else mret tt);;
  c ← use_buf w (λ b, check_var b SYSVAR_LOAD_MODE);
  (if negb (c =? 0) then use_buf w (λ b, Ret (tt, set_failed_at j true b)) else mret tt).

Definition data_load (w : which) (idx : nat) : LM Z :=
  use_buf w (λ b, Ret (tt, set_loaded true b));;
  c ← check_mtd;
  if negb (c =? 0) then mret SYSVAR_OPEN_ERR
  else
    data_load_step w idx false;;
    data_load_step w (idx + 1) true;;
    f ← read_buf w (λ b, Ret (failed b));
    if f.1 || f.2 then data_recovery w idx else mret SYSVAR_SUCCESS.

(** One iteration of the loop of [data_save]: [None] goes on to the next. *)
Definition data_save_step (w : which) (i : nat) : LM (option Z) :=
  e ← erase_mtd i;
  if negb (e =? 0) then mret (Some SYSVAR_ERASE_ERR)
  else
    c ← use_buf w (λ b, check_var b SYSVAR_SAVE_MODE);
    if negb (c =? 0) then print_err (lit "save MTD device ") (Z.of_nat i);; mret (Some SYSVAR_SAVE_ERR)
    else
      n ← read_buf w (λ b, Ret (data_len b));
      r ← write_part w i;
      if negb (r =? n) then print_err (lit "write MTD device ") (Z.of_nat i);; mret (Some SYSVAR_WRITE_ERR)
      else mret None.

Definition data_save (w : which) (idx0 idx1 : nat) : LM Z :=
  c ← check_mtd;
  if negb (c =? 0) then mret SYSVAR_OPEN_ERR
  else
    r ← data_save_step w idx0;
    match r with
    | Some r => mret r
    | None =>
        r ← data_save_step w idx1;
        match r with Some r => mret r | None => mret SYSVAR_SUCCESS end
    end.

Definition sv_buf (idx : Z) : which := if idx <? SYSVAR_RO_BUF then RW else RO.

(** [load_var(&rw_buf)] and so on. *)
Definition lib_load_var (w : which) : LM Z := on_buf w load_var.

Definition loadvar : LM Z :=
  r ← data_load RW 0;
  if negb (r =? 0) then mret SYSVAR_LOAD_ERR
  else
    r ← lib_load_var RW;
    if negb (r =? 0) then mret SYSVAR_LOAD_ERR
    else
      r ← data_load RO 2;
      if negb (r =? 0) then mret SYSVAR_LOAD_ERR
      else lib_load_var RO.

Definition savevar : LM Z :=
  r ← use_buf RW save_var;
  if negb (r =? 0) then mret SYSVAR_SAVE_ERR
  else
    f ← read_buf RW (λ b, Ret (failed b));
    if f.2 : bool then data_save RW 1 0 else data_save RW 0 1.

(** [close_mtd]: the pointers are freed and not reset. *)
Definition free_list (w : which) : LM unit := fun s =>
  let x := get_slot w s in
  match list_ptr x with
  | Null => Ret (tt, s)
  | Live => let '(_, b) := clear_var (buf x) in
            Ret (tt, set_slot w (Slot b (data_ptr x) Dangling) s)
  | Dangling => Ub
  end.

Definition free_data (w : which) : LM unit := fun s =>
  let x := get_slot w s in
  match data_ptr x with
  | Null => Ret (tt, s)
  | Live => Ret (tt, set_slot w (Slot (buf x) Dangling (list_ptr x)) s)
  | Dangling => Ub
  end.

Definition close_step (i : nat) : LM unit :=
  fd ← fd_of i;
  (if fd >? 0 then
     u ← gets (λ s, mtd_dev_unlocked s !!! i);
     (if u : bool then
        r ← driver (mtd_lock fd 0 SYSVAR_BLOCK_SIZE);
        if negb (r =? 0) then print_err (lit "lock MTD device ") (Z.of_nat i)
        else modify (λ s, set_unlocked (<[i := false]> (mtd_dev_unlocked s)) s)
      else mret tt);;
     driver_ (mtd_close fd)
   else mret tt);;
  modify (λ s, set_mtd_dev (<[i := -1]> (mtd_dev s)) s).

Definition close_mtd : LM unit :=
  free_list RW;; free_list RO;;
  free_data RW;; free_data RO;;
  close_step 0;; close_step 1;; close_step 2;; close_step 3.

(** The second loop of [open_mtd]: false when a device does not open. *)
Fixpoint open_loop (n i : nat) : LM bool :=
  match n with
  | O => mret true
  | S n =>
      fd ← driver (mtd_open i);
      modify (λ s, set_mtd_dev (<[i := fd]> (mtd_dev s)) s);;
      if fd <? 0 then print_err (lit "open MTD device ") (Z.of_nat i);; mret false
      else open_loop n (S i)
  end.

Definition open_err : LM Z := close_mtd;; mret SYSVAR_OPEN_ERR.

Definition open_mtd : LM Z :=
  devs ← gets mtd_dev;
  if existsb (λ fd, 0 <=? fd) devs then mret SYSVAR_SUCCESS
  else
    ok ← open_loop SYSVAR_MTD_DEVICE 0;
    if negb ok then open_err
    else
      ok ← sysvar_buf_init RW false;
      if negb ok then open_err
      else
        ok ← sysvar_buf_init RO true;
        if negb ok then open_err
        else
          r ← loadvar;
          if negb (r =? 0) then open_err else mret SYSVAR_SUCCESS.

(** [getvar(name, value, len)] with the caller's arrays [name_arr] (which holds
    the string [name]) and [value_arr]. *)
Definition print_vars (w : which) : LM unit :=
  t ← read_buf w print_var; say (MsgText t).

Definition getvar (name : option (bytes * bytes)) (value_arr : bytes) (len : Z)
    : LM (Z * bytes) :=
  c ← check_mtd;
  if negb (c =? 0) then mret (SYSVAR_OPEN_ERR, value_arr)
  else
    match name with
    | None => print_vars RO;; print_vars RW;; mret (SYSVAR_SUCCESS, value_arr)
    | Some (name, name_arr) =>
        v ← read_buf RO (λ b, Ret (find_var b (Some name)));
        v ← match v with
            | Some v => mret (Some v)
            | None => read_buf RW (λ b, Ret (find_var b (Some name)))
            end;
        match v with
        | None => mret (SYSVAR_GET_ERR, value_arr)
        | Some v =>
            '(ret, _, value_arr) ← lift (get_var v name_arr value_arr len);
            mret (ret, value_arr)
        end
    end.

Definition lib_set_var (name value : bytes) : LM Z := on_buf RW (λ h b, set_var h b name value).

Definition setvar (name value : option bytes) : LM Z :=
  c ← check_mtd;
  if negb (c =? 0) then mret SYSVAR_OPEN_ERR
  else
    match name with
    | None => use_buf RW (λ b, Ret (clear_var b))
    | Some name =>
        v ← read_buf RO (λ b, Ret (find_var b (Some name)));
        match v with
        | Some _ => mret SYSVAR_READONLY_ERR
        | None =>
            v ← read_buf RW (λ b, Ret (find_var b (Some name)));
            match v with
            | Some v =>
                ret ← use_buf RW (λ b, Ret (delete_var b v));
                if negb (ret =? SYSVAR_SUCCESS) then mret SYSVAR_DELETE_ERR
                else match value with
                     | Some value => lib_set_var name value
                     | None => mret ret
                     end
            | None =>
                match value with
                | Some value => lib_set_var name value
                | None => mret SYSVAR_EXISTED_ERR
                end
            end
        end
    end.

Definition sysvar_info (idx : Z) : LM unit :=
  c ← check_mtd;
  if negb (c =? 0) then mret tt
  else
    let w := sv_buf idx in
    b ← read_buf w Ret;
    wc ← lift (get_wc32 b);
    crc ← lift (get_crc32 b);
    say (MsgInfo (idx <? SYSVAR_RO_BUF) idx (data_len b) (total_len b) (used_len b) wc crc).

Definition sysvar_dump (idx start len : Z) : LM unit :=
  c ← check_mtd;
  if negb (c =? 0) then mret tt
  else items ← read_buf (sv_buf idx) (λ b, dump_buf b start len); say (MsgDump items).

(** The part of [sysvar_io] after the mode: read the partition back. *)
Definition sysvar_io_read (idx : Z) : LM Z :=
  let w := sv_buf idx in
  n ← read_buf w (λ b, Ret (data_len b));
  r ← read_part w (Z.to_nat idx);
  if negb (r =? n) then print_err (lit "read MTD device ") idx;; mret SYSVAR_READ_ERR
  else
    modify (λ s, set_slot RW (Slot (set_loaded false (buf (rw_buf s))) (data_ptr (rw_buf s))
                                (list_ptr (rw_buf s))) s);;
    modify (λ s, set_slot RO (Slot (set_loaded false (buf (ro_buf s))) (data_ptr (ro_buf s))
                                (list_ptr (ro_buf s))) s);;
    mret SYSVAR_SUCCESS.

Definition sysvar_io (idx : Z) (mode : Z) : LM Z :=
  let w := sv_buf idx in
  c ← check_mtd;
  if negb (c =? 0) then mret SYSVAR_OPEN_ERR
  else if mode =? SYSVAR_MTD_WRITE then
    n ← read_buf w (λ b, Ret (data_len b));
    r ← write_part w (Z.to_nat idx);
    if negb (r =? n) then print_err (lit "write MTD device ") idx;; mret SYSVAR_WRITE_ERR
    else sysvar_io_read idx
  else if mode =? SYSVAR_MTD_ERASE then
    e ← erase_mtd (Z.to_nat idx);
    if negb (e =? 0) then mret SYSVAR_ERASE_ERR else sysvar_io_read idx
  else sysvar_io_read idx.
End lib.

(** ** What a run of each operation says *)

Section runs.
Context `{HP : CPlatform, HA : Allocator, HG : Garbage} {D : Type} `{!MtdDriver D}.
Implicit Types s : lib D.

Lemma driver_Ret {A} (f : D → A * D) s a s' :
  driver f s = Ret (a, s') ↔ ∃ d, f (dev s) = (a, d) ∧ s' = set_dev d s.
Proof.
  unfold driver. destruct (f (dev s)) as [a1 d1]. split.
  - intros [= <- <-]. by exists d1.
  - intros (d & [= <- <-] & ->). done.
Qed.

Lemma fd_of_Ret i s fd s' : fd_of i s = Ret (fd, s') ↔ mtd_dev s !! i = Some fd ∧ s' = s.
Proof.
  unfold fd_of. destruct (mtd_dev s !! i); split; [by intros [= <- <-]| |done|by intros [? _]].
  by intros [[= <-] ->].
Qed.

Definition slot_live (w : which) s : Prop :=
  data_ptr (get_slot w s) = Live ∧ list_ptr (get_slot w s) = Live.

Lemma slot_live_eta w s : slot_live w s → get_slot w s = Slot (buf (get_slot w s)) Live Live.
Proof. unfold slot_live. destruct (get_slot w s). simpl. by intros [-> ->]. Qed.

Lemma get_set_slot w x s : get_slot w (set_slot w x s) = x.
Proof. by destruct w. Qed.
Lemma get_set_slot_ne w w' x s : w' ≠ w → get_slot w' (set_slot w x s) = get_slot w' s.
Proof. by destruct w, w'. Qed.
Lemma set_slot_id w s : set_slot w (get_slot w s) s = s.
Proof. by destruct w, s. Qed.
Lemma set_set_slot w x y s : set_slot w x (set_slot w y s) = set_slot w x s.
Proof. by destruct w. Qed.
Lemma set_heap_id w x s : set_heap (heap_of s) (set_slot w x s) = set_slot w x s.
Proof. by destruct w, s. Qed.

Lemma on_buf_Ret {A} w (f : heap → sysvar_buf → outcome (A * (heap * sysvar_buf))) s a s' :
  on_buf w f s = Ret (a, s') ↔
  slot_live w s ∧ ∃ h b, f (heap_of s) (buf (get_slot w s)) = Ret (a, (h, b)) ∧
    s' = set_heap h (set_slot w (Slot b Live Live) s).
Proof.
  unfold on_buf, slot_live. case_decide as Hl; [|split; [done|by intros [? _]]].
  destruct (f _ _) as [[a1 [h b]]| |]; simpl.
  - split; [intros [= <- <-]; eauto|]. by intros (_ & h1 & b1 & [= <- <- <-] & ->).
  - split; [done|]. by intros (_ & h1 & b1 & ? & _).
  - split; [done|]. by intros (_ & h1 & b1 & ? & _).
Qed.

Lemma use_buf_Ret {A} w (f : sysvar_buf → outcome (A * sysvar_buf)) s a s' :
  use_buf w f s = Ret (a, s') ↔
  slot_live w s ∧ ∃ b, f (buf (get_slot w s)) = Ret (a, b) ∧
    s' = set_slot w (Slot b Live Live) s.
Proof.
  unfold use_buf. rewrite on_buf_Ret. split.
  - intros (Hl & h & b & H & ->). split; [done|].
    destruct (f _) as [[a1 b1]| |]; [|done..]. injection H as <- <- <-.
    exists b1. by rewrite set_heap_id.
  - intros (Hl & b & H & ->). split; [done|]. exists (heap_of s), b. rewrite H.
    by rewrite set_heap_id.
Qed.

Lemma read_buf_Ret {A} w (f : sysvar_buf → outcome A) s a s' :
  read_buf w f s = Ret (a, s') ↔ slot_live w s ∧ f (buf (get_slot w s)) = Ret a ∧ s' = s.
Proof.
  unfold read_buf. rewrite use_buf_Ret. split.
  - intros (Hl & b & H & ->). split; [done|]. destruct (f _) as [a1| |]; [|done..].
    injection H as <- <-. split; [done|]. by rewrite <-(slot_live_eta w s Hl), set_slot_id.
  - intros (Hl & H & ->). split; [done|]. exists (buf (get_slot w s)). rewrite H.
    split; [done|]. by rewrite <-(slot_live_eta w s Hl), set_slot_id.
Qed.

Lemma print_err_Ret what idx s a s' :
  print_err what idx s = Ret (a, s') →
  s' = s ∨ s' = add_out (MsgErr what idx) s.
Proof. unfold print_err. intros [= _ <-]. destruct (verbose s); auto. Qed.

(** What the error messages and the unlock flags do not touch. *)
Record same_core s s' : Prop := {
  core_fds : mtd_dev s' = mtd_dev s;
  core_rw : rw_buf s' = rw_buf s;
  core_ro : ro_buf s' = ro_buf s;
  core_heap : heap_of s' = heap_of s;
}.

Lemma same_core_refl s : same_core s s.
Proof. by split. Qed.
Lemma same_core_trans s1 s2 s3 : same_core s1 s2 → same_core s2 s3 → same_core s1 s3.
Proof. intros [] []. split; congruence. Qed.
Lemma same_core_slot w s s' : same_core s s' → get_slot w s' = get_slot w s.
Proof. intros []. by destruct w. Qed.

Lemma print_err_core what idx s a s' :
  print_err what idx s = Ret (a, s') → same_core s s' ∧ dev s' = dev s.
Proof. by intros [->| ->]%print_err_Ret. Qed.
End runs.

(** Take a run [H : (x ← m; f x) s = Ret (a, s')] apart. *)
Ltac run_step H :=
  lazymatch type of H with
  | (_ ≫= _) _ = Ret _ =>
      let H1 := fresh "Hrun" in
      apply M_bind_Ret in H as (? & ? & H1 & H)
  | mret _ _ = Ret _ => injection H; clear H; intros; subst
  | Ret _ = Ret _ => injection H; clear H; intros; subst
  end.

(** ** Erasing *)

Section erase.
Context `{HP : CPlatform, HA : Allocator, HG : Garbage} {D : Type} `{!MtdDriver D, !MtdLaws D}.
Implicit Types s : lib D.

(** Everything below [n] on device [fd] reads 0xff. *)
Definition erased (fd : Z) (n : Z) (d : D) : Prop :=
  ∀ i x, media fd d !! i = Some x → Z.of_nat i < n → x = 0xff.

Lemma erased_media fd n d d' : media fd d' = media fd d → erased fd n d → erased fd n d'.
Proof. unfold erased. by intros ->. Qed.

Lemma erased_step fd st len d d' :
  0 ≤ st → 0 ≤ len → mtd_erase fd st len d = (0, d') → erased fd st d → erased fd (st + len) d'.
Proof.
  intros Hst Hlen He Hd i x Hx Hi. destruct (erase_ok _ _ _ _ _ He i x Hx) as [Hin Hout].
  destruct (decide (st ≤ Z.of_nat i < st + len)) as [|Hn]; [auto|].
  apply (Hd i x); [by apply Hout|lia].
Qed.

Lemma erase_loop_run fuel idx fd len : ∀ start s r s',
  0 ≤ start → 0 ≤ len → erase_loop fuel idx fd start len s = Ret (r, s') →
  erased fd start (dev s) →
  same_core s s' ∧ (∀ fd', fd' ≠ fd → media fd' (dev s') = media fd' (dev s)) ∧
  (r = 0 → erased fd SYSVAR_BLOCK_SIZE (dev s')).
Proof.
  induction fuel as [|fuel IH]; intros start s r s' Hst Hlen Hrun Her; [done|].
  cbn [erase_loop] in Hrun. destruct (Z.ltb_spec start SYSVAR_BLOCK_SIZE).
  2: { injection Hrun as <- <-. split_and!; [by split|done|].
       intros _ i x Hx Hi. apply (Her i x Hx). lia. }
  apply M_bind_Ret in Hrun as ([res notsupp] & s1 & Hu & Hrun).
  apply driver_Ret in Hu as (d1 & Hu & ->).
  pose proof (media_unlock _ _ _ _ _ _ Hu) as Hm1.
  destruct (negb (res =? 0) && negb notsupp).
  { apply M_bind_Ret in Hrun as (? & s2 & Hp & Hrun). injection Hrun as <- <-.
    apply print_err_core in Hp as [Hc Hd]. rewrite Hd. split_and!; [|auto|done].
    eapply same_core_trans; [|exact Hc]. by split. }
  apply M_bind_Ret in Hrun as (? & s2 & Hm & Hrun).
  assert (same_core s s2 ∧ dev s2 = d1) as [Hc2 Hd2].
  { destruct (res =? 0); injection Hm as _ <-; by split. }
  clear Hm. apply M_bind_Ret in Hrun as (e & s3 & He & Hrun).
  apply driver_Ret in He as (d3 & He & ->). rewrite Hd2 in He.
  pose proof (media_erase _ _ _ _ _ _ He) as Hm3.
  assert (same_core s (set_dev d3 s2)) as Hc3 by (destruct Hc2; by split).
  destruct (Z.eqb_spec e 0) as [->|]; cbn [negb] in Hrun.
  - destruct (IH (u32 (start + len)) (set_dev d3 s2) r s') as (Hc & Ho & Hok).
    + unfold u32. apply Z.mod_pos_bound. lia.
    + done.
    + done.
    + simpl. intros k y Hy Hk.
      apply (erased_step fd start len d1 d3 Hst Hlen He) with (i := k);
        [by eapply erased_media; [apply Hm1|]|done|].
      unfold u32 in Hk. pose proof (Z.mod_le (start + len) (2 ^ 32)). lia.
    + split_and!; [by eapply same_core_trans| |done].
      intros fd' Hfd. rewrite Ho by done. simpl. by rewrite Hm3, Hm1.
  - apply M_bind_Ret in Hrun as (? & s4 & Hp & Hrun). injection Hrun as <- <-.
    apply print_err_core in Hp as [Hc Hd]. rewrite Hd. split_and!; [|simpl|done].
    + by eapply same_core_trans.
    + intros fd' Hfd. by rewrite Hm3, Hm1.
Qed.

Lemma erase_loop_length fuel idx fd len : ∀ start s r s',
  erase_loop fuel idx fd start len s = Ret (r, s') →
  length (media fd (dev s')) = length (media fd (dev s)).
Proof.
  induction fuel as [|fuel IH]; intros start s r s' Hrun; [done|].
  cbn [erase_loop] in Hrun. destruct (start <? SYSVAR_BLOCK_SIZE); [|by injection Hrun as _ <-].
  apply M_bind_Ret in Hrun as ([res notsupp] & s1 & Hu & Hrun).
  apply driver_Ret in Hu as (d1 & Hu & ->).
  pose proof (media_unlock _ _ _ _ _ _ Hu) as Hm1.
  destruct (negb (res =? 0) && negb notsupp).
  { apply M_bind_Ret in Hrun as (? & s2 & Hp & Hrun). injection Hrun as _ <-.
    apply print_err_core in Hp as [_ ->]. simpl. by rewrite Hm1. }
  apply M_bind_Ret in Hrun as (? & s2 & Hm & Hrun).
  assert (dev s2 = d1) as Hd2 by (destruct (res =? 0); by injection Hm as _ <-).
  clear Hm. apply M_bind_Ret in Hrun as (e & s3 & He & Hrun).
  apply driver_Ret in He as (d3 & He & ->). apply erase_length in He. rewrite Hd2, Hm1 in He.
  destruct (negb (e =? 0)).
  - apply M_bind_Ret in Hrun as (? & s4 & Hp & Hrun). injection Hrun as _ <-.
    by apply print_err_core in Hp as [_ ->].
  - by rewrite (IH _ _ _ _ Hrun).
Qed.

Lemma erase_mtd_length idx s r s' fd :
  erase_mtd idx s = Ret (r, s') → mtd_dev s !! idx = Some fd →
  length (media fd (dev s')) = length (media fd (dev s)).
Proof.
  intros Hrun Hfd. unfold erase_mtd in Hrun.
  apply M_bind_Ret in Hrun as (fd' & s1 & Hf & Hrun). apply fd_of_Ret in Hf as [Hf ->].
  rewrite Hfd in Hf. injection Hf as <-.
  apply M_bind_Ret in Hrun as ([e size] & s1 & Hg & Hrun). apply driver_Ret in Hg as (d1 & Hg & ->).
  pose proof (media_getinfo _ _ _ _ Hg) as Hm. destruct (negb (e =? 0)).
  - apply M_bind_Ret in Hrun as (? & s2 & Hp & Hrun). injection Hrun as _ <-.
    apply print_err_core in Hp as [_ ->]. simpl. by rewrite Hm.
  - rewrite (erase_loop_length _ _ _ _ _ _ _ _ Hrun). simpl. by rewrite Hm.
Qed.

Lemma erase_mtd_run idx s r s' fd :
  erase_mtd idx s = Ret (r, s') → mtd_dev s !! idx = Some fd →
  same_core s s' ∧ (∀ fd', fd' ≠ fd → media fd' (dev s') = media fd' (dev s)) ∧
  (r = 0 → erased fd SYSVAR_BLOCK_SIZE (dev s')).
Proof.
  intros Hrun Hfd. unfold erase_mtd in Hrun.
  apply M_bind_Ret in Hrun as (fd' & s1 & Hf & Hrun). apply fd_of_Ret in Hf as [Hf ->].
  rewrite Hfd in Hf. injection Hf as <-.
  apply M_bind_Ret in Hrun as ([e size] & s1 & Hg & Hrun). apply driver_Ret in Hg as (d1 & Hg & ->).
  pose proof (media_getinfo _ _ _ _ Hg) as Hm. pose proof (getinfo_u32 fd (dev s)) as Hu.
  rewrite Hg in Hu. simpl in Hu. destruct (negb (e =? 0)).
  - apply M_bind_Ret in Hrun as (? & s2 & Hp & Hrun). injection Hrun as <- <-.
    apply print_err_core in Hp as [Hc Hd]. rewrite Hd. split_and!; [|simpl; auto|done].
    eapply same_core_trans; [|exact Hc]. by split.
  - apply erase_loop_run in Hrun as (Hc & Ho & Hok); [|lia|lia|].
    2: { intros i x _ Hi. lia. }
    split_and!; [|intros; rewrite Ho by done; apply Hm|done].
    eapply same_core_trans; [|exact Hc]. by split.
Qed.
End erase.

(** ** Saving *)

Section save_load.
Context `{HP : CPlatform, HA : Allocator, HG : Garbage} {D : Type} `{!MtdDriver D, !MtdLaws D}.
Implicit Types s : lib D.

Definition BLOCK : nat := Z.to_nat SYSVAR_BLOCK_SIZE.

(** Partition [fd] holds a valid image with the records [body]. *)
Definition part_holds (fd : Z) (body : bytes) (d : D) : Prop :=
  ∃ wc, u32_range wc ∧ take BLOCK (media fd d) = image body wc (crc_of body).

(** Buffer [w] is a live 64K block with the valid image of [body]. *)
Definition buf_holds (w : which) (body : bytes) s : Prop :=
  slot_live w s ∧ total_len (buf (get_slot w s)) = SYSVAR_BLOCK_SIZE - SYSVAR_HEAD ∧
  ∃ wc, buf_image (buf (get_slot w s)) body wc (crc_of body).

(** The operations below leave the descriptors and the other buffer alone. *)
Definition frame (w : which) s s' : Prop :=
  mtd_dev s' = mtd_dev s ∧ (∀ w', w' ≠ w → get_slot w' s' = get_slot w' s).

Lemma frame_core w s s' : same_core s s' → frame w s s'.
Proof. intros Hc. split; [apply Hc|]. intros. by apply same_core_slot. Qed.
Lemma frame_trans w s1 s2 s3 : frame w s1 s2 → frame w s2 s3 → frame w s1 s3.
Proof. intros [H1 H2] [H3 H4]. split; [congruence|]. intros. rewrite H4, H2; done. Qed.
Lemma frame_set_slot w x s : frame w s (set_slot w x s).
Proof. split; [by destruct w|]. intros. by apply get_set_slot_ne. Qed.

Lemma buf_holds_core w body s s' : same_core s s' → buf_holds w body s → buf_holds w body s'.
Proof.
  intros Hc (Hl & Ht & Hi). unfold buf_holds, slot_live. by rewrite (same_core_slot w _ _ Hc).
Qed.

Lemma buf_holds_data_len w body s :
  buf_holds w body s → data_len (buf (get_slot w s)) = SYSVAR_BLOCK_SIZE.
Proof. intros (_ & Ht & wc & Hi). rewrite (image_len _ _ _ _ Hi), Ht. done. Qed.

Lemma buf_holds_data w body s :
  buf_holds w body s →
  Z.of_nat (length (data (buf (get_slot w s)))) = SYSVAR_BLOCK_SIZE ∧
  ∃ wc, u32_range wc ∧ data (buf (get_slot w s)) = image body wc (crc_of body).
Proof.
  intros (_ & Ht & wc & Hi). split; [|exists wc; split; apply Hi].
  rewrite (image_data _ _ _ _ Hi), length_image.
  pose proof (image_body _ _ _ _ Hi). unfold SYSVAR_HEAD, SYSVAR_WC32, SYSVAR_CRC32 in *. lia.
Qed.

Lemma write_part_run w i fd body s r s' :
  write_part w i s = Ret (r, s') → mtd_dev s !! i = Some fd → buf_holds w body s →
  same_core s s' ∧ (∀ fd', fd' ≠ fd → media fd' (dev s') = media fd' (dev s)) ∧
  (r = SYSVAR_BLOCK_SIZE → erased fd SYSVAR_BLOCK_SIZE (dev s) → part_holds fd body (dev s')).
Proof.
  intros Hrun Hfd Hb. pose proof (buf_holds_data_len _ _ _ Hb) as Hdl.
  destruct (buf_holds_data _ _ _ Hb) as [Hlen (wc & Hwc & Hdata)].
  assert (all_bytes (data (buf (get_slot w s)))) as Hby.
  { destruct Hb as (_ & _ & wc' & Hi). apply (buf_image_shape _ _ _ _ Hi). }
  unfold write_part in Hrun. run_step Hrun. apply fd_of_Ret in Hrun0 as [Hf ->].
  rewrite Hfd in Hf. injection Hf as <-. run_step Hrun. injection Hrun0 as _ <-.
  run_step Hrun. apply read_buf_Ret in Hrun0 as (_ & Heq & ->). injection Heq as <-.
  apply driver_Ret in Hrun as (d1 & Hw & ->).
  change (get_slot w (set_dev _ s)) with (get_slot w s) in Hw. simpl dev in Hw.
  rewrite Hdl in Hw. rewrite take_ge in Hw by lia.
  split_and!; [by split| |].
  - intros fd' Hne. simpl. rewrite (media_write _ _ _ _ _ Hw) by done. apply media_lseek.
  - intros -> Her. exists wc. split; [done|]. simpl. rewrite <-Hdata.
    replace BLOCK with (length (data (buf (get_slot w s)))) by (unfold BLOCK; lia).
    apply (write_full _ _ _ _ _ Hw); [apply fpos_lseek| |by rewrite Hlen|].
    { done. }
    rewrite media_lseek. apply Forall_lookup_2. intros k y Hy.
    apply lookup_take_Some in Hy as [Hy Hk]. symmetry. apply (Her k y Hy). lia.
Qed.

Lemma check_save_run w body s c s' :
  use_buf w (λ b, check_var b SYSVAR_SAVE_MODE) s = Ret (c, s') → buf_holds w body s →
  c = SYSVAR_SUCCESS ∧ buf_holds w body s' ∧ frame w s s' ∧ dev s' = dev s.
Proof.
  intros Hrun (Hl & Ht & wc & Hi).
  apply use_buf_Ret in Hrun as (_ & b & Hc & ->).
  destruct (set_wc32_image _ _ _ _ Hi) as (b' & Hs & -> & Hi').
  unfold check_var in Hc. simpl in Hc. rewrite Hs in Hc. injection Hc as <- <-.
  split_and!; [done| |apply frame_set_slot|by destruct w].
  unfold buf_holds, slot_live. rewrite get_set_slot. split_and!; [done|done|done|].
  exists (u32 (wc + 1)). destruct Hi'. by split.
Qed.

Lemma data_save_step_run w i fd body s r s' :
  data_save_step w i s = Ret (r, s') → mtd_dev s !! i = Some fd → buf_holds w body s →
  frame w s s' ∧ buf_holds w body s' ∧
  (∀ fd', fd' ≠ fd → media fd' (dev s') = media fd' (dev s)) ∧
  (if r is Some c then c ≠ SYSVAR_SUCCESS else part_holds fd body (dev s')).
Proof.
  intros Hrun Hfd Hb. unfold data_save_step in Hrun. run_step Hrun.
  destruct (erase_mtd_run _ _ _ _ _ Hrun0 Hfd) as (Hc1 & Ho1 & Her).
  apply (buf_holds_core _ _ _ _ Hc1) in Hb.
  destruct (Z.eqb_spec x 0) as [->|]; cbn [negb] in Hrun.
  2: { injection Hrun as <- <-. split_and!; [by apply frame_core|done|done|done]. }
  run_step Hrun. destruct (check_save_run _ _ _ _ _ Hrun1 Hb) as (-> & Hb2 & Hf2 & Hd2).
  cbn [negb Z.eqb SYSVAR_SUCCESS] in Hrun. cbv delta [SYSVAR_SUCCESS] in Hrun. cbn in Hrun.
  run_step Hrun. apply read_buf_Ret in Hrun2 as (_ & Heq & ->). injection Heq as <-.
  rewrite (buf_holds_data_len _ _ _ Hb2) in Hrun.
  run_step Hrun.
  assert (mtd_dev x1 !! i = Some fd) as Hfd2.
  { destruct Hf2 as [-> _]. by rewrite (core_fds _ _ Hc1). }
  destruct (write_part_run _ _ _ _ _ _ _ Hrun2 Hfd2 Hb2) as (Hc3 & Ho3 & Hw3).
  assert (frame w s x2) as Hf3.
  { eapply frame_trans; [by apply frame_core|]. eapply frame_trans; [done|by apply frame_core]. }
  assert (∀ fd', fd' ≠ fd → media fd' (dev x2) = media fd' (dev s)) as Ho.
  { intros fd' Hne. by rewrite Ho3, Hd2, Ho1. }
  apply (buf_holds_core _ _ _ _ Hc3) in Hb2.
  destruct (Z.eqb_spec x SYSVAR_BLOCK_SIZE) as [Hx|]; cbn [negb] in Hrun.
  - injection Hrun as <- <-. split_and!; [done|done|done|]. apply Hw3; [done|].
    rewrite Hd2. by apply Her.
  - run_step Hrun. injection Hrun as <- <-.
    apply print_err_core in Hrun3 as [Hc4 Hd4]. rewrite Hd4. split_and!; [|by eapply buf_holds_core|done|done].
    eapply frame_trans; [done|by apply frame_core].
Qed.
End save_load.

(** ** Loading *)

Section load.
Context `{HP : CPlatform, HA : Allocator, HG : Garbage} {D : Type} `{!MtdDriver D, !MtdLaws D}.
Implicit Types s : lib D.

(** The buffer is a live 64K block of arbitrary bytes. *)
Definition ready (w : which) s : Prop :=
  slot_live w s ∧ buf_shape (buf (get_slot w s)) ∧
  total_len (buf (get_slot w s)) = SYSVAR_BLOCK_SIZE - SYSVAR_HEAD.

Definition devices_open s : Prop :=
  length (mtd_dev s) = SYSVAR_MTD_DEVICE ∧ Forall (λ fd, 0 ≤ fd) (mtd_dev s).

(** The two partitions of a buffer, which reads see in full. *)
Record partitions (s : lib D) (idx : nat) (fd0 fd1 : Z) : Prop := {
  parts_open : devices_open s;
  parts_fd0 : mtd_dev s !! idx = Some fd0;
  parts_fd1 : mtd_dev s !! (idx + 1)%nat = Some fd1;
  parts_ne : fd0 ≠ fd1;
  parts_len0 : (BLOCK ≤ length (media fd0 (dev s)))%nat;
  parts_len1 : (BLOCK ≤ length (media fd1 (dev s)))%nat;
}.

Lemma ready_data_len w s : ready w s → data_len (buf (get_slot w s)) = SYSVAR_BLOCK_SIZE.
Proof. intros (_ & Hs & Ht). rewrite (shape_total _ Hs), Ht. done. Qed.

Lemma ready_length w s : ready w s → length (data (buf (get_slot w s))) = BLOCK.
Proof.
  intros Hr. pose proof (ready_data_len w s Hr). destruct Hr as (_ & Hs & _).
  pose proof (shape_data _ Hs). unfold BLOCK. lia.
Qed.

Lemma buf_holds_ready w body s : buf_holds w body s → ready w s.
Proof. intros (Hl & Ht & wc & Hi). split_and!; [done|by eapply buf_image_shape|done]. Qed.

Lemma use_buf_eq {A} w (f : sysvar_buf → outcome (A * sysvar_buf)) s a b :
  slot_live w s → f (buf (get_slot w s)) = Ret (a, b) →
  use_buf w f s = Ret (a, set_slot w (Slot b Live Live) s).
Proof. intros. apply use_buf_Ret. eauto. Qed.

Lemma read_buf_eq {A} w (f : sysvar_buf → outcome A) s a :
  slot_live w s → f (buf (get_slot w s)) = Ret a → read_buf w f s = Ret (a, s).
Proof. intros. by apply read_buf_Ret. Qed.

Lemma slot_live_set w b s : slot_live w (set_slot w (Slot b Live Live) s).
Proof. unfold slot_live. by rewrite get_set_slot. Qed.

Lemma buf_set_slot w b s : buf (get_slot w (set_slot w (Slot b Live Live) s)) = b.
Proof. by rewrite get_set_slot. Qed.

Lemma dev_set_slot w x s : dev (set_slot w x s) = dev s.
Proof. by destruct w. Qed.
Lemma mtd_dev_set_slot w x s : mtd_dev (set_slot w x s) = mtd_dev s.
Proof. by destruct w. Qed.
Lemma get_slot_set_dev w d s : get_slot w (set_dev d s) = get_slot w s.
Proof. by destruct w. Qed.

Lemma check_mtd_open s : devices_open s → check_mtd s = Ret (SYSVAR_SUCCESS, s).
Proof.
  intros [Hl Hf]. unfold check_mtd, SYSVAR_MTD_DEVICE in *.
  destruct (mtd_dev s) as [|a [|b [|c [|d [|]]]]] eqn:E; try done.
  rewrite !Forall_cons in Hf. destruct Hf as (Ha & Hb & Hc & Hd & _).
  cbn [check_mtd_loop]. unfold fd_of.
  repeat (rewrite M_bind_unfold, E; cbn [lookup list_lookup];
    rewrite (proj2 (Z.ltb_ge _ _)) by done). done.
Qed.

(** Reading a partition: the state after it differs in the driver state and in
    the data of the buffer. *)
Lemma read_part_eq w i fd s :
  ready w s → mtd_dev s !! i = Some fd →
  ∃ r d dr, read_part w i s
      = Ret (r, set_slot w (Slot (set_data d (buf (get_slot w s))) Live Live) (set_dev dr s)) ∧
    (∀ fd', media fd' dr = media fd' (dev s)) ∧ length d = BLOCK ∧ all_bytes d ∧
    (r = SYSVAR_BLOCK_SIZE → d = take BLOCK (media fd (dev s))) ∧
    r = (mtd_read fd SYSVAR_BLOCK_SIZE (mtd_lseek fd 0 (dev s))).1.1.
Proof.
  intros Hr Hfd. pose proof (ready_data_len w s Hr) as Hdl. pose proof (ready_length w s Hr) as Hlen.
  destruct Hr as (Hl & Hsh & Ht). pose proof (shape_bytes _ Hsh) as Hby.
  set (d0 := data (buf (get_slot w s))) in *.
  destruct (mtd_read fd SYSVAR_BLOCK_SIZE (mtd_lseek fd 0 (dev s))) as [[r bs] dr] eqn:Hread.
  destruct (media_read _ _ _ _ _ _ Hread) as (Hm & Hbs & Hbb).
  assert (length bs ≤ length d0)%nat as Hbs' by (rewrite Hlen; unfold BLOCK; lia).
  exists r, (bs ++ drop (length bs) d0), dr. split_and!.
  - unfold read_part. rewrite (M_bind_eq _ _ _ fd s) by (by apply fd_of_Ret).
    rewrite (M_bind_eq _ _ _ tt (set_dev (mtd_lseek fd SYSVAR_MTD_OFFSET (dev s)) s)) by done.
    rewrite (M_bind_eq _ _ _ SYSVAR_BLOCK_SIZE (set_dev (mtd_lseek fd SYSVAR_MTD_OFFSET (dev s)) s)).
    2: { apply read_buf_eq; [unfold slot_live; by rewrite get_slot_set_dev|].
         rewrite get_slot_set_dev. by rewrite Hdl. }
    rewrite (M_bind_eq _ _ _ (r, bs) (set_dev dr s)).
    2: { apply driver_Ret. exists dr. by rewrite <-Hread. }
    rewrite (M_bind_eq _ _ _ tt
      (set_slot w (Slot (set_data (bs ++ drop (length bs) d0) (buf (get_slot w s))) Live Live) (set_dev dr s))).
    2: { apply use_buf_eq; [unfold slot_live; by rewrite get_slot_set_dev|].
         rewrite get_slot_set_dev. unfold copy_into. fold d0. by rewrite decide_True. }
    done.
  - intros fd'. by rewrite Hm, media_lseek.
  - rewrite length_app, length_drop. lia.
  - apply Forall_app. split; [done|]. by apply Forall_drop.
  - intros ->. destruct (read_full _ _ _ _ _ _ Hread) as [-> Hn]; [apply fpos_lseek|done|].
    rewrite media_lseek in *. rewrite drop_ge by (rewrite Hlen; unfold BLOCK; lia).
    by rewrite app_nil_r.
  - done.
Qed.

(** Checking a buffer against its checksum. *)
Lemma check_load_eq w s :
  ready w s →
  ∃ body wc crc, buf_image (buf (get_slot w s)) body wc crc ∧
    use_buf w (λ b, check_var b SYSVAR_LOAD_MODE) s
    = Ret (if crc =? crc_of body then SYSVAR_SUCCESS else SYSVAR_CRC_ERR,
           set_slot w (Slot (if crc =? crc_of body then set_modified false (buf (get_slot w s))
                             else buf (get_slot w s)) Live Live) s).
Proof.
  intros (Hl & Hsh & Ht). destruct (buf_shape_image _ Hsh) as (body & wc & crc & Hi).
  exists body, wc, crc. split; [done|]. apply use_buf_eq; [done|].
  rewrite (check_var_load_image _ _ _ _ Hi). by destruct (crc =? crc_of body).
Qed.

(** Partition [fd] holds no valid image. *)
Definition part_bad (fd : Z) (d : D) : Prop := ∀ body, ¬ part_holds fd body d.

Lemma image_inj body wc crc body' wc' crc' :
  u32_range wc → u32_range wc' → u32_range crc → u32_range crc' →
  length body = length body' → image body wc crc = image body' wc' crc' →
  body = body' ∧ wc = wc' ∧ crc = crc'.
Proof.
  intros Hw Hw' Hc Hc' Hlen Heq. unfold image in Heq.
  apply app_inj_1 in Heq as [-> Heq]; [|done].
  apply app_inj_1 in Heq as [Hwc Hcrc]; [|by rewrite !length_le_split].
  split_and!; [done| |].
  - rewrite <-(le_combine_split 4 wc), <-(le_combine_split 4 wc') by done. by rewrite Hwc.
  - rewrite <-(le_combine_split 4 crc), <-(le_combine_split 4 crc') by done. by rewrite Hcrc.
Qed.

Lemma image_body_length w body wc crc s :
  ready w s → buf_image (buf (get_slot w s)) body wc crc →
  Z.of_nat (length body) = SYSVAR_BLOCK_SIZE - SYSVAR_HEAD.
Proof. intros (_ & _ & Ht) Hi. by rewrite (image_body _ _ _ _ Hi), Ht. Qed.

Definition body_size (body : bytes) : Prop :=
  Z.of_nat (length body) = SYSVAR_BLOCK_SIZE - SYSVAR_HEAD.

Lemma part_holds_size fd body d : (BLOCK ≤ length (media fd d))%nat →
  part_holds fd body d → body_size body.
Proof.
  intros Hlen (wc & _ & Heq). apply (f_equal length) in Heq.
  rewrite length_take, length_image in Heq. unfold body_size, BLOCK, SYSVAR_HEAD, SYSVAR_WC32, SYSVAR_CRC32 in *.
  lia.
Qed.
End load.

(** Loading from devices whose reads do not fail. *)
Section load_reads.
Context `{HP : CPlatform, HA : Allocator, HG : Garbage} {D : Type} `{!MtdDriver D, !MtdLaws D}.
Implicit Types s : lib D.

Definition reads_ok : Prop := ∀ fd n d,
  fpos fd d = 0 → 0 ≤ n ≤ Z.of_nat (length (media fd d)) → (mtd_read fd n d).1.1 = n.

Context (Hreads : reads_ok).

(** [media] is the same in both states. *)
Definition same_media s s' : Prop := ∀ fd, media fd (dev s') = media fd (dev s).

(** After reading partition [fd], the buffer holds it. *)
Lemma read_part_full w i fd s :
  ready w s → mtd_dev s !! i = Some fd → (BLOCK ≤ length (media fd (dev s)))%nat →
  ∃ s' body wc crc, read_part w i s = Ret (SYSVAR_BLOCK_SIZE, s') ∧
    frame w s s' ∧ ready w s' ∧ same_media s s' ∧
    take BLOCK (media fd (dev s)) = image body wc crc ∧
    buf_image (buf (get_slot w s')) body wc crc ∧
    failed (buf (get_slot w s')) = failed (buf (get_slot w s)).
Proof.
  intros Hr Hfd Hlen. destruct (read_part_eq w i fd s Hr Hfd) as (r & d & dr & Hrun & Hm & Hd & Hby & Hful & Hrr).
  assert (r = SYSVAR_BLOCK_SIZE) as ->.
  { rewrite Hrr. apply Hreads; [apply fpos_lseek|]. rewrite media_lseek. unfold BLOCK in *.
    unfold SYSVAR_BLOCK_SIZE in *. lia. }
  specialize (Hful eq_refl). set (s' := set_slot _ _ _) in Hrun.
  assert (ready w s') as Hr'.
  { destruct Hr as (Hl & [Hs1 Hs2 Hs3 Hs4] & Ht). unfold ready. split; [apply slot_live_set|].
    unfold s'. rewrite buf_set_slot. split; [|done]. split; simpl; try done.
    rewrite Hd, Hs2, Ht. unfold BLOCK, SYSVAR_BLOCK_SIZE, SYSVAR_HEAD, SYSVAR_WC32, SYSVAR_CRC32. lia. }
  destruct (buf_shape_image (buf (get_slot w s'))) as (body & wc & crc & Hi); [apply Hr'|].
  exists s', body, wc, crc. split_and!; try done.
  - eapply frame_trans; [|apply frame_set_slot]. split; [done|]. intros. by rewrite get_slot_set_dev.
  - intros fd'. unfold s'. rewrite dev_set_slot. apply Hm.
  - rewrite <-Hful, <-(image_data _ _ _ _ Hi). unfold s'. by rewrite buf_set_slot.
  - unfold s'. by rewrite buf_set_slot.
Qed.

Lemma ready_set_slot w s b :
  ready w s → data b = data (buf (get_slot w s)) → data_len b = data_len (buf (get_slot w s)) →
  total_len b = total_len (buf (get_slot w s)) → ready w (set_slot w (Slot b Live Live) s).
Proof.
  intros (Hl & [Hs1 Hs2 Hs3 Hs4] & Ht) H1 H2 H3. split; [apply slot_live_set|]. rewrite buf_set_slot.
  split; [|congruence]. split; congruence.
Qed.

Lemma ready_live w s : ready w s → slot_live w s.
Proof. by intros [? _]. Qed.

Definition set_at (j : bool) (x : bool) (f : bool * bool) : bool * bool :=
  if j then (f.1, x) else (x, f.2).

(** What a 64K image says about the partition it was read from. *)
Lemma image_verdict w fd d body wc crc s :
  ready w s → buf_image (buf (get_slot w s)) body wc crc →
  take BLOCK (media fd d) = image body wc crc →
  if crc =? crc_of body then part_holds fd body d else part_bad fd d.
Proof.
  intros Hr Hi Himg. destruct (Z.eqb_spec crc (crc_of body)) as [->|Hne].
  - exists wc. split; [by eapply image_wc|done].
  - intros body' (wc' & Hwc' & Himg'). apply Hne. rewrite Himg in Himg'.
    pose proof (f_equal length Himg') as Hlen. rewrite !length_image in Hlen.
    assert (body = body') as -> by (unfold image in Himg'; by apply app_inj_1 in Himg' as [-> _]; [|lia]).
    apply image_inj in Himg' as (_ & _ & ?); [done|by eapply image_wc|done|by eapply image_crc| |done].
    apply crc_of_range. by eapply image_bytes.
Qed.

Lemma data_load_step_full w i fd j s :
  ready w s → mtd_dev s !! i = Some fd → (BLOCK ≤ length (media fd (dev s)))%nat →
  ∃ s' body x, data_load_step w i j s = Ret (tt, s') ∧
    frame w s s' ∧ ready w s' ∧ same_media s s' ∧
    failed (buf (get_slot w s')) = set_at j x (failed (buf (get_slot w s))) ∧
    (if x then part_bad fd (dev s) else part_holds fd body (dev s) ∧ buf_holds w body s').
Proof.
  intros Hr Hfd Hlen. unfold data_load_step.
  set (b1 := set_failed_at j false (buf (get_slot w s))).
  set (s1 := set_slot w (Slot b1 Live Live) s).
  rewrite (M_bind_eq _ _ _ tt s1) by (by apply use_buf_eq; [apply ready_live|]).
  assert (ready w s1) as Hr1 by (by apply ready_set_slot).
  rewrite (M_bind_eq _ _ _ SYSVAR_BLOCK_SIZE s1).
  2: { apply read_buf_eq; [by apply ready_live|]. by rewrite (ready_data_len w s1). }
  destruct (read_part_full w i fd s1) as (s2 & body & wc & crc & Hrun & Hf2 & Hr2 & Hm2 & Himg & Hi & Hfl);
    [done|by unfold s1; rewrite mtd_dev_set_slot|by unfold s1; rewrite dev_set_slot|].
  unfold s1 in Himg. rewrite dev_set_slot in Himg.
  rewrite (M_bind_eq _ _ _ _ _ Hrun). rewrite Z.eqb_refl. cbn [negb].
  rewrite (M_bind_eq _ _ _ tt s2) by done.
  destruct (check_load_eq w s2 Hr2) as (body' & wc' & crc' & Hi' & Hc).
  rewrite <-(image_data _ _ _ _ Hi), (image_data _ _ _ _ Hi') in Himg.
  pose proof (image_verdict w fd (dev s) _ _ _ s2 Hr2 Hi' Himg) as Hv.
  rewrite (M_bind_eq _ _ _ _ _ Hc).
  assert (frame w s s2) as Hf by (eapply frame_trans; [apply frame_set_slot|done]).
  assert (same_media s s2) as Hm.
  { intros fd'. rewrite Hm2. unfold s1. by rewrite dev_set_slot. }
  unfold s1 in Hfl. rewrite buf_set_slot in Hfl.
  destruct (crc' =? crc_of body') eqn:Hcrc.
  - set (s3 := set_slot w _ s2). exists s3, body', false. split_and!.
    + done.
    + eapply frame_trans; [done|apply frame_set_slot].
    + by apply ready_set_slot.
    + intros fd'. unfold s3. by rewrite dev_set_slot, Hm.
    + unfold s3. rewrite buf_set_slot. simpl. rewrite Hfl. unfold b1, set_failed_at, set_at.
      by destruct j.
    + done.
    + apply Z.eqb_eq in Hcrc as ->. split; [apply slot_live_set|]. unfold s3. rewrite buf_set_slot.
      split; [apply Hr2|]. exists wc'. destruct Hi'. by split.
  - set (s3 := set_slot w _ s2).
    assert (ready w s3) as Hr3 by (by apply ready_set_slot).
    set (s4 := set_slot w (Slot (set_failed_at j true (buf (get_slot w s3))) Live Live) s3).
    exists s4, body', true. split_and!.
    + apply use_buf_eq; [by apply ready_live|done].
    + eapply frame_trans; [done|]. eapply frame_trans; apply frame_set_slot.
    + by apply ready_set_slot.
    + intros fd'. unfold s4, s3. by rewrite !dev_set_slot, Hm.
    + unfold s4, s3. rewrite !buf_set_slot. simpl. rewrite Hfl.
      unfold b1, set_failed_at, set_at. by destruct j.
    + done.
Qed.

(** The two passes of [data_load] over partitions [fd0] and [fd1]. *)
Lemma data_load_full w idx fd0 fd1 s :
  ready w s → partitions s idx fd0 fd1 →
  ∃ s' body0 body1 (x0 x1 : bool),
    data_load w idx s
    = (if x0 || x1 then data_recovery w idx s' else Ret (SYSVAR_SUCCESS, s')) ∧
    frame w s s' ∧ ready w s' ∧ same_media s s' ∧
    failed (buf (get_slot w s')) = (x0, x1) ∧
    (if x0 then part_bad fd0 (dev s) else part_holds fd0 body0 (dev s)) ∧
    (if x1 then part_bad fd1 (dev s) else part_holds fd1 body1 (dev s) ∧ buf_holds w body1 s').
Proof.
  intros Hr [Hopen Hfd0 Hfd1 _ Hl0 Hl1]. unfold data_load.
  set (s1 := set_slot w (Slot (set_loaded true (buf (get_slot w s))) Live Live) s).
  rewrite (M_bind_eq _ _ _ tt s1) by (by apply use_buf_eq; [apply ready_live|]).
  assert (ready w s1) as Hr1 by (by apply ready_set_slot).
  assert (devices_open s1) as Ho1 by (unfold devices_open, s1; by rewrite mtd_dev_set_slot).
  rewrite (M_bind_eq _ _ _ _ _ (check_mtd_open s1 Ho1)).
  change (negb (SYSVAR_SUCCESS =? 0)) with false. cbv iota.
  destruct (data_load_step_full w idx fd0 false s1)
    as (s2 & body0 & x0 & Hrun2 & Hf2 & Hr2 & Hm2 & Hfl2 & Hv0);
    [done|by unfold s1; rewrite mtd_dev_set_slot|by unfold s1; rewrite dev_set_slot|].
  rewrite (M_bind_eq _ _ _ _ _ Hrun2).
  assert (frame w s s2) as Hfr2 by (eapply frame_trans; [apply frame_set_slot|done]).
  unfold s1 in Hv0. rewrite dev_set_slot in Hv0.
  assert (same_media s s2) as Hms2.
  { intros fd. rewrite Hm2. unfold s1. by rewrite dev_set_slot. }
  destruct (data_load_step_full w (idx + 1) fd1 true s2)
    as (s3 & body1 & x1 & Hrun3 & Hf3 & Hr3 & Hm3 & Hfl3 & Hv1);
    [done|by rewrite (proj1 Hfr2)|by rewrite Hms2|].
  rewrite (M_bind_eq _ _ _ _ _ Hrun3).
  rewrite Hfl2 in Hfl3. cbn [set_at fst snd] in Hfl3.
  exists s3, body0, body1, x0, x1. split_and!.
  - erewrite (M_bind_eq _ _ _ _ s3); [|apply read_buf_eq; [by apply ready_live|by rewrite Hfl3]].
    cbn [fst snd]. by destruct (x0 || x1).
  - by eapply frame_trans.
  - done.
  - intros fd. by rewrite Hm3.
  - done.
  - destruct x0; [done|apply Hv0].
  - unfold part_bad, part_holds in *. by rewrite Hms2 in Hv1.
Qed.
End load_reads.

(** Repairing on a device that works. *)
Section recovery.
Context `{HP : CPlatform, HA : Allocator, HG : Garbage} {D : Type}.
Context `{!MtdDriver D, !MtdLaws D, !MtdReliable D}.
Implicit Types s : lib D.

Lemma reliable_reads : reads_ok (D := D).
Proof. exact rel_read. Qed.

Lemma erase_loop_total fuel idx fd len : ∀ start s,
  0 ≤ start → 0 < len ≤ 2 ^ 31 → (Z.to_nat (SYSVAR_BLOCK_SIZE - start) < fuel)%nat →
  ∃ s', erase_loop fuel idx fd start len s = Ret (0, s').
Proof.
  induction fuel as [|fuel IH]; intros start s Hst Hlen Hfuel; [lia|]. cbn [erase_loop].
  destruct (Z.ltb_spec start SYSVAR_BLOCK_SIZE) as [Hlt|]; [|by exists s].
  unfold SYSVAR_BLOCK_SIZE in *.
  destruct (mtd_unlock fd start len (dev s)) as [[res notsupp] d1] eqn:Hu.
  rewrite (M_bind_eq _ _ _ (res, notsupp) (set_dev d1 s)) by (apply driver_Ret; eauto).
  pose proof (rel_unlock fd start len (dev s)) as Hrel. rewrite Hu in Hrel. simpl in Hrel.
  assert (negb (res =? 0) && negb notsupp = false) as ->.
  { destruct Hrel as [->| ->]; [done|]. apply andb_false_r. }
  set (s2 := if res =? 0 then _ else _) at 1.
  assert (∃ s3, s2 (set_dev d1 s) = Ret (tt, s3)) as [s3 H3].
  { unfold s2. destruct (res =? 0); eexists; reflexivity. }
  rewrite (M_bind_eq _ _ _ _ _ H3).
  destruct (mtd_erase fd start len (dev s3)) as [e d4] eqn:He.
  rewrite (M_bind_eq _ _ _ e (set_dev d4 s3)) by (apply driver_Ret; eauto).
  pose proof (rel_erase fd start len (dev s3)) as Hrel'. rewrite He in Hrel'. simpl in Hrel'.
  subst e. cbn [negb Z.eqb]. apply IH.
  - unfold u32. apply Z.mod_pos_bound. lia.
  - done.
  - unfold u32. rewrite Z.mod_small by lia. lia.
Qed.

Lemma erase_mtd_total idx fd s :
  mtd_dev s !! idx = Some fd → ∃ s', erase_mtd idx s = Ret (0, s').
Proof.
  intros Hfd. unfold erase_mtd.
  rewrite (M_bind_eq _ _ _ fd s) by (by apply fd_of_Ret).
  destruct (mtd_getinfo fd (dev s)) as [[r size] d1] eqn:Hg.
  rewrite (M_bind_eq _ _ _ (r, size) (set_dev d1 s)) by (apply driver_Ret; eauto).
  pose proof (rel_getinfo fd (dev s)) as [Hr Hs]. rewrite Hg in Hr, Hs. simpl in Hr, Hs. subst r.
  change (negb (0 =? 0)) with false. cbv iota.
  apply erase_loop_total; [lia|done|]. unfold erase_fuel. rewrite Z.sub_0_r. apply Nat.lt_succ_diag_r.
Qed.

Lemma write_part_total w i fd s :
  ready w s → mtd_dev s !! i = Some fd → (BLOCK ≤ length (media fd (dev s)))%nat →
  ∃ s', write_part w i s = Ret (SYSVAR_BLOCK_SIZE, s').
Proof.
  intros Hr Hfd Hlen. unfold write_part.
  rewrite (M_bind_eq _ _ _ fd s) by (by apply fd_of_Ret).
  rewrite (M_bind_eq _ _ _ tt (set_dev (mtd_lseek fd SYSVAR_MTD_OFFSET (dev s)) s)) by done.
  erewrite M_bind_eq; [|apply read_buf_eq; [unfold slot_live; rewrite get_slot_set_dev; by apply ready_live|done]].
  rewrite get_slot_set_dev, (ready_data_len w s Hr).
  rewrite take_ge by (rewrite (ready_length w s Hr); done).
  set (bs := data _). set (d := mtd_lseek _ _ _).
  destruct (mtd_write fd bs d) as [r d1] eqn:Hw.
  assert (all_bytes bs ∧ length bs ≤ length (media fd d))%nat as [Hby Hle].
  { unfold bs, d. rewrite media_lseek, (ready_length w s Hr). split; [apply Hr|done]. }
  pose proof (rel_write fd bs d (fpos_lseek _ _ _) Hby Hle) as Hrel. rewrite Hw in Hrel. simpl in Hrel.
  unfold bs in Hrel. rewrite (ready_length w s Hr) in Hrel.
  exists (set_dev d1 (set_dev d s)). apply driver_Ret. exists d1. simpl. rewrite Hw, Hrel. done.
Qed.

Lemma check_save_total w body s :
  buf_holds w body s → ∃ s', use_buf w (λ b, check_var b SYSVAR_SAVE_MODE) s = Ret (SYSVAR_SUCCESS, s').
Proof.
  intros (Hl & Ht & wc & Hi). destruct (set_wc32_image _ _ _ _ Hi) as (b' & Hs & _ & _).
  eexists. apply use_buf_eq; [done|]. unfold check_var. simpl. rewrite Hs. done.
Qed.

(** A recovery step that finds a good copy in [fdi] repairs [fdj]. *)
Lemma recovery_step_good w idx i j fdi fdj body s :
  ready w s → mtd_dev s !! i = Some fdi → mtd_dev s !! j = Some fdj → fdi ≠ fdj →
  (BLOCK ≤ length (media fdi (dev s)))%nat → (BLOCK ≤ length (media fdj (dev s)))%nat →
  part_holds fdi body (dev s) →
  ∃ s', recovery_step w idx i j s = Ret (Some SYSVAR_SUCCESS, s') ∧
    buf_holds w body s' ∧ part_holds fdi body (dev s') ∧ part_holds fdj body (dev s') ∧
    loaded (buf (get_slot w s')) = true.
Proof.
  intros Hr Hi Hj Hne Hlen Hlenj Hp. pose proof (part_holds_size _ _ _ Hlen Hp) as Hsize.
  destruct Hp as (wc & Hwc & Himg).
  unfold recovery_step.
  rewrite (M_bind_eq _ _ _ SYSVAR_BLOCK_SIZE s).
  2: { apply read_buf_eq; [by apply ready_live|]. by rewrite (ready_data_len w s). }
  destruct (read_part_full reliable_reads w i fdi s Hr Hi Hlen)
    as (s1 & body' & wc' & crc' & Hrun1 & Hf1 & Hr1 & Hm1 & Himg' & Hb1 & _).
  assert (body' = body ∧ wc' = wc ∧ crc' = crc_of body) as (-> & -> & ->).
  { rewrite Himg in Himg'. pose proof (image_body_length _ _ _ _ _ Hr1 Hb1) as Hbl.
    pose proof (image_bytes _ _ _ _ Hb1).
    assert (length body' = length body) by (unfold body_size in Hsize; lia).
    assert (body = body') as ->.
    { unfold image in Himg'. by apply app_inj_1 in Himg' as [-> _]. }
    symmetry in Himg'. apply image_inj in Himg' as (_ & ? & ?); try done.
    - by eapply image_wc.
    - by eapply image_crc.
    - by apply crc_of_range. }
  rewrite (M_bind_eq _ _ _ _ _ Hrun1). rewrite Z.eqb_refl. cbn [negb].
  destruct (check_load_eq w s1 Hr1) as (body2 & wc2 & crc2 & Hi2 & Hc).
  assert (body2 = body ∧ wc2 = wc ∧ crc2 = crc_of body) as (-> & -> & ->).
  { pose proof (image_body_length _ _ _ _ _ Hr1 Hi2). unfold body_size in Hsize.
    apply image_inj; try (by eapply image_wc); try (by eapply image_crc); [lia|].
    by rewrite <-(image_data _ _ _ _ Hi2), <-(image_data _ _ _ _ Hb1). }
  rewrite Z.eqb_refl in Hc. rewrite (M_bind_eq _ _ _ _ _ Hc). rewrite Z.eqb_refl.
  set (s2 := set_slot w _ s1).
  assert (buf_holds w body s2) as Hh2.
  { split; [apply slot_live_set|]. unfold s2. rewrite buf_set_slot. split; [apply Hr1|].
    exists wc. destruct Hb1. by split. }
  assert (same_media s s2) as Hm2 by (intros fd; unfold s2; by rewrite dev_set_slot, Hm1).
  assert (mtd_dev s2 = mtd_dev s) as Hd2 by (unfold s2; by rewrite mtd_dev_set_slot, (proj1 Hf1)).
  destruct (erase_mtd_total j fdj s2) as [s3 Hrun3]; [by rewrite Hd2|].
  destruct (erase_mtd_run _ _ _ _ fdj Hrun3) as (Hc3 & Ho3 & Her3); [by rewrite Hd2|].
  rewrite (M_bind_eq _ _ _ _ _ Hrun3). change (negb (0 =? 0)) with false. cbv iota.
  apply (buf_holds_core _ _ _ _ Hc3) in Hh2.
  destruct (check_save_total w body s3 Hh2) as [s4 Hrun4].
  destruct (check_save_run _ _ _ _ _ Hrun4 Hh2) as (_ & Hh4 & Hf4 & Hd4).
  rewrite (M_bind_eq _ _ _ _ _ Hrun4). change (negb (SYSVAR_SUCCESS =? 0)) with false. cbv iota.
  assert (mtd_dev s4 = mtd_dev s) as Hds4 by (by rewrite (proj1 Hf4), (core_fds _ _ Hc3)).
  destruct (write_part_total w j fdj s4) as [s5 Hrun5];
    [by eapply buf_holds_ready|by rewrite Hds4| |].
  { rewrite Hd4, (erase_mtd_length _ _ _ _ fdj Hrun3) by (by rewrite Hd2). by rewrite Hm2. }
  destruct (write_part_run _ _ fdj body _ _ _ Hrun5) as (Hc5 & Ho5 & Hw5); [by rewrite Hds4|done|].
  rewrite (M_bind_eq _ _ _ _ _ Hrun5). rewrite Z.eqb_refl. cbn [negb].
  apply (buf_holds_core _ _ _ _ Hc5) in Hh4.
  set (s6 := set_slot w (Slot (set_loaded true (buf (get_slot w s5))) Live Live) s5).
  exists s6. split_and!.
  - rewrite (M_bind_eq _ _ _ tt s6); [done|]. by apply use_buf_eq; [apply Hh4|].
  - destruct Hh4 as (_ & Ht & wc4 & Hi4). split; [apply slot_live_set|].
    unfold s6. rewrite buf_set_slot. split; [done|]. exists wc4. destruct Hi4. by split.
  - exists wc. split; [done|]. unfold s6. rewrite dev_set_slot.
    rewrite Ho5, Hd4, Ho3, Hm2 by done. done.
  - unfold s6. rewrite dev_set_slot. apply Hw5; [done|]. rewrite Hd4. by apply Her3.
  - unfold s6. by rewrite buf_set_slot.
Qed.
End recovery.

Section recovery_bad.
Context `{HP : CPlatform, HA : Allocator, HG : Garbage} {D : Type} `{!MtdDriver D, !MtdLaws D}.
Implicit Types s : lib D.
Context (Hreads : reads_ok (D := D)).

Lemma part_bad_crc w fd d body wc crc s :
  ready w s → part_bad fd d → take BLOCK (media fd d) = image body wc crc →
  buf_image (buf (get_slot w s)) body wc crc → (crc =? crc_of body) = false.
Proof.
  intros Hr Hbad Himg Hi. apply Z.eqb_neq. intros ->. apply (Hbad body).
  exists wc. split; [by eapply image_wc|done].
Qed.

(** A recovery step over a bad partition gives it up without writing. *)
Lemma recovery_step_bad w idx i j fdi s :
  ready w s → mtd_dev s !! i = Some fdi → (BLOCK ≤ length (media fdi (dev s)))%nat →
  part_bad fdi (dev s) →
  ∃ s', recovery_step w idx i j s = Ret (None, s') ∧ frame w s s' ∧ ready w s' ∧ same_media s s'.
Proof.
  intros Hr Hi Hlen Hbad. unfold recovery_step.
  rewrite (M_bind_eq _ _ _ SYSVAR_BLOCK_SIZE s).
  2: { apply read_buf_eq; [by apply ready_live|]. by rewrite (ready_data_len w s). }
  destruct (read_part_full Hreads w i fdi s Hr Hi Hlen)
    as (s1 & body & wc & crc & Hrun1 & Hf1 & Hr1 & Hm1 & Himg & Hb1 & _).
  rewrite (M_bind_eq _ _ _ _ _ Hrun1). rewrite Z.eqb_refl. cbn [negb].
  destruct (check_load_eq w s1 Hr1) as (body2 & wc2 & crc2 & Hi2 & Hc).
  assert (take BLOCK (media fdi (dev s)) = image body2 wc2 crc2) as Himg2.
  { by rewrite Himg, <-(image_data _ _ _ _ Hi2), <-(image_data _ _ _ _ Hb1). }
  rewrite (part_bad_crc _ _ _ _ _ _ _ Hr1 Hbad Himg2 Hi2) in Hc.
  rewrite (M_bind_eq _ _ _ _ _ Hc). change (SYSVAR_CRC_ERR =? SYSVAR_SUCCESS) with false. cbv iota.
  eexists. split; [reflexivity|]. split_and!.
  - eapply frame_trans; [done|apply frame_set_slot].
  - by apply ready_set_slot.
  - intros fd. by rewrite dev_set_slot, Hm1.
Qed.

(** [recovery_err] leaves an empty image and reports success. *)
Lemma recovery_err_eq w idx s :
  ready w s →
  let body := replicate (Z.to_nat (SYSVAR_BLOCK_SIZE - SYSVAR_HEAD)) 0xff in
  ∃ s', recovery_err w idx s = Ret (SYSVAR_SUCCESS, s') ∧ buf_holds w body s' ∧ dev s' = dev s.
Proof.
  intros Hr body. destruct Hr as (Hl & Hs & Ht).
  destruct (clear_buf_image _ Hs) as (b & Hclear & Hb & Hi). rewrite Ht in Hi, Hb. fold body in Hi, Hb.
  unfold recovery_err.
  rewrite (M_bind_eq _ _ _ tt (set_slot w (Slot b Live Live) s)).
  2: { apply use_buf_eq; [done|]. by rewrite Hclear. }
  destruct (print_err (lit "recover MTD device ") (Z.of_nat idx) (set_slot w (Slot b Live Live) s)) as [[[] s']| |] eqn:Hp;
    [|done..].
  apply print_err_core in Hp as Hc. destruct Hc as [Hc Hd].
  rewrite (M_bind_eq _ _ _ _ _ Hp). exists s'. split; [done|]. split.
  - eapply buf_holds_core; [done|]. split; [apply slot_live_set|]. rewrite buf_set_slot.
    split; [by rewrite Hb|]. by exists 0.
  - by rewrite Hd, dev_set_slot.
Qed.
End recovery_bad.

(** ** Redundancy *)

Section redundancy.
Context `{HP : CPlatform, HA : Allocator, HG : Garbage} {D : Type} `{!MtdDriver D, !MtdLaws D}.
Implicit Types s : lib D.

Definition empty_body : bytes :=
  replicate (Z.to_nat (SYSVAR_BLOCK_SIZE - SYSVAR_HEAD)) 0xff.

Lemma part_holds_same fd body s s' :
  same_media s s' → part_holds fd body (dev s) → part_holds fd body (dev s').
Proof. unfold part_holds. by intros ->. Qed.
Lemma part_bad_same fd s s' : same_media s s' → part_bad fd (dev s) → part_bad fd (dev s').
Proof. unfold part_bad, part_holds. by intros ->. Qed.

Lemma part_holds_unique fd body body' d :
  part_holds fd body d → part_holds fd body' d → body = body'.
Proof.
  intros (wc & Hw & H1) (wc' & Hw' & H2). rewrite H1 in H2.
  pose proof (f_equal length H2) as Hlen. rewrite !length_image in Hlen.
  unfold image in H2. by apply app_inj_1 in H2 as [-> _]; [|lia].
Qed.

(** When the device of the bad copy cannot be queried for its erase size, a
    recovery step from a good copy gives up. *)
Lemma recovery_step_unrepaired w idx i j fdi fdj body s :
  reads_ok (D := D) → (∀ d, (mtd_getinfo fdj d).1.1 ≠ 0) →
  ready w s → mtd_dev s !! i = Some fdi → mtd_dev s !! j = Some fdj →
  (BLOCK ≤ length (media fdi (dev s)))%nat → part_holds fdi body (dev s) →
  ∃ s', recovery_step w idx i j s = Ret (Some SYSVAR_SUCCESS, s') ∧
    buf_holds w empty_body s' ∧ same_media s s'.
Proof.
  intros Hreads Hfail Hr Hi Hj Hlen Hp. unfold recovery_step.
  rewrite (M_bind_eq _ _ _ SYSVAR_BLOCK_SIZE s).
  2: { apply read_buf_eq; [by apply ready_live|]. by rewrite (ready_data_len w s). }
  destruct (read_part_full Hreads w i fdi s Hr Hi Hlen)
    as (s1 & body1 & wc1 & crc1 & Hrun1 & Hf1 & Hr1 & Hm1 & Himg1 & Hb1 & _).
  rewrite (M_bind_eq _ _ _ _ _ Hrun1). rewrite Z.eqb_refl. cbn [negb].
  destruct (check_load_eq w s1 Hr1) as (body2 & wc2 & crc2 & Hi2 & Hc).
  rewrite <-(image_data _ _ _ _ Hb1), (image_data _ _ _ _ Hi2) in Himg1.
  pose proof (image_verdict w fdi (dev s) _ _ _ s1 Hr1 Hi2 Himg1) as Hv.
  destruct (crc2 =? crc_of body2) eqn:Hcrc; [|by destruct (Hv body)].
  rewrite (M_bind_eq _ _ _ _ _ Hc). rewrite Z.eqb_refl.
  set (s2 := set_slot w _ s1).
  assert (ready w s2) as Hr2 by (by apply ready_set_slot).
  assert (mtd_dev s2 !! j = Some fdj) as Hj2 by (by unfold s2; rewrite mtd_dev_set_slot, (proj1 Hf1)).
  destruct (mtd_getinfo fdj (dev s2)) as [[r size] d3] eqn:Hg.
  pose proof (Hfail (dev s2)) as Hne. rewrite Hg in Hne. simpl in Hne.
  destruct (print_err (lit "getinfo MTD device ") (Z.of_nat j) (set_dev d3 s2)) as [[[] s3]| |] eqn:Hp3; [|done..].
  assert (erase_mtd j s2 = Ret (SYSVAR_ERASE_ERR, s3)) as He.
  { unfold erase_mtd. rewrite (M_bind_eq _ _ _ fdj s2) by (by apply fd_of_Ret).
    rewrite (M_bind_eq _ _ _ (r, size) (set_dev d3 s2)) by (apply driver_Ret; eauto).
    destruct (Z.eqb_spec r 0); [done|]. cbn [negb]. by rewrite (M_bind_eq _ _ _ _ _ Hp3). }
  rewrite (M_bind_eq _ _ _ _ _ He). change (negb (SYSVAR_ERASE_ERR =? 0)) with true. cbv iota.
  apply print_err_core in Hp3 as [Hc3 Hd3].
  assert (ready w s3) as Hr3.
  { destruct Hr2 as (? & ? & ?). unfold ready, slot_live.
    rewrite (same_core_slot w _ _ Hc3), get_slot_set_dev. done. }
  destruct (recovery_err_eq w idx s3 Hr3) as (s4 & Hrun4 & Hh4 & Hd4).
  exists s4. split_and!.
  - unfold fmap, M_fmap. by rewrite Hrun4.
  - exact Hh4.
  - intros fd. rewrite Hd4, Hd3. simpl. rewrite (media_getinfo _ _ _ _ Hg).
    unfold s2. by rewrite dev_set_slot, Hm1.
Qed.

Lemma data_save_run w i0 i1 fd0 fd1 body s r s' :
  buf_holds w body s → mtd_dev s !! i0 = Some fd0 → mtd_dev s !! i1 = Some fd1 → fd0 ≠ fd1 →
  data_save w i0 i1 s = Ret (r, s') →
  (r = SYSVAR_SUCCESS → part_holds fd0 body (dev s') ∧ part_holds fd1 body (dev s')) ∧
  (part_holds fd0 body (dev s') ∨ media fd1 (dev s') = media fd1 (dev s)) ∧
  (∀ fd, fd ≠ fd0 → fd ≠ fd1 → media fd (dev s') = media fd (dev s)).
Proof.
  intros Hb H0 H1 Hne Hrun. unfold data_save in Hrun. run_step Hrun.
  assert (x0 = s ∨ (same_core s x0 ∧ dev x0 = dev s ∧ x ≠ 0)) as Hcheck.
  { clear -Hrun0. unfold check_mtd in Hrun0. revert Hrun0. generalize SYSVAR_MTD_DEVICE.
    intros n. generalize 0%nat. induction n as [|n IH]; intros i Hrun; cbn [check_mtd_loop] in Hrun.
    - injection Hrun as _ <-. by left.
    - run_step Hrun. apply fd_of_Ret in Hrun0 as [_ ->]. destruct (x1 <? 0); [|by eapply IH].
      run_step Hrun. injection Hrun as <- <-. right. apply print_err_core in Hrun0 as [? ?].
      by split_and!. }
  destruct (Z.eqb_spec x 0) as [->|]; cbn [negb] in Hrun.
  2: { injection Hrun as <- <-.
       assert (∀ fd, media fd (dev x0) = media fd (dev s)) as Hm.
       { destruct Hcheck as [->|(_ & -> & _)]; done. }
       split_and!; [done|by right|auto]. }
  destruct Hcheck as [->|(_ & _ & ?)]; [|done].
  run_step Hrun.
  destruct (data_save_step_run _ _ _ _ _ _ _ Hrun1 H0 Hb) as (Hf1 & Hb1 & Ho1 & Hr1).
  destruct x as [c|].
  { injection Hrun as <- <-. split_and!; [done|right; auto|auto]. }
  run_step Hrun. rewrite <-(proj1 Hf1) in H1.
  destruct (data_save_step_run _ _ _ _ _ _ _ Hrun2 H1 Hb1) as (Hf2 & Hb2 & Ho2 & Hr2).
  assert (part_holds fd0 body (dev x1)) as Hp0 by (unfold part_holds; rewrite Ho2 by done; exact Hr1).
  assert (∀ fd, fd ≠ fd0 → fd ≠ fd1 → media fd (dev x1) = media fd (dev s)) as Ho.
  { intros. by rewrite Ho2, Ho1. }
  destruct x as [c|]; injection Hrun as <- <-; (split; [|split; [left; exact Hp0|exact Ho]]).
  + intros Hc. destruct (Hr2 Hc).
  + intros _. split; [exact Hp0|exact Hr2].
Qed.

Lemma data_load_two w idx fd0 fd1 body0 body1 s :
  reads_ok (D := D) → ready w s → partitions s idx fd0 fd1 →
  part_holds fd0 body0 (dev s) → part_holds fd1 body1 (dev s) →
  ∃ s', data_load w idx s = Ret (SYSVAR_SUCCESS, s') ∧ buf_holds w body1 s' ∧
    failed (buf (get_slot w s')) = (false, false) ∧ same_media s s' ∧ frame w s s'.
Proof.
  intros Hreads Hr Hp H0 H1.
  destruct (data_load_full Hreads w idx fd0 fd1 s Hr Hp)
    as (s' & b0 & b1 & x0 & x1 & Hrun & Hf & Hr' & Hm & Hfl & Hv0 & Hv1).
  destruct x0; [by destruct (Hv0 body0)|]. destruct x1; [by destruct (Hv1 body1)|].
  destruct Hv1 as [Hv1 Hb]. rewrite (part_holds_unique _ _ _ _ Hv1 H1) in Hb.
  exists s'. by split_and!.
Qed.


(** With two valid copies [data_load] succeeds without writing and the buffer
    ends up with the second one, whatever the two write counters are. *)
Theorem data_load_both_valid w idx fd0 fd1 body0 body1 s :
  reads_ok (D := D) → ready w s → partitions s idx fd0 fd1 →
  part_holds fd0 body0 (dev s) → part_holds fd1 body1 (dev s) →
  ∃ s', data_load w idx s = Ret (SYSVAR_SUCCESS, s') ∧ buf_holds w body1 s' ∧
    failed (buf (get_slot w s')) = (false, false) ∧ same_media s s' ∧ frame w s s'.
Proof. apply data_load_two. Qed.

End redundancy.

(** C29: A single lost copy is repaired.  When exactly one of the two partitions
    holds a valid image, on a device that works [data_load] succeeds, the buffer
    holds the records of the valid one, and afterwards both partitions do. *)
Theorem data_load_survives_one_loss `{HP : CPlatform, HA : Allocator, HG : Garbage} {D : Type}
    `{!MtdDriver D, !MtdLaws D, !MtdReliable D} w idx fd0 fd1 body (s : lib D) :
  ready w s → partitions s idx fd0 fd1 →
  (part_holds fd0 body (dev s) ∧ part_bad fd1 (dev s)) ∨
  (part_bad fd0 (dev s) ∧ part_holds fd1 body (dev s)) →
  ∃ s', data_load w idx s = Ret (SYSVAR_SUCCESS, s') ∧ buf_holds w body s' ∧
    part_holds fd0 body (dev s') ∧ part_holds fd1 body (dev s').
Proof.
  intros Hr Hp Hone.
  destruct (data_load_full reliable_reads w idx fd0 fd1 s Hr Hp)
    as (s' & b0 & b1 & x0 & x1 & Hrun & Hf & Hr' & Hm & Hfl & Hv0 & Hv1).
  destruct Hp as [Hopen Hfd0 Hfd1 Hne Hl0 Hl1]. rewrite <-(proj1 Hf) in Hfd0, Hfd1.
  destruct Hone as [[H0 H1]|[H0 H1]].
  - destruct x0; [by destruct (Hv0 body)|].
    destruct x1; [|destruct Hv1 as [Hv1 _]; by destruct (H1 b1)].
    destruct (recovery_step_good w idx idx (idx + 1) fd0 fd1 body s')
      as (s2 & Hrun2 & Hb2 & Hp0 & Hp1 & _); [done..|by rewrite Hm|by rewrite Hm|by eapply part_holds_same|].
    exists s2. rewrite Hrun. cbn [orb]. split; [|split; [exact Hb2|split; assumption]].
    unfold data_recovery. by rewrite (M_bind_eq _ _ _ _ _ Hrun2).
  - destruct x0; [|by destruct (H0 b0)]. clear Hv0.
    destruct (recovery_step_bad reliable_reads w idx idx (idx + 1) fd0 s')
      as (s2 & Hrun2 & Hf2 & Hr2 & Hm2); [done|done|by rewrite Hm|by eapply part_bad_same|].
    rewrite <-(proj1 Hf2) in Hfd0, Hfd1.
    destruct (recovery_step_good w idx (idx + 1) idx fd1 fd0 body s2)
      as (s3 & Hrun3 & Hb3 & Hp1 & Hp0 & _); [done..|by rewrite Hm2, Hm|by rewrite Hm2, Hm| |].
    { eapply part_holds_same; [done|]. by eapply part_holds_same. }
    exists s3. rewrite Hrun. cbn [orb]. split; [|split; [exact Hb3|split; assumption]].
    unfold data_recovery. rewrite (M_bind_eq _ _ _ _ _ Hrun2). by rewrite (M_bind_eq _ _ _ _ _ Hrun3).
Qed.
