(* ===== verification/SysvarStore.v ===== *)
(** * The variable store: what sysvar_lib.c promises its callers

    An abstract store (two finite maps), the simulation between it and the library
    state, and what survives a power cycle.  The abstract operations are what the
    command-line tool [sysvar_cmd] relies on. *)

From S2P Require Import Prelude Crc32 Sysvar SysvarImage SysvarLib.
From stdpp Require Import gmap.
Open Scope Z_scope.

(** ** The abstract store *)

(** Variables are identified by the first 32 characters of their names. *)
Definition key_of (name : bytes) : bytes := take NAME_LEN name.

Record store := Store {
  st_ro : gmap bytes bytes;
  st_rw : gmap bytes bytes;
}.

Definition spec_get (st : store) (name : bytes) : option bytes :=
  match st_ro st !! key_of name with
  | Some v => Some v
  | None => st_rw st !! key_of name
  end.

(** [mem]: the two allocations of a new variable succeed. *)
Definition spec_add (mem : bool) (st : store) (name value : bytes) : Z * store :=
  if bool_decide (NAME_LEN < length name)%nat then (SYSVAR_PARAM_ERR, st)
  else if mem then (SYSVAR_SUCCESS, Store (st_ro st) (<[key_of name := value]> (st_rw st)))
  else (SYSVAR_MEMORY_ERR, st).

Definition spec_set (mem : bool) (st : store) (name value : option bytes) : Z * store :=
  match name with
  | None => (SYSVAR_SUCCESS, Store (st_ro st) ∅)
  | Some name =>
      match st_ro st !! key_of name with
      | Some _ => (SYSVAR_READONLY_ERR, st)
      | None =>
          let st' := Store (st_ro st) (delete (key_of name) (st_rw st)) in
          match value, st_rw st !! key_of name with
          | Some value, _ => spec_add mem st' name value
          | None, Some _ => (SYSVAR_SUCCESS, st')
          | None, None => (SYSVAR_EXISTED_ERR, st)
          end
      end
  end.

(** ** The simulation relation *)

Section store.
Context `{HP : CPlatform, HA : Allocator, HG : Garbage} {D : Type} `{!MtdDriver D}.
Implicit Types s : lib D.

Record store_of s (st : store) : Prop := {
  so_open : devices_open s;
  so_rw_live : slot_live RW s;
  so_ro_live : slot_live RO s;
  so_wf : list_wf (heap_of s) (buf (rw_buf s));
  so_ro : ∃ l, holds (vars (buf (ro_buf s))) l ∧ st_ro st = list_to_map l;
  so_rw : ∃ l, holds (vars (buf (rw_buf s))) l ∧ NoDup l.*1 ∧ st_rw st = list_to_map l;
}.

(** *** Looking names up *)

Lemma var_ok_match v n x name :
  var_ok v n x → is_cstr name → strncmp_eq NAME_LEN (var_name v) name = true ↔ n = key_of name.
Proof.
  intros Hok Hn. rewrite (ok_name _ _ _ Hok), strncmp_eq_strncpy
    by eauto using is_cstr_nonul, ok_cname.
  unfold key_of. by rewrite (take_ge n) by apply (ok_name_len _ _ _ Hok).
Qed.

Lemma no_match_not_in vs l name :
  holds vs l → is_cstr name → Forall (λ w, strncmp_eq NAME_LEN (var_name w) name = false) vs →
  key_of name ∉ l.*1.
Proof.
  intros Hl Hn. induction Hl as [|w [m y] vs1 l1 Hw _ IH]; intros Hall Hin;
    [by apply elem_of_nil in Hin|].
  apply Forall_cons in Hall as [Hne Hall].
  apply elem_of_cons in Hin as [Hm|Hin]; [|by apply IH].
  simpl in Hm. by rewrite (proj2 (var_ok_match w m y name Hw Hn)) in Hne.
Qed.

(** [find_var] against the list seen as a finite map. *)
Lemma find_var_map b l name :
  holds (vars b) l → is_cstr name →
  match find_var b (Some name) with
  | Some v => ∃ x vs1 vs2 l1 l2, (list_to_map l : gmap bytes bytes) !! key_of name = Some x ∧
      var_ok v (key_of name) x ∧
      vars b = vs1 ++ v :: vs2 ∧ l = l1 ++ (key_of name, x) :: l2 ∧
      holds vs1 l1 ∧ holds vs2 l2
  | None => (list_to_map l : gmap bytes bytes) !! key_of name = None
  end.
Proof.
  intros Hl Hn. destruct (find_var b (Some name)) as [v|] eqn:Hf.
  - apply find_var_spec in Hf as (vs1 & vs2 & Hvs & Heq & Hall). rewrite Hvs in Hl.
    apply Forall2_app_inv_l in Hl as (l1 & l2' & H1 & H2 & ->).
    apply Forall2_cons_inv_l in H2 as ([n x] & l2 & Hok & H2 & ->).
    apply (var_ok_match v n x name Hok Hn) in Heq as ->.
    exists x, vs1, vs2, l1, l2. split_and!; [|done|done|done|done|done].
    rewrite list_to_map_app. apply lookup_union_Some_raw. right. split.
    + apply not_elem_of_list_to_map_1. by eapply no_match_not_in.
    + simpl. apply lookup_insert_eq.
  - apply find_var_none in Hf. apply not_elem_of_list_to_map_1. by eapply no_match_not_in.
Qed.

(** *** Changing the read-write list *)

Definition with_rw (h : heap) (b : sysvar_buf) s : lib D := set_heap h (set_slot RW (Slot b Live Live) s).

Lemma store_of_rw h b s st l :
  store_of s st → list_wf h b → holds (vars b) l → NoDup l.*1 →
  store_of (with_rw h b s) (Store (st_ro st) (list_to_map l)).
Proof. intros [] Hwf Hl Hd. split; try done. by exists l. Qed.

Lemma NoDup_middle (l1 l2 : list (bytes * bytes)) k x :
  NoDup (l1 ++ (k, x) :: l2).*1 →
  NoDup (l1 ++ l2).*1 ∧
  delete k (list_to_map (l1 ++ (k, x) :: l2)) = (list_to_map (l1 ++ l2) : gmap bytes bytes).
Proof.
  intros Hd. assert (l1 ++ (k, x) :: l2 ≡ₚ (k, x) :: l1 ++ l2) as Hp
    by (symmetry; apply Permutation_middle).
  rewrite (list_to_map_proper _ _ Hd Hp). rewrite Hp in Hd. simpl in Hd.
  apply NoDup_cons in Hd as [Hni Hd]. split; [done|]. simpl.
  apply delete_insert_id. by apply not_elem_of_list_to_map_1.
Qed.

Lemma sim_delete s st name :
  store_of s st → is_cstr name →
  match find_var (buf (rw_buf s)) (Some name) with
  | Some v => ∃ s' x, st_rw st !! key_of name = Some x ∧
      use_buf RW (λ b, Ret (delete_var b v)) s = Ret (SYSVAR_SUCCESS, s') ∧
      dev s' = dev s ∧ heap_of s' = heap_of s ∧
      store_of s' (Store (st_ro st) (delete (key_of name) (st_rw st)))
  | None => st_rw st !! key_of name = None
  end.
Proof.
  intros Hst Hn. destruct (so_rw _ _ Hst) as (l & Hl & Hd & Hrw).
  pose proof (find_var_map _ _ _ Hl Hn) as Hf. rewrite Hrw.
  destruct (find_var _ _) as [v|]; [|done].
  destruct Hf as (x & vs1 & vs2 & l1 & l2 & Hx & Hok & Hvs & -> & H1 & H2).
  destruct (delete_var_ok _ _ _ _ _ (so_wf _ _ Hst) Hvs) as [Hdel Hwf].
  apply NoDup_middle in Hd as [Hd Hm].
  exists (with_rw (heap_of s) (delete_var (buf (rw_buf s)) v).2 s), x. split_and!; try done.
  - apply use_buf_Ret. split; [apply Hst|]. eexists. split; [simpl; by rewrite Hdel|].
    rewrite Hdel. by unfold with_rw.
  - rewrite Hm, Hdel. by eapply store_of_rw; [|done|apply Forall2_app|].
Qed.

Lemma is_cstr_key name : is_cstr name → (length name ≤ NAME_LEN)%nat → key_of name = name.
Proof. intros. by apply take_ge. Qed.

Lemma sim_add s st name value :
  store_of s st → is_cstr name → is_cstr value → st_rw st !! key_of name = None →
  let '(r, st') := spec_add (malloc_ok (heap_of s) && malloc_ok (S (heap_of s))) st name value in
  ∃ s', lib_set_var name value s = Ret (r, s') ∧ dev s' = dev s ∧ store_of s' st'.
Proof.
  intros Hst Hn Hv Hnew. unfold spec_add.
  assert (∀ r h' b', set_var (heap_of s) (buf (rw_buf s)) name value = Ret (r, (h', b')) →
    lib_set_var name value s = Ret (r, with_rw h' b' s)) as Hrun.
  { intros r h' b' Hset. apply on_buf_Ret. split; [apply Hst|]. eauto. }
  assert (∀ h', (heap_of s ≤ h')%nat → store_of (with_rw h' (buf (rw_buf s)) s) st) as Hsame.
  { intros h' Hle. destruct st as [ro rw], (so_rw _ _ Hst) as (l & Hl & Hd & Hrw).
    simpl in Hrw. subst rw. eapply (store_of_rw _ _ _ (Store ro _)); try done.
    eapply list_wf_heap; [done|apply Hst]. }
  case_bool_decide as Hlen.
  - assert (SYSVAR_NAME < strlen name) as Hlong by (unfold SYSVAR_NAME, strlen, NAME_LEN in *; lia).
    eexists. rewrite (Hrun _ _ _ (set_var_too_long _ _ _ _ Hlong)). split_and!; [done|done|].
    by apply Hsame.
  - assert (strlen name ≤ SYSVAR_NAME) as Hle by (unfold SYSVAR_NAME, strlen, NAME_LEN in *; lia).
    destruct (_ && _) eqn:Hm.
    + apply andb_true_iff in Hm as [Hm1 Hm2].
      destruct (set_var_ok (heap_of s) (buf (rw_buf s)) name value Hn Hv Hle Hm1 Hm2)
        as (v & Hset & Hok & Ha).
      eexists. rewrite (Hrun _ _ _ Hset). split_and!; [done|done|].
      destruct (so_rw _ _ Hst) as (l & Hl & Hd & Hrw).
      assert (key_of name ∉ l.*1) as Hni
        by (apply (not_elem_of_list_to_map_2 (M := gmap bytes)); by rewrite <-Hrw).
      assert (<[key_of name := value]> (st_rw st) = list_to_map (l ++ [(name, value)])) as ->.
      { rewrite Hrw, is_cstr_key in * by (try done; lia). by rewrite list_to_map_snoc. }
      eapply store_of_rw; [done| | |].
      * apply (list_wf_heap (S (heap_of s))); [lia|]. apply list_wf_append; [apply Hst|done|].
        rewrite (ok_len _ _ _ Hok). unfold strlen. lia.
      * apply Forall2_app; [done|]. constructor; [done|constructor].
      * rewrite fmap_app. apply NoDup_app. split_and!; [done| |apply NoDup_singleton].
        intros y Hy ->%list_elem_of_singleton. rewrite is_cstr_key in Hni by (try done; lia). done.
    + destruct (set_var_no_memory (heap_of s) (buf (rw_buf s)) name value Hle Hm) as (h' & Hset & Hh).
      eexists. rewrite (Hrun _ _ _ Hset). split_and!; [done|done|]. by apply Hsame.
Qed.

Lemma ro_lookup s st name :
  store_of s st → is_cstr name →
  match find_var (buf (ro_buf s)) (Some name) with
  | Some v => ∃ x, st_ro st !! key_of name = Some x ∧ var_ok v (key_of name) x
  | None => st_ro st !! key_of name = None
  end.
Proof.
  intros Hst Hn. destruct (so_ro _ _ Hst) as (l & Hl & ->).
  pose proof (find_var_map _ _ _ Hl Hn) as Hf.
  destruct (find_var _ _); [|done]. destruct Hf as (x & ? & ? & ? & ? & ? & ? & _). by exists x.
Qed.

Lemma read_find w s name :
  slot_live w s →
  read_buf w (λ b, Ret (find_var b (Some name))) s
  = Ret (find_var (buf (get_slot w s)) (Some name), s).
Proof. intros. by apply read_buf_Ret. Qed.

Lemma check_open s st : store_of s st → check_mtd s = Ret (SYSVAR_SUCCESS, s).
Proof. intros []. by apply check_mtd_open. Qed.

(** The simulation diagram of [setvar]. *)
Lemma setvar_sim s st name value :
  store_of s st → (if name is Some n then is_cstr n else True) →
  (if value is Some v then is_cstr v else True) →
  let '(r, st') :=
    spec_set (malloc_ok (heap_of s) && malloc_ok (S (heap_of s))) st name value in
  ∃ s', setvar name value s = Ret (r, s') ∧ dev s' = dev s ∧ store_of s' st'.
Proof.
  intros Hst Hn Hv. unfold setvar, spec_set. 
  destruct name as [name|].
  2: { eexists. rewrite (M_bind_eq _ _ _ _ _ (check_open _ _ Hst)).
       change (negb (SYSVAR_SUCCESS =? 0)) with false. cbv iota. split_and!.
       - apply use_buf_Ret. split; [apply Hst|]. eexists. split; [|done].
         by rewrite (clear_var_spec (heap_of s)) by apply Hst.
       - done.
       - pose proof (list_step_wf _ _ _ _ (so_wf _ _ Hst) (step_clear _ _)) as Hwf.
         rewrite (clear_var_spec (heap_of s)) in Hwf by apply Hst.
         destruct Hst. split; try done. exists []. split_and!; [constructor|constructor|done]. }
  pose proof (ro_lookup _ _ _ Hst Hn) as Hro.
  pose proof (sim_delete _ _ _ Hst Hn) as Hrw.
  rewrite (M_bind_eq _ _ _ _ _ (check_open _ _ Hst)).
  change (negb (SYSVAR_SUCCESS =? 0)) with false. cbv iota.
  rewrite (M_bind_eq _ _ _ _ _ (read_find RO _ name (so_ro_live _ _ Hst))).
  change (get_slot RO s) with (ro_buf s).
  destruct (find_var (buf (ro_buf s)) _) as [v|].
  { destruct Hro as (x & -> & _). cbv iota beta. exists s. by split_and!. }
  rewrite Hro, (M_bind_eq _ _ _ _ _ (read_find RW _ name (so_rw_live _ _ Hst))).
  change (get_slot RW s) with (rw_buf s).
  destruct (find_var (buf (rw_buf s)) _) as [v|].
  - destruct Hrw as (s1 & x & Hx & Hdel & Hdev & Hh & Hst1).
    rewrite (M_bind_eq _ _ _ _ _ Hdel). change (negb (SYSVAR_SUCCESS =? SYSVAR_SUCCESS)) with false.
    cbv iota. rewrite Hx. destruct value as [value|]; [|cbv iota beta; exists s1; by split_and!].
    pose proof (sim_add _ _ name value Hst1 Hn Hv (lookup_delete_eq _ _)) as Hadd.
    rewrite Hh in Hadd. destruct (spec_add _ _ _ _) as [r st'].
    destruct Hadd as (s2 & Hs2 & Hd2 & Hst2). exists s2. split_and!; [done|congruence|done].
  - rewrite Hrw. destruct value as [value|]; [|cbv iota beta; exists s; by split_and!].
    rewrite (delete_id _ _ Hrw).
    pose proof (sim_add _ _ name value Hst Hn Hv Hrw) as Hadd.
    destruct st as [ro rw]. simpl. exact Hadd.
Qed.

(** [getvar] answers what the abstract store holds. *)
Lemma getvar_sim s st name name_arr value_arr len :
  store_of s st → is_cstr name → 0 < len ≤ Z.of_nat (length value_arr) →
  (NAME_LEN ≤ length name_arr)%nat →
  getvar (Some (name, name_arr)) value_arr len s =
  Ret (match spec_get st name with
       | Some v => (SYSVAR_SUCCESS, strncpy (Z.to_nat len) v ++ drop (Z.to_nat len) value_arr)
       | None => (SYSVAR_GET_ERR, value_arr)
       end, s).
Proof.
  intros Hst Hn Hlen Hna. unfold getvar, spec_get.
  rewrite (M_bind_eq _ _ _ _ _ (check_open _ _ Hst)).
  change (negb (SYSVAR_SUCCESS =? 0)) with false. cbv iota.
  assert (∀ v x, var_ok v (key_of name) x →
    get_var v name_arr value_arr len =
    Ret (SYSVAR_SUCCESS, strncpy NAME_LEN (var_name v) ++ drop NAME_LEN name_arr,
         strncpy (Z.to_nat len) x ++ drop (Z.to_nat len) value_arr)) as Hget.
  { intros v x Hok. unfold get_var. rewrite (proj2 (Z.leb_gt _ _)) by lia.
    unfold copy_into. rewrite !length_strncpy, decide_True by lia. cbn [mbind outcome_bind].
    rewrite (ok_value _ _ _ Hok), length_strncpy, decide_True by lia. done. }
  pose proof (ro_lookup _ _ _ Hst Hn) as Hro.
  rewrite (M_bind_eq _ _ _ _ _ (read_find RO _ name (so_ro_live _ _ Hst))).
  change (get_slot RO s) with (ro_buf s).
  destruct (find_var (buf (ro_buf s)) _) as [v|].
  { destruct Hro as (x & -> & Hok). rewrite (M_bind_eq _ _ _ (Some v) s) by done.
    erewrite M_bind_eq; [|unfold lift; by rewrite (Hget _ _ Hok)]. done. }
  rewrite Hro, (M_bind_eq _ _ _ _ _ (read_find RW _ name (so_rw_live _ _ Hst))).
  change (get_slot RW s) with (rw_buf s).
  destruct (so_rw _ _ Hst) as (l & Hl & _ & ->).
  pose proof (find_var_map _ _ _ Hl Hn) as Hf.
  destruct (find_var (buf (rw_buf s)) _) as [v|]; [|by rewrite Hf].
  destruct Hf as (x & ? & ? & ? & ? & -> & Hok & _).
  erewrite M_bind_eq; [|unfold lift; by rewrite (Hget _ _ Hok)]. done.
Qed.
End store.

(** ** Loading leaves the variable lists alone until [load_var] *)

Section keep_lists.
Context `{HP : CPlatform, HA : Allocator, HG : Garbage} {D : Type} `{!MtdDriver D}.
Implicit Types s : lib D.

Definition list_fields (b : sysvar_buf) :=
  (total_len b, free_len b, used_len b, readonly b, vars b).

Definition same_lists s s' : Prop :=
  heap_of s' = heap_of s ∧ mtd_dev s' = mtd_dev s ∧
  ∀ w, list_fields (buf (get_slot w s')) = list_fields (buf (get_slot w s)).

#[local] Instance same_lists_refl : Reflexive same_lists.
Proof. intros s. by split_and!. Qed.
#[local] Instance same_lists_trans : Transitive same_lists.
Proof. intros s1 s2 s3 (? & ? & H1) (? & ? & H2). split_and!; [congruence..|]. intros. by rewrite H2. Qed.

Lemma keeps_driver {A} (f : D → A * D) : keeps same_lists (driver f).
Proof. intros s a s' (d & _ & ->)%driver_Ret. split_and!; [done..|]. by intros []. Qed.
Lemma keeps_driver_ (f : D → D) : keeps same_lists (driver_ f).
Proof. intros s a s' [= _ <-]. split_and!; [done..|]. by intros []. Qed.
Lemma keeps_fd_of i : keeps same_lists (fd_of i).
Proof. by intros s a s' [_ ->]%fd_of_Ret. Qed.
Lemma keeps_print_err what i : keeps same_lists (print_err what i).
Proof. intros s a s' [->| ->]%print_err_Ret; [done|]. split_and!; [done..|]. by intros []. Qed.
Lemma keeps_read_buf {A} w (f : sysvar_buf → outcome A) : keeps same_lists (read_buf w f).
Proof. by intros s a s' (_ & _ & ->)%read_buf_Ret. Qed.
Lemma keeps_use_buf {A} w (f : sysvar_buf → outcome (A * sysvar_buf)) :
  (∀ b a b', f b = Ret (a, b') → list_fields b' = list_fields b) → keeps same_lists (use_buf w f).
Proof.
  intros Hf s a s' (_ & b & Hb & ->)%use_buf_Ret. apply Hf in Hb.
  split_and!; [by destruct w..|]. intros w'. destruct (decide (w' = w)) as [->|].
  - by rewrite get_set_slot.
  - by rewrite get_set_slot_ne.
Qed.

Lemma check_var_fields b mode a b' : check_var b mode = Ret (a, b') → list_fields b' = list_fields b.
Proof.
  unfold check_var, set_wc32, set_crc32. repeat case_if; intros; simplify_out; simpl; try done.
  all: repeat match goal with H : (if ?c then _ else _) = Ret _ |- _ => destruct c end;
    by simplify_out; simplify_eq.
Qed.
Lemma clear_buf_fields b b' : clear_buf b = Ret b' → list_fields b' = list_fields b.
Proof. unfold clear_buf, set_wc32, set_crc32. intros. by simplify_out. Qed.

#[local] Hint Resolve keeps_driver keeps_driver_ keeps_fd_of keeps_print_err keeps_read_buf : keeps_db.
#[local] Hint Extern 1 (keeps _ (use_buf _ _)) => apply keeps_use_buf; intros ??? Hb;
  first [by injection Hb as _ <- | by eapply check_var_fields
        | by apply outcome_bind_Ret in Hb as (? & _ & Hb); injection Hb as _ <-] : keeps_db.

Lemma keeps_check_mtd : keeps same_lists check_mtd.
Proof.
  unfold check_mtd. generalize SYSVAR_MTD_DEVICE. intros n. generalize 0%nat.
  induction n as [|n IH]; intros i; cbn [check_mtd_loop]; keeps_auto.
Qed.

Lemma keeps_read_part w i : keeps same_lists (read_part w i).
Proof. unfold read_part. keeps_auto. Qed.

Lemma keeps_data_load_step w i j : keeps same_lists (data_load_step w i j).
Proof. pose proof keeps_read_part. unfold data_load_step. keeps_auto. Qed.

Lemma keeps_modify_lists f :
  (∀ s, heap_of (f s) = heap_of s ∧ mtd_dev (f s) = mtd_dev s ∧ rw_buf (f s) = rw_buf s ∧
    ro_buf (f s) = ro_buf s) → keeps same_lists (modify f).
Proof.
  intros Hf. apply keeps_modify. intros s. destruct (Hf s) as (? & ? & H1 & H2).
  split_and!; [done..|]. intros []; simpl; by rewrite ?H1, ?H2.
Qed.
#[local] Hint Extern 1 (keeps _ (modify _)) => apply keeps_modify_lists; done : keeps_db.

Lemma keeps_erase_mtd idx : keeps same_lists (erase_mtd idx).
Proof.
  assert (∀ n fd st len, keeps same_lists (erase_loop n idx fd st len)) as Hloop.
  { intros n. induction n as [|n IH]; intros; cbn [erase_loop]; [by intros ?|]. keeps_auto. }
  unfold erase_mtd. generalize erase_fuel. intros n. keeps_auto.
Qed.

Lemma keeps_write_part w i : keeps same_lists (write_part w i).
Proof. unfold write_part. keeps_auto. Qed.

Lemma keeps_recovery_err w idx : keeps same_lists (recovery_err w idx).
Proof.
  unfold recovery_err. keeps_auto. apply keeps_use_buf. intros b a b' H.
  apply outcome_bind_Ret in H as (b1 & Hc & [= _ <-]). by apply clear_buf_fields in Hc.
Qed.

Lemma keeps_recovery_step w idx i j : keeps same_lists (recovery_step w idx i j).
Proof.
  pose proof keeps_read_part. pose proof keeps_erase_mtd. pose proof keeps_write_part.
  pose proof keeps_recovery_err. unfold recovery_step. keeps_auto.
Qed.

Lemma keeps_data_load w idx : keeps same_lists (data_load w idx).
Proof.
  pose proof keeps_data_load_step. pose proof keeps_check_mtd.
  pose proof keeps_recovery_step. pose proof keeps_recovery_err.
  unfold data_load, data_recovery. keeps_auto.
Qed.
End keep_lists.

(** ** Saving on a device that works, and loading after a restart *)

Section persist.
Context `{HP : CPlatform, HA : Allocator, HG : Garbage} {D : Type}.
Context `{!MtdDriver D, !MtdLaws D, !MtdReliable D}.
Implicit Types s : lib D.

Lemma data_save_step_total w i fd body s :
  buf_holds w body s → mtd_dev s !! i = Some fd → (BLOCK ≤ length (media fd (dev s)))%nat →
  ∃ s', data_save_step w i s = Ret (None, s').
Proof.
  intros Hb Hfd Hlen. unfold data_save_step.
  destruct (erase_mtd_total i fd s Hfd) as [s1 Hr1].
  destruct (erase_mtd_run _ _ _ _ _ Hr1 Hfd) as (Hc1 & _ & _).
  pose proof (erase_mtd_length _ _ _ _ _ Hr1 Hfd) as Hl1.
  rewrite (M_bind_eq _ _ _ _ _ Hr1). change (negb (0 =? 0)) with false. cbv iota.
  apply (buf_holds_core _ _ _ _ Hc1) in Hb.
  destruct (check_save_total w body s1 Hb) as [s2 Hr2].
  destruct (check_save_run _ _ _ _ _ Hr2 Hb) as (_ & Hb2 & Hf2 & Hd2).
  rewrite (M_bind_eq _ _ _ _ _ Hr2). change (negb (SYSVAR_SUCCESS =? 0)) with false. cbv iota.
  rewrite (M_bind_eq _ _ _ SYSVAR_BLOCK_SIZE s2).
  2: { apply read_buf_eq; [apply Hb2|]. by rewrite (buf_holds_data_len _ _ _ Hb2). }
  destruct (write_part_total w i fd s2) as [s3 Hr3].
  - by eapply buf_holds_ready.
  - by rewrite (proj1 Hf2), (core_fds _ _ Hc1).
  - by rewrite Hd2, Hl1.
  - rewrite (M_bind_eq _ _ _ _ _ Hr3), Z.eqb_refl. by exists s3.
Qed.

Lemma data_save_total w i0 i1 fd0 fd1 body s :
  buf_holds w body s → devices_open s → mtd_dev s !! i0 = Some fd0 → mtd_dev s !! i1 = Some fd1 →
  fd0 ≠ fd1 → (BLOCK ≤ length (media fd0 (dev s)))%nat → (BLOCK ≤ length (media fd1 (dev s)))%nat →
  ∃ s', data_save w i0 i1 s = Ret (SYSVAR_SUCCESS, s').
Proof.
  intros Hb Ho H0 H1 Hne Hl0 Hl1. unfold data_save.
  rewrite (M_bind_eq _ _ _ _ _ (check_mtd_open s Ho)).
  change (negb (SYSVAR_SUCCESS =? 0)) with false. cbv iota.
  destruct (data_save_step_total w i0 fd0 body s Hb H0 Hl0) as [s1 Hr1].
  destruct (data_save_step_run _ _ _ _ _ _ _ Hr1 H0 Hb) as (Hf1 & Hb1 & Ho1 & _).
  rewrite (M_bind_eq _ _ _ _ _ Hr1).
  destruct (data_save_step_total w i1 fd1 body s1 Hb1) as [s2 Hr2].
  - by rewrite (proj1 Hf1).
  - by rewrite Ho1.
  - rewrite (M_bind_eq _ _ _ _ _ Hr2). by exists s2.
Qed.

Definition TOTAL : Z := SYSVAR_BLOCK_SIZE - SYSVAR_HEAD.

(** [savevar] puts the encoding of the list on both read-write partitions. *)
Lemma savevar_run s l fd0 fd1 :
  ready RW s → partitions s 0 fd0 fd1 → holds (vars (buf (rw_buf s))) l →
  encode_size l ≤ TOTAL → encode_size l ≤ used_len (buf (rw_buf s)) →
  ∃ s', savevar s = Ret (SYSVAR_SUCCESS, s') ∧
    part_holds fd0 (encode_body TOTAL l) (dev s') ∧
    part_holds fd1 (encode_body TOTAL l) (dev s') ∧
    (∀ fd, fd ≠ fd0 → fd ≠ fd1 → media fd (dev s') = media fd (dev s)).
Proof.
  intros (Hlive & Hsh & Ht) [Hopen H0 H1 Hne Hl0 Hl1] Hl Hcap Hu. simpl in Ht. fold TOTAL in Ht.
  destruct (save_var_image (buf (rw_buf s)) l Hsh Hl) as (b' & Hsave & -> & Hi);
    [by rewrite Ht|done|]. rewrite Ht in Hsave, Hi.
  unfold savevar. set (b2 := set_modified true _) in Hsave.
  set (s1 := set_slot RW (Slot b2 Live Live) s).
  rewrite (M_bind_eq _ _ _ SYSVAR_SUCCESS s1) by (by apply use_buf_eq).
  change (negb (SYSVAR_SUCCESS =? 0)) with false. cbv iota.
  assert (buf_holds RW (encode_body TOTAL l) s1) as Hb.
  { split; [apply slot_live_set|]. split; [exact Ht|]. exists 0xffffffff. destruct Hi. by split. }
  rewrite (M_bind_eq _ _ _ (failed b2) s1) by (by apply read_buf_eq; [apply slot_live_set|]).
  destruct (failed b2).2.
  - destruct (data_save_total RW 1 0 fd1 fd0 _ s1 Hb Hopen H1 H0 (not_eq_sym Hne) Hl1 Hl0) as [s2 Hrun].
    destruct (data_save_run RW 1 0 fd1 fd0 (encode_body TOTAL l) s1 _ _ Hb H1 H0 (not_eq_sym Hne) Hrun)
      as (Hok & _ & Ho).
    exists s2. destruct (Hok eq_refl). split; [exact Hrun|]. split; [assumption|].
    split; [assumption|]. intros. by rewrite Ho.
  - destruct (data_save_total RW 0 1 fd0 fd1 _ s1 Hb Hopen H0 H1 Hne Hl0 Hl1) as [s2 Hrun].
    destruct (data_save_run RW 0 1 fd0 fd1 (encode_body TOTAL l) s1 _ _ Hb H0 H1 Hne Hrun)
      as (Hok & _ & Ho).
    exists s2. destruct (Hok eq_refl). split; [exact Hrun|]. split; [assumption|].
    split; [assumption|]. intros. by rewrite Ho.
Qed.

Lemma load_loop_heap fuel : ∀ i h b ret ret' h' b',
  load_loop fuel i h b ret = Ret (ret', (h', b')) → (h ≤ h')%nat.
Proof.
  induction fuel as [|fuel IH]; intros i h b ret ret' h' b'; [done|]. cbn [load_loop].
  destruct (_ && _); [|by intros [= <- <- <-]].
  intros (c & _ & Hr)%outcome_bind_Ret. destruct (c =? 255); [by injection Hr as <- <- <-|].
  apply outcome_bind_Ret in Hr as (name & _ & Hr).
  apply outcome_bind_Ret in Hr as (hi & _ & Hr). apply outcome_bind_Ret in Hr as (lo & _ & Hr).
  destruct (_ || _); [by injection Hr as <- <- <-|]. unfold malloc in Hr.
  destruct (malloc_ok h); [|injection Hr as <- <- <-; lia].
  apply outcome_bind_Ret in Hr as (value & _ & Hr).
  apply outcome_bind_Ret in Hr as (n' & _ & Hr). apply outcome_bind_Ret in Hr as (v' & _ & Hr).
  apply outcome_bind_Ret in Hr as ([r [h1 b1]] & Hset & Hr). apply IH in Hr.
  unfold set_var, malloc in Hset. repeat case_match; injection Hset as <- <- <-; lia.
Qed.

Lemma load_var_heap h b ret h' b' : load_var h b = Ret (ret, (h', b')) → (h ≤ h')%nat.
Proof. unfold load_var. destruct (clear_var b). apply load_loop_heap. Qed.

(** [data_load] of two identical copies, then [load_var]. *)
Lemma load_half w idx fd0 fd1 l s :
  ready w s → partitions s idx fd0 fd1 → list_wf (heap_of s) (buf (get_slot w s)) →
  Forall savable l → encode_size l ≤ TOTAL → (∀ k, malloc_ok k = true) →
  part_holds fd0 (encode_body TOTAL l) (dev s) → part_holds fd1 (encode_body TOTAL l) (dev s) →
  ∃ s1 s2, data_load w idx s = Ret (SYSVAR_SUCCESS, s1) ∧ lib_load_var w s1 = Ret (SYSVAR_SUCCESS, s2) ∧
    holds (vars (buf (get_slot w s2))) l ∧ mtd_dev s2 = mtd_dev s ∧ same_media s s2 ∧
    (heap_of s ≤ heap_of s2)%nat ∧ (∀ w', w' ≠ w → get_slot w' s2 = get_slot w' s).
Proof.
  intros Hr Hp Hwf Hs Hcap Hm H0 H1.
  destruct (data_load_two w idx fd0 fd1 _ _ s reliable_reads Hr Hp H0 H1)
    as (s1 & Hrun & (Hl1 & Ht1 & wc & Hi1) & _ & Hm1 & Hfr1).
  destruct (keeps_data_load w idx _ _ _ Hrun) as (Hh1 & Hd1 & Hf1).
  pose proof (Hf1 w) as Hfw. injection Hfw as Htot Hfree Hused _ Hvars.
  destruct (load_var_encode (heap_of s1) (buf (get_slot w s1)) l
    (le_split 4 wc ++ le_split 4 (crc_of (encode_body TOTAL l)))) as (h' & vs & Hvs & Hload).
  - destruct Hwf. rewrite Hh1. split; rewrite ?Htot, ?Hfree, ?Hused, ?Hvars; done.
  - done.
  - by rewrite Ht1.
  - rewrite (image_data _ _ _ _ Hi1), Ht1. done.
  - done.
  - eexists s1, _. split; [done|]. split.
    + apply on_buf_Ret. split; [done|]. eauto.
    + rewrite <-Hh1. apply load_var_heap in Hload as Hle. split_and!.
      * by destruct w.
      * by destruct w.
      * intros fd. rewrite <-Hm1. by destruct w.
      * by destruct w.
      * intros w' Hne. rewrite <-(proj2 Hfr1 w' Hne). by destruct w, w'.
Qed.

Lemma part_holds_full fd l d :
  Forall savable l → encode_size l ≤ TOTAL → part_holds fd (encode_body TOTAL l) d →
  (BLOCK ≤ length (media fd d))%nat.
Proof.
  intros Hs Hcap (wc & _ & Heq). apply (f_equal length) in Heq.
  rewrite length_take, length_image in Heq.
  assert (Z.of_nat (length (encode_body TOTAL l)) = TOTAL) as Hlen.
  { apply encode_body_length; [|done]. eapply Forall_impl; [exact Hs|]. by intros ? (_ & _ & ? & _). }
  unfold TOTAL, BLOCK, SYSVAR_BLOCK_SIZE, SYSVAR_HEAD, SYSVAR_WC32, SYSVAR_CRC32 in *. lia.
Qed.

(** A library state whose buffers have just been initialised by [open_mtd]. *)
Record restarted s : Prop := {
  re_rw : ready RW s;
  re_ro : ready RO s;
  re_rw_wf : list_wf (heap_of s) (buf (rw_buf s));
  re_ro_wf : list_wf (heap_of s) (buf (ro_buf s));
}.

End persist.

(** ** Any history of calls *)

Definition set_op : Type := option bytes * option bytes.

Definition set_op_ok (op : set_op) : Prop :=
  (if op.1 is Some n then is_cstr n else True) ∧ (if op.2 is Some v then is_cstr v else True).
#[export] Instance set_op_ok_dec op : Decision (set_op_ok op).
Proof. unfold set_op_ok. destruct op.1, op.2; apply _. Defined.

Fixpoint spec_run (st : store) (ops : list set_op) : list Z * store :=
  match ops with
  | [] => ([], st)
  | (name, value) :: ops =>
      let '(r, st) := spec_set true st name value in
      let '(rs, st) := spec_run st ops in (r :: rs, st)
  end.

Section history.
Context `{HP : CPlatform, HA : Allocator, HG : Garbage} {D : Type} `{!MtdDriver D}.
Implicit Types s : lib D.

Fixpoint run_sets (ops : list set_op) : M (lib D) (list Z) :=
  match ops with
  | [] => mret []
  | (name, value) :: ops =>
      r ← setvar name value;
      rs ← run_sets ops;
      mret (r :: rs)
  end.

(** C4: The library implements the store.  Any sequence of [setvar] calls, the
    failing ones included, answers the codes of the abstract store and leaves a
    state that represents it: a later [getvar] of any name returns the value the
    abstract store holds (cut and padded to the caller's buffer), or
    SYSVAR_GET_ERR when it holds none, and leaves the state alone. *)
Theorem store_history_refines s st ops name name_arr value_arr len :
  store_of s st → (∀ k, malloc_ok k = true) → Forall set_op_ok ops →
  is_cstr name → 0 < len ≤ Z.of_nat (length value_arr) → (NAME_LEN ≤ length name_arr)%nat →
  ∃ s', run_sets ops s = Ret ((spec_run st ops).1, s') ∧ dev s' = dev s ∧
    store_of s' (spec_run st ops).2 ∧
    getvar (Some (name, name_arr)) value_arr len s' =
    Ret (match spec_get (spec_run st ops).2 name with
         | Some v => (SYSVAR_SUCCESS, strncpy (Z.to_nat len) v ++ drop (Z.to_nat len) value_arr)
         | None => (SYSVAR_GET_ERR, value_arr)
         end, s').
Proof.
  intros Hst Hm Hops Hn Hlen Hna. revert s st Hst.
  induction Hops as [|[n v] ops [Hok1 Hok2] _ IH]; intros s st Hst.
  - exists s. split_and!; [done|done|done|]. by apply getvar_sim.
  - pose proof (setvar_sim s st n v Hst Hok1 Hok2) as Hset. rewrite !Hm in Hset.
    cbn [andb] in Hset. cbn [spec_run run_sets].
    destruct (spec_set true st n v) as [r st1]. destruct Hset as (s1 & Hrun & Hdev & Hst1).
    destruct (IH s1 st1 Hst1) as (s2 & Hrun2 & Hdev2 & Hst2 & Hget).
    destruct (spec_run st1 ops) as [rs st2]. exists s2. split_and!; [|congruence|done|done].
    rewrite (M_bind_eq _ _ _ _ _ Hrun). by rewrite (M_bind_eq _ _ _ _ _ Hrun2).
Qed.

(** A rejected name still deletes.  Setting a name longer than 32 characters
    fails with SYSVAR_PARAM_ERR, but only after the existing variable whose name
    is its first 32 characters has been deleted. *)
Theorem setvar_overlong_deletes s st name value old :
  store_of s st → is_cstr name → is_cstr value → (NAME_LEN < length name)%nat →
  st_ro st !! key_of name = None → st_rw st !! key_of name = Some old →
  ∃ s', setvar (Some name) (Some value) s = Ret (SYSVAR_PARAM_ERR, s') ∧
    store_of s' (Store (st_ro st) (delete (key_of name) (st_rw st))).
Proof.
  intros Hst Hn Hv Hlen Hro Hrw.
  pose proof (setvar_sim s st (Some name) (Some value) Hst Hn Hv) as Hset.
  unfold spec_set, spec_add in Hset. rewrite Hro, bool_decide_true in Hset by done.
  destruct Hset as (s' & Hrun & _ & Hst'). by exists s'.
Qed.
End history.
