(* ===== verification/SysvarFlash.v ===== *)
(** * A NOR flash with four partitions

    An implementation of the driver interface of [SysvarLib]: reads and writes at a
    file position, writes that can only clear bits, erases that set them.  The
    theorems about the library are applied to it at concrete states. *)

From S2P Require Import Prelude Crc32 Sysvar SysvarImage SysvarLib SysvarStore.
From stdpp Require Import gmap.
Open Scope Z_scope.

(** [fl_dead fd]: the device does not answer MEMGETINFO. *)
Class FlashFaults := fl_dead : Z → bool.

Record flash := Flash {
  chip : Z → bytes;
  pos : Z → Z;
}.

Definition upd {A} (f : Z → A) (k : Z) (x : A) : Z → A := λ k', if decide (k' = k) then x else f k'.

(** What the cells hold is read back as bytes. *)
Definition cells (fd : Z) (d : flash) : bytes := u8 <$> chip d fd.

Definition flash_read (fd n : Z) (d : flash) : (Z * bytes) * flash :=
  let bs := take (Z.to_nat n) (drop (Z.to_nat (pos d fd)) (cells fd d)) in
  ((Z.of_nat (length bs), bs), Flash (chip d) (upd (pos d) fd (pos d fd + Z.of_nat (length bs)))).

(** Programming can only turn ones into zeros. *)
Fixpoint program (old new : bytes) : bytes :=
  match old, new with
  | o :: old, n :: new => Z.land o n :: program old new
  | old, [] => old
  | [], _ => []
  end.

Definition flash_write (fd : Z) (bs : bytes) (d : flash) : Z * flash :=
  let c := cells fd d in
  let p := Z.to_nat (pos d fd) in
  let n := Z.min (Z.of_nat (length bs)) (Z.of_nat (length c - p)) in
  (n, Flash (upd (chip d) fd (take p c ++ program (drop p c) bs))
            (upd (pos d) fd (pos d fd + n))).

Definition erase_range (st len : Z) (c : bytes) : bytes :=
  imap (λ i x, if decide (st ≤ Z.of_nat i < st + len) then 0xff else x) c.

#[export] Instance flash_driver `{!FlashFaults} : MtdDriver flash := {|
  mtd_open i d := (Z.of_nat i + 3, d);
  mtd_lseek fd off d := Flash (chip d) (upd (pos d) fd off);
  mtd_read := flash_read;
  mtd_write := flash_write;
  mtd_getinfo fd d := ((if fl_dead fd then -1 else 0, 65536), d);
  mtd_unlock fd st len d := ((-1, true), d);
  mtd_erase fd st len d := (0, Flash (upd (chip d) fd (erase_range st len (cells fd d))) (pos d));
  mtd_lock fd st len d := (-1, d);
  mtd_close fd d := d;
|}.

Lemma upd_eq {A} (f : Z → A) k x : upd f k x k = x.
Proof. unfold upd. by rewrite decide_True. Qed.
Lemma upd_ne {A} (f : Z → A) k k' x : k' ≠ k → upd f k x k' = f k'.
Proof. intros. unfold upd. by rewrite decide_False. Qed.

Lemma cells_bytes fd d : all_bytes (cells fd d).
Proof. apply Forall_fmap, Forall_true. intros. apply u8_byte. Qed.

Lemma u8_bytes (l : bytes) : all_bytes l → u8 <$> l = l.
Proof. induction 1 as [|b l Hb _ IH]; [done|]. cbn. by rewrite IH, u8_id. Qed.

Lemma program_erased old new :
  (length new ≤ length old)%nat → all_bytes new → Forall (eq 0xff) (take (length new) old) →
  take (length new) (u8 <$> program old new) = new.
Proof.
  revert old. induction new as [|n new IH]; intros [|o old] Hlen Hb He; simpl in *; [done|done|lia|].
  apply Forall_cons in Hb as [Hn Hb]. apply Forall_cons in He as [<- He].
  rewrite IH by (try done; lia). f_equal. rewrite Z.land_comm.
  change 255 with (Z.ones 8). rewrite Z.land_ones by lia. rewrite Z.mod_small by exact Hn. by apply u8_id.
Qed.

Lemma length_program old new : length (program old new) = length old.
Proof. revert new. induction old as [|o old IH]; intros [|n new]; simpl; [done..|]. by rewrite IH. Qed.

Lemma erase_range_lookup st len c i x :
  (u8 <$> erase_range st len (u8 <$> c)) !! i = Some x →
  ((st ≤ Z.of_nat i < st + len → x = 0xff) ∧
   (¬ st ≤ Z.of_nat i < st + len → (u8 <$> c) !! i = Some x)).
Proof.
  unfold erase_range. rewrite list_lookup_fmap, list_lookup_imap, list_lookup_fmap.
  destruct (c !! i) as [y|]; [|done]. simpl. intros [= <-].
  case_decide; split; intros; try done. by rewrite (u8_id (u8 y)) by apply u8_byte.
Qed.

#[export] Program Instance flash_laws `{!FlashFaults} : MtdLaws flash := {|
  media := cells;
  fpos fd d := pos d fd;
|}.
Next Obligation. done. Qed.
Next Obligation. intros. simpl. by rewrite upd_eq. Qed.
Next Obligation.
  intros ? fd n d r bs d' [= <- <- <-]. split_and!; [done| |].
  - rewrite length_take. lia.
  - apply Forall_take, Forall_drop, cells_bytes.
Qed.
Next Obligation.
  intros ? fd n d r bs d' [= <- <- <-] -> Hn. rewrite drop_0 in *. by split.
Qed.
Next Obligation.
  intros ? fd bs d r d' [= _ <-] fd' Hne. unfold cells. simpl. by rewrite upd_ne.
Qed.
Next Obligation.
  intros ? fd bs d r d' [= <- <-] Hp Hb Hr He. unfold cells at 1. simpl. rewrite upd_eq, Hp in *.
  simpl. rewrite drop_0 in *. apply program_erased; [lia|done|done].
Qed.
Next Obligation. by intros ? fd d r d' [= _ <-]. Qed.
Next Obligation. intros. simpl. lia. Qed.
Next Obligation. by intros ? fd st len d r d' [= _ <-]. Qed.
Next Obligation.
  intros ? fd st len d r d' [= _ <-] fd' Hne. unfold cells. simpl. by rewrite upd_ne.
Qed.
Next Obligation.
  intros ? fd st len d r d' [= _ <-]. unfold cells at 1. simpl. rewrite upd_eq.
  unfold erase_range. by rewrite length_fmap, length_imap.
Qed.
Next Obligation.
  intros ? fd st len d d' [= <-] i x. unfold cells. simpl. rewrite upd_eq. apply erase_range_lookup.
Qed.

(** Without dead devices the flash is reliable. *)
Definition no_faults : FlashFaults := λ _, false.

Lemma flash_reads `{!FlashFaults} : reads_ok (D := flash).
Proof.
  intros fd n d Hp Hn. cbn in *. rewrite Hp. simpl. rewrite drop_0, length_take. lia.
Qed.

#[export] Instance flash_reliable : @MtdReliable flash (@flash_driver no_faults) (@flash_laws no_faults).
Proof.
  split.
  - apply flash_reads.
  - intros fd bs d Hp _ Hlen. cbn in *. rewrite Hp. lia.
  - intros fd d. cbn. lia.
  - intros fd st len d. by right.
  - done.
Qed.

(** ** Concrete states *)

Definition empty_chip : bytes := image empty_body 0 (crc_of empty_body).
Definition sn_body : bytes := encode_body TOTAL [(demo_name, demo_value)].
Definition valid_chip (body : bytes) : bytes := image body 0 (crc_of body).
(** The checksum of [body] with its lowest bit flipped. *)
Definition broken_chip (body : bytes) : bytes := image body 0 (Z.lxor (crc_of body) 1).

Definition demo_flash (c3 c4 c5 c6 : bytes) : flash :=
  Flash (λ fd, if fd =? 3 then c3 else if fd =? 4 then c4 else if fd =? 5 then c5 else c6) (λ _, 0).

Definition blank_data : bytes := replicate (Z.to_nat SYSVAR_BLOCK_SIZE) 0.

Definition demo_slot (d : bytes) (used : Z) (vs : list sysvar_list) : slot :=
  Slot {| data := d; data_len := SYSVAR_BLOCK_SIZE; total_len := TOTAL; free_len := TOTAL - used;
          used_len := used; loaded := false; modified := false; readonly := false;
          failed := (false, false); vars := vs |} Live Live.

Definition demo_lib (d : flash) (rw ro : slot) : lib flash :=
  Lib d [3; 4; 5; 6] [false; false; false; false] rw ro false 100 [].

Lemma savable_demo : Forall savable [(demo_name, demo_value)].
Proof. constructor; [|constructor]. apply (bool_decide_unpack _). by vm_compute. Defined.

Lemma empty_body_ok : body_size empty_body ∧ all_bytes empty_body.
Proof.
  unfold body_size, empty_body. rewrite length_replicate. split; [|by apply Forall_replicate].
  unfold SYSVAR_BLOCK_SIZE, SYSVAR_HEAD, SYSVAR_WC32, SYSVAR_CRC32. lia.
Qed.

Lemma sn_body_ok : body_size sn_body ∧ all_bytes sn_body.
Proof.
  split.
  - apply encode_body_length; [|by vm_compute].
    constructor; [simpl; unfold NAME_LEN; lia|constructor].
  - apply Forall_app. split; [|by apply Forall_replicate].
    apply (encode_bytes [demo_var]). constructor; [apply demo_var_ok|constructor].
Qed.

Section demo.
Context `{!FlashFaults}.

Lemma cells_image fd d body crc :
  all_bytes body → chip d fd = image body 0 crc → cells fd d = image body 0 crc.
Proof. intros Hb Hc. unfold cells. rewrite Hc. apply u8_bytes. by apply image_all_bytes. Qed.

Lemma image_block body wc crc : body_size body → length (image body wc crc) = BLOCK.
Proof.
  unfold body_size. rewrite length_image. unfold BLOCK, SYSVAR_HEAD, SYSVAR_WC32, SYSVAR_CRC32. lia.
Qed.

Lemma take_cells fd d body crc :
  body_size body → all_bytes body → chip d fd = image body 0 crc →
  take BLOCK (media fd d) = image body 0 crc ∧ (BLOCK ≤ length (media fd d))%nat.
Proof.
  intros Hs Hb Hc. change (media fd d) with (cells fd d). rewrite (cells_image fd d body crc) by done.
  rewrite <-(image_block body 0 crc) by done. split; [by apply take_ge|done].
Qed.

Lemma valid_holds fd d body :
  body_size body ∧ all_bytes body → chip d fd = valid_chip body → part_holds fd body d.
Proof. intros [Hs Hb] Hc. exists 0. split; [done|]. by apply take_cells. Qed.

Lemma broken_bad fd d body :
  body_size body ∧ all_bytes body → chip d fd = broken_chip body → part_bad fd d.
Proof.
  intros [Hs Hb] Hc body' Hp. destruct (take_cells fd d _ _ Hs Hb Hc) as [Heq Hlen].
  pose proof (part_holds_size fd body' d Hlen Hp) as Hs'. destruct Hp as (wc & Hwc & Hp).
  rewrite Heq in Hp. pose proof (crc_of_range body Hb) as Hr. unfold body_size in *.
  assert (body = body') as <- by (unfold image in Hp; by apply app_inj_1 in Hp as [? _]; [|lia]).
  assert (u32_range (Z.lxor (crc_of body) 1)) as Hx by (apply u32_lxor; done).
  apply image_inj in Hp as (_ & _ & Hcrc); [|done..].
  apply (f_equal (Z.lxor (crc_of body))) in Hcrc.
  by rewrite <-Z.lxor_assoc, Z.lxor_nilpotent in Hcrc.
Qed.

Lemma demo_ready w d used vs x :
  get_slot w x = demo_slot d used vs → length d = BLOCK → all_bytes d → ready (D := flash) w x.
Proof.
  intros Hx Hl Hb. unfold ready, slot_live. rewrite Hx. split; [done|]. split; [|done].
  split; simpl; [|done|done|done]. rewrite Hl. apply Z2Nat.id. done.
Qed.

Lemma blank_block : length blank_data = BLOCK.
Proof. unfold blank_data. by rewrite length_replicate. Qed.
Lemma blank_bytes : all_bytes blank_data.
Proof. by apply Forall_replicate. Qed.
Lemma blank_ready w x : get_slot w x = demo_slot blank_data 0 [] → ready (D := flash) w x.
Proof. intros Hx. exact (demo_ready w _ _ _ x Hx blank_block blank_bytes). Qed.

Lemma blank_wf : list_wf 100 (buf (demo_slot blank_data 0 [])).
Proof. generalize blank_data. intros d. split; simpl; try done; constructor. Qed.

Lemma demo_holds w (x : lib flash) body :
  get_slot w x = demo_slot (valid_chip body) 0 [] → body_size body ∧ all_bytes body →
  buf_holds w body x.
Proof.
  intros Hx [Hs Hb]. unfold buf_holds, slot_live. rewrite Hx. unfold demo_slot.
  cbn [buf data_ptr list_ptr total_len]. split; [done|]. split; [done|]. exists 0.
  split; cbn [data data_len total_len]; [done|exact Hs|done|exact Hb|done|by apply crc_of_range].
Qed.

Lemma demo_open (d : flash) rw ro : devices_open (demo_lib d rw ro).
Proof. split; [done|]. by repeat constructor. Qed.

Lemma chip_len fd d body crc :
  body_size body ∧ all_bytes body → chip d fd = image body 0 crc →
  (BLOCK ≤ length (media fd d))%nat.
Proof. intros [? ?] Hc. by eapply take_cells. Qed.
End demo.

Lemma empty_body_encode : encode_body TOTAL [] = empty_body.
Proof. unfold encode_body, empty_body. cbn [encode encode_size foldr]. by rewrite Z.sub_0_r. Qed.

#[local] Opaque crc_of empty_body sn_body blank_data encode_body BLOCK image.

(** ** The theorems at concrete states *)

Definition fault4 : FlashFaults := λ fd, fd =? 4.

Definition demo_parts (c3 c4 : bytes) : lib flash :=
  demo_lib (demo_flash c3 c4 (valid_chip empty_body) (valid_chip empty_body))
    (demo_slot blank_data 0 []) (demo_slot blank_data 0 []).

Lemma demo_partitions `{!FlashFaults} body3 body4 crc3 crc4 :
  body_size body3 ∧ all_bytes body3 → body_size body4 ∧ all_bytes body4 →
  partitions (demo_parts (image body3 0 crc3) (image body4 0 crc4)) 0 3 4.
Proof.
  intros H3 H4. split; [apply demo_open|done|done|done| |].
  - exact (chip_len 3 (dev (demo_parts _ _)) body3 crc3 H3 eq_refl).
  - exact (chip_len 4 (dev (demo_parts _ _)) body4 crc4 H4 eq_refl).
Qed.

Definition demo_s1 : lib flash := demo_parts (valid_chip sn_body) (valid_chip empty_body).

#[local] Existing Instance lp64.
#[local] Existing Instance unlimited_memory.
#[local] Instance demo_garbage : Garbage := λ _, 0.

Section reliable_flash.
#[local] Existing Instance no_faults.

Lemma data_load_both_valid_witness :
  ∃ s', data_load RW 0 demo_s1 = Ret (SYSVAR_SUCCESS, s') ∧ buf_holds RW empty_body s' ∧
    failed (buf (get_slot RW s')) = (false, false) ∧ same_media demo_s1 s' ∧ frame RW demo_s1 s'.
Proof.
  apply (data_load_both_valid RW 0 3 4 sn_body empty_body).
  - apply flash_reads.
  - by apply blank_ready.
  - exact (demo_partitions _ _ _ _ sn_body_ok empty_body_ok).
  - exact (valid_holds 3 (dev demo_s1) sn_body sn_body_ok eq_refl).
  - exact (valid_holds 4 (dev demo_s1) empty_body empty_body_ok eq_refl).
Defined.

(** The second copy has one flipped bit in its checksum. *)
Definition demo_s2 : lib flash := demo_parts (valid_chip sn_body) (broken_chip empty_body).

Lemma data_load_survives_one_loss_witness :
  ∃ s', data_load RW 0 demo_s2 = Ret (SYSVAR_SUCCESS, s') ∧ buf_holds RW sn_body s' ∧
    part_holds 3 sn_body (dev s') ∧ part_holds 4 sn_body (dev s').
Proof.
  apply (data_load_survives_one_loss RW 0 3 4 sn_body).
  - by apply blank_ready.
  - exact (demo_partitions _ _ _ _ sn_body_ok empty_body_ok).
  - left. split.
    + exact (valid_holds 3 (dev demo_s2) sn_body sn_body_ok eq_refl).
    + exact (broken_bad 4 (dev demo_s2) empty_body empty_body_ok eq_refl).
Defined.

(** A buffer with an image to save, over partitions that hold another one. *)
Definition save_slot : slot := demo_slot (valid_chip sn_body) 0 [].
Definition demo_s3 : lib flash :=
  demo_lib (demo_flash (valid_chip empty_body) (broken_chip empty_body)
    (valid_chip empty_body) (valid_chip empty_body)) save_slot (demo_slot blank_data 0 []).

Lemma save_slot_holds : buf_holds RW sn_body demo_s3.
Proof. exact (demo_holds RW demo_s3 sn_body eq_refl sn_body_ok). Qed.


(** One variable in the list, nothing saved yet. *)
Definition demo_s4 : lib flash :=
  demo_lib (demo_flash (valid_chip empty_body) (valid_chip empty_body)
    (valid_chip empty_body) (valid_chip empty_body))
    (demo_slot blank_data 37 [demo_var]) (demo_slot blank_data 0 []).

Lemma demo_s4_parts idx fd0 fd1 :
  mtd_dev demo_s4 !! idx = Some fd0 → mtd_dev demo_s4 !! (idx + 1)%nat = Some fd1 → fd0 ≠ fd1 →
  partitions demo_s4 idx fd0 fd1.
Proof.
  intros H0 H1 Hne. assert (∀ fd, (BLOCK ≤ length (media fd (dev demo_s4)))%nat) as Hb.
  { intros fd. apply (chip_len _ _ empty_body (crc_of empty_body) empty_body_ok).
    unfold demo_s4, demo_lib, demo_flash, chip, dev. by repeat case_match. }
  split; [apply demo_open|exact H0|exact H1|exact Hne|apply Hb|apply Hb].
Qed.

End reliable_flash.

Section dead_device.
#[local] Existing Instance fault4.


(** The store operations do not touch the devices. *)
Definition demo_store : store := Store ∅ {[ demo_name := demo_value ]}.

Lemma demo_store_of : store_of demo_s4 demo_store.
Proof.
  split; [apply demo_open|done|done| | |].
  - split; simpl; try done.
    + repeat constructor. set_solver.
    + constructor; [simpl; lia|constructor].
    + constructor; [by vm_compute|constructor].
  - exists []. split; [constructor|done].
  - exists [(demo_name, demo_value)]. split; [constructor; [apply demo_var_ok|constructor]|].
    split; [apply NoDup_singleton|done].
Qed.

Lemma store_history_refines_witness :
  ∃ s', run_sets [(Some [65], Some [66; 67]); (Some demo_name, None); (Some demo_name, None)] demo_s4
        = Ret ([SYSVAR_SUCCESS; SYSVAR_SUCCESS; SYSVAR_EXISTED_ERR], s') ∧
    getvar (Some ([65], replicate 33 0)) [1; 1; 1; 1; 1] 4 s' = Ret (SYSVAR_SUCCESS, [66; 67; 0; 0; 1], s').
Proof.
  destruct (store_history_refines demo_s4 demo_store
    [(Some [65], Some [66; 67]); (Some demo_name, None); (Some demo_name, None)] [65]
    (replicate 33 0) [1; 1; 1; 1; 1] 4) as (s' & Hrun & _ & _ & Hget).
  - apply demo_store_of.
  - done.
  - apply (bool_decide_unpack _). by vm_compute.
  - apply (bool_decide_unpack _). by vm_compute.
  - simpl. lia.
  - unfold NAME_LEN. rewrite length_replicate. lia.
  - exists s'. split; [exact Hrun|exact Hget].
Defined.

(** [demo_name] repeated to 32 characters, and one more. *)
Definition name32 : bytes := replicate 32 65.
Definition var32 : sysvar_list :=
  {| var_addr := 7; var_name := strncpy NAME_LEN name32; var_value := Some demo_value; var_len := 37 |}.
Definition demo_s5 : lib flash :=
  demo_lib (dev demo_s4) (demo_slot blank_data 37 [var32]) (demo_slot blank_data 0 []).
Definition store32 : store := Store ∅ {[ name32 := demo_value ]}.

Lemma demo_store32_of : store_of demo_s5 store32.
Proof.
  split; [apply demo_open|done|done| | |].
  - split; simpl; try done.
    + repeat constructor. set_solver.
    + constructor; [simpl; lia|constructor].
    + constructor; [by vm_compute|constructor].
  - exists []. split; [constructor|done].
  - exists [(name32, demo_value)]. split; [constructor; [|constructor]|].
    + split; try done; by repeat constructor.
    + split; [apply NoDup_singleton|done].
Qed.

Lemma setvar_overlong_deletes_witness :
  ∃ s', setvar (Some (name32 ++ [66])) (Some demo_value) demo_s5 = Ret (SYSVAR_PARAM_ERR, s') ∧
    store_of s' (Store ∅ (delete name32 {[ name32 := demo_value ]})).
Proof.
  apply (setvar_overlong_deletes demo_s5 store32 (name32 ++ [66]) demo_value demo_value).
  - apply demo_store32_of.
  - apply (bool_decide_unpack _). by vm_compute.
  - apply (bool_decide_unpack _). by vm_compute.
  - unfold NAME_LEN. simpl. lia.
  - done.
  - by vm_compute.
Defined.
End dead_device.
