(* ===== verification/SysvarCmd.v ===== *)
(** * The command-line tool: sysvar/sysvar_cmd.c

    Line editing, the interactive console and the option loop of [main], on top of
    the library of [SysvarLib].  Standard input is the list of bytes still to be
    read; the terminal settings are not modelled. *)

From S2P Require Import Prelude Crc32 Sysvar SysvarImage SysvarLib SysvarStore SysvarFlash.
From stdpp Require Import gmap.
Open Scope Z_scope.

Definition PAGE_SIZE : Z := 256.
Definition SYSVAR_VALUE : Z := 2048.
Definition READ_CMD : Z := 1.
Definition WRITE_CMD : Z := 2.
Definition ERASE_CMD : Z := 3.

Inductive CmdType :=
  | cmdtype_clear | cmdtype_del | cmdtype_dump | cmdtype_erase | cmdtype_exit | cmdtype_get
  | cmdtype_load | cmdtype_print | cmdtype_read | cmdtype_save | cmdtype_set | cmdtype_write.

Definition cmd_str : list (bytes * CmdType) :=
  [ (lit "clear", cmdtype_clear); (lit "del", cmdtype_del); (lit "dump", cmdtype_dump);
    (lit "erase", cmdtype_erase); (lit "exit", cmdtype_exit); (lit "get", cmdtype_get);
    (lit "load", cmdtype_load); (lit "print", cmdtype_print); (lit "read", cmdtype_read);
    (lit "save", cmdtype_save); (lit "set", cmdtype_set); (lit "write", cmdtype_write) ].

Record con (D : Type) := Con {
  clib : lib D;
  stdin : bytes;
  debug : bool;
}.
Arguments Con {D}. Arguments clib {D}. Arguments stdin {D}. Arguments debug {D}.

Section cmd.
Context `{HP : CPlatform, HA : Allocator, HG : Garbage} {D : Type} `{!MtdDriver D}.
Abbreviation CM := (M (con D)).
Implicit Types s : con D.

Definition set_clib l s : con D := Con l (stdin s) (debug s).
Definition set_stdin i s : con D := Con (clib s) i (debug s).
Definition set_debug b s : con D := Con (clib s) (stdin s) b.

(** A call of the library. *)
Definition on_lib {A} (m : M (lib D) A) : CM A := fun s =>
  match m (clib s) with
  | Ret (a, l) => Ret (a, set_clib l s)
  | Ub => Ub
  | OutOfFuel => OutOfFuel
  end.

Definition put (text : bytes) : CM unit := on_lib (say (MsgText text)).
Definition put_err (text : bytes) : CM unit := on_lib (say (MsgStderr text)).
Definition ERROR_MSG : bytes := lit "<<ERROR CODE>>: ".
Definition put_code (ret : Z) : CM unit := put_err (ERROR_MSG ++ dec ret ++ [LF]).

Definition EOF : Z := -1.
Definition getchar : CM Z := fun s =>
  match stdin s with
  | [] => Ret (EOF, s)
  | c :: i => Ret (c, set_stdin i s)
  end.

(** An array on the stack, before anything is written to it. *)
Definition uninit (n : nat) : bytes := (λ i, u8 (garbage i)) <$> seq 0 n.

Definition print_usage (cmd : bytes) : CM unit :=
  put (lit "usage: " ++ cmd ++ [LF] ++
       lit "       " ++ cmd ++ lit " --debug" ++ [LF] ++
       lit "       " ++ cmd ++ lit " --print" ++ [LF] ++
       lit "       " ++ cmd ++ lit " --clear" ++ [LF] ++
       lit "       " ++ cmd ++ lit " --get var_name" ++ [LF] ++
       lit "       " ++ cmd ++ lit " --remove var_name" ++ [LF] ++
       lit "       " ++ cmd ++ lit " --set var_name var_value" ++ [LF]).

Definition print_console_help (debug : bool) : CM unit :=
  put (lit "command:" ++ [LF] ++
       lit "  load.....load system variables to data buffer" ++ [LF] ++
       lit "  save.....save system variables to MTD device" ++ [LF] ++
       lit "  print....print system variables" ++ [LF] ++
       lit "  dump.....dump data in data buffer" ++ [LF] ++
       lit "  get......get system variable" ++ [LF] ++
       lit "  set......add/set system variable" ++ [LF] ++
       lit "  del......delete system variable" ++ [LF] ++
       lit "  clear....delete all system variables" ++ [LF]);;
  (if debug then
     put ([LF] ++
          lit "  read.....read data from MTD device" ++ [LF] ++
          lit "  write....write data to MTD device" ++ [LF] ++
          lit "  erase....erase MTD device" ++ [LF])
   else mret tt);;
  put (lit "  exit.....exit sysvar_cmd application" ++ [LF]).

(** [get_str(name, str, len)]: [while (1)], which ends at a newline only. *)
Fixpoint get_str_loop (fuel : nat) (len : Z) (str : bytes) (i : Z) : CM bytes :=
  match fuel with
  | O => fun _ => OutOfFuel
  | S fuel =>
      c ← getchar;
      if c =? LF then
        put [13; LF];;
        lift (buf_set str i NUL)
      else if c =? 0x08 then
        if i >? 0 then put [8; 32; 8];; get_str_loop fuel len str (i - 1)
        else get_str_loop fuel len str i
      else if (0x20 <=? c) && (c <? 0x7f) then
        if i <? len - 1 then
          put [c];;
          str ← lift (buf_set str i c);
          get_str_loop fuel len str (i + 1)
        else get_str_loop fuel len str i
      else get_str_loop fuel len str i
  end.

(** Every iteration reads a character, so the input bounds the iterations of a
    call that ends. *)
Definition get_str (name : bytes) (str : bytes) (len : Z) : CM bytes :=
  put (name ++ lit " > ");;
  fuel ← gets (λ s, S (length (stdin s)));
  get_str_loop fuel len str 0.

Definition print_msg (msg : bytes) (idx : Z) : CM unit :=
  d ← gets debug;
  if d : bool then
    put (lit "> System variables(" ++ (if idx <? SYSVAR_RO_BUF then lit "RW" else lit "RO")
         ++ lit "): " ++ msg ++ [LF])
  else mret tt.

Definition load_cmd : CM Z :=
  ret ← on_lib loadvar;
  (if ret =? SYSVAR_SUCCESS then
     print_msg (lit "loaded") SYSVAR_RO_BUF;; print_msg (lit "loaded") SYSVAR_RW_BUF
   else mret tt);;
  mret ret.

Definition save_cmd : CM Z :=
  ret ← on_lib savevar;
  (if ret =? SYSVAR_SUCCESS then print_msg (lit "saved") SYSVAR_RW_BUF else mret tt);;
  mret ret.

(** [sprintf(str, "%d/%d bytes", used_len, total_len)] into 20 characters *)
Definition STRING_LEN : Z := 20.
Definition usage_str (w : which) : CM bytes :=
  b ← gets (λ s, buf (get_slot w (clib s)));
  let str := dec (used_len b) ++ lit "/" ++ dec (total_len b) ++ lit " bytes" in
  if strlen str <? STRING_LEN then mret str else stuck.

Definition print_cmd : CM Z :=
  '(ret, _) ← on_lib (getvar None [] 0);
  str ← usage_str (sv_buf SYSVAR_RO_BUF);
  print_msg str SYSVAR_RO_BUF;;
  str ← usage_str (sv_buf SYSVAR_RW_BUF);
  print_msg str SYSVAR_RW_BUF;;
  (if negb (ret =? SYSVAR_SUCCESS) then put_code ret else mret tt);;
  mret ret.

(** [get_cmd(name)]; [name] is the caller's array. *)
Definition get_cmd (name : bytes) : CM Z :=
  c ← lift (buf_get name 0);
  if c =? NUL then print_cmd
  else
    n ← lift (cstr name);
    '(ret, value) ← on_lib (getvar (Some (n, name)) (uninit (Z.to_nat SYSVAR_VALUE)) SYSVAR_VALUE);
    (if ret =? SYSVAR_SUCCESS then
       v ← lift (cstr value);
       put (v ++ [LF])
     else put_code ret);;
    mret ret.

Definition clear_cmd : CM Z :=
  ret ← on_lib (setvar None None);
  (if ret =? SYSVAR_SUCCESS then print_msg (lit "deleted") SYSVAR_RW_BUF else put_code ret);;
  mret ret.

Definition delete_cmd (name : bytes) : CM Z :=
  n ← lift (cstr name);
  ret ← on_lib (setvar (Some n) None);
  (if ret =? SYSVAR_SUCCESS then print_msg (lit "deleted") SYSVAR_RW_BUF else put_code ret);;
  mret ret.

Definition set_cmd (name value : bytes) : CM Z :=
  n ← lift (cstr name);
  v ← lift (cstr value);
  ret ← on_lib (setvar (Some n) (Some v));
  (if ret =? SYSVAR_SUCCESS then
     print_msg (lit "added") SYSVAR_RW_BUF;; put (v ++ [LF])
   else put_code ret);;
  mret ret.

(** The answer to the prompt of [dump_data]: the next page, or [None] to stop. *)
Definition dump_next (data_len start : Z) (str : bytes) : option Z :=
  if bool_decide (str = lit "n") then
    let start := start + PAGE_SIZE in
    if data_len <=? start then None else Some start
  else if bool_decide (str = lit "p") then
    let start := start - PAGE_SIZE in
    if start <? 0 then None else Some start
  else if bool_decide (str = lit "f") then
    if start =? 0 then None else Some 0
  else if bool_decide (str = lit "l") then
    if start =? data_len - PAGE_SIZE then None else Some (data_len - PAGE_SIZE)
  else None.

Fixpoint dump_data_loop (fuel : nat) (idx start : Z) : CM unit :=
  match fuel with
  | O => fun _ => OutOfFuel
  | S fuel =>
      on_lib (sysvar_dump idx start PAGE_SIZE);;
      str ← get_str (lit "(n)ext, (p)rev, (f)irst, (l)ast ?") (uninit 2) 2;
      str ← lift (cstr str);
      data_len ← gets (λ s, data_len (buf (get_slot (sv_buf idx) (clib s))));
      match dump_next data_len start str with
      | None => mret tt
      | Some start => dump_data_loop fuel idx start
      end
  end.

Definition dump_data (idx : Z) : CM unit :=
  on_lib (sysvar_info idx);;
  fuel ← gets (λ s, S (length (stdin s)));
  dump_data_loop fuel idx 0.

(** The test pattern of WRITE_CMD. *)
Fixpoint fill_pattern (n : nat) (i : Z) (d : bytes) : outcome bytes :=
  match n with
  | O => Ret d
  | S n => d ← buf_set d i (u8 i); fill_pattern n (i + 1) d
  end.

Definition data_cmd (name : bytes) (cmd : Z) (debug : bool) : CM Z :=
  if negb debug then print_console_help false;; mret SYSVAR_DEBUG_ERR
  else
    str ← get_str (lit "mtd 2|3|4|5 ?") (uninit 2) 2;
    c ← lift (buf_get str 0);
    match (if c =? 50 then Some 0 else if c =? 51 then Some 1
           else if c =? 52 then Some 2 else if c =? 53 then Some 3 else None) with
    | None => put (lit "Error: invalid MTD device" ++ [LF]);; mret SYSVAR_DEBUG_ERR
    | Some idx =>
        put (name ++ lit "(" ++ dec idx ++ lit "): ");;
        ret ← (if cmd =? READ_CMD then on_lib (sysvar_io idx SYSVAR_MTD_READ)
               else if cmd =? WRITE_CMD then
                 on_lib (use_buf (sv_buf idx) (λ b,
                   d ← fill_pattern (Z.to_nat (data_len b)) 0 (data b); Ret (tt, set_data d b)));;
                 on_lib (sysvar_io idx SYSVAR_MTD_WRITE)
               else if cmd =? ERASE_CMD then on_lib (sysvar_io idx SYSVAR_MTD_ERASE)
               else mret SYSVAR_PARAM_ERR);
        (if ret =? SYSVAR_SUCCESS then put (lit "success" ++ [LF]);; dump_data idx
         else put (lit "failed" ++ [LF]));;
        mret ret
    end.

Definition cmd_console_wrapper (cmd : bytes) : CM unit :=
  name ← get_str (lit "name ?") (uninit (Z.to_nat SYSVAR_NAME)) SYSVAR_NAME;
  c ← lift (buf_get name 0);
  if c =? NUL then clear_cmd;; mret tt
  else
    value ← (if bool_decide (cmd = lit "set")
             then get_str (lit "value ?") (uninit (Z.to_nat SYSVAR_VALUE)) SYSVAR_VALUE
             else lift (buf_set (uninit (Z.to_nat SYSVAR_VALUE)) 0 NUL));
    v ← lift (buf_get value 0);
    if bool_decide (cmd = lit "get") then get_cmd name;; mret tt
    else if v =? NUL then delete_cmd name;; mret tt
    else set_cmd name value;; mret tt.

(** [None]: no command has that name (the index CMD_STR_NUM). *)
Definition get_cmd_index (str : bytes) : option CmdType :=
  snd <$> head (filter (λ c, c.1 = str) cmd_str).

Definition run_cmd (cmd_index : option CmdType) (debug : bool) : CM bool :=
  match cmd_index with
  | Some cmdtype_clear => clear_cmd;; mret false
  | Some cmdtype_del => cmd_console_wrapper (lit "del");; mret false
  | Some cmdtype_dump => dump_data SYSVAR_RW_BUF;; mret false
  | Some cmdtype_erase => data_cmd (lit "read_cmd") ERASE_CMD debug;; mret false
  | Some cmdtype_exit => mret true
  | Some cmdtype_get => cmd_console_wrapper (lit "get");; mret false
  | Some cmdtype_load => load_cmd;; mret false
  | Some cmdtype_print => print_cmd;; mret false
  | Some cmdtype_read => data_cmd (lit "read_cmd") READ_CMD debug;; mret false
  | Some cmdtype_save => save_cmd;; mret false
  | Some cmdtype_set => cmd_console_wrapper (lit "set");; mret false
  | Some cmdtype_write => data_cmd (lit "read_cmd") WRITE_CMD debug;; mret false
  | None => print_console_help debug;; mret false
  end.

Fixpoint run_console_loop (fuel : nat) (debug : bool) : CM unit :=
  match fuel with
  | O => fun _ => OutOfFuel
  | S fuel =>
      str ← get_str (if debug then lit "sysvar_cmd(d)" else lit "sysvar_cmd") (uninit 8) 8;
      str ← lift (cstr str);
      done ← run_cmd (get_cmd_index str) debug;
      if done : bool then mret tt else run_console_loop fuel debug
  end.

Definition run_console (debug : bool) : CM unit :=
  fuel ← gets (λ s, S (length (stdin s)));
  run_console_loop fuel debug.

(** The option loop of [main].  [opts]: what the successive calls of
    [getopt_long] return before -1, with [optarg]; [inl]: the program exits with
    that status. *)
Definition arg (a : option bytes) : CM bytes :=
  match a with Some a => mret a | None => stuck end.

Definition main_opt (argv : list bytes) (c : Z) (optarg : option bytes) (ret_val : Z)
    : CM (Z + Z) :=
  let argc := length argv in
  let usage := arg (argv !! 0%nat) ≫= λ a, n ← lift (cstr a); print_usage n;; mret (inl 1) in
  let assert_usage (correct : nat) (k : CM (Z + Z)) :=
    if bool_decide (argc = correct) then k else usage in
  if c =? 100 then                                                     (* 'd' *)
    assert_usage 2%nat (
      modify (set_debug true);;
      on_lib (set_mtd_verbose true);;
      run_console true;;
      mret (inr ret_val))
  else if c =? 112 then assert_usage 2%nat (inr <$> print_cmd)         (* 'p' *)
  else if c =? 99 then assert_usage 2%nat (inr <$> clear_cmd)          (* 'c' *)
  else if c =? 103 then                                                (* 'g' *)
    assert_usage 3%nat (name ← arg optarg; inr <$> get_cmd name)
  else if c =? 114 then                                                (* 'r' *)
    assert_usage 3%nat (name ← arg optarg; inr <$> delete_cmd name)
  else if c =? 115 then                                                (* 's' *)
    assert_usage 4%nat (name ← arg optarg; value ← arg (argv !! 3%nat); inr <$> set_cmd name value)
  else usage.

Fixpoint main_loop (argv : list bytes) (opts : list (Z * option bytes)) (ret_val : Z)
    : CM (Z + Z) :=
  match opts with
  | [] => mret (inr ret_val)
  | (c, optarg) :: opts =>
      r ← main_opt argv c optarg ret_val;
      match r with
      | inl code => mret (inl code)
      | inr ret_val =>
          (if negb (c =? 112) && negb (c =? 103) then save_cmd;; mret tt else mret tt);;
          main_loop argv opts ret_val
      end
  end.

Definition main (argv : list bytes) (opts : list (Z * option bytes)) : CM Z :=
  if bool_decide (5 < length argv)%nat then
    a ← arg (argv !! 0%nat); n ← lift (cstr a); print_usage n;; mret 1
  else
    r ← on_lib open_mtd;
    if negb (r =? 0) then mret 1
    else if bool_decide (length argv = 1%nat) then
      d ← gets debug; run_console d;; mret 0
    else
      r ← main_loop argv opts 0;
      match r with
      | inl code => mret code
      | inr ret_val => on_lib close_mtd;; mret (if negb (ret_val =? 0) then 1 else 0)
      end.
End cmd.

(** ** Line editing *)

(** What [get_str] makes of the keys of a line: printable characters are appended
    while there is room, backspace removes the last one. *)
Definition edit_key (len : nat) (acc : bytes) (c : Z) : bytes :=
  if c =? 8 then take (length acc - 1) acc
  else if (32 <=? c) && (c <? 127) then
    if bool_decide (length acc < len - 1)%nat then acc ++ [c] else acc
  else acc.
Definition edit (len : nat) (keys : bytes) : bytes := foldl (edit_key len) [] keys.

Definition printable (c : Z) : Prop := 32 ≤ c < 127.

Lemma edit_key_ok len acc c :
  (1 ≤ len)%nat → (length acc ≤ len - 1)%nat → Forall printable acc →
  (length (edit_key len acc c) ≤ len - 1)%nat ∧ Forall printable (edit_key len acc c).
Proof.
  intros Hlen Ha Hp. unfold edit_key. destruct (c =? 8).
  - split; [rewrite length_take; lia|by apply Forall_take].
  - destruct (_ && _) eqn:Hc; [|done]. case_bool_decide; [|done]. rewrite length_app, Forall_app. simpl. split; [lia|]. split; [done|].
    constructor; [|done]. unfold printable. lia.
Qed.

Lemma edit_ok len keys :
  (1 ≤ len)%nat → (length (edit len keys) ≤ len - 1)%nat ∧ Forall printable (edit len keys).
Proof.
  intros Hlen. unfold edit. assert (length (@nil Z) ≤ len - 1)%nat as H0 by (simpl; lia).
  assert (Forall printable []) as H1 by constructor. revert H0 H1. generalize (@nil Z).
  induction keys as [|c keys IH]; intros acc Ha Hp; [done|]. simpl.
  destruct (edit_key_ok len acc c Hlen Ha Hp). by apply IH.
Qed.

Section cmd_lemmas.
Context `{HP : CPlatform, HA : Allocator, HG : Garbage} {D : Type} `{!MtdDriver D}.
Implicit Types s : con D.

(** Console output changes the output of the library state and nothing else. *)
Record same_but_out (l l' : lib D) : Prop := {
  sbo_dev : dev l' = dev l;
  sbo_fds : mtd_dev l' = mtd_dev l;
  sbo_unlocked : mtd_dev_unlocked l' = mtd_dev_unlocked l;
  sbo_rw : rw_buf l' = rw_buf l;
  sbo_ro : ro_buf l' = ro_buf l;
  sbo_verbose : verbose l' = verbose l;
  sbo_heap : heap_of l' = heap_of l;
}.

Lemma same_but_out_refl l : same_but_out l l.
Proof. done. Qed.
Lemma same_but_out_trans l1 l2 l3 : same_but_out l1 l2 → same_but_out l2 l3 → same_but_out l1 l3.
Proof. intros [] []. split; congruence. Qed.
Lemma same_but_out_add m l : same_but_out l (add_out m l).
Proof. done. Qed.

Lemma store_of_out l l' st : same_but_out l l' → store_of l st → store_of l' st.
Proof.
  intros [H1 H2 H3 H4 H5 H6 H7] [].
  split; unfold devices_open, slot_live in *; simpl in *; by rewrite ?H2, ?H4, ?H5, ?H7.
Qed.

Lemma put_eq t s : put t s = Ret (tt, set_clib (add_out (MsgText t) (clib s)) s).
Proof. done. Qed.

(** The array while a line is edited: [acc] typed so far. *)
Lemma get_str_loop_spec len keys : ∀ fuel str acc rest s,
  LF ∉ keys → stdin s = keys ++ LF :: rest → (length keys < fuel)%nat →
  (1 ≤ len)%nat → length str = len → (length acc ≤ len - 1)%nat →
  take (length acc) str = acc →
  ∃ str' s', get_str_loop fuel (Z.of_nat len) str (Z.of_nat (length acc)) s = Ret (str', s') ∧
    stdin s' = rest ∧ debug s' = debug s ∧ same_but_out (clib s) (clib s') ∧
    length str' = len ∧ ∃ junk, str' = foldl (edit_key len) acc keys ++ NUL :: junk.
Proof.
  induction keys as [|c keys IH]; intros fuel str acc rest s Hni Hin Hfuel Hlen Hstr Hacc Htake;
    (destruct fuel as [|fuel]; [simpl in Hfuel; lia|]); cbn [get_str_loop].
  - rewrite (M_bind_eq _ _ _ LF (set_stdin rest s)) by (unfold getchar; by rewrite Hin).
    rewrite Z.eqb_refl. rewrite (M_bind_eq _ _ _ _ _ (put_eq _ _)).
    eexists _, _. split.
    + unfold lift. rewrite buf_set_in_range by lia. reflexivity.
    + split_and!; [done|done|apply same_but_out_add|by rewrite length_insert|].
      exists (drop (S (length acc)) str). rewrite Nat2Z.id.
      rewrite insert_take_drop by lia. by rewrite Htake.
  - apply not_elem_of_cons in Hni as [Hc Hni]. simpl in Hin, Hfuel.
    rewrite (M_bind_eq _ _ _ c (set_stdin (keys ++ LF :: rest) s)) by (unfold getchar; by rewrite Hin).
    destruct (Z.eqb_spec c LF); [done|]. cbn [foldl]. unfold edit_key at 2.
    assert (∀ t str1 acc1, length str1 = len → (length acc1 ≤ len - 1)%nat →
      take (length acc1) str1 = acc1 →
      ∃ str' s', get_str_loop fuel (Z.of_nat len) str1 (Z.of_nat (length acc1))
          (set_clib (if t is Some t then add_out (MsgText t) (clib s) else clib s)
            (set_stdin (keys ++ LF :: rest) s)) = Ret (str', s') ∧
        stdin s' = rest ∧ debug s' = debug s ∧ same_but_out (clib s) (clib s') ∧
        length str' = len ∧ ∃ junk, str' = foldl (edit_key len) acc1 keys ++ NUL :: junk) as Hgo.
    { intros t str1 acc1 H1 H2 H3.
      destruct (IH fuel str1 acc1 rest (set_clib (if t is Some t then add_out (MsgText t) (clib s)
        else clib s) (set_stdin (keys ++ LF :: rest) s))) as (str' & s' & Hr & Hs & Hd & Ho & Hrest);
        try done; [lia|]. exists str', s'. split; [exact Hr|]. split; [exact Hs|]. split; [exact Hd|].
      split; [|exact Hrest]. eapply same_but_out_trans; [|exact Ho]. by destruct t. }
    destruct (Z.eqb_spec c 8).
    { rewrite Z.gtb_ltb. destruct (Z.ltb_spec 0 (Z.of_nat (length acc))).
      - rewrite (M_bind_eq _ _ _ _ _ (put_eq _ _)).
        destruct (Hgo (Some [8; 32; 8]) str (take (length acc - 1) acc)) as (str' & s' & Hr & Hrest).
        + done.
        + rewrite length_take. lia.
        + rewrite length_take, Nat.min_l by lia. 
          assert (take (length acc - 1) (take (length acc) str) = take (length acc - 1) acc) as <-
            by (by rewrite Htake).
          rewrite take_take. f_equal. lia.
        + exists str', s'. split; [|exact Hrest]. rewrite <-Hr, length_take. do 2 f_equal. lia.
      - destruct acc; [|simpl in *; lia].
        destruct (Hgo None str []) as (str' & s' & Hr & Hrest); [done..|].
        exists str', s'. split; [|exact Hrest]. rewrite <-Hr. by destruct s. }
    destruct (_ && _) eqn:Hpr.
    2: { destruct (Hgo None str acc) as (str' & s' & Hr & Hrest); [done..|].
         exists str', s'. split; [|exact Hrest]. rewrite <-Hr. by destruct s. }
    destruct (Z.ltb_spec (Z.of_nat (length acc)) (Z.of_nat len - 1)).
    2: { rewrite bool_decide_false by lia.
         destruct (Hgo None str acc) as (str' & s' & Hr & Hrest); [done..|].
         exists str', s'. split; [|exact Hrest]. rewrite <-Hr. by destruct s. }
    rewrite bool_decide_true by lia. rewrite (M_bind_eq _ _ _ _ _ (put_eq _ _)).
    destruct (Hgo (Some [c]) (<[length acc := c]> str) (acc ++ [c])) as (str' & s' & Hr & Hrest).
    + by rewrite length_insert.
    + rewrite length_app. simpl. lia.
    + rewrite length_app. simpl.
      replace (length acc + 1)%nat with (S (length acc)) by lia.
      rewrite (take_S_r _ _ c) by (apply list_lookup_insert_eq; lia).
      rewrite take_insert_ge by lia. by rewrite Htake.
    + exists str', s'. split; [|exact Hrest].
      erewrite M_bind_eq; [|unfold lift; rewrite buf_set_in_range by lia; by rewrite Nat2Z.id].
      rewrite <-Hr, length_app. simpl. do 2 f_equal. lia.
Qed.

Lemma get_str_run name str keys rest s :
  LF ∉ keys → stdin s = keys ++ LF :: rest → (1 ≤ length str)%nat →
  ∃ str' s', get_str name str (Z.of_nat (length str)) s = Ret (str', s') ∧
    stdin s' = rest ∧ debug s' = debug s ∧ same_but_out (clib s) (clib s') ∧
    length str' = length str ∧ ∃ junk, str' = edit (length str) keys ++ NUL :: junk.
Proof.
  intros Hni Hin Hlen. unfold get_str. rewrite (M_bind_eq _ _ _ _ _ (put_eq _ _)).
  set (s1 := set_clib _ s).
  rewrite (M_bind_eq _ _ _ (S (length (stdin s))) s1) by done.
  destruct (get_str_loop_spec (length str) keys (S (length (stdin s))) str [] rest s1)
    as (str' & s' & Hr & Hs & Hd & Ho & Hl & Hj); try done.
  - rewrite Hin, length_app. simpl. lia.
  - simpl. lia.
  - exists str', s'. split_and!; try done. by destruct Ho.
Qed.

Lemma get_str_loop_eof len fuel : ∀ str i s,
  LF ∉ stdin s → get_str_loop fuel len str i s = OutOfFuel ∨ get_str_loop fuel len str i s = Ub.
Proof.
  induction fuel as [|fuel IH]; intros str i s Hni; [by left|]. cbn [get_str_loop].
  assert (∃ c s1, getchar s = Ret (c, s1) ∧ c ≠ LF ∧ LF ∉ stdin s1) as (c & s1 & Hg & Hc & Hni1).
  { unfold getchar. destruct (stdin s) as [|c inp] eqn:E.
    - exists EOF, s. by rewrite E.
    - exists c, (set_stdin inp s). apply not_elem_of_cons in Hni as [? ?]. by split_and!. }
  rewrite (M_bind_eq _ _ _ _ _ Hg). destruct (Z.eqb_spec c LF); [done|].
  destruct (c =? 8).
  { destruct (i >? 0); [rewrite (M_bind_eq _ _ _ _ _ (put_eq _ _))|]; by apply IH. }
  destruct (_ && _); [|by apply IH]. destruct (i <? len - 1); [|by apply IH].
  rewrite (M_bind_eq _ _ _ _ _ (put_eq _ _)). unfold lift. rewrite M_bind_unfold.
  destruct (buf_set str i c) as [str1| |] eqn:Hb; cbn [mbind outcome_bind].
  - by apply IH.
  - by right.
  - unfold buf_set in Hb. by case_decide.
Qed.

Lemma get_str_loop_no_ub len fuel : ∀ str i s,
  Z.of_nat (length str) = len → 0 ≤ i ≤ len - 1 → get_str_loop fuel len str i s ≠ Ub.
Proof.
  induction fuel as [|fuel IH]; intros str i s Hl Hi; [done|]. cbn [get_str_loop].
  assert (∃ c s1, getchar s = Ret (c, s1)) as (c & s1 & Hg)
    by (unfold getchar; destruct (stdin s); eauto).
  rewrite (M_bind_eq _ _ _ _ _ Hg). destruct (c =? LF).
  { rewrite (M_bind_eq _ _ _ _ _ (put_eq _ _)). unfold lift. by rewrite buf_set_in_range by lia. }
  destruct (c =? 8).
  { rewrite Z.gtb_ltb. destruct (Z.ltb_spec 0 i); [rewrite (M_bind_eq _ _ _ _ _ (put_eq _ _))|];
      apply IH; lia. }
  destruct (_ && _); [|by apply IH]. destruct (Z.ltb_spec i (len - 1)); [|by apply IH].
  rewrite (M_bind_eq _ _ _ _ _ (put_eq _ _)). rewrite M_bind_unfold. unfold lift.
  rewrite buf_set_in_range by lia. cbn [mbind outcome_bind].
  apply IH; [by rewrite length_insert|lia].
Qed.

(** A prompt is answered by a terminated string, or never. *)
Lemma get_str_cases name str s :
  (1 ≤ length str)%nat →
  get_str name str (Z.of_nat (length str)) s = OutOfFuel ∨
  ∃ str' line s', get_str name str (Z.of_nat (length str)) s = Ret (str', s') ∧
    cstr str' = Ret line ∧ (length (stdin s') < length (stdin s))%nat ∧
    same_but_out (clib s) (clib s').
Proof.
  intros Hlen. destruct (decide (LF ∈ stdin s)) as [Hin|Hni].
  - apply list_elem_of_split_l in Hin as (keys & rest & Hs & Hni).
    destruct (get_str_run name str keys rest s Hni Hs Hlen)
      as (str' & s' & Hr & Hs' & _ & Ho & Hl & junk & Hj).
    right. exists str', (edit (length str) keys), s'. split_and!; [done| | |apply Ho..].
    + rewrite Hj. apply cstr_app. destruct (edit_ok (length str) keys Hlen) as [_ Hp].
      eapply Forall_impl; [exact Hp|]. unfold printable, NUL. intros. lia.
    + rewrite Hs', Hs, length_app. simpl. lia.
  - left. unfold get_str. rewrite (M_bind_eq _ _ _ _ _ (put_eq _ _)).
    set (s1 := set_clib _ s). rewrite (M_bind_eq _ _ _ (S (length (stdin s))) s1) by done.
    destruct (get_str_loop_eof (Z.of_nat (length str)) (S (length (stdin s))) str 0 s1 Hni)
      as [|Hub]; [done|].
    exfalso. eapply get_str_loop_no_ub; [| |exact Hub]; [done|lia].
Qed.

Lemma collect_ok {A} (f : Z → outcome A) n j :
  (∀ k, j ≤ k → ∃ x, f k = Ret x) → ∃ l, collect f n j = Ret l.
Proof.
  revert j. induction n as [|n IH]; intros j Hf; [by exists []|]. simpl.
  destruct (Hf j) as [x ->]; [lia|]. destruct (IH (j + 1)) as [l ->]; [intros; apply Hf; lia|].
  by exists (x :: l).
Qed.

Lemma dump_buf_ok b start len : buf_shape b → 0 ≤ start → 0 ≤ len → ∃ l, dump_buf b start len = Ret l.
Proof.
  intros Hb Hst Hlen. unfold dump_buf. pose proof (shape_data _ Hb) as Hd.
  assert (∀ k, 0 ≤ k → (∃ x, dump_hex b k = Ret x) ∧ (∃ x, dump_ascii b k = Ret x)) as Hread.
  { intros k Hk. unfold dump_hex, dump_ascii. destruct (Z.ltb_spec k (data_len b)); [|eauto].
    destruct (buf_get_in_range (data b) k) as (x & -> & _); [lia|]. simpl.
    split; [eauto|]. destruct (_ && _); eauto. }
  assert (∀ fuel i, (Z.to_nat (start + len - i) < fuel)%nat → 0 ≤ i →
    ∃ l, dump_loop fuel b start len i = Ret l) as Hloop.
  { intros fuel. induction fuel as [|fuel IH]; intros i Hf Hi; [lia|]. cbn [dump_loop].
    destruct (Z.ltb_spec i (start + len)); [|by exists []].
    destruct (collect_ok (λ j, dump_hex b (i + j)) 16 0) as [h ->]; [intros; apply Hread; lia|].
    destruct (collect_ok (λ j, dump_ascii b (i + j)) 16 0) as [a ->]; [intros; apply Hread; lia|].
    cbn [mbind outcome_bind]. destruct (IH (i + 16)) as [l ->]; [lia|lia|]. cbn. eauto. }
  apply Hloop; lia.
Qed.

(** The pages [dump_data] moves between. *)
Definition page_ok (data_len start : Z) : Prop :=
  0 ≤ start ≤ data_len - PAGE_SIZE ∧ (PAGE_SIZE | start).

Lemma dump_next_ok data_len start str start' :
  (PAGE_SIZE | data_len) → page_ok data_len start → dump_next data_len start str = Some start' →
  page_ok data_len start'.
Proof.
  unfold page_ok, dump_next, PAGE_SIZE. intros [n Hn] [Hst [m Hm]] Hnext.
  repeat case_bool_decide; repeat match goal with
  | H : (if ?b then _ else _) = _ |- _ => destruct b eqn:?; [done|]; injection H as <-
  end; try done.
  - split; [|exists (m + 1); lia]. assert (m + 1 ≤ n - 1) by lia. lia.
  - split; [|exists (m - 1); lia]. lia.
  - split; [lia|by exists 0].
  - split; [lia|]. exists (n - 1). lia.
Qed.

Lemma ready_out l l' w : same_but_out l l' → ready w l → ready w l'.
Proof.
  intros [H1 H2 H3 H4 H5 H6 H7]. unfold ready, slot_live.
  assert (get_slot w l' = get_slot w l) as -> by (destruct w; simpl; congruence). done.
Qed.
Lemma devices_out l l' : same_but_out l l' → devices_open l → devices_open l'.
Proof. intros [H1 H2 H3 H4 H5 H6 H7]. unfold devices_open. by rewrite H2. Qed.

Lemma dump_loop_safe idx fuel : ∀ start s,
  ready (sv_buf idx) (clib s) → devices_open (clib s) → page_ok SYSVAR_BLOCK_SIZE start →
  dump_data_loop fuel idx start s ≠ Ub.
Proof.
  induction fuel as [|fuel IH]; intros start s Hr Ho Hp; [done|]. cbn [dump_data_loop].
  pose proof Hr as (Hlive & Hsh & _).
  destruct (dump_buf_ok (buf (get_slot (sv_buf idx) (clib s))) start PAGE_SIZE Hsh) as [items Hd];
    [apply Hp|done|].
  set (s1 := set_clib (add_out (MsgDump items) (clib s)) s).
  rewrite (M_bind_eq _ _ _ tt s1).
  2: { unfold on_lib, sysvar_dump. rewrite (M_bind_eq _ _ _ _ _ (check_mtd_open _ Ho)).
       change (negb (SYSVAR_SUCCESS =? 0)) with false. cbv iota.
       rewrite (M_bind_eq _ _ _ items (clib s)) by (by apply read_buf_eq). done. }
  change 2 with (Z.of_nat (length (uninit 2))).
  destruct (get_str_cases (lit "(n)ext, (p)rev, (f)irst, (l)ast ?") (uninit 2) s1)
    as [Hg|(str & line & s2 & Hg & Hc & _ & Ho2)]; [simpl; lia| |].
  { rewrite M_bind_unfold. by rewrite Hg. }
  rewrite (M_bind_eq _ _ _ _ _ Hg).
  rewrite (M_bind_eq _ _ _ line s2) by (unfold lift; by rewrite Hc).
  assert (ready (sv_buf idx) (clib s2)) as Hr2
    by (eapply ready_out; [exact Ho2|]; by eapply ready_out).
  rewrite (M_bind_eq _ _ _ SYSVAR_BLOCK_SIZE s2).
  2: { unfold gets. by rewrite (ready_data_len _ _ Hr2). }
  destruct (dump_next _ _ _) as [start'|] eqn:Hn; [|done].
  apply IH; [done| |].
  - eapply devices_out; [exact Ho2|]. by eapply devices_out.
  - eapply dump_next_ok; [|exact Hp|exact Hn]. by exists 256.
Qed.

(** *** Properties *)

(** Line editing.  On an input line (of any bytes) that ends in a newline,
    [get_str] returns with the line as edited (printable characters while they
    fit, backspaces applied), terminated inside the caller's array and shorter
    than it, and exactly that line consumed. *)
Theorem get_str_edits name str keys rest s :
  LF ∉ keys → stdin s = keys ++ LF :: rest → (1 ≤ length str)%nat →
  ∃ str' s', get_str name str (Z.of_nat (length str)) s = Ret (str', s') ∧
    stdin s' = rest ∧ length str' = length str ∧
    cstr str' = Ret (edit (length str) keys) ∧
    (length (edit (length str) keys) < length str)%nat ∧
    Forall printable (edit (length str) keys).
Proof.
  intros Hni Hin Hlen.
  destruct (get_str_run name str keys rest s Hni Hin Hlen)
    as (str' & s' & Hr & Hs & _ & _ & Hl & junk & Hj).
  destruct (edit_ok (length str) keys Hlen) as [Hb Hp].
  exists str', s'. split_and!; [done|done|done| |lia|done].
  rewrite Hj. apply cstr_app. eapply Forall_impl; [exact Hp|].
  unfold printable, NUL. intros. lia.
Qed.

(** [get_str] never returns at the end of the input.  Without a newline left
    to read its loop runs through any number of iterations. *)
Theorem get_str_diverges_at_eof fuel len str i s :
  LF ∉ stdin s → ¬ ∃ r, get_str_loop fuel len str i s = Ret r.
Proof. intros Hni [r Hr]. by destruct (get_str_loop_eof len fuel str i s Hni) as [H|H]; rewrite H in Hr. Qed.

Lemma put_state t s : ∃ s', put t s = Ret (tt, s') ∧ stdin s' = stdin s ∧ debug s' = debug s ∧
  same_but_out (clib s) (clib s').
Proof. eexists. split; [apply put_eq|]. by split_and!. Qed.

Lemma print_msg_state m idx s : ∃ s', print_msg m idx s = Ret (tt, s') ∧ stdin s' = stdin s ∧
  debug s' = debug s ∧ same_but_out (clib s) (clib s').
Proof.
  unfold print_msg. rewrite (M_bind_eq _ _ _ (debug s) s) by done.
  destruct (debug s) eqn:E; [|by exists s].
  destruct (put_state (lit "> System variables(" ++ (if idx <? SYSVAR_RO_BUF then lit "RW" else lit "RO")
         ++ lit "): " ++ m ++ [LF]) s) as (s' & Hp & H1 & H2 & H3).
  exists s'. split_and!; [exact Hp|done|congruence|apply H3..].
Qed.

Lemma clear_cmd_run s st :
  store_of (clib s) st →
  ∃ s', clear_cmd s = Ret (SYSVAR_SUCCESS, s') ∧ stdin s' = stdin s ∧
    store_of (clib s') (Store (st_ro st) ∅).
Proof.
  intros Hst. pose proof (setvar_sim (clib s) st None None Hst I I) as (l & Hset & _ & Hst').
  unfold clear_cmd. rewrite (M_bind_eq _ _ _ SYSVAR_SUCCESS (set_clib l s)).
  2: { unfold on_lib. by rewrite Hset. }
  rewrite Z.eqb_refl.
  destruct (print_msg_state (lit "deleted") SYSVAR_RW_BUF (set_clib l s)) as (s' & Hp & Hi & _ & Ho).
  exists s'. rewrite (M_bind_eq _ _ _ _ _ Hp). split_and!; [done|done|]. by eapply store_of_out.
Qed.

(** In the console, "get" with an empty name deletes every read-write
    variable: the wrapper shared by get, set and del tests for an empty name
    before it looks at the command. *)
Theorem console_get_empty_clears s st rest dbg :
  store_of (clib s) st → stdin s = LF :: rest →
  ∃ s', run_cmd (get_cmd_index (lit "get")) dbg s = Ret (false, s') ∧ stdin s' = rest ∧
    store_of (clib s') (Store (st_ro st) ∅).
Proof.
  intros Hst Hin. change (get_cmd_index (lit "get")) with (Some cmdtype_get). cbn [run_cmd].
  unfold cmd_console_wrapper.
  assert (length (uninit (Z.to_nat SYSVAR_NAME)) = 32%nat) as Hlen by done.
  destruct (get_str_run (lit "name ?") (uninit (Z.to_nat SYSVAR_NAME)) [] rest s)
    as (str & s1 & Hr & Hs1 & _ & Ho1 & Hl & junk & Hj); [by apply not_elem_of_nil|done|lia|].
  rewrite Hlen in Hr.
  destruct (clear_cmd_run s1 st) as (s2 & Hc & Hi & Hst2); [by eapply store_of_out|].
  exists s2. split; [|by rewrite Hi, Hs1].
  erewrite M_bind_eq; [reflexivity|]. rewrite (M_bind_eq _ _ _ _ _ Hr).
  rewrite (M_bind_eq _ _ _ NUL s1) by (rewrite Hj; done).
  change (NUL =? NUL) with true. cbv iota. rewrite (M_bind_eq _ _ _ _ _ Hc). reflexivity.
Qed.

(** [get_cmd] on the console.  With the console's 32-byte array it prints the
    value of an existing variable of less than 2048 characters, and otherwise the
    error code; the store is unchanged. *)
Theorem get_cmd_console s st name name_arr :
  store_of (clib s) st → is_cstr name → name ≠ [] →
  length name_arr = 32%nat → (∃ junk, name_arr = name ++ NUL :: junk) →
  (∀ v, spec_get st name = Some v → is_cstr v ∧ (length v < 2048)%nat) →
  get_cmd name_arr s =
  Ret (match spec_get st name with
       | Some v => (SYSVAR_SUCCESS, set_clib (add_out (MsgText (v ++ [LF])) (clib s)) s)
       | None => (SYSVAR_GET_ERR,
                  set_clib (add_out (MsgStderr (ERROR_MSG ++ dec SYSVAR_GET_ERR ++ [LF])) (clib s)) s)
       end).
Proof.
  intros Hst Hn Hne Hlen [junk Hj] Hv. unfold get_cmd.
  destruct name as [|c name]; [done|]. pose proof Hn as [[_ Hc] _]%Forall_cons.
  rewrite (M_bind_eq _ _ _ c s) by (rewrite Hj; done).
  destruct (Z.eqb_spec c NUL); [done|].
  rewrite (M_bind_eq _ _ _ (c :: name) s).
  2: { unfold lift. by rewrite Hj, cstr_app by (by apply is_cstr_nonul). }
  set (arr := uninit (Z.to_nat SYSVAR_VALUE)).
  assert (length arr = 2048%nat) as Ha by (unfold arr, uninit; by rewrite length_fmap, length_seq).
  pose proof (getvar_sim (clib s) st (c :: name) name_arr arr SYSVAR_VALUE Hst Hn) as Hget.
  rewrite Hlen, Ha in Hget. specialize (Hget ltac:(done) ltac:(done)).
  destruct (spec_get st (c :: name)) as [v|].
  - destruct (Hv v eq_refl) as [Hcv Hl].
    rewrite (M_bind_eq _ _ _ (SYSVAR_SUCCESS, strncpy 2048 v ++ drop 2048 arr) s).
    2: { unfold on_lib. rewrite Hget. by destruct s. }
    rewrite Z.eqb_refl. erewrite M_bind_eq; [reflexivity|].
    rewrite (M_bind_eq _ _ _ v s); [reflexivity|].
    unfold lift. rewrite strncpy_short by lia.
    replace (2048 - length v)%nat with (S (2047 - length v)) by lia.
    rewrite <-(assoc_L (++)). cbn [replicate app]. by rewrite cstr_app by (by apply is_cstr_nonul).
  - rewrite (M_bind_eq _ _ _ (SYSVAR_GET_ERR, arr) s).
    2: { unfold on_lib. rewrite Hget. by destruct s. }
    change (SYSVAR_GET_ERR =? SYSVAR_SUCCESS) with false. cbv iota. done.
Qed.

(** From the command line, a name shorter than 31 characters overflows.
    [main] hands [optarg] itself to [get_cmd]; when the variable exists,
    [get_var] stores 32 bytes in it. *)
Theorem get_cmd_short_name_overflows s st name v :
  store_of (clib s) st → is_cstr name → name ≠ [] → (length name < 31)%nat →
  spec_get st name = Some v → get_cmd (name ++ [NUL]) s = Ub.
Proof.
  intros Hst Hn Hne Hlen Hv. unfold get_cmd.
  destruct name as [|c name]; [done|]. pose proof Hn as [[_ Hc] _]%Forall_cons.
  rewrite (M_bind_eq _ _ _ c s) by done. destruct (Z.eqb_spec c NUL); [done|].
  rewrite (M_bind_eq _ _ _ (c :: name) s).
  2: { unfold lift. by rewrite cstr_app by (by apply is_cstr_nonul). }
  rewrite M_bind_unfold. unfold on_lib.
  assert (∀ vl x b, var_ok vl x b →
    get_var vl ((c :: name) ++ [NUL]) (uninit (Z.to_nat SYSVAR_VALUE)) SYSVAR_VALUE = Ub) as Hub.
  { intros vl x b Hok. unfold get_var. change (SYSVAR_VALUE <=? 0) with false. cbv iota.
    unfold copy_into. rewrite length_strncpy, decide_False; [done|].
    rewrite length_app. unfold NAME_LEN. simpl in *. lia. }
  unfold getvar. rewrite (M_bind_eq _ _ _ _ _ (check_open _ _ Hst)).
  change (negb (SYSVAR_SUCCESS =? 0)) with false. cbv iota.
  pose proof (ro_lookup _ _ _ Hst Hn) as Hro. unfold spec_get in Hv.
  rewrite (M_bind_eq _ _ _ _ _ (read_find RO _ (c :: name) (so_ro_live _ _ Hst))).
  change (get_slot RO (clib s)) with (ro_buf (clib s)).
  destruct (find_var (buf (ro_buf (clib s))) _) as [vl|].
  { destruct Hro as (x & _ & Hok). rewrite (M_bind_eq _ _ _ (Some vl) (clib s)) by done.
    rewrite M_bind_unfold. unfold lift. by rewrite (Hub _ _ _ Hok). }
  rewrite Hro in Hv.
  rewrite (M_bind_eq _ _ _ _ _ (read_find RW _ (c :: name) (so_rw_live _ _ Hst))).
  change (get_slot RW (clib s)) with (rw_buf (clib s)).
  destruct (so_rw _ _ Hst) as (l & Hl & _ & Hrw). rewrite Hrw in Hv.
  pose proof (find_var_map _ _ _ Hl Hn) as Hf.
  destruct (find_var (buf (rw_buf (clib s))) _) as [vl|]; [|by rewrite Hf in Hv].
  destruct Hf as (x & ? & ? & ? & ? & _ & Hok & _).
  rewrite M_bind_unfold. unfold lift. by rewrite (Hub _ _ _ Hok).
Qed.

(** Paging through a buffer stays inside it.  Whatever the user types,
    [dump_data] only shows pages of the 64K block, moves to multiples of the page
    size between its first and last page, and makes no access outside an object. *)
Theorem dump_data_in_bounds idx s :
  ready (sv_buf idx) (clib s) → devices_open (clib s) → dump_data idx s ≠ Ub.
Proof.
  intros Hr Ho. pose proof Hr as (Hlive & Hsh & _). unfold dump_data.
  destruct (buf_shape_image _ Hsh) as (body & wc & crc & Hi).
  rewrite M_bind_unfold. unfold on_lib, sysvar_info.
  rewrite (M_bind_eq _ _ _ _ _ (check_mtd_open _ Ho)).
  change (negb (SYSVAR_SUCCESS =? 0)) with false. cbv iota.
  rewrite (M_bind_eq _ _ _ (buf (get_slot (sv_buf idx) (clib s))) (clib s)) by (by apply read_buf_eq).
  rewrite (M_bind_eq _ _ _ wc (clib s)) by (unfold lift; by rewrite (get_wc32_image _ _ _ _ Hi)).
  rewrite (M_bind_eq _ _ _ crc (clib s)) by (unfold lift; by rewrite (get_crc32_image _ _ _ _ Hi)).
  unfold say at 1, modify at 1. rewrite M_bind_unfold. cbn [gets].
  apply dump_loop_safe; [by eapply ready_out|by eapply devices_out|].
  split; [unfold PAGE_SIZE, SYSVAR_BLOCK_SIZE; lia|by exists 0].
Qed.
End cmd_lemmas.

(** ** The theorems at concrete states *)

#[local] Existing Instance lp64.
#[local] Existing Instance unlimited_memory.
#[local] Existing Instance demo_garbage.
#[local] Existing Instance no_faults.

Definition demo_con (inp : bytes) : con flash := Con demo_s4 inp false.

(** "SX", backspace, "N" and a newline. *)
Lemma get_str_edits_witness :
  ∃ str' s', get_str (lit "name ?") (uninit 32) 32 (demo_con [83; 88; 8; 78; 10; 97]) = Ret (str', s') ∧
    stdin s' = [97] ∧ cstr str' = Ret demo_name.
Proof.
  destruct (get_str_edits (lit "name ?") (uninit 32) [83; 88; 8; 78] [97]
    (demo_con [83; 88; 8; 78; 10; 97])) as (str' & s' & Hr & Hs & _ & Hc & _).
  - by apply (bool_decide_unpack _).
  - done.
  - simpl. lia.
  - exists str', s'. split; [exact Hr|]. split; [exact Hs|exact Hc].
Defined.

Lemma get_str_diverges_at_eof_witness :
  ¬ ∃ r, get_str_loop 1000 8 (uninit 8) 0 (demo_con [101; 120; 105; 116]) = Ret r.
Proof. apply get_str_diverges_at_eof. by apply (bool_decide_unpack _). Defined.

Lemma console_get_empty_clears_witness :
  ∃ s', run_cmd (get_cmd_index (lit "get")) false (demo_con [10]) = Ret (false, s') ∧ stdin s' = [] ∧
    store_of (clib s') (Store ∅ ∅).
Proof. apply (console_get_empty_clears _ demo_store); [apply demo_store_of|done]. Defined.

Lemma get_cmd_console_witness :
  get_cmd (demo_name ++ NUL :: replicate 29 7) (demo_con []) =
  Ret (SYSVAR_SUCCESS, set_clib (add_out (MsgText (demo_value ++ [LF])) demo_s4) (demo_con [])).
Proof.
  apply (get_cmd_console (demo_con []) demo_store demo_name).
  - apply demo_store_of.
  - by apply (bool_decide_unpack _).
  - done.
  - done.
  - by exists (replicate 29 7).
  - intros v Hv. vm_compute in Hv. injection Hv as <-. split; [by apply (bool_decide_unpack _)|simpl; lia].
Defined.

Lemma get_cmd_short_name_overflows_witness : get_cmd (demo_name ++ [NUL]) (demo_con []) = Ub.
Proof.
  apply (get_cmd_short_name_overflows _ demo_store demo_name demo_value).
  - apply demo_store_of.
  - by apply (bool_decide_unpack _).
  - done.
  - simpl. lia.
  - by vm_compute.
Defined.

Lemma dump_data_in_bounds_witness : dump_data SYSVAR_RW_BUF (demo_con [110; 10; 108; 10; 10]) ≠ Ub.
Proof.
  apply (dump_data_in_bounds SYSVAR_RW_BUF).
  - exact (demo_ready RW blank_data 37 [demo_var] demo_s4 eq_refl blank_block blank_bytes).
  - apply demo_open.
Defined.
