(* ===== verification/Logos.v ===== *)
(** * The log line processor: cmds/logos.c and cmds/utils.c

    Lines read from standard input are cleaned up, rate limited by three token
    buckets and written to the kernel log with a level found from their prefix. *)

From S2P Require Import Prelude.

(** ** cmds/utils.c *)

(** The loop of [strip_underscores] on the array [line]; [fuel] is its length. *)
Fixpoint strip_loop (fuel : nat) (line : bytes) (src dst : Z) : outcome bytes :=
  match fuel with
  | O => OutOfFuel
  | S fuel =>
      c ← buf_get line src;
      if c =? NUL then buf_set line dst NUL
      else
        line ← buf_set line dst c;
        strip_loop fuel line (src + 1) (if c =? 95 then dst else dst + 1)
  end.

(** The guard [strchr(line, '_')] is a test on the string in the array. *)
Definition strip_underscores (line : bytes) : outcome bytes :=
  s ← cstr line;
  if decide (95 ∈ s) then strip_loop (S (length line)) line 0 0 else Ret line.

(** ** State of cmds/logos.c *)

Definition BURST_LOG_SIZE : Z := 10 * 1000 * 1000.
Definition DAILY_LOG_SIZE : Z := 100 * 1000 * 1000.
Definition SECS_PER_BURST : Z := 300.
Definition SECS_PER_DAY : Z := 24 * 60 * 60.
Definition MAX_BURSTING_APPS : Z := 10.
Definition MAX_DAILY_APPS : Z := 20.
Definition DEFAULT_BYTES_PER_BURST : Z := BURST_LOG_SIZE / MAX_BURSTING_APPS.
Definition DEFAULT_BYTES_PER_DAY : Z := DAILY_LOG_SIZE / MAX_DAILY_APPS.
Definition MAX_LINE_LENGTH : nat := 768.

Inductive BucketType := BT_INFORMATIONAL | BT_MANDATORY.
#[export] Instance bucket_type_eq_dec : EqDecision BucketType.
Proof. solve_decision. Defined.

(** [msg_start] and [msg_end] are split at their [%d]. *)
Record Bucket := {
  b_name : bytes;
  msg_start : bytes * bytes;
  msg_end : bytes * bytes;
  b_type : BucketType;
  max_bytes : Z;
  fill_rate : Z;
  available : Z;
  num_skipped : Z;
}.

Definition set_available a b := {| b_name := b_name b; msg_start := msg_start b; msg_end := msg_end b;
  b_type := b_type b; max_bytes := max_bytes b; fill_rate := fill_rate b; available := a;
  num_skipped := num_skipped b |}.
Definition set_skipped n b := {| b_name := b_name b; msg_start := msg_start b; msg_end := msg_end b;
  b_type := b_type b; max_bytes := max_bytes b; fill_rate := fill_rate b; available := available b;
  num_skipped := n |}.
Definition set_rates m f a b := {| b_name := b_name b; msg_start := msg_start b; msg_end := msg_end b;
  b_type := b_type b; max_bytes := m; fill_rate := f; available := a; num_skipped := num_skipped b |}.

Record logos := {
  buckets : list Bucket;
  lg_debug : Z;
  want_unlimited_mode : bool;
  unlimited_mode : bool;
  last_add_time : Z;
  skipping : bool;
  backoff : Z;
  header : bytes;
  ticks : nat;               (* calls of clock_gettime and malloc so far *)
  outs : list bytes;         (* what each writev wrote to the kernel log *)
  errs : list bytes;         (* what went to stderr *)
}.

Definition with_buckets x s := {| buckets := x; lg_debug := lg_debug s;
  want_unlimited_mode := want_unlimited_mode s; unlimited_mode := unlimited_mode s;
  last_add_time := last_add_time s; skipping := skipping s; backoff := backoff s;
  header := header s; ticks := ticks s; outs := outs s; errs := errs s |}.
Definition with_want x s := {| buckets := buckets s; lg_debug := lg_debug s;
  want_unlimited_mode := x; unlimited_mode := unlimited_mode s;
  last_add_time := last_add_time s; skipping := skipping s; backoff := backoff s;
  header := header s; ticks := ticks s; outs := outs s; errs := errs s |}.
Definition with_unlimited x s := {| buckets := buckets s; lg_debug := lg_debug s;
  want_unlimited_mode := want_unlimited_mode s; unlimited_mode := x;
  last_add_time := last_add_time s; skipping := skipping s; backoff := backoff s;
  header := header s; ticks := ticks s; outs := outs s; errs := errs s |}.
Definition with_last_add x s := {| buckets := buckets s; lg_debug := lg_debug s;
  want_unlimited_mode := want_unlimited_mode s; unlimited_mode := unlimited_mode s;
  last_add_time := x; skipping := skipping s; backoff := backoff s;
  header := header s; ticks := ticks s; outs := outs s; errs := errs s |}.
Definition with_skipping x s := {| buckets := buckets s; lg_debug := lg_debug s;
  want_unlimited_mode := want_unlimited_mode s; unlimited_mode := unlimited_mode s;
  last_add_time := last_add_time s; skipping := x; backoff := backoff s;
  header := header s; ticks := ticks s; outs := outs s; errs := errs s |}.
Definition with_backoff x s := {| buckets := buckets s; lg_debug := lg_debug s;
  want_unlimited_mode := want_unlimited_mode s; unlimited_mode := unlimited_mode s;
  last_add_time := last_add_time s; skipping := skipping s; backoff := x;
  header := header s; ticks := ticks s; outs := outs s; errs := errs s |}.
Definition with_header x s := {| buckets := buckets s; lg_debug := lg_debug s;
  want_unlimited_mode := want_unlimited_mode s; unlimited_mode := unlimited_mode s;
  last_add_time := last_add_time s; skipping := skipping s; backoff := backoff s;
  header := x; ticks := ticks s; outs := outs s; errs := errs s |}.
Definition add_tick s := {| buckets := buckets s; lg_debug := lg_debug s;
  want_unlimited_mode := want_unlimited_mode s; unlimited_mode := unlimited_mode s;
  last_add_time := last_add_time s; skipping := skipping s; backoff := backoff s;
  header := header s; ticks := S (ticks s); outs := outs s; errs := errs s |}.
Definition add_msg x s := {| buckets := buckets s; lg_debug := lg_debug s;
  want_unlimited_mode := want_unlimited_mode s; unlimited_mode := unlimited_mode s;
  last_add_time := last_add_time s; skipping := skipping s; backoff := backoff s;
  header := header s; ticks := ticks s; outs := outs s ++ [x]; errs := errs s |}.
Definition add_err x s := {| buckets := buckets s; lg_debug := lg_debug s;
  want_unlimited_mode := want_unlimited_mode s; unlimited_mode := unlimited_mode s;
  last_add_time := last_add_time s; skipping := skipping s; backoff := backoff s;
  header := header s; ticks := ticks s; outs := outs s; errs := errs s ++ [x] |}.

(** Whether the allocation of [fix_buf] succeeds when it is the [n]th call of the
    environment ([ticks] counts readings of the clock and allocations together). *)
Class LineAlloc := line_alloc : nat → bool.

Definition tolower (c : Z) : Z := if (65 <=? c) && (c <=? 90) then c + 32 else c.

(** [strncasecmp(s, contains, strlen(contains)) == 0], where [s] is what the object
    holds from the pointer on. *)
Fixpoint startswith (s contains : bytes) {struct contains} : outcome bool :=
  match contains with
  | [] => Ret true
  | c :: contains =>
      match s with
      | [] => Ub
      | x :: s => if tolower x =? tolower c then startswith s contains else Ret false
      end
  end.

Fixpoint any_prefix (s : bytes) (ps : list bytes) : outcome bool :=
  match ps with
  | [] => Ret false
  | p :: ps => r ← startswith s p; if r : bool then Ret true else any_prefix s ps
  end.

(** The levels of [_flush_unlimited] and their prefixes, in the order tested. *)
Definition level_prefixes : list (Z * list bytes) :=
  [ (50, [lit "weird:"; lit "fatal:"; lit "critical:"]);
    (51, [lit "e:"; lit "error:"]);
    (52, [lit "w:"; lit "warning:"]);
    (53, [lit "n:"; lit "notice:"]);
    (54, [lit "i:"; lit "info:"]) ].

Fixpoint find_level (s : bytes) (ps : list (Z * list bytes)) : outcome Z :=
  match ps with
  | [] => Ret 55
  | (lvl, p) :: ps => r ← any_prefix s p; if r : bool then Ret lvl else find_level s ps
  end.

Section logos.
Context `{!CPlatform, !Clock, !LineAlloc}.
Abbreviation LM := (M logos).

Definition init_buckets (bytes_per_burst bytes_per_day : Z) (bs : list Bucket) : list Bucket :=
  let burst_max := bytes_per_burst / 2 in
  let daily_rate := bytes_per_day / SECS_PER_DAY in
  match bs with
  | [b0; b1; b2] =>
      [ set_rates burst_max (burst_max / SECS_PER_BURST) (burst_max / 2) b0;
        set_rates bytes_per_day daily_rate (bytes_per_day / 2) b1;
        set_rates burst_max daily_rate (burst_max / 2) b2 ]
  | _ => bs
  end.

(** [assert(c)] *)
Definition massert (c : bool) : LM unit := if c then mret tt else stuck.

(** [_flush_unlimited(header, headerlen, buf, len)]: [mem] is what the object of
    [buf] holds from [buf] on. *)
Definition _flush_unlimited (mem : bytes) (len : nat) : LM unit :=
  h ← gets header;
  massert (3 <? Z.of_nat (length h));;
  h0 ← lift (buf_get h 0);
  massert (h0 =? 60);;
  h2 ← lift (buf_get h 2);
  massert (h2 =? 62);;
  lvl ← lift (find_level mem level_prefixes);
  h ← lift (buf_set h 1 lvl);
  modify (with_header h);;
  if decide (len ≤ length mem)%nat then modify (add_msg (h ++ take len mem ++ [10])) else stuck.

Definition mstime : LM Z := fun s => Ret (clock (ticks s), add_tick s).

Definition refill_half (b : Bucket) : Bucket := set_available (Z.quot (max_bytes b) 2) b.

Definition fill_bucket (tdiff : Z) (b : Bucket) : outcome Bucket :=
  let add := Z.quot (s64 (tdiff * fill_rate b)) 1000 in
  if add <? 0 then Ub
  else
    let a := sword (available b + add) in
    Ret (set_available (if a >? max_bytes b then max_bytes b else a) b).

Fixpoint fill_all (tdiff : Z) (bs : list Bucket) : outcome (list Bucket) :=
  match bs with
  | [] => Ret []
  | b :: bs => b ← fill_bucket tdiff b; bs ← fill_all tdiff bs; Ret (b :: bs)
  end.

Definition maybe_fill_buckets : LM unit :=
  now ← mstime;
  last ← gets last_add_time;
  if last =? 0 then
    modify (with_last_add now);;
    modify (λ s, with_buckets (refill_half <$> buckets s) s)
  else
    let tdiff := now - last in
    sk ← gets skipping;
    bo ← gets backoff;
    if (negb sk && (1000 <=? tdiff)) || (sk && (bo <=? tdiff)) then
      bs ← gets buckets;
      bs ← lift (fill_all tdiff bs);
      modify (with_buckets bs);;
      modify (with_last_add now)
    else mret tt.

Definition set_bucket (i : nat) (b : Bucket) : LM unit :=
  modify (λ s, with_buckets (<[i := b]> (buckets s)) s).
Definition get_bucket (i : nat) : LM Bucket := fun s =>
  match buckets s !! i with Some b => Ret (b, s) | None => Ub end.

(** A bucket message: the text around [%d], printed into [tmp]. *)
Definition flush_message (fmt : bytes * bytes) (n : Z) : LM unit :=
  let text := fmt.1 ++ dec (s32 n) ++ fmt.2 in
  _flush_unlimited (text ++ [NUL]) (length text).

(** One iteration of the loop of [all_buckets_have_room]. *)
Definition check_bucket (i : nat) (total : Z) (all_ok now_skipping : bool) : LM (bool * bool) :=
  b ← get_bucket i;
  u ← gets unlimited_mode;
  if (total <=? available b) || u then
    (if negb (num_skipped b =? 0) then
       flush_message (msg_end b) (num_skipped b);;
       set_bucket i (set_skipped 0 b)
     else mret tt);;
    b ← get_bucket i;
    set_bucket i (set_available (sword (available b - total)) b);;
    mret (all_ok, now_skipping)
  else
    (if num_skipped b =? 0 then
       flush_message (msg_start b) (fill_rate b);;
       set_bucket i (set_available 0 b);;
       sk ← gets skipping;
       (if negb now_skipping && negb sk then modify (λ s, with_backoff (s32 (backoff s * 2)) s)
        else mret tt);;
       bo ← gets backoff;
       (if bo >? 120 * 1000 then modify (with_backoff (120 * 1000)) else mret tt)
     else mret tt);;
    b ← get_bucket i;
    set_bucket i (set_skipped (s32 (num_skipped b + 1)) b);;
    mret (match b_type b with BT_MANDATORY => false | BT_INFORMATIONAL => all_ok end, true).

Definition all_buckets_have_room (total : Z) : LM bool :=
  '(ok, sk) ← check_bucket 0 total true false;
  '(ok, sk) ← check_bucket 1 total ok sk;
  '(ok, sk) ← check_bucket 2 total ok sk;
  modify (with_skipping sk);;
  mret ok.

(** The debugging line of [_flush_ratelimited]; [p] its text so far. *)
Fixpoint debug_line (i : nat) (bs : list Bucket) (p : bytes) : outcome bytes :=
  match bs with
  | [] => Ret p
  | b :: bs =>
      let p := p ++ b_name b ++ lit "=" ++ dec (available b) ++ lit " " in
      if strlen p <? 100 * (Z.of_nat i + 1) then debug_line (S i) bs p else Ub
  end.

Definition _flush_ratelimited (mem : bytes) (len : nat) : LM unit :=
  h ← gets header;
  let total := Z.of_nat (length h) + Z.of_nat len + 1 in
  d ← gets lg_debug;
  (if negb (d =? 0) then
     bs ← gets buckets;
     p ← lift (debug_line 0 bs (lit "logos: "));
     modify (add_err (p ++ lit "want=" ++ dec total ++ [10]))
   else mret tt);;
  maybe_fill_buckets;;
  ok ← all_buckets_have_room total;
  if ok : bool then _flush_unlimited mem len else mret tt.

(** Signals *)
Definition refill_ratelimiter : LM unit := modify (with_last_add 0).
Definition disable_ratelimit : LM unit := modify (with_want true).
Definition enable_ratelimit : LM unit := modify (with_want false).

(** [fix_buf]: [out] is what has been written to the block of [cap] bytes. *)
Definition emit (cap : nat) (out : bytes) (text : bytes) (room : nat) : outcome bytes :=
  if decide (length out + room ≤ cap)%nat then Ret (out ++ text) else Ub.

Definition hex_digit (n : Z) : Z := if n <? 10 then 48 + n else 87 + n.

(** [do *outp++ = ' '; while ((outp - outbuf) % 8 != 0);] *)
Fixpoint emit_tab (fuel cap : nat) (out : bytes) : outcome bytes :=
  match fuel with
  | O => OutOfFuel
  | S fuel =>
      out ← emit cap out [32] 1;
      if Nat.eqb (length out mod 8) 0 then Ret out else emit_tab fuel cap out
  end.

Fixpoint fix_loop (cap : nat) (inp : bytes) (out : bytes) : outcome bytes :=
  match inp with
  | [] => emit cap out [NUL] 1
  | c :: inp =>
      out ← (if (32 <=? c) || (c =? 10) then emit cap out [c] 1
             else if c =? 9 then emit_tab 8 cap out
             else if c =? 13 then Ret out
             else emit cap out [92; 120; hex_digit (c / 16); hex_digit (c mod 16)] 5);
      fix_loop cap inp out
  end.

(** The bytes written to the block; the rest of it is not read. *)
Definition fix_buf (inp : bytes) : outcome bytes :=
  fix_loop (length inp * 8 + 1) inp [].

Definition is_special (c : Z) : bool := (c <? 32) && negb (c =? 10).

Definition flush (mem : bytes) (len : nat) : LM unit :=
  if decide (len ≤ length mem)%nat then
    if existsb is_special (take len mem) then
      k ← gets ticks;
      modify add_tick;;
      if line_alloc k then
        out ← lift (fix_buf (take len mem));
        s ← lift (cstr out);
        _flush_ratelimited out (length s)
      else modify (add_err (lit "logos: allocating memory"))
    else _flush_ratelimited mem len
  else stuck.
End logos.

(** ** Splitting the input into lines *)

Definition overlong_warning : bytes := lit "W: previous log line was split. Use shorter lines.".
Definition now_unlimited : bytes := lit "W: SIGUSR1: rate limit disabled.".
Definition now_limited : bytes := lit "W: SIGUSR2: rate limit re-enabled.".

(** The local variables of [main] that survive an iteration of its loop. *)
Record line_buf := {
  lb_buf : bytes;
  used : nat;
  overlong : bool;
}.

(** What a call of [read] finds: [n] bytes (at least one, at most what fits and
    what is there), EINTR or EAGAIN, or another error. *)
Inductive read_event := ReadData (n : nat) | ReadAgain | ReadError.

Fixpoint index_of (x : Z) (l : bytes) : option nat :=
  match l with [] => None | y :: l => if decide (y = x) then Some O else S <$> index_of x l end.

Section splitter.
Context {S : Type} (flush : bytes → nat → M S unit).

Definition flush_literal (text : bytes) : M S unit := flush (text ++ [NUL]) (length text).

(** [while ((p = memchr(next, '\n', end - next)) != NULL)]; [start] and [next] are
    the same pointer after the first iteration. *)
Fixpoint lines_loop (fuel : nat) (buf : bytes) (start next end_ : nat) (ov : bool)
    : M S (nat * bool) :=
  match fuel with
  | O => fun _ => OutOfFuel
  | Datatypes.S fuel =>
      match index_of 10 (take (end_ - next) (drop next buf)) with
      | None => mret (start, ov)
      | Some k =>
          let p := (next + k)%nat in
          flush (drop start buf) (p - start);;
          (if ov : bool then flush_literal overlong_warning else mret tt);;
          lines_loop fuel buf (p + 1) (p + 1) end_ false
      end
  end.

(** Reading [got] bytes [data] into the buffer and flushing the complete lines. *)
Definition handle_data (lb : line_buf) (data : bytes) : M S line_buf :=
  let buf := take (used lb) (lb_buf lb) ++ data ++ drop (used lb + length data) (lb_buf lb) in
  let end_ := (used lb + length data)%nat in
  '(start, ov) ← lines_loop (Datatypes.S MAX_LINE_LENGTH) buf 0 (used lb) end_ (overlong lb);
  let n := (end_ - start)%nat in
  mret {| lb_buf := take n (drop start buf) ++ drop n buf;       (* memmove *)
          used := n; overlong := ov |}.

(** The rest of an iteration of [main]'s loop, on the input [stream]. *)
Definition read_step (lb : line_buf) (ev : read_event) (stream : bytes)
    : M S ((line_buf * bytes) + Z) :=
  lb ← (if decide (used lb = MAX_LINE_LENGTH) then
          flush (lb_buf lb) (used lb);;
          mret {| lb_buf := lb_buf lb; used := 0; overlong := true |}
        else mret lb);
  match ev with
  | ReadAgain => mret (inl (lb, stream))
  | ReadError => flush (lb_buf lb) (used lb);; mret (inr 1)
  | ReadData n =>
      if decide (stream = []) then
        (if decide (0 < used lb)%nat then flush (lb_buf lb) (used lb) else mret tt);;
        mret (inr 0)
      else
        let got := (Datatypes.S n `min` (MAX_LINE_LENGTH - used lb))%nat in
        lb ← handle_data lb (take got stream);
        mret (inl (lb, drop got stream))
  end.

(** The loop of [main]: [pre] is the mode switch at its top, [sigs] the handlers
    that run while it waits in [read]. *)
Fixpoint main_loop (pre : M S unit) (script : list (M S unit * read_event)) (lb : line_buf)
    (stream : bytes) : M S (option Z) :=
  match script with
  | [] => mret None
  | (sigs, ev) :: script =>
      pre;;
      sigs;;
      r ← read_step lb ev stream;
      match r with
      | inl (lb, stream) => main_loop pre script lb stream
      | inr code => mret (Some code)
      end
  end.
End splitter.

Section main.
Context `{!CPlatform, !Clock, !LineAlloc}.

Definition mode_switch : M logos unit :=
  u ← gets unlimited_mode;
  w ← gets want_unlimited_mode;
  if bool_decide (u = w) then mret tt
  else
    modify (with_unlimited w);;
    modify (with_last_add 0);;
    if w : bool then flush_literal _flush_unlimited now_unlimited
    else flush_literal _flush_unlimited now_limited.

(** The initial value of [buckets]. *)
Definition bucket_table : list Bucket :=
  [ {| b_name := lit "burst";
       msg_start := (lit "W: burst limit: dropping messages to prevent overflow (", lit " bytes/sec).");
       msg_end := (lit "W: burst limit: ", lit " messages were dropped.");
       b_type := BT_MANDATORY; max_bytes := 0; fill_rate := 0; available := 0; num_skipped := 0 |};
    {| b_name := lit "daily";
       msg_start := (lit "W: daily limit: dropping messages (", lit " bytes/sec).");
       msg_end := (lit "W: daily limit: ", lit " messages were dropped.");
       b_type := BT_MANDATORY; max_bytes := 0; fill_rate := 0; available := 0; num_skipped := 0 |};
    {| b_name := lit "warning";
       msg_start := (lit "I: burst notice: this log rate is unsustainable (", lit " bytes/sec).");
       msg_end := (lit "I: burst notice: ", lit " messages would have been dropped.");
       b_type := BT_INFORMATIONAL; max_bytes := 0; fill_rate := 0; available := 0; num_skipped := 0 |} ].

(** What the rest of the system answers during the set-up of [main]: the value of
    LOGOS_DEBUG, whether the file that disables the limits exists, and whether
    opening the kernel log and changing to the root directory succeed. *)
Record host := {
  logos_debug : option bytes;
  limits_off : bool;
  kmsg_open : bool;
  chdir_root : bool;
}.

Definition usage_text : bytes :=
  lit "Usage: [LOGOS_DEBUG=1] logos <facilityname> [bytes/burst] [bytes/day]" ++ [10] ++
  lit "  Copies logs from stdin to /dev/kmsg, formatting them to be" ++ [10] ++
  lit "  suitable for /dev/kmsg. If LOGOS_DEBUG is >= 1, writes to" ++ [10] ++
  lit "  stdout instead." ++ [10] ++ lit "  " ++ [10] ++
  lit "  Default bytes/burst = " ++ dec DEFAULT_BYTES_PER_BURST ++
  lit " - use 0 (for default) if possible." ++ [10] ++
  lit "  Default bytes/day = " ++ dec DEFAULT_BYTES_PER_DAY ++
  lit " - use 0 (for default) if possible." ++ [10] ++
  lit "  Signals:" ++ [10] ++
  lit "    SIGHUP: refill the token buckets once." ++ [10] ++
  lit "    SIGUSR1: disable rate limiting." ++ [10] ++
  lit "    SIGUSR2: re-enable rate limiting." ++ [10] ++
  lit "    Example: pkill -USR1 logos  -- disables rate limit on all logos." ++ [10].

(** The error line for a size that is too small.  Both call sites pass [argv[2]];
    the pointer after the last argument is null and prints as "(null)". *)
Definition too_small (what : bytes) (arg : option bytes) (least : Z) : bytes :=
  lit "logos: " ++ what ++ lit " (" ++ default (lit "(null)") arg ++
  lit ") must be an int >= " ++ dec least ++ [10].

(** The size given by argument [arg], the default where it is missing or zero. *)
Definition size_arg (arg : option bytes) (missing dflt : Z) : outcome Z :=
  v ← match arg with Some a => v ← atoll a; Ret (sword v) | None => Ret missing end;
  Ret (if v =? 0 then dflt else v).

(** [main] up to its loop; [argv] holds the arrays of the arguments.  [inl]: the
    state it enters the loop with; [inr]: its exit status and error output. *)
Definition configure (env : host) (argv : list bytes) : outcome (logos + (Z * bytes)) :=
  debug ← match logos_debug env with Some p => atoi p | None => Ret 0 end;
  match argv with
  | _ :: argv1 :: rest =>
      if decide (2 < length rest)%nat then Ret (inr (99, usage_text))
      else
        argv1 ← strip_underscores argv1;
        fac ← cstr argv1;
        if decide (fac = []) then
          Ret (inr (1, lit "logos: facility name was empty, or all underscores." ++ [10]))
        else if line_alloc 0 then
          arg2 ← match rest !! 0%nat with Some a => a ← cstr a; Ret (Some a) | None => Ret None end;
          arg3 ← match rest !! 1%nat with Some a => a ← cstr a; Ret (Some a) | None => Ret None end;
          bytes_per_burst ← size_arg arg2 DEFAULT_BYTES_PER_BURST DEFAULT_BYTES_PER_BURST;
          if bytes_per_burst <? SECS_PER_BURST * 2 then
            Ret (inr (6, too_small (lit "bytes-per-burst") arg2 (SECS_PER_BURST * 2)))
          else
            bytes_per_day ← size_arg arg3 0 DEFAULT_BYTES_PER_DAY;
            if bytes_per_day <? SECS_PER_DAY then
              Ret (inr (6, too_small (lit "bytes-per-day") arg2 SECS_PER_DAY))
            else if (debug =? 0) && negb (kmsg_open env) then Ret (inr (3, lit "logos: /dev/kmsg"))
            else if (debug =? 0) && negb (chdir_root env) then Ret (inr (3, lit "logos: chdir /"))
            else
              Ret (inl {| buckets := init_buckets bytes_per_burst bytes_per_day bucket_table;
                          lg_debug := debug; want_unlimited_mode := limits_off env;
                          unlimited_mode := false; last_add_time := 0; skipping := false;
                          backoff := 10 * 1000 / 2; header := lit "<x>" ++ fac ++ lit ": ";
                          ticks := 1; outs := []; errs := [] |})
        else Ret (inr (5, lit "logos: allocating memory"))
  | _ => Ret (inr (99, usage_text))
  end.

(** The whole of [main]: its exit status ([None] when the script of reads ends
    first) and the last state, or the error output of a failed set-up.  [garbage]
    is what the uninitialised [buf] holds. *)
Definition main (env : host) (argv : list bytes) (script : list (M logos unit * read_event))
    (stream : bytes) (garbage : bytes) : outcome (option Z * (logos + bytes)) :=
  c ← configure env argv;
  match c with
  | inr (code, err) => Ret (Some code, inr err)
  | inl s =>
      '(r, s) ← main_loop flush mode_switch script
        {| lb_buf := garbage; used := 0; overlong := false |} stream s;
      Ret (r, inl s)
  end.
End main.

(** ** Facts about the helpers *)

Lemma strip_loop_spec s : ∀ fuel line (src dst : nat) w t,
  Forall (λ b, b ≠ NUL) s → Forall (λ b, b ≠ NUL) w → (length s < fuel)%nat → (dst ≤ src)%nat →
  take dst line = w → drop src line = s ++ NUL :: t →
  ∃ line', strip_loop fuel line (Z.of_nat src) (Z.of_nat dst) = Ret line' ∧
    length line' = length line ∧ cstr line' = Ret (w ++ filter (λ c, c ≠ 95) s).
Proof.
  induction s as [|c s IH]; intros fuel line src dst w t Hs Hw Hfuel Hle Htake Hdrop;
    (destruct fuel as [|fuel]; [simpl in Hfuel; lia|]); cbn [strip_loop].
  - assert (line !! src = Some NUL) as Hsrc by (rewrite <-(Nat.add_0_r src), <-lookup_drop, Hdrop; done).
    pose proof (lookup_lt_Some _ _ _ Hsrc). rewrite (buf_get_Some _ _ _ Hsrc). cbn [mbind outcome_bind].
    rewrite Z.eqb_refl, buf_set_in_range by lia. eexists. split; [reflexivity|].
    rewrite length_insert. split; [done|]. rewrite Nat2Z.id, insert_take_drop by lia.
    rewrite Htake, filter_nil, app_nil_r. by apply cstr_app.
  - assert (line !! src = Some c) as Hsrc by (rewrite <-(Nat.add_0_r src), <-lookup_drop, Hdrop; done).
    pose proof (lookup_lt_Some _ _ _ Hsrc). rewrite (buf_get_Some _ _ _ Hsrc). cbn [mbind outcome_bind].
    apply Forall_cons in Hs as [Hc Hs]. destruct (Z.eqb_spec c NUL); [done|].
    rewrite buf_set_in_range by lia. cbn [mbind outcome_bind]. rewrite Nat2Z.id.
    set (line1 := <[dst := c]> line).
    assert (drop (S src) line1 = s ++ NUL :: t) as Hd1.
    { unfold line1. rewrite drop_insert_lt by lia.
      assert (drop (S src) line = drop 1 (drop src line)) as -> by (rewrite drop_drop; f_equal; lia).
      by rewrite Hdrop. }
    replace (Z.of_nat src + 1) with (Z.of_nat (S src)) by lia.
    destruct (Z.eqb_spec c 95) as [->|Hne].
    + destruct (IH fuel line1 (S src) dst w t) as (line' & -> & Hl & Hf);
        [done|done|simpl in *; lia|lia| |done|].
      { unfold line1. by rewrite take_insert_ge by lia. }
      exists line'. unfold line1 in Hl. rewrite length_insert in Hl.
      rewrite filter_cons_False by (intros []; done). done.
    + replace (Z.of_nat dst + 1) with (Z.of_nat (S dst)) by lia.
      destruct (IH fuel line1 (S src) (S dst) (w ++ [c]) t) as (line' & -> & Hl & Hf);
        [done|apply Forall_app; by split; [|constructor]|simpl in *; lia|lia| |done|].
      { unfold line1. rewrite (take_S_r _ _ c) by (apply list_lookup_insert_eq; lia).
        by rewrite take_insert_ge, Htake by lia. }
      exists line'. unfold line1 in Hl. rewrite length_insert in Hl.
      rewrite filter_cons_True by done. by rewrite <-(assoc_L (++)) in Hf.
Qed.

Lemma strip_underscores_run s t :
  Forall (λ b, b ≠ NUL) s →
  ∃ line', strip_underscores (s ++ NUL :: t) = Ret line' ∧ length line' = length (s ++ NUL :: t) ∧
    cstr line' = Ret (filter (λ c, c ≠ 95) s).
Proof.
  intros Hs. unfold strip_underscores. rewrite cstr_app by done. cbn [mbind outcome_bind].
  case_decide as Hin.
  - destruct (strip_loop_spec s (S (length (s ++ NUL :: t))) (s ++ NUL :: t) 0 0 [] t)
      as (line' & Hr & Hl & Hc); [done|constructor| |lia|done|done|].
    { rewrite length_app. simpl. lia. }
    exists line'. by split_and!.
  - exists (s ++ NUL :: t). split_and!; [done|done|]. rewrite cstr_app by done. f_equal. symmetry.
    clear Hs. induction s as [|c s IH]; [done|].
    apply not_elem_of_cons in Hin as [Hc Hin]. rewrite filter_cons_True by done. by rewrite IH.
Qed.

(** *** Cleaning up a line *)

(** The column of the output decides how many spaces a tab becomes. *)
Definition clean_char (col : nat) (c : Z) : bytes :=
  if (32 <=? c) || (c =? 10) then [c]
  else if c =? 9 then replicate (8 - col mod 8) 32
  else if c =? 13 then []
  else [92; 120; hex_digit (c / 16); hex_digit (c mod 16)].
Fixpoint clean (col : nat) (inp : bytes) : bytes :=
  match inp with
  | [] => []
  | c :: inp => clean_char col c ++ clean (col + length (clean_char col c)) inp
  end.

Lemma emit_tab_spec k : ∀ fuel cap out,
  (8 - length out mod 8 = S k)%nat → (S k ≤ fuel)%nat → (length out + S k ≤ cap)%nat →
  emit_tab fuel cap out = Ret (out ++ replicate (S k) 32).
Proof.
  induction k as [|k IH]; intros fuel cap out Hk Hfuel Hcap;
    (destruct fuel as [|fuel]; [lia|]); cbn [emit_tab]; unfold emit;
    rewrite decide_True by lia; cbn [mbind outcome_bind]; rewrite length_app; simpl length.
  - replace ((length out + 1) mod 8)%nat with 0%nat; [done|].
    pose proof (Nat.div_mod_eq (length out) 8).
    replace (length out + 1)%nat with ((length out / 8 + 1) * 8)%nat by lia. by rewrite Nat.Div0.mod_mul.
  - assert ((length out + 1) mod 8 = length out mod 8 + 1)%nat as Hm.
    { pose proof (Nat.div_mod_eq (length out) 8).
      replace (length out + 1)%nat with (length out mod 8 + 1 + (length out / 8) * 8)%nat by lia.
      rewrite Nat.Div0.mod_add. apply Nat.mod_small. lia. }
    rewrite Hm. destruct (Nat.eqb_spec (length out mod 8 + 1) 0); [lia|].
    rewrite (IH fuel cap (out ++ [32])); [|rewrite length_app; simpl length; rewrite Hm; lia|lia|rewrite length_app; simpl length; lia].
    by rewrite <-(assoc_L (++)).
Qed.

Lemma fix_loop_spec inp : ∀ cap out,
  (length out + 8 * length inp + 1 ≤ cap)%nat →
  fix_loop cap inp out = Ret (out ++ clean (length out) inp ++ [NUL]) ∧
  (length (clean (length out) inp) ≤ 8 * length inp)%nat.
Proof.
  induction inp as [|c inp IH]; intros cap out Hcap; cbn [fix_loop clean].
  - unfold emit. rewrite decide_True by (simpl in *; lia). split; [done|simpl; lia].
  - simpl length in Hcap. set (text := clean_char (length out) c).
    assert ((if (32 <=? c) || (c =? 10) then emit cap out [c] 1
             else if c =? 9 then emit_tab 8 cap out else if c =? 13 then Ret out
             else emit cap out [92; 120; hex_digit (c / 16); hex_digit (c mod 16)] 5)
            = Ret (out ++ text) ∧ (length text ≤ 8)%nat) as [Hstep Hlen].
    { subst text. unfold clean_char. destruct (_ || _); [unfold emit; rewrite decide_True by lia; split; [done|simpl; lia]|].
      destruct (c =? 9).
      { pose proof (Nat.mod_upper_bound (length out) 8 ltac:(lia)).
        assert (8 - length out mod 8 = S (7 - length out mod 8))%nat as Hk by lia. rewrite Hk.
        rewrite (emit_tab_spec (7 - length out mod 8)); [|exact Hk|lia|lia].
        rewrite length_replicate. split; [done|lia]. }
      destruct (c =? 13); [rewrite app_nil_r; split; [done|simpl; lia]|].
      unfold emit. rewrite decide_True by lia. split; [done|simpl; lia]. }
    rewrite Hstep. cbn [mbind outcome_bind].
    destruct (IH cap (out ++ text)) as [-> Hl]; [rewrite length_app; lia|].
    rewrite !length_app in *. rewrite <-!(assoc_L (++)). split; [done|]. simpl length. lia.
Qed.

Lemma fix_buf_run inp : fix_buf inp = Ret (clean 0 inp ++ [NUL]) ∧ (length (clean 0 inp) ≤ 8 * length inp)%nat.
Proof. unfold fix_buf. apply (fix_loop_spec inp _ []). simpl. lia. Qed.

Lemma clean_printable inp : ∀ col, all_bytes inp → Forall (λ c, c = 10 ∨ 32 ≤ c < 256) (clean col inp).
Proof.
  induction inp as [|c inp IH]; intros col Hb; [constructor|]. cbn [clean].
  apply Forall_cons in Hb as [Hc Hb]. unfold clean_char at 1. unfold is_byte in Hc. apply Forall_app. split; [|by apply IH].
  destruct (_ || _) eqn:E; [constructor; [lia|constructor]|].
  destruct (c =? 9); [apply Forall_replicate; lia|]. destruct (c =? 13); [constructor|].
  assert (∀ n, 0 ≤ n < 16 → 32 ≤ hex_digit n < 256) as Hh by (intros n Hn; unfold hex_digit; case_match; lia).
  assert (0 ≤ c / 16 < 16) by (split; [apply Z.div_pos; lia|apply Z.div_lt_upper_bound; lia]).
  pose proof (Z.mod_pos_bound c 16 ltac:(lia)).
    rewrite !Forall_cons. split_and!; [right; lia|right; lia|right; by apply Hh|right; by apply Hh|constructor].
Qed.

(** *** Lines *)

(** The lines of a stream, read byte by byte: [acc] is the line so far. *)
Fixpoint spec_lines (acc : bytes) (ov : bool) (stream : bytes) : list bytes :=
  match stream with
  | [] => if bool_decide (acc = []) then [] else [acc]
  | c :: stream =>
      if bool_decide (c = 10) then
        acc :: (if ov then [overlong_warning] else []) ++ spec_lines [] false stream
      else if bool_decide (length (acc ++ [c]) = MAX_LINE_LENGTH)
      then (acc ++ [c]) :: spec_lines [] true stream
      else spec_lines (acc ++ [c]) ov stream
  end.

(** The same for bytes that are known to fit. *)
Fixpoint chunk (acc : bytes) (ov : bool) (seg : bytes) : list bytes * (bytes * bool) :=
  match seg with
  | [] => ([], (acc, ov))
  | c :: seg =>
      if bool_decide (c = 10) then
        let '(ls, r) := chunk [] false seg in
        (acc :: (if ov then [overlong_warning] else []) ++ ls, r)
      else chunk (acc ++ [c]) ov seg
  end.

Lemma chunk_no_newline s1 : ∀ acc ov rest,
  10 ∉ s1 → chunk acc ov (s1 ++ rest) = chunk (acc ++ s1) ov rest.
Proof.
  induction s1 as [|c s1 IH]; intros acc ov rest Hni; [by rewrite app_nil_r|].
  apply not_elem_of_cons in Hni as [Hc Hni]. cbn [app chunk]. rewrite bool_decide_false by done.
  rewrite IH by done. by rewrite <-(assoc_L (++)).
Qed.

Lemma chunk_length acc ov seg :
  (length (chunk acc ov seg).2.1 ≤ length acc + length seg)%nat.
Proof.
  revert acc ov. induction seg as [|c seg IH]; intros acc ov; simpl; [lia|]. case_bool_decide.
  - specialize (IH [] false). destruct (chunk [] false seg). simpl in *. lia.
  - specialize (IH (acc ++ [c]) ov). rewrite length_app in IH. simpl in *. lia.
Qed.

Lemma chunk_newline_free acc ov seg : 10 ∉ acc → 10 ∉ (chunk acc ov seg).2.1.
Proof.
  revert acc ov. induction seg as [|c seg IH]; intros acc ov Ha; simpl; [done|]. case_bool_decide.
  - specialize (IH [] false). destruct (chunk [] false seg). simpl in *. apply IH. by apply not_elem_of_nil.
  - apply IH. rewrite elem_of_app, list_elem_of_singleton. naive_solver.
Qed.

(** Reading a piece that fits in the buffer, then the rest of the stream. *)
Lemma spec_lines_chunk seg : ∀ acc ov rest,
  (length acc < MAX_LINE_LENGTH)%nat → (length acc + length seg ≤ MAX_LINE_LENGTH)%nat →
  let '(ls, (acc', ov')) := chunk acc ov seg in
  spec_lines acc ov (seg ++ rest) =
  ls ++ (if bool_decide (length acc' = MAX_LINE_LENGTH) then acc' :: spec_lines [] true rest
         else spec_lines acc' ov' rest).
Proof.
  induction seg as [|c seg IH]; intros acc ov rest Ha Hlen.
  - cbn [chunk app]. by rewrite bool_decide_false by lia.
  - cbn [chunk app spec_lines]. simpl in Hlen. case_bool_decide as Hc.
    + specialize (IH [] false rest). simpl in IH. destruct (chunk [] false seg) as [ls [acc' ov']].
      rewrite IH by (unfold MAX_LINE_LENGTH in *; lia). simpl. by rewrite <-(assoc_L (++)).
    + case_bool_decide as Hfull; rewrite length_app in *; simpl length in *.
      * destruct seg; [|simpl in Hlen; lia]. cbn [chunk app].
        rewrite bool_decide_true by (rewrite length_app; simpl; lia). done.
      * specialize (IH (acc ++ [c]) ov rest). rewrite length_app in IH. simpl in IH. apply IH; lia.
Qed.

Lemma index_of_Some x l k :
  index_of x l = Some k → ∃ s1 s2, l = s1 ++ x :: s2 ∧ length s1 = k ∧ x ∉ s1.
Proof.
  revert k. induction l as [|y l IH]; intros k; [done|]. simpl. case_decide as Hy.
  - intros [= <-]. subst. exists [], l. split_and!; [done|done|]. apply not_elem_of_nil.
  - destruct (index_of x l) as [k'|]; [|done]. intros [= <-].
    destruct (IH k' eq_refl) as (s1 & s2 & -> & <- & Hni). exists (y :: s1), s2.
    split_and!; [done|done|]. apply not_elem_of_cons. by split.
Qed.

Lemma index_of_None x l : index_of x l = None → x ∉ l.
Proof.
  induction l as [|y l IH]; simpl; [intros _; apply not_elem_of_nil|]. case_decide; [done|].
  destruct (index_of x l); [done|]. intros _. apply not_elem_of_cons. split; [done|by apply IH].
Qed.

(** The [flush] that keeps the lines it is given. *)
Definition record_line (mem : bytes) (len : nat) : M (list bytes) unit := fun ls =>
  if decide (len ≤ length mem)%nat then Ret (tt, ls ++ [take len mem]) else Ub.

Lemma record_line_eq mem len l ls :
  (len ≤ length mem)%nat → take len mem = l → record_line mem len ls = Ret (tt, ls ++ [l]).
Proof. intros Hl <-. unfold record_line. by rewrite decide_True. Qed.

Lemma record_literal text ls : flush_literal record_line text ls = Ret (tt, ls ++ [text]).
Proof.
  apply record_line_eq; [rewrite length_app; lia|]. by rewrite take_app_length.
Qed.

Lemma lines_loop_run n : ∀ fuel A acc seg B ov ls,
  (length seg ≤ n)%nat → (length seg < fuel)%nat → 10 ∉ acc →
  ∃ A' acc', A ++ acc ++ seg = A' ++ acc' ∧ acc' = (chunk acc ov seg).2.1 ∧
    lines_loop record_line fuel (A ++ acc ++ seg ++ B) (length A) (length A + length acc)
      (length A + length acc + length seg) ov ls
    = Ret ((length A', (chunk acc ov seg).2.2), ls ++ (chunk acc ov seg).1).
Proof.
  induction n as [n IH] using lt_wf_ind. intros fuel A acc seg B ov ls Hn Hfuel Hacc.
  destruct fuel as [|fuel]; [lia|]. cbn [lines_loop].
  assert (take (length A + length acc + length seg - (length A + length acc))
    (drop (length A + length acc) (A ++ acc ++ seg ++ B)) = seg) as ->.
  { rewrite <-length_app, (assoc_L (++) A), drop_app_length.
    rewrite length_app. replace (_ - _)%nat with (length seg) by lia. apply take_app_length. }
  destruct (index_of 10 seg) as [k|] eqn:Hk.
  - apply index_of_Some in Hk as (s1 & s2 & -> & <- & Hni).
    rewrite (M_bind_eq _ _ _ tt (ls ++ [acc ++ s1])).
    2: { apply record_line_eq; rewrite drop_app_length.
         - rewrite !length_app. simpl. lia.
         - replace (length A + length acc + length s1 - length A)%nat with (length (acc ++ s1))
             by (rewrite length_app; lia).
           rewrite <-!(assoc_L (++)), (assoc_L (++) acc). apply take_app_length. }
    rewrite (chunk_no_newline s1) by done. cbn [chunk]. rewrite bool_decide_true by done.
    rewrite (M_bind_eq _ _ _ tt (ls ++ [acc ++ s1] ++ if ov then [overlong_warning] else [])).
    2: { destruct ov; [by rewrite record_literal, <-(assoc_L (++))|by rewrite app_nil_r]. }
    destruct (IH (length s2)) with (fuel := fuel) (A := A ++ acc ++ s1 ++ [10]) (acc := @nil Z)
      (seg := s2) (B := B) (ov := false) (ls := ls ++ [acc ++ s1] ++ if ov then [overlong_warning] else [])
      as (A' & acc' & Heq & Hacc' & Hrun).
    + rewrite !length_app in *. simpl in *. lia.
    + lia.
    + rewrite !length_app in *. simpl in *. lia.
    + apply not_elem_of_nil.
    + exists A', acc'. destruct (chunk [] false s2) as [ls2 [a2 o2]] eqn:Hch. cbn [fst snd] in *.
      split; [|split; [done|]].
      * rewrite <-Heq. apps.
      * replace (A ++ acc ++ (s1 ++ 10 :: s2) ++ B) with ((A ++ acc ++ s1 ++ [10]) ++ [] ++ s2 ++ B)
          by apps.
        replace (length A + length acc + length s1 + 1)%nat with (length (A ++ acc ++ s1 ++ [10%Z]))%nat
          by (rewrite !length_app; simpl; lia).
        replace (length A + length acc + length (s1 ++ 10%Z :: s2))%nat
          with (length (A ++ acc ++ s1 ++ [10%Z]) + length (@nil Z) + length s2)%nat
          by (rewrite !length_app; simpl; lia).
        rewrite <-(Nat.add_0_r (length (A ++ acc ++ s1 ++ [10]))) at 2.
        change 0%nat with (length (@nil Z)) at 1. rewrite Hrun.
        do 2 f_equal. destruct ov; apps.
  - apply index_of_None in Hk. exists A, (acc ++ seg).
    rewrite <-(app_nil_r seg) at 3 4 5 6. rewrite (chunk_no_newline seg) by done. cbn [chunk].
    apps.
Qed.

(** The buffer of [main] between two calls of [read]: [acc] is the unfinished line. *)
Record lb_ok (lb : line_buf) (acc : bytes) : Prop := {
  lb_size : length (lb_buf lb) = MAX_LINE_LENGTH;
  lb_used : used lb = length acc;
  lb_acc : take (used lb) (lb_buf lb) = acc;
  lb_line : 10 ∉ acc;
}.

Lemma handle_data_run lb acc seg ls :
  lb_ok lb acc → (length acc + length seg ≤ MAX_LINE_LENGTH)%nat →
  ∃ lb', handle_data record_line lb seg ls = Ret (lb', ls ++ (chunk acc (overlong lb) seg).1) ∧
    lb_ok lb' (chunk acc (overlong lb) seg).2.1 ∧ overlong lb' = (chunk acc (overlong lb) seg).2.2.
Proof.
  intros [Hs Hu Ha Hl] Hlen. unfold handle_data. rewrite Ha, Hu.
  set (B := drop (length acc + length seg) (lb_buf lb)).
  destruct (lines_loop_run (length seg) (S MAX_LINE_LENGTH) [] acc seg B (overlong lb) ls)
    as (A' & acc' & Heq & Hacc' & Hrun); [lia|lia|done|].
  cbn [app length] in Hrun, Heq. rewrite !Nat.add_0_l in Hrun.
  rewrite (M_bind_eq _ _ _ _ _ Hrun).
  pose proof (chunk_newline_free acc (overlong lb) seg Hl) as Hni.
  destruct (chunk acc (overlong lb) seg) as [ls1 [a1 o1]]. cbn [fst snd] in *. subst a1.
  assert (acc ++ seg ++ B = A' ++ acc' ++ B) as -> by (rewrite (assoc_L (++)), Heq; apps).
  assert (length acc + length seg = length A' + length acc')%nat as Hlens
    by (rewrite <-!length_app; by rewrite Heq).
  assert (length B + (length acc + length seg) = MAX_LINE_LENGTH)%nat as HB
    by (unfold B; rewrite length_drop; lia).
  rewrite drop_app_length.
  replace (length acc + length seg - length A')%nat with (length acc') by lia.
  rewrite take_app_length. eexists. split; [reflexivity|]. split; [|done].
  split; cbn [lb_buf used].
  - rewrite length_app, length_drop, !length_app. lia.
  - done.
  - apply take_app_length.
  - done.
Qed.

Definition data_event (n : nat) : M (list bytes) unit * read_event := (mret tt, ReadData n).

Lemma main_loop_lines sizes : ∀ lb acc stream ls,
  lb_ok lb acc → (length stream < length sizes)%nat →
  ∃ ls', main_loop record_line (mret tt) (data_event <$> sizes) lb stream ls = Ret (Some 0, ls ++ ls') ∧
    ls' = (if bool_decide (length acc = MAX_LINE_LENGTH) then acc :: spec_lines [] true stream
           else spec_lines acc (overlong lb) stream).
Proof.
  induction sizes as [|n sizes IH]; intros lb acc stream ls Hok Hlen; [simpl in Hlen; lia|].
  cbn [fmap list_fmap main_loop data_event].
  rewrite (M_bind_eq _ _ _ tt ls) by done. rewrite (M_bind_eq _ _ _ tt ls) by done.
  pose proof Hok as [Hs Hu Ha Hl].
  (* the pending flush of a full buffer *)
  assert (∃ lb1 acc1 ls1,
    (if decide (used lb = MAX_LINE_LENGTH) then
       record_line (lb_buf lb) (used lb);;
       mret {| lb_buf := lb_buf lb; used := 0; overlong := true |}
     else mret lb) ls = Ret (lb1, ls ++ ls1) ∧
    lb_ok lb1 acc1 ∧ (length acc1 < MAX_LINE_LENGTH)%nat ∧
    (∀ st, (if bool_decide (length acc = MAX_LINE_LENGTH) then acc :: spec_lines [] true st
      else spec_lines acc (overlong lb) st) = ls1 ++ spec_lines acc1 (overlong lb1) st))
    as (lb1 & acc1 & ls1 & Hfl & Hok1 & Hlt & Hspec).
  { rewrite Hu. case_decide as Hfull.
    - exists {| lb_buf := lb_buf lb; used := 0; overlong := true |}, [], [acc]. split_and!.
      + rewrite (M_bind_eq _ _ _ tt (ls ++ [acc])); [done|]. rewrite <-Hu.
        apply record_line_eq; [lia|done].
      + split; cbn [lb_buf used]; [done|done|done|apply not_elem_of_nil].
      + simpl. unfold MAX_LINE_LENGTH. lia.
      + intros st. by rewrite bool_decide_true.
    - exists lb, acc, []. rewrite app_nil_r. split_and!; [done|done| |].
      + assert (length acc ≤ MAX_LINE_LENGTH)%nat by (rewrite <-Hs, <-Ha, length_take; lia). lia.
      + intros st. by rewrite bool_decide_false. }
  rewrite Hspec. clear Hspec. unfold read_step. rewrite M_bind_unfold.
  rewrite M_bind_unfold, Hfl.
  pose proof Hok1 as [Hs1 Hu1 Ha1 Hl1].
  destruct (decide (stream = [])) as [->|Hne].
  - cbn [spec_lines]. rewrite Hu1. destruct acc1 as [|c acc1].
    + rewrite decide_False by (simpl; lia). cbn. eexists. split; [reflexivity|]. by rewrite app_nil_r.
    + rewrite decide_True by (simpl; lia). rewrite <-Hu1.
      rewrite M_bind_unfold, (record_line_eq _ _ (c :: acc1)) by (first [lia|done]).
      cbn. rewrite <-(assoc_L (++)). eexists. split; [reflexivity|done].
  - set (got := (S n `min` (MAX_LINE_LENGTH - used lb1))%nat).
    assert (1 ≤ got)%nat by (unfold got; lia).
    assert (length (take got stream) ≤ got)%nat by (rewrite length_take; lia).
    destruct (handle_data_run lb1 acc1 (take got stream) (ls ++ ls1) Hok1) as (lb2 & Hrun & Hok2 & Hov);
      [lia|].
    rewrite (M_bind_eq _ _ _ _ _ Hrun).
    destruct (IH lb2 _ (drop got stream) ((ls ++ ls1) ++ (chunk acc1 (overlong lb1) (take got stream)).1) Hok2)
      as (ls2 & Hrun2 & Hls2).
    { rewrite length_drop. simpl in Hlen. destruct stream; [done|simpl in *; lia]. }
    exists (ls1 ++ (chunk acc1 (overlong lb1) (take got stream)).1 ++ ls2). split.
    + cbn [mret M_ret]. rewrite <-!(assoc_L (++)) in Hrun2. rewrite <-!(assoc_L (++)) . exact Hrun2.
    + pose proof (spec_lines_chunk (take got stream) acc1 (overlong lb1) (drop got stream) Hlt) as Hsp.
      destruct (chunk acc1 (overlong lb1) (take got stream)) as [ls3 [a3 o3]].
      rewrite take_drop in Hsp. cbn [fst snd] in *.
      rewrite Hsp by lia. by rewrite Hls2, Hov.
Qed.

(** *** Writing a line *)

Lemma startswith_ok p : ∀ mem c,
  c ∈ mem → Forall (λ x, tolower c ≠ tolower x) p → ∃ r, startswith mem p = Ret r.
Proof.
  induction p as [|x p IH]; intros mem c Hin Hp; [by exists true|].
  apply Forall_cons in Hp as [Hx Hp]. destruct mem as [|y mem]; [by apply elem_of_nil in Hin|].
  cbn [startswith]. destruct (Z.eqb_spec (tolower y) (tolower x)) as [Heq|]; [|by exists false].
  apply elem_of_cons in Hin as [->|Hin]; [congruence|]. by eapply IH.
Qed.

(** A NUL or a newline stops every comparison. *)
Lemma find_level_ok mem c : c ∈ mem → c = NUL ∨ c = 10 → ∃ lvl, find_level mem level_prefixes = Ret lvl.
Proof.
  intros Hin Hc.
  assert (Forall (λ lp, Forall (Forall (λ x, tolower c ≠ tolower x)) lp.2) level_prefixes) as Hall.
  { apply (bool_decide_unpack _). destruct Hc as [-> | ->]; by vm_compute. }
  induction Hall as [|[lvl ps] rest Hps _ IH]; [by exists 55|]. cbn [find_level].
  assert (∃ r, any_prefix mem ps = Ret r) as [r ->].
  { simpl in Hps. clear IH. induction Hps as [|p ps Hp _ IH]; [by exists false|]. cbn [any_prefix].
    destruct (startswith_ok p mem c Hin Hp) as [r ->]. simpl. destruct r; eauto. }
  simpl. destruct r; [by exists lvl|done].
Qed.

Definition header_ok (h : bytes) : Prop := ∃ x rest, h = 60 :: x :: 62 :: rest ∧ rest ≠ [].

(** What the functions that write do not change. *)
Record same_limits (s s' : logos) : Prop := {
  sl_last : last_add_time s' = last_add_time s;
  sl_unl : unlimited_mode s' = unlimited_mode s;
  sl_want : want_unlimited_mode s' = want_unlimited_mode s;
  sl_debug : lg_debug s' = lg_debug s;
  sl_ticks : ticks s' = ticks s;
  sl_skip : skipping s' = skipping s;
  sl_head : header_ok (header s');
  sl_len : length (header s') = length (header s);
}.

Lemma same_limits_trans s1 s2 s3 : same_limits s1 s2 → same_limits s2 s3 → same_limits s1 s3.
Proof. intros [] []. split; try congruence. Qed.

Lemma flush_unlimited_run mem len lvl s :
  header_ok (header s) → find_level mem level_prefixes = Ret lvl → (len ≤ length mem)%nat →
  ∃ rest, _flush_unlimited mem len s =
    Ret (tt, add_msg ((60 :: lvl :: 62 :: rest) ++ take len mem ++ [10])
               (with_header (60 :: lvl :: 62 :: rest) s)) ∧
    same_limits s (with_header (60 :: lvl :: 62 :: rest) s) ∧
    (∃ x, header s = 60 :: x :: 62 :: rest).
Proof.
  intros (x & rest & Hh & Hne) Hlvl Hlen. exists rest. split; [|split].
  - unfold _flush_unlimited. rewrite (M_bind_eq _ _ _ (header s) s) by done. rewrite Hh.
    assert ((3 <? Z.of_nat (length (60 :: x :: 62 :: rest))) = true) as ->
      by (destruct rest; [done|apply Z.ltb_lt; simpl; lia]).
    rewrite (M_bind_eq _ _ _ tt s) by done. rewrite (M_bind_eq _ _ _ 60 s) by done.
    rewrite (M_bind_eq _ _ _ tt s) by done. rewrite (M_bind_eq _ _ _ 62 s) by done.
    rewrite (M_bind_eq _ _ _ tt s) by done.
    rewrite (M_bind_eq _ _ _ lvl s) by (unfold lift; by rewrite Hlvl).
    rewrite (M_bind_eq _ _ _ (60 :: lvl :: 62 :: rest) s).
    2: { unfold lift. rewrite buf_set_in_range by (simpl; lia). done. }
    rewrite (M_bind_eq _ _ _ tt (with_header (60 :: lvl :: 62 :: rest) s)) by done.
    by rewrite decide_True.
  - split; try done; [by exists lvl, rest|]. by rewrite Hh.
  - by exists x.
Qed.

(** One output line for [len] bytes of [mem], whatever its level. *)
Definition is_line (h : bytes) (text out : bytes) : Prop :=
  ∃ lvl x rest, h = 60 :: x :: 62 :: rest ∧ out = 60 :: lvl :: 62 :: rest ++ text ++ [10].

Lemma is_line_length h text out : is_line h text out → length out = (length h + length text + 1)%nat.
Proof. intros (lvl & x & rest & -> & ->). simpl. rewrite !length_app. simpl. lia. Qed.

Lemma flush_unlimited_line mem len s :
  header_ok (header s) → (∃ c, c ∈ mem ∧ (c = NUL ∨ c = 10)) → (len ≤ length mem)%nat →
  ∃ s' out, _flush_unlimited mem len s = Ret (tt, s') ∧ same_limits s s' ∧
    buckets s' = buckets s ∧ backoff s' = backoff s ∧ errs s' = errs s ∧
    outs s' = outs s ++ [out] ∧ is_line (header s) (take len mem) out.
Proof.
  intros Hh (c & Hin & Hc) Hlen. destruct (find_level_ok mem c Hin Hc) as [lvl Hlvl].
  destruct (flush_unlimited_run mem len lvl s Hh Hlvl Hlen) as (rest & Hr & Hsl & x & Hx).
  eexists _, _. split; [exact Hr|]. split; [by destruct Hsl|]. split_and!; [done|done|done|done|].
  by exists lvl, x, rest.
Qed.

Lemma flush_message_line fmt n s :
  header_ok (header s) →
  ∃ s' out, flush_message fmt n s = Ret (tt, s') ∧ same_limits s s' ∧
    buckets s' = buckets s ∧ backoff s' = backoff s ∧ errs s' = errs s ∧ outs s' = outs s ++ [out] ∧
    is_line (header s) (fmt.1 ++ dec (s32 n) ++ fmt.2) out.
Proof.
  intros Hh. unfold flush_message. set (text := fmt.1 ++ _ ++ _).
  destruct (flush_unlimited_line (text ++ [NUL]) (length text) s) as (s' & out & Hrun); [done| | |].
  - exists NUL. split; [|by left]. apply elem_of_app. right. by apply list_elem_of_singleton.
  - rewrite length_app. lia.
  - rewrite take_app_length in Hrun. by exists s', out.
Qed.

(** *** The token buckets *)

Section limiter.
Context `{!CPlatform, !Clock, !LineAlloc}.

(** A bucket whose level is between empty and full, with arithmetic that does not
    overflow before uptime [T]. *)
Record bucket_ok (T : Z) (b : Bucket) : Prop := {
  bo_avail : 0 ≤ available b ≤ max_bytes b;
  bo_rate : 0 ≤ fill_rate b;
  bo_s64 : T * fill_rate b < 2 ^ 63;
  bo_word : max_bytes b + T * fill_rate b / 1000 < 2 ^ (ulong_bits - 1);
}.

Record limited (T : Z) (s : logos) : Prop := {
  li_buckets : length (buckets s) = 3%nat;
  li_ok : Forall (bucket_ok T) (buckets s);
  li_head : header_ok (header s);
  li_mode : unlimited_mode s = false;
  li_debug : lg_debug s = 0;
  li_clock : ∀ n, 1 ≤ clock n ≤ clock (S n) ∧ clock n ≤ T;
  li_last : 0 ≤ last_add_time s ≤ clock (ticks s);
}.

(** The parts of a bucket that never change. *)
Record same_shape (b b' : Bucket) : Prop := {
  ss_max : max_bytes b' = max_bytes b;
  ss_rate : fill_rate b' = fill_rate b;
  ss_type : b_type b' = b_type b;
}.

Lemma bucket_ok_avail T b a : bucket_ok T b → 0 ≤ a ≤ max_bytes b → bucket_ok T (set_available a b).
Proof. intros [] ?. by split. Qed.

Lemma bucket_small T b : 0 ≤ T → bucket_ok T b → max_bytes b < 2 ^ (ulong_bits - 1).
Proof.
  intros HT []. assert (0 ≤ T * fill_rate b / 1000) by (apply Z.div_pos; nia). lia.
Qed.

(** What [check_bucket] does to its bucket and to the rest of the state. *)
Lemma check_bucket_run T i b total ok ns s :
  0 ≤ T → 0 < total → buckets s !! i = Some b → bucket_ok T b → header_ok (header s) →
  unlimited_mode s = false →
  ∃ b' s' notices, check_bucket i total ok ns s =
    Ret (if total <=? available b then (ok, ns)
         else (match b_type b with BT_MANDATORY => false | BT_INFORMATIONAL => ok end, true), s') ∧
    buckets s' = <[i := b']> (buckets s) ∧ same_shape b b' ∧ bucket_ok T b' ∧
    (if total <=? available b then available b' = available b - total
     else available b' ≤ available b) ∧
    same_limits s s' ∧ outs s' = outs s ++ notices ∧ (length notices ≤ 1)%nat.
Proof.
  intros HT Htot Hb Hok Hh Hu. pose proof (bucket_small T b HT Hok) as Hsmall.
  pose proof (bo_avail T b Hok) as Ha. pose proof (lookup_lt_Some _ _ _ Hb) as Hi.
  assert (same_limits s s) as Hrefl by by split.
  unfold check_bucket, get_bucket.
  rewrite M_bind_unfold, Hb, (M_bind_eq _ _ _ false s) by (unfold gets; by rewrite Hu).
  rewrite orb_false_r. destruct (Z.leb_spec total (available b)) as [Hle|Hgt].
  - assert (∃ s1 notices b1,
      (if negb (num_skipped b =? 0) then
         flush_message (msg_end b) (num_skipped b);; set_bucket i (set_skipped 0 b)
       else mret tt) s = Ret (tt, s1) ∧ buckets s1 = <[i := b1]> (buckets s) ∧
      same_shape b b1 ∧ bucket_ok T b1 ∧ available b1 = available b ∧
      same_limits s s1 ∧ outs s1 = outs s ++ notices ∧ (length notices ≤ 1)%nat)
      as (s1 & notices & b1 & Hrun & Hb1 & Hsh & Hok1 & Ha1 & Hsl & Ho & Hn).
    { destruct (num_skipped b =? 0); cbn [negb].
      - exists s, [], b. rewrite app_nil_r, list_insert_id by done. split_and!; try done; simpl; lia.
      - destruct (flush_message_line (msg_end b) (num_skipped b) s Hh)
          as (s1 & out & Hf & Hsl & Hbk & _ & _ & Ho & _).
        exists (with_buckets (<[i := set_skipped 0 b]> (buckets s1)) s1), [out], (set_skipped 0 b).
        rewrite (M_bind_eq _ _ _ _ _ Hf). rewrite <-Hbk.
        split_and!; [done|done|by split|by destruct Hok|done|by destruct Hsl|done|simpl; lia]. }
    rewrite (M_bind_eq _ _ _ _ _ Hrun). rewrite M_bind_unfold, Hb1, list_lookup_insert_eq by done.
    unfold set_bucket. rewrite (M_bind_eq _ _ _ _ _ eq_refl).
    eexists (set_available (sword (available b1 - total)) b1), _, notices.
    split; [reflexivity|]. cbn [buckets with_buckets outs].
    rewrite sword_id by (rewrite Ha1; pose proof ulong_bits_ge; lia).
    split_and!; [by rewrite Hb1, list_insert_insert_eq| | |by rewrite <-Ha1|by destruct Hsl|done|done].
    + by destruct Hsh; split.
    + apply bucket_ok_avail; [done|]. rewrite (ss_max _ _ Hsh). lia.
  - assert (∃ s1 notices b1,
      (if num_skipped b =? 0 then
         flush_message (msg_start b) (fill_rate b);;
         set_bucket i (set_available 0 b);;
         sk ← gets skipping;
         (if negb ns && negb sk then modify (λ s, with_backoff (s32 (backoff s * 2)) s) else mret tt);;
         bo ← gets backoff;
         (if bo >? 120 * 1000 then modify (with_backoff (120 * 1000)) else mret tt)
       else mret tt) s = Ret (tt, s1) ∧ buckets s1 = <[i := b1]> (buckets s) ∧
      same_shape b b1 ∧ bucket_ok T b1 ∧ available b1 ≤ available b ∧
      same_limits s s1 ∧ outs s1 = outs s ++ notices ∧ (length notices ≤ 1)%nat)
      as (s1 & notices & b1 & Hrun & Hb1 & Hsh & Hok1 & Ha1 & Hsl & Ho & Hn).
    { destruct (num_skipped b =? 0).
      2: { exists s, [], b. rewrite app_nil_r, list_insert_id by done. split_and!; try done; simpl; lia. }
      destruct (flush_message_line (msg_start b) (fill_rate b) s Hh)
        as (s1 & out & Hf & Hsl & Hbk & _ & _ & Ho & _).
      rewrite (M_bind_eq _ _ _ _ _ Hf). unfold set_bucket at 1. rewrite (M_bind_eq _ _ _ _ _ eq_refl).
      set (s2 := with_buckets _ s1).
      assert (same_limits s s2) as Hsl2 by (by destruct Hsl).
      rewrite (M_bind_eq _ _ _ _ _ eq_refl).
      set (s3 := if negb ns && negb (skipping s2) then with_backoff (s32 (backoff s2 * 2)) s2 else s2).
      assert (buckets s3 = buckets s2 ∧ same_limits s s3 ∧ outs s3 = outs s2) as (Hb3 & Hsl3 & Ho3).
      { unfold s3. case_match; [by destruct Hsl2|done]. }
      rewrite (M_bind_eq _ _ _ tt s3) by (unfold s3; by case_match).
      rewrite (M_bind_eq _ _ _ _ _ eq_refl).
      set (s4 := if backoff s3 >? 120 * 1000 then with_backoff (120 * 1000) s3 else s3).
      assert (buckets s4 = buckets s2 ∧ same_limits s s4 ∧ outs s4 = outs s2) as (Hb4 & Hsl4 & Ho4).
      { unfold s4. case_match; [by destruct Hsl3|done]. }
      exists s4, [out], (set_available 0 b). split_and!.
      - unfold s4. by case_match.
      - by rewrite Hb4, <-Hbk.
      - by split.
      - apply bucket_ok_avail; [done|lia].
      - simpl. lia.
      - done.
      - by rewrite Ho4.
      - simpl. lia. }
    rewrite (M_bind_eq _ _ _ _ _ Hrun). rewrite M_bind_unfold, Hb1, list_lookup_insert_eq by done.
    unfold set_bucket. rewrite (M_bind_eq _ _ _ _ _ eq_refl).
    assert (b_type b1 = b_type b) as -> by apply Hsh.
    eexists (set_skipped (s32 (num_skipped b1 + 1)) b1), _, notices.
    split; [reflexivity|]. cbn [buckets with_buckets outs].
    split_and!; [by rewrite Hb1, list_insert_insert_eq| | |done|by destruct Hsl|done|done].
    + by destruct Hsh; split.
    + by destruct Hok1.
Qed.

Lemma fill_all_run T tdiff bs :
  0 ≤ tdiff ≤ T → Forall (bucket_ok T) bs →
  ∃ bs', fill_all tdiff bs = Ret bs' ∧
    Forall2 (λ b b', same_shape b b' ∧ bucket_ok T b' ∧
      1000 * available b' ≤ 1000 * available b + fill_rate b * tdiff) bs bs'.
Proof.
  intros Ht. induction 1 as [|b bs Hb _ IH]; [by exists []|]. cbn [fill_all].
  destruct IH as (bs' & -> & Hall). destruct Hb as [Ha Hr H64 Hw].
  pose proof ulong_bits_ge. unfold fill_bucket.
  assert (0 ≤ tdiff * fill_rate b ≤ T * fill_rate b) as Hp by nia.
  rewrite s64_id by lia. rewrite Z.quot_div_nonneg by lia.
  set (add := tdiff * fill_rate b / 1000).
  assert (0 ≤ add ∧ add ≤ T * fill_rate b / 1000 ∧ 1000 * add ≤ tdiff * fill_rate b) as (Hn & Hm & Hk).
  { unfold add. split_and!; [apply Z.div_pos; lia|apply Z.div_le_mono; lia|apply Z.mul_div_le; lia]. }
  destruct (Z.ltb_spec add 0); [lia|]. rewrite sword_id by lia. cbn [mbind outcome_bind].
  eexists. split; [reflexivity|]. constructor; [|done].
  rewrite Z.gtb_ltb. destruct (Z.ltb_spec (max_bytes b) (available b + add));
    (split; [by split|split; [split; simpl; lia|simpl; lia]]).
Qed.

Definition filled (T : Z) (s s' : logos) : Prop :=
  Forall2 (λ b b', same_shape b b' ∧ bucket_ok T b' ∧
    1000 * available b' ≤ 1000 * available b + fill_rate b * (last_add_time s' - last_add_time s))
    (buckets s) (buckets s').

Lemma limited_T T s : limited T s → 1 ≤ T.
Proof. intros []. destruct (li_clock0 0%nat). lia. Qed.

Lemma maybe_fill_run T s :
  limited T s → last_add_time s ≠ 0 →
  ∃ s', maybe_fill_buckets s = Ret (tt, s') ∧ filled T s s' ∧
    last_add_time s ≤ last_add_time s' ≤ clock (ticks s) ∧
    ticks s' = S (ticks s) ∧ unlimited_mode s' = false ∧ lg_debug s' = 0 ∧
    header s' = header s ∧ outs s' = outs s.
Proof.
  intros Hl Hne. pose proof (limited_T _ _ Hl) as HT. destruct Hl as [H3 Hok Hh Hu Hd Hc Hlast].
  assert (filled T s s) as Hsame.
  { unfold filled. clear -Hok. induction Hok as [|b bs Hb _ IH]; constructor; [|done].
    split; [by split|split; [done|lia]]. }
  unfold maybe_fill_buckets. rewrite (M_bind_eq _ _ _ (clock (ticks s)) (add_tick s)) by done.
  rewrite (M_bind_eq _ _ _ (last_add_time s) (add_tick s)) by done.
  destruct (Z.eqb_spec (last_add_time s) 0); [done|].
  rewrite (M_bind_eq _ _ _ (skipping s) (add_tick s)) by done.
  rewrite (M_bind_eq _ _ _ (backoff s) (add_tick s)) by done.
  set (tdiff := clock (ticks s) - last_add_time s).
  destruct (_ || _).
  2: { exists (add_tick s). split_and!; [done|exact Hsame|done|apply Hlast|done..]. }
  rewrite (M_bind_eq _ _ _ (buckets s) (add_tick s)) by done.
  destruct (fill_all_run T tdiff (buckets s)) as (bs' & Hrun & Hall); [|done|].
  { unfold tdiff. destruct (Hc (ticks s)). lia. }
  rewrite (M_bind_eq _ _ _ bs' (add_tick s)) by (unfold lift; by rewrite Hrun).
  rewrite (M_bind_eq _ _ _ _ _ eq_refl).
  eexists. split; [reflexivity|]. simpl. split_and!; [exact Hall|lia|lia|done..].
Qed.

Lemma room_run T total s b0 b1 b2 :
  0 ≤ T → 0 < total → buckets s = [b0; b1; b2] → Forall (bucket_ok T) [b0; b1; b2] →
  header_ok (header s) → unlimited_mode s = false →
  ∃ (v : bool) s' notices, all_buckets_have_room total s = Ret (v, s') ∧
    Forall2 (λ b b', same_shape b b' ∧ bucket_ok T b' ∧
      (b_type b = BT_MANDATORY → available b' + (if v then total else 0) ≤ available b))
      (buckets s) (buckets s') ∧
    header_ok (header s') ∧ length (header s') = length (header s) ∧
    last_add_time s' = last_add_time s ∧ ticks s' = ticks s ∧ unlimited_mode s' = false ∧
    lg_debug s' = lg_debug s ∧ outs s' = outs s ++ notices ∧ (length notices ≤ 3)%nat.
Proof.
  intros HT Htot Hbs Hok Hh Hu. rewrite !Forall_cons in Hok. destruct Hok as (Hok0 & Hok1 & Hok2 & _).
  unfold all_buckets_have_room.
  destruct (check_bucket_run T 0 b0 total true false s HT Htot) as
    (b0' & s1 & n1 & Hr1 & Hb1 & Hsh0 & Hok0' & Ha0 & Hsl1 & Ho1 & Hn1); [by rewrite Hbs|done..|].
  rewrite (M_bind_eq _ _ _ _ _ Hr1). rewrite Hbs in Hb1. simpl in Hb1.
  set (r1 := if total <=? available b0 then _ else _). destruct r1 as [ok1 ns1] eqn:Hr1'. unfold r1 in Hr1'.
  destruct (check_bucket_run T 1 b1 total ok1 ns1 s1 HT Htot) as
    (b1' & s2 & n2 & Hr2 & Hb2 & Hsh1 & Hok1' & Ha1 & Hsl2 & Ho2 & Hn2);
    [by rewrite Hb1|done|apply Hsl1|by rewrite (sl_unl _ _ Hsl1)|].
  rewrite (M_bind_eq _ _ _ _ _ Hr2). rewrite Hb1 in Hb2. simpl in Hb2.
  set (r2 := if total <=? available b1 then _ else _). destruct r2 as [ok2 ns2] eqn:Hr2'. unfold r2 in Hr2'.
  pose proof (same_limits_trans _ _ _ Hsl1 Hsl2) as Hsl12.
  destruct (check_bucket_run T 2 b2 total ok2 ns2 s2 HT Htot) as
    (b2' & s3 & n3 & Hr3 & Hb3 & Hsh2 & Hok2' & Ha2 & Hsl3 & Ho3 & Hn3);
    [by rewrite Hb2|done|apply Hsl2|by rewrite (sl_unl _ _ Hsl12)|].
  rewrite (M_bind_eq _ _ _ _ _ Hr3). rewrite Hb2 in Hb3. simpl in Hb3.
  set (r3 := if total <=? available b2 then _ else _). destruct r3 as [ok3 ns3] eqn:Hr3'. unfold r3 in Hr3'.
  pose proof (same_limits_trans _ _ _ Hsl12 Hsl3) as Hsl.
  rewrite (M_bind_eq _ _ _ tt (with_skipping ns3 s3)) by done.
  exists ok3, (with_skipping ns3 s3), (n1 ++ n2 ++ n3).
  split; [done|]. cbn [buckets with_skipping header last_add_time ticks unlimited_mode lg_debug outs].
  rewrite Hbs, Hb3. split; [|split_and!; try apply Hsl].
  - clear Hr1 Hr2 Hr3.
    constructor; [|constructor; [|constructor; [|constructor]]];
      (split; [done|split; [done|intros Hty; rewrite Hty in *]]).
    all: destruct (total <=? available b0), (total <=? available b1), (total <=? available b2);
      injection Hr1' as <- <-; injection Hr2' as <- <-; injection Hr3' as <- <-;
      rewrite ?Hty; repeat case_match; simplify_eq; lia.
  - by rewrite (sl_unl _ _ Hsl).
  - rewrite Ho3, Ho2, Ho1. by rewrite <-!(assoc_L (++)).
  - rewrite !length_app. lia.
Qed.

(** A message whose memory ends in a terminator or holds the newline of its line. *)
Definition msg_ok (m : bytes * nat) : Prop :=
  (∃ c, c ∈ m.1 ∧ (c = NUL ∨ c = 10)) ∧ (m.2 ≤ length m.1)%nat.

Definition msg_total (h : bytes) (m : bytes * nat) : Z := Z.of_nat (length h) + Z.of_nat m.2 + 1.

Definition spent (last last' : Z) (b b' : Bucket) (bytes : Z) : Prop :=
  same_shape b b' ∧
  (b_type b = BT_MANDATORY → 1000 * (available b' + bytes) ≤ 1000 * available b + fill_rate b * (last' - last)).

(** One message: it is written whole after its bucket notices, or dropped, and what
    is written has been paid for. *)
Lemma ratelimited_run T s m :
  limited T s → last_add_time s ≠ 0 → msg_ok m →
  ∃ (v : bool) s' notices out, _flush_ratelimited m.1 m.2 s = Ret (tt, s') ∧
    limited T s' ∧ (last_add_time s ≤ last_add_time s' ∧ last_add_time s' ≠ 0) ∧
    length (header s') = length (header s) ∧
    Forall2 (λ b b', spent (last_add_time s) (last_add_time s') b b'
      (if v then msg_total (header s) m else 0)) (buckets s) (buckets s') ∧
    outs s' = outs s ++ notices ++ (if v then [out] else []) ∧ (length notices ≤ 3)%nat ∧
    Z.of_nat (length out) = msg_total (header s) m ∧ (∃ pre, out = pre ++ take m.2 m.1 ++ [10]).
Proof.
  intros Hlim Hne [Hmem Hlen]. pose proof (limited_T _ _ Hlim) as HT.
  pose proof Hlim as [H3 Hok Hh Hu Hd Hc Hlast].
  unfold _flush_ratelimited. rewrite (M_bind_eq _ _ _ (header s) s) by done. fold (msg_total (header s) m).
  rewrite (M_bind_eq _ _ _ 0 s) by (unfold gets; by rewrite Hd). cbn [Z.eqb negb].
  rewrite (M_bind_eq _ _ _ tt s) by done.
  destruct (maybe_fill_run T s Hlim Hne) as (s1 & Hr1 & Hfill & Hl1 & Ht1 & Hu1 & Hd1 & Hh1 & Ho1).
  rewrite (M_bind_eq _ _ _ _ _ Hr1).
  pose proof (Forall2_length _ _ _ Hfill) as Hl3. rewrite H3 in Hl3.
  destruct (buckets s1) as [|b0 [|b1 [|b2 [|]]]] eqn:Hbs1; try done.
  assert (Forall (bucket_ok T) [b0; b1; b2]) as Hok1.
  { rewrite <-Hbs1. unfold filled in Hfill. clear -Hfill.
    induction Hfill as [|? ? ? ? (_ & ? & _)]; constructor; done. }
  assert (0 < msg_total (header s) m) as Htot by (unfold msg_total; lia).
  destruct (room_run T (msg_total (header s) m) s1 b0 b1 b2 ltac:(lia) Htot Hbs1 Hok1)
    as (v & s2 & notices & Hr2 & Hall & Hh2 & Hhl2 & Hl2 & Ht2 & Hu2 & Hd2 & Ho2 & Hn2);
    [by rewrite Hh1|done|].
  rewrite (M_bind_eq _ _ _ _ _ Hr2).
  destruct (flush_unlimited_line m.1 m.2 s2 Hh2 Hmem Hlen)
    as (s3 & out & Hr3 & Hsl3 & Hb3 & _ & _ & Ho3 & Hout).
  assert (Z.of_nat (length out) = msg_total (header s) m) as Hlout.
  { rewrite (is_line_length _ _ _ Hout), length_take, Hhl2, Hh1. unfold msg_total. lia. }
  assert (∃ pre, out = pre ++ take m.2 m.1 ++ [10]) as Hpre.
  { destruct Hout as (lvl & x & rest & _ & ->). by exists (60 :: lvl :: 62 :: rest). }
  set (s' := if v then s3 else s2).
  assert (last_add_time s' = last_add_time s1 ∧ ticks s' = S (ticks s) ∧ unlimited_mode s' = false ∧
    lg_debug s' = 0 ∧ buckets s' = buckets s2 ∧ header_ok (header s') ∧
    length (header s') = length (header s)) as (E1 & E2 & E3 & E4 & E5 & E6 & E7).
  { unfold s'. destruct v; [|split_and!; try congruence; by rewrite Hhl2, Hh1].
    destruct Hsl3. split_and!; try congruence; done. }
  exists v, s', notices, out. split; [|split; [|split; [|split; [|split; [|split]]]]].
  - unfold s'. by destruct v.
  - split.
    + by rewrite E5, <-(Forall2_length _ _ _ Hall), Hbs1.
    + rewrite E5. clear -Hall. induction Hall as [|? ? ? ? (_ & ? & _)]; constructor; done.
    + done.
    + done.
    + done.
    + done.
    + rewrite E1, E2. destruct (Hc (ticks s)). lia.
  - rewrite E1. lia.
  - done.
  - rewrite E5, E1. unfold filled in Hfill. rewrite Hbs1 in *.
    eapply Forall2_trans; [|exact Hfill|exact Hall].
    intros x y z ([] & _ & Hxy) ([] & _ & Hyz). split; [split; congruence|].
    intros Hty. rewrite <-ss_type0 in Hty. specialize (Hyz Hty). destruct v; lia.
  - unfold s'. destruct v; [by rewrite Ho3, Ho2, Ho1, <-(assoc_L (++))|by rewrite Ho2, Ho1, app_nil_r].
  - by split_and!.
Qed.
End limiter.

(** ** Properties *)

(** The facility name loses its underscores.  [strip_underscores], which edits
    its argument in place, leaves in the array the string without them, whatever
    follows the terminator. *)
Theorem strip_underscores_filters s t :
  Forall (λ b, b ≠ NUL) s →
  ∃ line', strip_underscores (s ++ NUL :: t) = Ret line' ∧ length line' = length (s ++ NUL :: t) ∧
    cstr line' = Ret (filter (λ c, c ≠ 95) s).
Proof. apply strip_underscores_run. Qed.

Lemma strip_underscores_filters_witness :
  ∃ line', strip_underscores (lit "__my_app_" ++ NUL :: [7; 7]) = Ret line' ∧
    cstr line' = Ret (lit "myapp").
Proof.
  destruct (strip_underscores_filters (lit "__my_app_") [7; 7]) as (l & H1 & _ & H2).
  - apply (bool_decide_unpack _). by vm_compute.
  - exists l. split; [exact H1|exact H2].
Defined.

(** Cleaning a line.  [fix_buf] never writes outside the block of [len * 8 + 1]
    bytes it allocates; it produces the cleaned text (tabs expanded to multiples of
    eight columns, carriage returns dropped, other control characters in hex), with
    a terminator, and no control character but the newline is left. *)
Theorem fix_buf_cleans inp :
  all_bytes inp →
  fix_buf inp = Ret (clean 0 inp ++ [NUL]) ∧ (length (clean 0 inp) ≤ 8 * length inp)%nat ∧
  Forall (λ c, c = 10 ∨ 32 ≤ c < 256) (clean 0 inp).
Proof.
  intros Hb. destruct (fix_buf_run inp) as [H1 H2]. split_and!; [done|done|]. by apply clean_printable.
Qed.

Lemma fix_buf_cleans_witness :
  fix_buf [97; 9; 98; 13; 7] = Ret ([97; 32; 32; 32; 32; 32; 32; 32; 98; 92; 120; 48; 55] ++ [NUL]).
Proof.
  destruct (fix_buf_cleans [97; 9; 98; 13; 7]) as [H _]; [by repeat constructor|exact H].
Defined.

(** C14: Lines do not depend on how the input arrives.  For any stream and any sizes
    of the successive reads (at least one byte each, enough of them to reach the
    end), the main loop hands to its flush exactly the lines of the stream read
    byte by byte: cut at newlines and after 768 bytes, with the warning after the
    end of a line that was cut, and the unfinished last line if it is not empty. *)
Theorem lines_independent_of_reads sizes stream garbage :
  length garbage = MAX_LINE_LENGTH → (length stream < length sizes)%nat →
  main_loop record_line (mret tt) (data_event <$> sizes)
    {| lb_buf := garbage; used := 0; overlong := false |} stream []
  = Ret (Some 0, spec_lines [] false stream).
Proof.
  intros Hg Hlen.
  destruct (main_loop_lines sizes {| lb_buf := garbage; used := 0; overlong := false |} [] stream [])
    as (ls' & Hrun & Hls); [|done|].
  - split; [done|done|done|apply not_elem_of_nil].
  - rewrite Hrun. cbn [app]. do 2 f_equal. rewrite Hls. by rewrite bool_decide_false.
Qed.

Lemma lines_independent_of_reads_witness :
  main_loop record_line (mret tt) (data_event <$> [0%nat; 4%nat; 1%nat; 9%nat; 9%nat; 9%nat; 9%nat])
    {| lb_buf := replicate MAX_LINE_LENGTH 7; used := 0; overlong := false |} [97; 98; 10; 10; 99; 100] []
  = Ret (Some 0, [[97; 98]; []; [99; 100]]).
Proof.
  apply (lines_independent_of_reads [0%nat; 4%nat; 1%nat; 9%nat; 9%nat; 9%nat; 9%nat]
    [97; 98; 10; 10; 99; 100]); [done|simpl; lia].
Defined.

(** *** The rate limit over a run *)

Section run.
Context `{!CPlatform, !Clock, !LineAlloc}.

Fixpoint log_all (msgs : list (bytes * nat)) : M logos unit :=
  match msgs with
  | [] => mret tt
  | m :: msgs => _flush_ratelimited m.1 m.2;; log_all msgs
  end.

(** What a run writes: for each message at most three bucket notices, then the
    message if its verdict is [true]. *)
Inductive logged : list (bytes * nat) → list bool → list bytes → Prop :=
  | logged_nil : logged [] [] []
  | logged_cons m msgs v vs notices pre written :
      (length notices ≤ 3)%nat → logged msgs vs written →
      logged (m :: msgs) (v :: vs)
        (notices ++ (if v then [pre ++ take m.2 m.1 ++ [10]] else []) ++ written).

Fixpoint accepted_bytes (h : nat) (msgs : list (bytes * nat)) (vs : list bool) : Z :=
  match msgs, vs with
  | m :: msgs, v :: vs =>
      (if v : bool then Z.of_nat h + Z.of_nat m.2 + 1 else 0) + accepted_bytes h msgs vs
  | _, _ => 0
  end.

(** C9: The rate limit holds.  Starting from buckets between empty and full, over
    any sequence of messages logged at increasing times up to [T], the bytes
    written for messages never exceed what a mandatory bucket held at the start
    plus its fill rate times the elapsed time; every message is either written
    whole or dropped, with at most three notices each. *)
Theorem rate_limit_bound T msgs : ∀ s k b,
  limited T s → last_add_time s ≠ 0 → Forall msg_ok msgs →
  buckets s !! k = Some b → b_type b = BT_MANDATORY →
  ∃ vs s' written, log_all msgs s = Ret (tt, s') ∧ outs s' = outs s ++ written ∧
    logged msgs vs written ∧ limited T s' ∧ last_add_time s ≤ last_add_time s' ≤ T ∧
    1000 * accepted_bytes (length (header s)) msgs vs ≤
    1000 * available b + fill_rate b * (last_add_time s' - last_add_time s).
Proof.
  induction msgs as [|m msgs IH]; intros s k b Hlim Hne Hmsgs Hb Hty.
  - exists [], s, []. rewrite app_nil_r. cbn [accepted_bytes].
    assert (bucket_ok T b) as [Ha Hr _ _].
    { apply (Forall_lookup_1 _ _ _ _ (li_ok _ _ Hlim) Hb). }
    pose proof (li_last _ _ Hlim). destruct (li_clock _ _ Hlim (ticks s)).
    split_and!; [done|done|constructor|done|lia|lia|lia].
  - apply Forall_cons in Hmsgs as [Hm Hmsgs].
    destruct (ratelimited_run T s m Hlim Hne Hm)
      as (v & s1 & notices & out & Hrun & Hlim1 & [Hmono Hne1] & Hhl & Hall & Ho & Hn & Hlo & pre & Hpre).
    destruct (Forall2_lookup_l _ _ _ _ _ Hall Hb) as (b1 & Hb1 & [Hsh Hsp]).
    specialize (Hsp Hty).
    destruct (IH s1 k b1 Hlim1 Hne1 Hmsgs Hb1) as (vs & s2 & written & Hrun2 & Ho2 & Hlog & Hlim2 & Hl2 & Hsum);
      [by rewrite (ss_type _ _ Hsh)|].
    assert (bucket_ok T b1) as [Ha1 Hr1 _ _] by apply (Forall_lookup_1 _ _ _ _ (li_ok _ _ Hlim1) Hb1).
    exists (v :: vs), s2, (notices ++ (if v then [out] else []) ++ written). split_and!.
    + cbn [log_all]. by rewrite (M_bind_eq _ _ _ _ _ Hrun).
    + rewrite Ho2, Ho. by rewrite <-!(assoc_L (++)).
    + rewrite Hpre. by constructor.
    + done.
    + etrans; [exact Hmono|apply Hl2].
    + apply Hl2.
    + cbn [accepted_bytes]. rewrite Hhl in Hsum. rewrite (ss_rate _ _ Hsh) in Hsum.
      unfold msg_total in Hsp. destruct v; nia.
Qed.
End run.

(** A clock that advances 100 ms at every call, and one message every 100 ms. *)
Definition demo_clock : Clock := λ n, Z.min 100000 (1000 + 100 * Z.of_nat n).

Definition demo_bucket (t : BucketType) (max rate avail : Z) : Bucket :=
  {| b_name := lit "demo"; msg_start := (lit "W: ", lit "skipping"); msg_end := (lit "W: ", lit "skipped");
     b_type := t; max_bytes := max; fill_rate := rate; available := avail; num_skipped := 0 |}.

Definition demo_logos : logos :=
  {| buckets := [demo_bucket BT_MANDATORY 100 10 40; demo_bucket BT_MANDATORY 1000 1 500;
                 demo_bucket BT_INFORMATIONAL 100 1 50];
     lg_debug := 0; want_unlimited_mode := false; unlimited_mode := false; last_add_time := 900;
     skipping := false; backoff := 5000; header := lit "<x>app: "; ticks := 0; outs := []; errs := [] |}.

Definition demo_msg : bytes * nat := (lit "hello world" ++ [10], 11%nat).

Lemma demo_limited :
  @limited lp64 demo_clock 100000 demo_logos.
Proof.
  split.
  - done.
  - repeat constructor; cbn; lia.
  - exists 120, (lit "app: "). done.
  - done.
  - done.
  - intros n. unfold clock, demo_clock. lia.
  - cbn. unfold clock, demo_clock. lia.
Qed.

(** Ten messages in one second: three are written. *)
Lemma rate_limit_bound_witness :
  ∃ vs s' written,
    @log_all lp64 demo_clock (replicate 10 demo_msg) demo_logos = Ret (tt, s') ∧
    outs s' = outs demo_logos ++ written ∧ logged (replicate 10 demo_msg) vs written ∧
    @limited lp64 demo_clock 100000 s' ∧ 900 ≤ last_add_time s' ≤ 100000 ∧
    1000 * accepted_bytes 8 (replicate 10 demo_msg) vs ≤ 1000 * 40 + 10 * (last_add_time s' - 900).
Proof.
  apply (@rate_limit_bound lp64 demo_clock 100000 (replicate 10 demo_msg) demo_logos 0
    (demo_bucket BT_MANDATORY 100 10 40)).
  - exact demo_limited.
  - cbn. lia.
  - apply Forall_replicate. split; [|vm_compute; lia].
    exists 10. split; [|by right]. apply elem_of_app. right. by apply list_elem_of_singleton.
  - done.
  - done.
Defined.
