(* ===== verification/TsSequencer.v ===== *)
(** * The transport stream checker: dvbutils/tssequencer.c and dvbutils/common.c

    Packets of 188 bytes carry a sequence number and a CRC-32; the program counts
    bad checksums, jumps of the sequence and lost packets. *)

From S2P Require Import Prelude Crc32.

(** ** dvbutils/common.c *)

Definition EXIT_FAILURE : Z := 1.

(** [dvb_open]: the answer of [open] to a path and "read only" is an argument; the
    path is cut to the 99 characters the array holds.  [Some e]: the error line. *)
Definition dvb_open (open : bytes → bool → Z) (adapter device : Z) (type : bytes) (readonly : bool)
    : Z * option bytes :=
  let s := take 99 (lit "/dev/dvb/adapter" ++ dec adapter ++ lit "/" ++ type ++ dec device) in
  let fd := open s readonly in
  if fd <? 0 then (-1, Some (lit "dvb_open: " ++ s)) else (fd, None).

(** ** dvbutils/tssequencer.c *)

Definition TS_PACKET_SIZE : Z := 188.
Definition PID_MASK : Z := 0x1fff.
Definition NULL_PID : Z := 0x1fff.
Definition ALL_PID : Z := 0x2000.
Definition SYNC_BYTE : Z := 0x47.
Definition EXPECTED_CRC : Z := 0x2144df1c.

(** What the options set. *)
Record options := {
  adapter : Z;
  demux : Z;
  max_seq_num : Z;
  summary : bool;
  quiet : bool;
  pid : Z;
  timeout_ms : Z;
  buffer_size : Z;
  realtime : bool;
  use_crc : bool;
  infile : option bytes;
  outfile : option bytes;
}.

Definition default_options : options :=
  {| adapter := 0; demux := 0; max_seq_num := 1000000; summary := false; quiet := false;
     pid := 0x2000; timeout_ms := 0; buffer_size := 16 * 1024 * 1024; realtime := false;
     use_crc := true; infile := None; outfile := None |}.

(** Lines of output: the operands of the statistics lines are kept as the integers
    they are computed from. *)
Inductive ts_line :=
  | PidLine (p count diff_ms : Z)
  | StatLine (crc seq lost uptime_ms : Z)
  | SummaryLine (crc seq lost time_ms : Z)
  | ErrLine (text : bytes).

Record ts := {
  pid_table : list Z;
  seq_table : list Z;
  packets : Z;
  skipped : Z;
  start : Z;
  t0 : Z;
  bad_seq_num_count : Z;
  bad_crc_count : Z;
  lost_packets : Z;
  ts_ticks : nat;            (* readings of the clock so far *)
  saved : bytes;             (* what went to the output file *)
  ts_out : list ts_line;
}.

Definition with_pids x s := {| pid_table := x; seq_table := seq_table s; packets := packets s;
  skipped := skipped s; start := start s; t0 := t0 s; bad_seq_num_count := bad_seq_num_count s;
  bad_crc_count := bad_crc_count s; lost_packets := lost_packets s; ts_ticks := ts_ticks s;
  saved := saved s; ts_out := ts_out s |}.
Definition with_seqs x s := {| pid_table := pid_table s; seq_table := x; packets := packets s;
  skipped := skipped s; start := start s; t0 := t0 s; bad_seq_num_count := bad_seq_num_count s;
  bad_crc_count := bad_crc_count s; lost_packets := lost_packets s; ts_ticks := ts_ticks s;
  saved := saved s; ts_out := ts_out s |}.
Definition with_packets x s := {| pid_table := pid_table s; seq_table := seq_table s; packets := x;
  skipped := skipped s; start := start s; t0 := t0 s; bad_seq_num_count := bad_seq_num_count s;
  bad_crc_count := bad_crc_count s; lost_packets := lost_packets s; ts_ticks := ts_ticks s;
  saved := saved s; ts_out := ts_out s |}.
Definition with_skipped x s := {| pid_table := pid_table s; seq_table := seq_table s; packets := packets s;
  skipped := x; start := start s; t0 := t0 s; bad_seq_num_count := bad_seq_num_count s;
  bad_crc_count := bad_crc_count s; lost_packets := lost_packets s; ts_ticks := ts_ticks s;
  saved := saved s; ts_out := ts_out s |}.
Definition with_times a b s := {| pid_table := pid_table s; seq_table := seq_table s; packets := packets s;
  skipped := skipped s; start := a; t0 := b; bad_seq_num_count := bad_seq_num_count s;
  bad_crc_count := bad_crc_count s; lost_packets := lost_packets s; ts_ticks := ts_ticks s;
  saved := saved s; ts_out := ts_out s |}.
Definition with_counts seq crc lost s := {| pid_table := pid_table s; seq_table := seq_table s;
  packets := packets s; skipped := skipped s; start := start s; t0 := t0 s; bad_seq_num_count := seq;
  bad_crc_count := crc; lost_packets := lost; ts_ticks := ts_ticks s;
  saved := saved s; ts_out := ts_out s |}.
Definition tick_ts s := {| pid_table := pid_table s; seq_table := seq_table s; packets := packets s;
  skipped := skipped s; start := start s; t0 := t0 s; bad_seq_num_count := bad_seq_num_count s;
  bad_crc_count := bad_crc_count s; lost_packets := lost_packets s; ts_ticks := S (ts_ticks s);
  saved := saved s; ts_out := ts_out s |}.
Definition save_bytes x s := {| pid_table := pid_table s; seq_table := seq_table s; packets := packets s;
  skipped := skipped s; start := start s; t0 := t0 s; bad_seq_num_count := bad_seq_num_count s;
  bad_crc_count := bad_crc_count s; lost_packets := lost_packets s; ts_ticks := ts_ticks s;
  saved := saved s ++ x; ts_out := ts_out s |}.
Definition add_line x s := {| pid_table := pid_table s; seq_table := seq_table s; packets := packets s;
  skipped := skipped s; start := start s; t0 := t0 s; bad_seq_num_count := bad_seq_num_count s;
  bad_crc_count := bad_crc_count s; lost_packets := lost_packets s; ts_ticks := ts_ticks s;
  saved := saved s; ts_out := ts_out s ++ [x] |}.

(** How an iteration ends: the next one, [break], or [exit]. *)
Inductive flow := Next | Break | Exit (code : Z).

Definition sys_error (msg : bytes) : M ts flow := modify (add_line (ErrLine msg));; mret (Exit EXIT_FAILURE).
(** [fatal(msg)] of common.c *)
Definition fatal (msg : bytes) : M ts flow := sys_error (lit "ERROR: " ++ msg).

(** A [calloc]ed table of [ALL_PID + 1] entries. *)
Definition tab_get (t : list Z) (i : Z) : outcome Z := buf_get t i.

Section tssequencer.
Context `{!Clock}.

(** [time_ms] of common.c, whose [clock_gettime] succeeds *)
Definition time_ms : M ts Z := fun s => Ret (clock (ts_ticks s), tick_ts s).

(** The loop of [print_stats] over the [n] entries from [i] on. *)
Fixpoint stats_loop (n : nat) (i : Z) (diff_ms : Z) : M ts unit :=
  match n with
  | O => mret tt
  | S n =>
      t ← gets pid_table;
      v ← lift (tab_get t i);
      (if v >? 0 then
         modify (add_line (PidLine i v diff_ms));;
         t ← lift (buf_set t i 0);
         modify (with_pids t)
       else mret tt);;
      stats_loop n (i + 1) diff_ms
  end.

Definition print_stats (diff_ms uptime_ms : Z) : M ts unit :=
  stats_loop (Z.to_nat (ALL_PID + 1)) 0 diff_ms;;
  modify (λ s, add_line (StatLine (bad_crc_count s) (bad_seq_num_count s) (lost_packets s) uptime_ms) s).

(** [wait_for_input]: [select] is what the system answers to the two fields of the
    time limit. *)
Definition wait_for_input (select : Z → Z → Z) (timeout_ms : Z) : bool :=
  let tv_sec := Z.quot timeout_ms 1000 in
  let tv_usec := Z.rem timeout_ms 1000 * 1000 in
  select tv_sec tv_usec >? 0.

Definition pkt_pid (pkt : bytes) : outcome Z :=
  a ← buf_get pkt 1; b ← buf_get pkt 2;
  Ret (Z.land (Z.lor (Z.shiftl a 8) b) PID_MASK).

Definition pkt_seq (pkt : bytes) : outcome Z :=
  a ← buf_get pkt 4; b ← buf_get pkt 5; c ← buf_get pkt 6; d ← buf_get pkt 7;
  Ret (u32 (Z.lor (Z.lor (Z.lor (Z.shiftl a 24) (Z.shiftl b 16)) (Z.shiftl c 8)) d)).

Definition count_pid (p : Z) : M ts unit :=
  t ← gets pid_table;
  v ← lift (tab_get t p);
  t ← lift (buf_set t p (s32 (v + 1)));
  modify (with_pids t).

Definition set_seq (p seq : Z) : M ts unit :=
  t ← gets seq_table;
  t ← lift (buf_set t p seq);
  modify (with_seqs t).

(** The part that compares sequence numbers: the new counts. *)
Definition seq_counts (max seq expected bad lost : Z) : Z * Z :=
  if seq =? expected then (bad, lost)
  else
    let bad := s32 (bad + 1) in
    if seq >? expected then (bad, s32 (u32 (lost + (seq - expected))))
    else
      let delta := u32 (u32 (seq + max) - expected) in
      if delta <? 100 then (bad, s32 (u32 (lost + delta))) else (bad, s32 (lost + 1)).

(** The second half of an iteration of the loop over packets: the checks of a packet
    of PID [p] with number [seq]; [pkt] is the rest of the buffer. *)
Definition check_packet (o : options) (pkt : bytes) (p seq : Z) : M ts flow :=
  if p =? NULL_PID then mret Next
  else
    c ← (if use_crc o then lift (crc32 0 (drop 4 pkt) (Z.to_nat (TS_PACKET_SIZE - 4)))
         else mret EXPECTED_CRC);
    if negb (c =? EXPECTED_CRC) then
      modify (λ s, with_counts (bad_seq_num_count s) (s32 (bad_crc_count s + 1)) (lost_packets s) s);;
      mret Next
    else
      t ← gets seq_table;
      last ← lift (tab_get t p);
      (if u32 (max_seq_num o) =? 0 then stuck else mret tt);;
      let expected := u32 (last + 1) mod u32 (max_seq_num o) in
      modify (λ s, let '(bad, lost) := seq_counts (max_seq_num o) seq expected
                                         (bad_seq_num_count s) (lost_packets s) in
                   with_counts bad (bad_crc_count s) lost s);;
      bad ← gets bad_seq_num_count;
      lost ← gets lost_packets;
      if negb (seq =? expected) && (lost <? bad) then
        fatal (lit "Lost packets less than bad sequence; check max sequence!")
      else set_seq p seq;; mret Next.

(** One iteration of the loop over the packets of a read. *)
Definition process_packet (o : options) (pkt : bytes) : M ts flow :=
  c0 ← lift (buf_get pkt 0);
  if negb (c0 =? SYNC_BYTE) then fatal (lit "Not a valid packet")
  else
    p ← lift (pkt_pid pkt);
    count_pid p;;
    count_pid ALL_PID;;
    modify (λ s, with_packets (s32 (packets s + 1)) s);;
    seq ← lift (pkt_seq pkt);
    sk ← gets skipped;
    if sk <? 100 then
      t ← time_ms;
      modify (with_times t t);;
      set_seq p seq;;
      modify (λ s, with_skipped (skipped s + 1) s);;
      mret Next
    else check_packet o pkt p seq.

(** The loop over the [n] packets of the buffer. *)
Fixpoint process_packets (o : options) (n : nat) (buf : bytes) : M ts flow :=
  match n with
  | O => mret Next
  | S n =>
      r ← process_packet o buf;
      match r with
      | Next => process_packets o n (drop (Z.to_nat TS_PACKET_SIZE) buf)
      | r => mret r
      end
  end.

(** What the system answers in one iteration of the main loop: [select], then
    [read] (the bytes, or a result of at most 0), then [write]. *)
Record event := {
  ev_select : Z → Z → Z;
  ev_read : bytes + Z;
  ev_write : Z;
}.

(** The statistics at the end of an iteration. *)
Definition end_of_read (o : options) : M ts flow :=
  n ← gets packets;
  if Z.land n 0x7f =? 0 then
    t1 ← time_ms;
    t0 ← gets t0;
    st ← gets start;
    let diff := s32 (t1 - t0) in
    if 1000 <=? diff then
      (if quiet o then mret tt else print_stats diff (s32 (t1 - st)));;
      if (0 <? timeout_ms o) && (timeout_ms o <=? t1 - st) then mret Break
      else modify (λ s, with_times (start s) t1 s);; mret Next
    else mret Next
  else mret Next.

(** One iteration of the main loop; [outfd] whether the stream goes to a file. *)
Definition iteration (o : options) (outfd : bool) (ev : event) : M ts flow :=
  t1 ← time_ms;
  st ← gets start;
  if (0 <? timeout_ms o) && (timeout_ms o <=? t1 - st) then mret Break
  else if negb (wait_for_input (ev_select ev) (s32 (timeout_ms o - (t1 - st)))) then mret Next
  else
    match ev_read ev with
    | inr n => modify (add_line (ErrLine (lit "Read returned " ++ dec n ++ lit ", stop!")));; mret Break
    | inl data =>
        let n := Z.of_nat (length data) in
        if n =? 0 then modify (add_line (ErrLine (lit "Read returned 0, stop!")));; mret Break
        else if negb (n mod TS_PACKET_SIZE =? 0) then fatal (lit "Read partial packet")
        else if outfd then
          let w := ev_write ev in
          modify (save_bytes (take (Z.to_nat w) data));;
          (if w =? n then mret tt
           else modify (add_line (ErrLine (lit "Failed to write " ++ dec w ++ lit " bytes"))));;
          if 0 <? timeout_ms o then
            t ← time_ms;
            st ← gets start;
            if timeout_ms o <=? t - st then mret Break else mret Next
          else mret Next
        else
          r ← process_packets o (Z.to_nat (n / TS_PACKET_SIZE)) data;
          match r with Next => end_of_read o | r => mret r end
    end.

(** The main loop: [None] when the events end first, otherwise [Break] or [Exit]. *)
Fixpoint seq_loop (o : options) (outfd : bool) (evs : list event) : M ts (option flow) :=
  match evs with
  | [] => mret None
  | ev :: evs =>
      r ← iteration o outfd ev;
      match r with Next => seq_loop o outfd evs | r => mret (Some r) end
  end.

(** *** Set-up *)

Definition usage_lines (prog : bytes) : list bytes :=
  [ lit "Usage: " ++ prog ++ lit " [options]"; lit "  Options:";
    lit "    -a adapter Adapter device (default 0)";
    lit "    -d demux   Demux device (default 0)";
    lit "    -b size    Set demux buffer size (default 16MB)";
    lit "    -i file    Read raw packet data from file";
    lit "    -m number  Maximum sequence number (default 1000000)";
    lit "    -o file    Save raw packet data to file";
    lit "    -p pid     Packet ID (default all)";
    lit "    -t timeout Exit after <timeout> seconds";
    lit "    -c         Disable CRC32 check";
    lit "    -q         Do not print periodic stats";
    lit "    -r         Use realtime priority (root only)";
    lit "    -s         Print summary on exit" ].

Definition usage (prog : bytes) : M ts flow :=
  modify (λ s, foldl (λ s l, add_line (ErrLine l) s) s (usage_lines prog));; mret (Exit EXIT_FAILURE).

(** One answer of [getopt] and its [optarg]; [None]: the default case. *)
Definition set_option (o : options) (c : Z) (optarg : bytes) : outcome (option options) :=
  let upd a d b i m out p t crc q r su :=
    Some {| adapter := a; demux := d; max_seq_num := m; summary := su; quiet := q; pid := p;
            timeout_ms := t; buffer_size := b; realtime := r; use_crc := crc; infile := i; outfile := out |} in
  let '(a, d, b, i, m, out) := (adapter o, demux o, buffer_size o, infile o, max_seq_num o, outfile o) in
  let '(p, t, crc, q, r, su) := (pid o, timeout_ms o, use_crc o, quiet o, realtime o, summary o) in
  if c =? 97 then v ← atoi optarg; Ret (upd v d b i m out p t crc q r su)                   (* a *)
  else if c =? 100 then v ← atoi optarg; Ret (upd a v b i m out p t crc q r su)             (* d *)
  else if c =? 98 then v ← atoi optarg; Ret (upd a d v i m out p t crc q r su)              (* b *)
  else if c =? 105 then Ret (upd a d b (Some optarg) m out p t crc q r su)                  (* i *)
  else if c =? 109 then v ← atoi optarg; Ret (upd a d b i v out p t crc q r su)             (* m *)
  else if c =? 111 then Ret (upd a d b i m (Some optarg) p t crc q r su)                    (* o *)
  else if c =? 112 then v ← atoi optarg; Ret (upd a d b i m out v t crc q r su)             (* p *)
  else if c =? 116 then v ← atoi optarg; Ret (upd a d b i m out p (s32 (v * 1000)) crc q r su) (* t *)
  else if c =? 99 then Ret (upd a d b i m out p t false q r su)                             (* c *)
  else if c =? 113 then Ret (upd a d b i m out p t crc true r su)                           (* q *)
  else if c =? 114 then Ret (upd a d b i m out p t crc q true su)                           (* r *)
  else if c =? 115 then Ret (upd a d b i m out p t crc q r true)                            (* s *)
  else Ret None.

Fixpoint set_options (o : options) (opts : list (Z * bytes)) : outcome (option options) :=
  match opts with
  | [] => Ret (Some o)
  | (c, optarg) :: opts =>
      r ← set_option o c optarg;
      match r with Some o => set_options o opts | None => Ret None end
  end.

(** What the system answers during the set-up. *)
Record host := {
  h_setscheduler : Z;
  h_open_in : bytes → Z;
  h_open : bytes → bool → Z;
  h_set_buffer_size : Z → Z;
  h_set_pid_filter : Z → Z;
  h_creat : bytes → Z;
}.

(** The files opened before the loop: whether the stream is saved, or how the
    program ends. *)
Definition open_files (h : host) (o : options) : M ts (bool + flow) :=
  if realtime o && (h_setscheduler h <? 0) then inr <$> fatal (lit "sched_setscheduler failed")
  else
    infd ← (match infile o with
            | Some f =>
                let fd := h_open_in h f in
                (if fd <? 0 then modify (add_line (ErrLine (lit "Failed to open input file: " ++ f)))
                 else mret tt);;
                mret fd
            | None => mret 0
            end);
    if infd <=? 0 then
      let '(dmxfd, err) := dvb_open (h_open h) (adapter o) (demux o) (lit "demux") false in
      (match err with Some e => modify (add_line (ErrLine e)) | None => mret tt end);;
      if dmxfd <? 0 then mret (inr (Exit 1))
      else if h_set_buffer_size h (buffer_size o) <? 0 then inr <$> fatal (lit "Failed to set buffer size")
      else if h_set_pid_filter h (u16 (pid o)) <? 0 then inr <$> fatal (lit "Failed to set PID filter")
      else
        match outfile o with
        | Some f =>
            let outfd := h_creat h f in
            (if outfd <? 0 then modify (add_line (ErrLine (lit "Failed to open output file: " ++ f)))
             else mret tt);;
            mret (inl (0 <? outfd))
        | None => mret (inl false)
        end
    else mret (inl false).

(** The end of [main], after [break]. *)
Definition finish (o : options) : M ts Z :=
  (if summary o then
     t ← time_ms;
     modify (λ s, add_line (SummaryLine (bad_crc_count s) (bad_seq_num_count s) (lost_packets s)
                              (t - start s)) s)
   else mret tt);;
  crc ← gets bad_crc_count;
  bad ← gets bad_seq_num_count;
  mret (if (crc >? 0) || (bad >? 0) then EXIT_FAILURE else 0).

(** [main]: [opts] are getopt's answers; [None]: the events ended first. *)
Definition main (h : host) (prog : bytes) (opts : list (Z * bytes)) (evs : list event)
    : M ts (option Z) :=
  o ← lift (set_options default_options opts);
  match o with
  | None => usage prog;; mret (Some EXIT_FAILURE)
  | Some o =>
      f ← open_files h o;
      match f with
      | inr (Exit code) => mret (Some code)
      | inr _ => mret None
      | inl outfd =>
          t ← time_ms;
          modify (with_times t t);;
          r ← seq_loop o outfd evs;
          match r with
          | Some (Exit code) => mret (Some code)
          | Some _ => Some <$> finish o
          | None => mret None
          end
      end
  end.

Definition initial : ts :=
  {| pid_table := replicate (Z.to_nat (ALL_PID + 1)) 0; seq_table := replicate (Z.to_nat (ALL_PID + 1)) 0;
     packets := 0; skipped := 0; start := 0; t0 := 0; bad_seq_num_count := 0; bad_crc_count := 0;
     lost_packets := 0; ts_ticks := 0; saved := []; ts_out := [] |}.
End tssequencer.

(** ** What the checker counts *)

(** A packet as the transmitter sends it: 188 bytes, the payload followed by its
    CRC-32. *)
Record framed (pkt : bytes) (p seq : Z) : Prop := {
  fr_len : length pkt = 188%nat;
  fr_bytes : all_bytes pkt;
  fr_sync : buf_get pkt 0 = Ret SYNC_BYTE;
  fr_pid : pkt_pid pkt = Ret p;
  fr_seq : pkt_seq pkt = Ret seq;
}.

Definition intact (pkt : bytes) : Prop :=
  drop 184 pkt = le_split 4 (crc_of (take 180 (drop 4 pkt))).

(** [pkt] is an intact packet in which a burst of at most four bytes after the
    header has been changed. *)
Definition damaged (pkt : bytes) : Prop :=
  ∃ pre x y post, (4 ≤ length pre)%nat ∧ length x = length y ∧ (length x ≤ 4)%nat ∧ x ≠ y ∧
    all_bytes x ∧ intact (pre ++ x ++ post) ∧ pkt = pre ++ y ++ post.

(** A stream of packets over the sequence table [t]: each intact packet of a data
    PID follows [g] lost ones.  The indices are the table at the end, the damaged
    packets, the gaps and the packets lost in them. *)
Inductive feed (m : Z) : list Z → list bytes → list Z → Z → Z → Z → Prop :=
  | feed_nil t : feed m t [] t 0 0 0
  | feed_stuffing t pkt seq pkts t' crc bad lost :
      framed pkt NULL_PID seq → feed m t pkts t' crc bad lost →
      feed m t (pkt :: pkts) t' crc bad lost
  | feed_damaged t pkt p seq pkts t' crc bad lost :
      framed pkt p seq → p ≠ NULL_PID → damaged pkt → feed m t pkts t' crc bad lost →
      feed m t (pkt :: pkts) t' (crc + 1) bad lost
  | feed_data t pkt p seq last g pkts t' crc bad lost :
      framed pkt p seq → p ≠ NULL_PID → intact pkt →
      t !! Z.to_nat p = Some last → 0 ≤ last < m → 0 ≤ g < 100 → g < m →
      seq = (last + 1 + g) mod m →
      feed m (<[Z.to_nat p := seq]> t) pkts t' crc bad lost →
      feed m t (pkt :: pkts) t' crc (bad + (if g =? 0 then 0 else 1)) (lost + g).

Lemma feed_nonneg m t pkts t' crc bad lost :
  feed m t pkts t' crc bad lost → 0 ≤ crc ∧ 0 ≤ bad ∧ bad ≤ lost.
Proof. induction 1 as [| | |? ? ? ? ? g]; try lia. destruct (Z.eqb_spec g 0); lia. Qed.

Lemma buf_get_app_l (l rest : bytes) i x : buf_get l i = Ret x → buf_get (l ++ rest) i = Ret x.
Proof. rewrite !buf_get_Ret. intros [? H]. split; [done|]. by apply lookup_app_l_Some. Qed.

Lemma pkt_pid_app pkt rest p : pkt_pid pkt = Ret p → pkt_pid (pkt ++ rest) = Ret p.
Proof.
  unfold pkt_pid. intros (a & Ha & (b & Hb & H)%outcome_bind_Ret)%outcome_bind_Ret.
  rewrite (buf_get_app_l _ _ _ _ Ha). cbn. rewrite (buf_get_app_l _ _ _ _ Hb). exact H.
Qed.

Lemma pkt_pid_range pkt p : pkt_pid pkt = Ret p → 0 ≤ p < ALL_PID.
Proof.
  unfold pkt_pid. intros (a & Ha & (b & Hb & [= <-])%outcome_bind_Ret)%outcome_bind_Ret.
  unfold PID_MASK. change 0x1fff with (Z.ones 13). rewrite Z.land_ones by lia.
  change ALL_PID with (2 ^ 13). apply Z.mod_pos_bound. lia.
Qed.

Lemma pkt_seq_app pkt rest seq : pkt_seq pkt = Ret seq → pkt_seq (pkt ++ rest) = Ret seq.
Proof.
  unfold pkt_seq.
  intros (a & Ha & (b & Hb & (c & Hc & (d & Hd & H)%outcome_bind_Ret)%outcome_bind_Ret)%outcome_bind_Ret)%outcome_bind_Ret.
  rewrite (buf_get_app_l _ _ _ _ Ha). cbn. rewrite (buf_get_app_l _ _ _ _ Hb). cbn.
  rewrite (buf_get_app_l _ _ _ _ Hc). cbn. rewrite (buf_get_app_l _ _ _ _ Hd). exact H.
Qed.

(** The checksum test of the program is [intact]. *)
Lemma crc_intact pkt :
  length pkt = 188%nat → all_bytes pkt → crc_of (drop 4 pkt) = EXPECTED_CRC ↔ intact pkt.
Proof.
  intros Hlen Hb. unfold intact, EXPECTED_CRC.
  rewrite <-(take_drop 180 (drop 4 pkt)) at 1. rewrite drop_drop.
  rewrite crc_of_residue; [done|by apply Forall_take, Forall_drop|by apply Forall_drop|].
  rewrite length_drop. lia.
Qed.

Lemma crc_damaged pkt :
  length pkt = 188%nat → all_bytes pkt → damaged pkt → crc_of (drop 4 pkt) ≠ EXPECTED_CRC.
Proof.
  intros Hlen Hb (pre & x & y & post & Hpre & Hxy & H4 & Hne & Hx & Hint & ->) Hcrc.
  assert (all_bytes pre ∧ all_bytes y ∧ all_bytes post) as (Hbp & Hby & Hbq).
  { by rewrite !Forall_app in Hb. }
  rewrite !length_app in Hlen.
  apply crc_intact in Hint; [|rewrite !length_app; lia|by rewrite !Forall_app].
  rewrite !(drop_app_le pre) in Hcrc, Hint by lia.
  apply (crc_of_burst (drop 4 pre) x y post); [by apply Forall_drop|done..|].
  by rewrite Hint, Hcrc.
Qed.

Lemma crc_of_packet pkt rest :
  length pkt = 188%nat → all_bytes pkt →
  crc32 0 (drop 4 (pkt ++ rest)) (Z.to_nat (TS_PACKET_SIZE - 4)) = Ret (crc_of (drop 4 pkt)).
Proof.
  intros Hlen Hb. rewrite drop_app_le by lia.
  replace (Z.to_nat (TS_PACKET_SIZE - 4)) with (length (drop 4 pkt)) by (rewrite length_drop; unfold TS_PACKET_SIZE; lia).
  rewrite crc32_spec by (by apply Forall_drop). by rewrite Z.lxor_0_l.
Qed.

(** The checker once it has seen its first 100 packets. *)
Record counting (s : ts) : Prop := {
  ct_pids : Z.of_nat (length (pid_table s)) = ALL_PID + 1;
  ct_seqs : Z.of_nat (length (seq_table s)) = ALL_PID + 1;
  ct_skip : 100 ≤ skipped s;
  ct_crc : 0 ≤ bad_crc_count s;
  ct_bad : 0 ≤ bad_seq_num_count s ≤ lost_packets s;
}.

(** [s'] has counted [crc] damaged packets, [bad] gaps and [lost] packets more, and
    its sequence table is [t]. *)
Record counted (s s' : ts) (t : list Z) (crc bad lost : Z) : Prop := {
  cd_seqs : seq_table s' = t;
  cd_skip : skipped s' = skipped s;
  cd_crc : bad_crc_count s' = bad_crc_count s + crc;
  cd_bad : bad_seq_num_count s' = bad_seq_num_count s + bad;
  cd_lost : lost_packets s' = lost_packets s + lost;
}.

Section counts.
Context `{!Clock}.

Lemma count_pid_run p s :
  0 ≤ p < Z.of_nat (length (pid_table s)) →
  ∃ t, count_pid p s = Ret (tt, with_pids t s) ∧ length t = length (pid_table s).
Proof.
  intros Hp. destruct (buf_get_in_range (pid_table s) p Hp) as (v & Hv & _).
  exists (<[Z.to_nat p := s32 (v + 1)]> (pid_table s)). split; [|apply length_insert].
  unfold count_pid, tab_get. rewrite (M_bind_eq _ _ _ (pid_table s) s) by done.
  rewrite Hv, M_bind_lift, buf_set_in_range by done. done.
Qed.

Lemma process_head o pkt rest p seq s :
  framed pkt p seq → counting s →
  ∃ s1, process_packet o (pkt ++ rest) s = check_packet o (pkt ++ rest) p seq s1 ∧
    counting s1 ∧ counted s s1 (seq_table s) 0 0 0.
Proof.
  intros [Hlen Hb Hsync Hpid Hseq] [H1 H2 H3 H4 H5]. pose proof (pkt_pid_range _ _ Hpid) as Hr.
  destruct (count_pid_run p s) as (t & Ht & Hl); [rewrite H1; unfold ALL_PID in *; lia|].
  destruct (count_pid_run ALL_PID (with_pids t s)) as (t' & Ht' & Hl');
    [simpl; rewrite Hl, H1; unfold ALL_PID; lia|].
  exists (with_packets (s32 (packets s + 1)) (with_pids t' (with_pids t s))).
  simpl in Hl'. split_and!.
  - unfold process_packet.
    rewrite (buf_get_app_l _ _ _ _ Hsync), M_bind_lift, Z.eqb_refl. cbn [negb].
    rewrite (pkt_pid_app _ _ _ Hpid), M_bind_lift.
    rewrite (M_bind_eq _ _ _ _ _ Ht), (M_bind_eq _ _ _ _ _ Ht').
    rewrite (M_bind_eq _ _ _ tt (with_packets (s32 (packets s + 1)) (with_pids t' (with_pids t s)))) by done.
    rewrite (pkt_seq_app _ _ _ Hseq), M_bind_lift.
    rewrite (M_bind_eq _ _ _ (skipped s) (with_packets (s32 (packets s + 1)) (with_pids t' (with_pids t s)))) by done.
    by rewrite (proj2 (Z.ltb_ge _ _) H3).
  - split; simpl; [by rewrite Hl', Hl|done..].
  - split; simpl; [done|done|lia..].
Qed.

(** What the comparison of sequence numbers adds for a gap of [g] packets. *)
Lemma seq_counts_gap m last g bad lost :
  0 < m < 2 ^ 31 → 0 ≤ last < m → 0 ≤ g < 100 → g < m → 0 ≤ bad ≤ lost → lost + g < 2 ^ 31 →
  seq_counts m ((last + 1 + g) mod m) (u32 (last + 1) mod u32 m) bad lost =
  (bad + (if g =? 0 then 0 else 1), lost + g).
Proof.
  intros Hm Hlast Hg Hgm Hbad Hlost. unfold u32 at 1 2.
  rewrite (Z.mod_small (last + 1)), (Z.mod_small m) by lia.
  assert ((last + 1) mod m = if last + 1 =? m then 0 else last + 1) as He.
  { destruct (Z.eqb_spec (last + 1) m) as [->|]; [by apply Z.mod_same; lia|]. apply Z.mod_small. lia. }
  set (e := (last + 1) mod m) in *.
  assert (0 ≤ e < m) as Her by (apply Z.mod_pos_bound; lia).
  assert ((last + 1 + g) mod m = if e + g <? m then e + g else e + g - m) as Hs.
  { rewrite <-Zplus_mod_idemp_l. fold e. destruct (Z.ltb_spec (e + g) m).
    - apply Z.mod_small. lia.
    - replace (e + g) with (e + g - m + 1 * m) at 1 by lia. rewrite Z_mod_plus_full. apply Z.mod_small. lia. }
  rewrite Hs. unfold seq_counts. destruct (Z.ltb_spec (e + g) m) as [Hlt|Hge].
  - destruct (Z.eqb_spec (e + g) e), (Z.eqb_spec g 0); try lia; [f_equal; lia|].
    destruct (Z.gtb_spec (e + g) e); [|lia].
    rewrite s32_id by lia. unfold u32. rewrite Z.mod_small by lia. rewrite s32_id by lia. f_equal. lia.
  - destruct (Z.eqb_spec (e + g - m) e), (Z.eqb_spec g 0); try lia.
    destruct (Z.gtb_spec (e + g - m) e); [lia|].
    rewrite (s32_id (bad + 1)) by lia. unfold u32.
    rewrite (Z.mod_small (e + g - m + m)) by lia. rewrite (Z.mod_small (_ - e)) by lia.
    destruct (Z.ltb_spec (e + g - m + m - e) 100); [|lia].
    rewrite (Z.mod_small (lost + _)) by lia. rewrite s32_id by lia. f_equal; lia.
Qed.

(** The checksum step of [check_packet]. *)
Lemma check_crc o pkt rest s :
  use_crc o = true → length pkt = 188%nat → all_bytes pkt →
  ((if use_crc o then lift (crc32 0 (drop 4 (pkt ++ rest)) (Z.to_nat (TS_PACKET_SIZE - 4)))
    else mret EXPECTED_CRC) : M ts Z) s = Ret (crc_of (drop 4 pkt), s).
Proof. intros -> Hlen Hb. by rewrite crc_of_packet. Qed.

Lemma check_damaged o pkt rest p seq s :
  use_crc o = true → framed pkt p seq → p ≠ NULL_PID → damaged pkt → counting s →
  bad_crc_count s + 1 < 2 ^ 31 →
  ∃ s', check_packet o (pkt ++ rest) p seq s = Ret (Next, s') ∧ counting s' ∧
    counted s s' (seq_table s) 1 0 0.
Proof.
  intros Ho [Hlen Hb _ _ _] Hp Hd [H1 H2 H3 H4 H5] Hcrc.
  exists (with_counts (bad_seq_num_count s) (bad_crc_count s + 1) (lost_packets s) s). split_and!.
  - unfold check_packet. rewrite (proj2 (Z.eqb_neq _ _) Hp).
    rewrite (M_bind_eq _ _ _ _ _ (check_crc o pkt rest s Ho Hlen Hb)).
    rewrite (proj2 (Z.eqb_neq _ _) (crc_damaged pkt Hlen Hb Hd)). cbn [negb].
    rewrite M_bind_unfold. unfold modify at 1. by rewrite s32_id by lia.
  - split; simpl; [done|done|done|lia|done].
  - split; simpl; [done|done|lia..].
Qed.

Lemma check_data o pkt rest p last g s :
  use_crc o = true → 0 < max_seq_num o < 2 ^ 31 →
  framed pkt p ((last + 1 + g) mod max_seq_num o) → p ≠ NULL_PID → intact pkt → counting s →
  seq_table s !! Z.to_nat p = Some last → 0 ≤ last < max_seq_num o → 0 ≤ g < 100 →
  g < max_seq_num o → lost_packets s + g < 2 ^ 31 →
  ∃ s', check_packet o (pkt ++ rest) p ((last + 1 + g) mod max_seq_num o) s = Ret (Next, s') ∧
    counting s' ∧
    counted s s' (<[Z.to_nat p := (last + 1 + g) mod max_seq_num o]> (seq_table s))
      0 (if g =? 0 then 0 else 1) g.
Proof.
  intros Ho Hm [Hlen Hb _ Hpid _] Hp Hi [H1 H2 H3 H4 H5] Ht Hl Hg Hgm Hlost.
  pose proof (pkt_pid_range _ _ Hpid) as Hr.
  set (seq := (last + 1 + g) mod max_seq_num o).
  set (bad' := bad_seq_num_count s + (if g =? 0 then 0 else 1)).
  set (s1 := with_counts bad' (bad_crc_count s) (lost_packets s + g) s).
  exists (with_seqs (<[Z.to_nat p := seq]> (seq_table s)) s1). split_and!.
  - unfold check_packet. rewrite (proj2 (Z.eqb_neq _ _) Hp).
    rewrite (M_bind_eq _ _ _ _ _ (check_crc o pkt rest s Ho Hlen Hb)).
    rewrite (proj2 (crc_intact pkt Hlen Hb) Hi). cbn [negb].
    change (EXPECTED_CRC =? EXPECTED_CRC) with true. cbn [negb].
    rewrite (M_bind_eq _ _ _ (seq_table s) s) by done.
    unfold tab_get. rewrite (proj2 (buf_get_Ret _ _ _) (conj (proj1 Hr) Ht)), M_bind_lift.
    replace (u32 (max_seq_num o) =? 0) with false
      by (symmetry; apply Z.eqb_neq; unfold u32; rewrite Z.mod_small; lia).
    rewrite (M_bind_eq _ _ _ tt s) by done.
    rewrite (M_bind_eq _ _ _ tt s1).
    2:{ unfold modify. fold seq. unfold seq. rewrite seq_counts_gap by lia. done. }
    rewrite (M_bind_eq _ _ _ bad' s1), (M_bind_eq _ _ _ (lost_packets s + g) s1) by done.
    replace (lost_packets s + g <? bad') with false
      by (symmetry; apply Z.ltb_ge; unfold bad'; destruct (Z.eqb_spec g 0); lia).
    rewrite andb_false_r. rewrite (M_bind_eq _ _ _ tt (with_seqs (<[Z.to_nat p := seq]> (seq_table s)) s1)); [done|].
    unfold set_seq. rewrite (M_bind_eq _ _ _ (seq_table s) s1) by done.
    rewrite buf_set_in_range by (rewrite H2; unfold ALL_PID in *; lia). done.
  - split; simpl; [done|by rewrite length_insert|done|done|]. unfold bad'. destruct (Z.eqb_spec g 0); lia.
  - split; simpl; [done|done|lia|done|done].
Qed.

Lemma counted_trans s s1 s2 t1 t2 c1 b1 l1 c2 b2 l2 :
  counted s s1 t1 c1 b1 l1 → counted s1 s2 t2 c2 b2 l2 →
  counted s s2 t2 (c1 + c2) (b1 + b2) (l1 + l2).
Proof. intros [] []. split; [done|congruence|lia..]. Qed.

(** C28: The checker counts exactly what was lost and what was damaged.  Once the
    first 100 packets are over, on any sequence of packets in which every intact
    packet of a PID follows a gap of fewer than 100 missing ones (the numbers
    wrapping at the maximum) and the other packets are stuffing or damaged by a
    burst of up to four bytes, reading them adds the number of damaged packets to
    the CRC count, the number of gaps to the sequence count and the number of
    missing packets to the loss count, and the sequence table follows the stream. *)
Theorem checker_counts_losses o pkts s t' crc bad lost :
  use_crc o = true → 0 < max_seq_num o < 2 ^ 31 → counting s →
  feed (max_seq_num o) (seq_table s) pkts t' crc bad lost →
  lost_packets s + lost < 2 ^ 31 → bad_crc_count s + crc < 2 ^ 31 →
  ∃ s', process_packets o (length pkts) (concat pkts) s = Ret (Next, s') ∧
    counted s s' t' crc bad lost.
Proof.
  intros Ho Hm Hc Hfeed. remember (seq_table s) as t eqn:Et. revert s Hc Et.
  induction Hfeed as [t|t pkt seq pkts t' crc bad lost Hf Hfeed IH
    |t pkt p seq pkts t' crc bad lost Hf Hp Hd Hfeed IH
    |t pkt p seq last g pkts t' crc bad lost Hf Hp Hi Ht Hl Hg Hgm -> Hfeed IH];
    intros s Hc -> Hlost Hcrc.
  { exists s. split; [done|]. split; [done|done|lia..]. }
  all: pose proof (feed_nonneg _ _ _ _ _ _ _ Hfeed) as Hnn;
    destruct (process_head o pkt (concat pkts) _ _ s Hf Hc) as (s1 & Hrun & Hc1 & [Hs1 Hk1 Hr1 Hb1 Hl1]).
  - destruct (IH s1 Hc1 (eq_sym Hs1)) as (s2 & Hrun2 & [Hs2 Hk2 Hr2 Hb2 Hl2]); [lia..|].
    exists s2. split; [|split; [done|congruence|lia..]].
    cbn [length concat process_packets]. rewrite (M_bind_eq _ _ _ Next s1).
    + by rewrite drop_app_length' by (rewrite (fr_len _ _ _ Hf); done).
    + rewrite Hrun. unfold check_packet. done.
  - destruct (check_damaged o pkt (concat pkts) p seq s1 Ho Hf Hp Hd Hc1)
      as (s2 & Hrun2 & Hc2 & [Hs2 Hk2 Hr2 Hb2 Hl2]); [lia|].
    destruct (IH s2 Hc2) as (s3 & Hrun3 & [Hs3 Hk3 Hr3 Hb3 Hl3]); [congruence|lia..|].
    exists s3. split; [|split; [done|congruence|lia..]].
    cbn [length concat process_packets]. rewrite (M_bind_eq _ _ _ Next s2) by congruence.
    by rewrite drop_app_length' by (rewrite (fr_len _ _ _ Hf); done).
  - rewrite <-Hs1 in Ht.
    destruct (check_data o pkt (concat pkts) p last g s1 Ho Hm Hf Hp Hi Hc1 Ht Hl Hg Hgm)
      as (s2 & Hrun2 & Hc2 & [Hs2 Hk2 Hr2 Hb2 Hl2]); [lia|].
    destruct (IH s2 Hc2) as (s3 & Hrun3 & [Hs3 Hk3 Hr3 Hb3 Hl3]); [by rewrite Hs2, Hs1|lia..|].
    exists s3. split; [|split; [done|congruence|lia..]].
    cbn [length concat process_packets]. rewrite (M_bind_eq _ _ _ Next s2) by congruence.
    by rewrite drop_app_length' by (rewrite (fr_len _ _ _ Hf); done).
Qed.

(** *** Without a time limit *)

(** The documented answer of [select] to a negative time limit is an error. *)
Definition select_ok (ev : event) : Prop :=
  ∀ sec usec, sec < 0 ∨ usec < 0 → ev_select ev sec usec = -1.

(** Without -t the checker stops reading.  Once a millisecond has passed since
    its reference time the time limit it gives to select is negative, so select
    fails and the main loop goes round for ever: whatever input is there, no
    iteration reads a byte, counts anything, or leaves the loop. *)
Theorem checker_spins_without_timeout o outfd evs s :
  timeout_ms o = 0 → Forall select_ok evs →
  (∀ n, (ts_ticks s ≤ n)%nat → start s < clock n ≤ start s + 2 ^ 31) →
  seq_loop o outfd evs s = Ret (None, Nat.iter (length evs) tick_ts s).
Proof.
  intros Ht Hevs. revert s. induction Hevs as [|ev evs Hev _ IH]; intros s Hclock; [done|].
  cbn [seq_loop length]. rewrite (M_bind_eq _ _ _ Next (tick_ts s)).
  - rewrite IH; [by rewrite <-Nat.iter_succ_r|].
    intros n Hn. apply Hclock. simpl in Hn. lia.
  - unfold iteration. rewrite (M_bind_eq _ _ _ (clock (ts_ticks s)) (tick_ts s)) by done.
    rewrite (M_bind_eq _ _ _ (start s) (tick_ts s)) by done.
    rewrite Ht. cbn [Z.ltb Z.compare andb].
    specialize (Hclock (ts_ticks s) ltac:(done)).
    set (d := clock (ts_ticks s) - start s) in *. assert (0 < d ≤ 2 ^ 31) by lia.
    rewrite s32_id by lia. unfold wait_for_input. rewrite Hev; [done|].
    pose proof (Z.quot_rem' (0 - d) 1000).
    pose proof (Z.rem_bound_neg_pos (0 - d) 1000). lia.
Qed.
End counts.

(** ** A concrete stream: PID 0x100 is at 999999; four packets are missing over the
    wrap, then a packet with a changed byte arrives. *)

Definition make_packet (p seq : Z) (fill : Z) : bytes :=
  let body := [Z.shiftr seq 24; u8 (Z.shiftr seq 16); u8 (Z.shiftr seq 8); u8 seq] ++ replicate 176 fill in
  [SYNC_BYTE; Z.shiftr p 8; u8 p; 0] ++ body ++ le_split 4 (crc_of body).

Definition demo_good : bytes := make_packet 0x100 4 7.
Definition demo_bad : bytes := <[50%nat := 9]> (make_packet 0x100 5 7).
Definition demo_options : options := default_options.
Definition demo_ts : ts :=
  with_skipped 100 (with_seqs (<[Z.to_nat 0x100 := 999999]> (seq_table initial)) initial).

Lemma demo_good_framed : framed demo_good 0x100 4.
Proof. split; [done|by apply (bool_decide_unpack _); vm_compute|done..]. Qed.

Lemma demo_bad_framed : framed demo_bad 0x100 5.
Proof. split; [done|by apply (bool_decide_unpack _); vm_compute|done..]. Qed.

Lemma demo_bad_damaged : damaged demo_bad.
Proof.
  exists (take 50 (make_packet 0x100 5 7)), [7], [9], (drop 51 (make_packet 0x100 5 7)).
  split_and!; [vm_compute; lia|done|simpl; lia|done|by repeat constructor|done|done].
Qed.

Lemma demo_counting : counting demo_ts.
Proof. split; vm_compute; done. Qed.

Lemma checker_counts_losses_witness :
  ∃ s', @process_packets (λ _, 0) demo_options 2 (concat [demo_good; demo_bad]) demo_ts = Ret (Next, s') ∧
    counted demo_ts s' (<[Z.to_nat 0x100 := 4]> (seq_table demo_ts)) 1 1 4.
Proof.
  apply (@checker_counts_losses (λ _, 0) demo_options [demo_good; demo_bad] demo_ts _ 1 1 4).
  - done.
  - done.
  - exact demo_counting.
  - eapply (feed_data _ _ _ _ 4 999999 4 _ _ 1 0 0); [exact demo_good_framed|done|done|vm_compute; reflexivity|done|done|done|done|].
    eapply (feed_damaged _ _ _ _ _ _ _ 0 0 0); [exact demo_bad_framed|done|exact demo_bad_damaged|].
    apply feed_nil.
  - done.
  - done.
Defined.

Definition demo_event : event :=
  {| ev_select := λ sec usec, if (sec <? 0) || (usec <? 0) then -1 else 1;
     ev_read := inl demo_good; ev_write := 0 |}.

Lemma checker_spins_without_timeout_witness :
  @seq_loop (λ n, 10 + Z.of_nat (n `min` 1000)) demo_options false (replicate 3 demo_event) demo_ts
  = Ret (None, tick_ts (tick_ts (tick_ts demo_ts))).
Proof.
  apply (@checker_spins_without_timeout (λ n, 10 + Z.of_nat (n `min` 1000)) demo_options false
    (replicate 3 demo_event) demo_ts).
  - done.
  - apply Forall_replicate. intros sec usec H. simpl.
    destruct (Z.ltb_spec sec 0), (Z.ltb_spec usec 0); simpl; lia.
  - intros n _. unfold clock. change (start demo_ts) with 0. lia.
Defined.
