(* ===== verification/DvbTools.v ===== *)
(** * The DVB set-up tools: dvbutils/dvbtune.c and dvbutils/dvbnet.c

    Option parsing, the tables of names, the tuning request and the wait for a
    lock; adding, removing and listing network interfaces. *)

From S2P Require Import Prelude TsSequencer.

(** ** C library functions the tools use *)

Definition lower (c : Z) : Z := if (65 <=? c) && (c <=? 90) then c + 32 else c.
(** [strcasecmp(a, b) == 0] on two strings *)
Definition strcasecmp_eq (a b : bytes) : bool := bool_decide (lower <$> a = lower <$> b).

(** [strtol(s, NULL, 0)]: white space, a sign, the base from the prefix. *)
Definition digit_value (c : Z) : Z :=
  if (48 <=? c) && (c <=? 57) then c - 48
  else if (97 <=? lower c) && (lower c <=? 122) then lower c - 87 else 36.
Fixpoint base_digits (base : Z) (s : bytes) (acc : Z) : Z :=
  match s with
  | c :: s => if digit_value c <? base then base_digits base s (base * acc + digit_value c) else acc
  | [] => acc
  end.
Definition prefixed (s : bytes) : Z :=
  match s with
  | 48 :: x :: c :: t =>
      if (lower x =? 120) && (digit_value c <? 16) then base_digits 16 (c :: t) 0 else base_digits 8 s 0
  | 48 :: _ => base_digits 8 s 0
  | _ => base_digits 10 s 0
  end.
Definition strtol0 `{!CPlatform} (s : bytes) : Z :=
  let '(neg, s) := signed_digits s in
  let v := if neg : bool then - prefixed s else prefixed s in
  Z.max (- 2 ^ (ulong_bits - 1)) (Z.min (2 ^ (ulong_bits - 1) - 1) v).

(** [%#x] of an unsigned int *)
Definition hex_alt (n : Z) : bytes := if u32 n =? 0 then lit "0" else lit "0x" ++ hex_digits 8 (u32 n) [].

(** ** dvbutils/dvbtune.c *)

(** The kernel's enumerations, by the names of their constants. *)
Inductive fe_code_rate := FEC_NONE | FEC_AUTO | FEC_1_2 | FEC_2_3 | FEC_3_4 | FEC_4_5 | FEC_5_6
  | FEC_6_7 | FEC_7_8 | FEC_3_5 | FEC_9_10.
Inductive fe_delivery_system := SYS_UNDEFINED | SYS_ATSC | SYS_CMMB | SYS_DAB | SYS_DSS
  | SYS_DVBC_ANNEX_AC | SYS_DVBC_ANNEX_B | SYS_DVBH | SYS_DVBS | SYS_DVBS2 | SYS_DVBT | SYS_DVBT2
  | SYS_ISDBC | SYS_ISDBS | SYS_ISDBT | SYS_TURBO.
Inductive fe_modulation := APSK_16 | APSK_32 | DQPSK | PSK_8 | QAM_128 | QAM_16 | QAM_256 | QAM_32
  | QAM_64 | QAM_AUTO | QPSK | VSB_16 | VSB_8.
Inductive sec_voltage := SEC_VOLTAGE_OFF | SEC_VOLTAGE_13 | SEC_VOLTAGE_18.
Inductive sec_tone := SEC_TONE_OFF | SEC_TONE_ON.

(** The properties of a tuning request, in the order they are sent. *)
Inductive dtv_property :=
  | DTV_FREQUENCY (f : Z) | DTV_MODULATION (m : fe_modulation) | DTV_INVERSION_AUTO
  | DTV_SYMBOL_RATE (r : Z) | DTV_INNER_FEC (f : fe_code_rate) | DTV_VOLTAGE (v : sec_voltage)
  | DTV_TONE (t : sec_tone) | DTV_PILOT_AUTO | DTV_ROLLOFF_AUTO
  | DTV_DELIVERY_SYSTEM (s : fe_delivery_system) | DTV_TUNE.

Definition dvb_fe_set_properties (ioctl : list dtv_property → Z) (sys : fe_delivery_system)
    (mod_ : fe_modulation) (ifreq sr : Z) (fec : fe_code_rate) (voltage : sec_voltage)
    (tone : sec_tone) : Z :=
  ioctl [ DTV_FREQUENCY ifreq; DTV_MODULATION mod_; DTV_INVERSION_AUTO; DTV_SYMBOL_RATE sr;
          DTV_INNER_FEC fec; DTV_VOLTAGE voltage; DTV_TONE tone; DTV_PILOT_AUTO; DTV_ROLLOFF_AUTO;
          DTV_DELIVERY_SYSTEM sys; DTV_TUNE ].

(** What the system answers to one [poll] and the [ioctl] after it. *)
Record fe_event := {
  fe_poll : Z;
  fe_pri : bool;
  fe_ioctl : Z;
  fe_status : Z;
  fe_overflow : bool;        (* errno is EOVERFLOW *)
}.

(** The result of [dvb_fe_get_event] and the status it stored, if any. *)
Definition dvb_fe_get_event (e : fe_event) : Z * option Z :=
  if fe_poll e >? 0 then
    if fe_pri e && (0 <=? fe_ioctl e) then (1, Some (fe_status e)) else (0, None)
  else (fe_poll e, None).

(** The switch of [str2fec]. *)
Definition fec_switch (n : Z) : fe_code_rate :=
  if n =? 12 then FEC_1_2 else if n =? 23 then FEC_2_3 else if n =? 34 then FEC_3_4
  else if n =? 45 then FEC_4_5 else if n =? 56 then FEC_5_6 else if n =? 67 then FEC_6_7
  else if n =? 78 then FEC_7_8 else if n =? 35 then FEC_3_5 else if n =? 910 then FEC_9_10
  else FEC_AUTO.

(** [str2fec]: the switch assigns to a second variable [fec] of the inner block;
    the outer one is returned. *)
Definition str2fec `{!CPlatform} (s : bytes) : fe_code_rate :=
  let fec := FEC_NONE in
  let fec :=
    if strcasecmp_eq s (lit "none") then FEC_NONE
    else if strcasecmp_eq s (lit "auto") then FEC_AUTO
    else
      let outer := fec in
      let fec := fec_switch (s32 (strtol0 s)) in
      outer in
  fec.

Definition system_map : list (bytes * fe_delivery_system) :=
  [ (lit "atsc", SYS_ATSC); (lit "cmmb", SYS_CMMB); (lit "dab", SYS_DAB); (lit "dss", SYS_DSS);
    (lit "dvbc_annex_ac", SYS_DVBC_ANNEX_AC); (lit "dvbc_annex_b", SYS_DVBC_ANNEX_B);
    (lit "dvbh", SYS_DVBH); (lit "dvbs", SYS_DVBS); (lit "dvbs2", SYS_DVBS2); (lit "dvbt", SYS_DVBT);
    (lit "dvbt2", SYS_DVBT2); (lit "isdbc", SYS_ISDBC); (lit "isdbs", SYS_ISDBS);
    (lit "isdbt", SYS_ISDBT); (lit "turbo", SYS_TURBO) ].

Definition modulation_map : list (bytes * fe_modulation) :=
  [ (lit "apsk16", APSK_16); (lit "apsk32", APSK_32); (lit "dqpsk", DQPSK); (lit "psk8", PSK_8);
    (lit "qam128", QAM_128); (lit "qam16", QAM_16); (lit "qam256", QAM_256); (lit "qam32", QAM_32);
    (lit "qam64", QAM_64); (lit "qamauto", QAM_AUTO); (lit "qpsk", QPSK); (lit "vsb16", VSB_16);
    (lit "vsb8", VSB_8) ].

Fixpoint find_name {A} (s : bytes) (l : list (bytes * A)) : option A :=
  match l with
  | [] => None
  | (n, a) :: l => if strcasecmp_eq s n then Some a else find_name s l
  end.
Definition str2system (s : bytes) : fe_delivery_system := default SYS_UNDEFINED (find_name s system_map).
Definition str2modulation (s : bytes) : fe_modulation := default QPSK (find_name s modulation_map).

(** The state of the wait: readings of the clock so far, the last event's status
    and the lines printed. *)
Record tuner := {
  tn_ticks : nat;
  tn_status : Z;
  tn_out : list bytes;
}.
Definition tn_tick s := {| tn_ticks := S (tn_ticks s); tn_status := tn_status s; tn_out := tn_out s |}.
Definition tn_stat x s := {| tn_ticks := tn_ticks s; tn_status := x; tn_out := tn_out s |}.
Definition tn_say x s := {| tn_ticks := tn_ticks s; tn_status := tn_status s; tn_out := tn_out s ++ [x] |}.

Definition FE_HAS_LOCK : Z := 0x10.

Section tune.
Context `{!CPlatform, !Clock}.

Definition tn_time : M tuner Z := fun s => Ret (clock (tn_ticks s), tn_tick s).

(** The loop of [wait_for_lock]: the events left over and whether it is locked;
    [None] when the events end first. *)
Fixpoint lock_loop (timeout t0 : Z) (evs : list fe_event) : M tuner (option (bool * list fe_event)) :=
  match evs with
  | [] => mret None
  | e :: evs =>
      let '(err, st) := dvb_fe_get_event e in
      (match st with Some x => modify (tn_stat x) | None => mret tt end);;
      if err <? 0 then
        if fe_overflow e then lock_loop timeout t0 evs
        else modify (tn_say (lit "dvb_fe_get_event"));; mret (Some (false, evs))
      else
        x ← gets tn_status;
        if (err >? 0) && negb (Z.land x FE_HAS_LOCK =? 0) then
          modify (tn_say (lit "Status " ++ hex_alt x ++ lit " Locked!"));;
          mret (Some (true, evs))
        else
          t ← tn_time;
          if t - t0 >? timeout then
            modify (tn_say (lit "Status " ++ hex_alt x ++ lit " No lock!"));;
            mret (Some (false, evs))
          else lock_loop timeout t0 evs
  end.

Definition wait_for_lock (timeout : Z) (evs : list fe_event) : M tuner (option (bool * list fe_event)) :=
  t0 ← tn_time;
  lock_loop timeout t0 evs.

Definition tune_usage (prog : bytes) : list bytes :=
  [ lit "Usage: " ++ prog ++ lit " [options]";
    lit "    -a Adapter Adapter device (default 0)";
    lit "    -d Device  Front end device (default 0)";
    lit "    -s System  Delivery system (default DVBS2)";
    lit "         [atsc cmmb dab dss dvbc_annex_ac]";
    lit "         [dvbc_annex_b dvbh dvbs dvbs2 dvbt]";
    lit "         [dvbt2 isdbc isdbs isdbt turbo]";
    lit "    -m Mod     Modulation (default psk8)";
    lit "         [apsk16 apsk32 dqpsk psk8 qpsk vsb8 vsb16]";
    lit "         [qam16 qam32 qam64 qam128 qam256 qamauto]";
    lit "    -i Freq    Intermediate frequency in kHz (required)";
    lit "    -r Rate    Symbol rate in 1000's (required)";
    lit "    -c FEC     Forward Error Correction code";
    lit "         [none auto 12 23 34 35 45 56 67 78 910]";
    lit "    -p <v|h>   Polarization voltage (default off)";
    lit "    -t         Turn on 22kHz tone";
    lit "    -w timeout Milliseconds to wait for lock";
    lit "    -x         Exit after tuning" ].

Definition tune_say_all (l : list bytes) : M tuner unit := modify (λ s, foldl (λ s x, tn_say x s) s l).

(** The options of [main]; [tu_args] counts -i and -r. *)
Record tune_options := {
  tu_adapter : Z; tu_ifreq_khz : Z; tu_mod : fe_modulation; tu_sr_k : Z; tu_fec : fe_code_rate;
  tu_voltage : sec_voltage; tu_tone : sec_tone; tu_dev : Z; tu_args : Z; tu_loop : bool;
  tu_timeout : Z; tu_sys : fe_delivery_system;
}.
Definition tune_defaults : tune_options :=
  {| tu_adapter := 0; tu_ifreq_khz := 0; tu_mod := PSK_8; tu_sr_k := 0; tu_fec := FEC_AUTO;
     tu_voltage := SEC_VOLTAGE_OFF; tu_tone := SEC_TONE_OFF; tu_dev := 0; tu_args := 0;
     tu_loop := true; tu_timeout := 2000; tu_sys := SYS_DVBS2 |}.

(** One answer of [getopt]; [None]: the default case. *)
Definition tune_option (o : tune_options) (c : Z) (optarg : bytes) : outcome (option tune_options) :=
  let mk a i m r f v t d n l w s :=
    Some {| tu_adapter := a; tu_ifreq_khz := i; tu_mod := m; tu_sr_k := r; tu_fec := f; tu_voltage := v;
            tu_tone := t; tu_dev := d; tu_args := n; tu_loop := l; tu_timeout := w; tu_sys := s |} in
  let '(a, i, m, r, f, v) := (tu_adapter o, tu_ifreq_khz o, tu_mod o, tu_sr_k o, tu_fec o, tu_voltage o) in
  let '(t, d, n, l, w, s) := (tu_tone o, tu_dev o, tu_args o, tu_loop o, tu_timeout o, tu_sys o) in
  if c =? 97 then x ← atoi optarg; Ret (mk x i m r f v t d n l w s)                     (* a *)
  else if c =? 100 then x ← atoi optarg; Ret (mk a i m r f v t x n l w s)               (* d *)
  else if c =? 105 then x ← atoi optarg; Ret (mk a x m r f v t d (n + 1) l w s)         (* i *)
  else if c =? 114 then x ← atoi optarg; Ret (mk a i m x f v t d (n + 1) l w s)         (* r *)
  else if c =? 99 then Ret (mk a i m r (str2fec optarg) v t d n l w s)                  (* c *)
  else if c =? 112 then                                                                 (* p *)
    p ← buf_get (optarg ++ [NUL]) 0;
    Ret (mk a i m r f (if (p =? 104) || (p =? 72) then SEC_VOLTAGE_18
                       else if (p =? 118) || (p =? 86) then SEC_VOLTAGE_13 else v) t d n l w s)
  else if c =? 116 then Ret (mk a i m r f v SEC_TONE_ON d n l w s)                      (* t *)
  else if c =? 119 then x ← atoi optarg; Ret (mk a i m r f v t d n l (if x >? 0 then x else w) s) (* w *)
  else if c =? 115 then Ret (mk a i m r f v t d n l w (str2system optarg))              (* s *)
  else if c =? 109 then Ret (mk a i (str2modulation optarg) r f v t d n l w s)          (* m *)
  else if c =? 120 then Ret (mk a i m r f v t d n false w s)                            (* x *)
  else Ret None.

Fixpoint parse_opts {O} (step : O → Z → bytes → outcome (option O)) (o : O) (opts : list (Z * bytes))
    : outcome (option O) :=
  match opts with
  | [] => Ret (Some o)
  | (c, optarg) :: opts =>
      r ← step o c optarg;
      match r with Some o => parse_opts step o opts | None => Ret None end
  end.

(** [do ... while (loop)], then [while (loop)]: the whole rest of the events is
    consumed when [loop] is set, so that only an error-free "-x" run ends. *)
Fixpoint tune_loop (fuel : nat) (loop : bool) (timeout : Z) (evs : list fe_event) : M tuner (option unit) :=
  match fuel with
  | O => fun _ => OutOfFuel
  | S fuel =>
      r ← wait_for_lock timeout evs;
      match r with
      | None => mret None
      | Some (locked, evs) =>
          if locked || negb loop then mret (if loop then None else Some tt)
          else tune_loop fuel loop timeout evs
      end
  end.

(** [main]: its exit status, [None] when it is still running at the end of [evs]. *)
Definition tune_main (prog : bytes) (open : bytes → bool → Z) (ioctl : list dtv_property → Z)
    (opts : list (Z * bytes)) (evs : list fe_event) : M tuner (option Z) :=
  o ← lift (parse_opts tune_option tune_defaults opts);
  match o with
  | None => tune_say_all (tune_usage prog);; mret (Some EXIT_FAILURE)
  | Some o =>
      if tu_args o <? 2 then tune_say_all (tune_usage prog);; mret (Some EXIT_FAILURE)
      else
        let '(fefd, e) := dvb_open open (tu_adapter o) (tu_dev o) (lit "frontend") false in
        (match e with Some l => modify (tn_say l) | None => mret tt end);;
        if fefd <? 0 then mret (Some 1)
        else
          let err := dvb_fe_set_properties ioctl (tu_sys o) (tu_mod o) (tu_ifreq_khz o)
                       (s32 (tu_sr_k o * 1000)) (tu_fec o) (tu_voltage o) (tu_tone o) in
          (if err <? 0 then modify (tn_say (lit "dvb_fe_set_properties")) else mret tt);;
          if err =? 0 then
            r ← tune_loop (S (length evs)) (tu_loop o) (tu_timeout o) evs;
            mret (match r with Some _ => Some err | None => None end)
          else mret (Some err)
  end.
End tune.

(** ** dvbutils/dvbnet.c *)

Definition MAX_INTERFACES : nat := 10.

Inductive feedtype := DVB_NET_FEEDTYPE_MPE | DVB_NET_FEEDTYPE_ULE.
#[export] Instance feedtype_eq_dec : EqDecision feedtype.
Proof. solve_decision. Defined.

(** The driver's answers to NET_ADD_IF, NET_REMOVE_IF and NET_GET_IF. *)
Record net_driver := {
  net_add_if : Z → feedtype → Z;
  net_remove_if : Z → Z;
  net_get_if : Z → Z * (Z * feedtype);
}.

Definition dvb_add_netif (d : net_driver) (pid : Z) (ule : bool) : Z :=
  net_add_if d (u16 pid) (if ule then DVB_NET_FEEDTYPE_ULE else DVB_NET_FEEDTYPE_MPE).
Definition dvb_remove_netif (d : net_driver) (if_num : Z) : Z := net_remove_if d if_num.
Definition dvb_get_netif (d : net_driver) (if_num : Z) : Z * option (Z * feedtype) :=
  let '(err, x) := net_get_if d if_num in (err, if 0 <=? err then Some x else None).

(** The loop over the interfaces from [i] on. *)
Fixpoint net_list (d : net_driver) (net : Z) (n : nat) (i : Z) : list bytes :=
  match n with
  | O => []
  | S n =>
      (match (dvb_get_netif d i).2 with
       | None => []
       | Some (pid, ule) =>
           [lit "dvb" ++ dec net ++ lit "_" ++ dec i ++ lit " PID " ++ dec pid ++ lit " encapsulation " ++
            (if decide (ule = DVB_NET_FEEDTYPE_ULE) then lit "ULE" else lit "MPE")]
       end) ++ net_list d net n (i + 1)
  end.

Definition net_usage (prog : bytes) : list bytes :=
  [ lit "Usage:";
    lit "  " ++ prog ++ lit " [options] -p <PID> [-u]";
    lit "    Add network interfaces";
    lit "      -p PID     Program ID (0 - 0x2000)";
    lit "      -u         Use ULE instead of MPE";
    lit "  " ++ prog ++ lit " [options] -r <Number>";
    lit "    Remove network interfaces";
    lit "      -r Number  Network interface number";
    lit "  " ++ prog ++ lit " [options] -l";
    lit "    List network interfaces";
    lit "  Options:";
    lit "      -a Adapter Adapter device (default 0)";
    lit "      -d Network Network device (default 0)" ].

Record net_options := {
  no_adapter : Z; no_net : Z; no_pid : Z; no_if_num : Z; no_list : bool; no_remove : bool; no_ule : bool;
}.
Definition net_defaults : net_options :=
  {| no_adapter := 0; no_net := 0; no_pid := -1; no_if_num := 0; no_list := false;
     no_remove := false; no_ule := false |}.

Definition net_option (o : net_options) (c : Z) (optarg : bytes) : outcome (option net_options) :=
  let mk a n p i l r u :=
    Some {| no_adapter := a; no_net := n; no_pid := p; no_if_num := i; no_list := l; no_remove := r; no_ule := u |} in
  let '(a, n, p, i, l, r, u) :=
    (no_adapter o, no_net o, no_pid o, no_if_num o, no_list o, no_remove o, no_ule o) in
  if c =? 97 then x ← atoi optarg; Ret (mk x n p i l r u)
  else if c =? 100 then x ← atoi optarg; Ret (mk a x p i l r u)
  else if c =? 108 then Ret (mk a n p i true r u)
  else if c =? 112 then x ← atoi optarg; Ret (mk a n x i l r u)
  else if c =? 114 then x ← atoi optarg; Ret (mk a n p x l true u)
  else if (c =? 85) || (c =? 117) then Ret (mk a n p i l r true)
  else Ret None.

(** [main]: its exit status and output. *)
Definition net_main (prog : bytes) (open : bytes → bool → Z) (d : net_driver) (opts : list (Z * bytes))
    : outcome (Z * list bytes) :=
  o ← parse_opts net_option net_defaults opts;
  match o with
  | None => Ret (EXIT_FAILURE, net_usage prog)
  | Some o =>
      if negb (no_list o) && negb (no_remove o) && ((no_pid o <? 0) || (no_pid o >? 0x2000))
      then Ret (EXIT_FAILURE, net_usage prog)
      else
        let '(netfd, e) := dvb_open open (no_adapter o) (no_net o) (lit "net") false in
        if netfd <? 0 then Ret (1, option_list e)
        else if no_list o then Ret (0, net_list d (no_net o) MAX_INTERFACES 0)
        else if no_remove o then
          let err := dvb_remove_netif d (no_if_num o) in
          Ret (err, if err <? 0 then [lit "NET_REMOVE_IF"] else [])
        else
          let err := dvb_add_netif d (no_pid o) (no_ule o) in
          Ret (err, if err <? 0 then [lit "NET_ADD_IF"] else [])
  end.

(** ** Properties *)

Lemma strcasecmp_eq_spec a b : strcasecmp_eq a b = true ↔ lower <$> a = lower <$> b.
Proof. unfold strcasecmp_eq. apply bool_decide_eq_true. Qed.

Lemma find_name_case {A} (l : list (bytes * A)) s n a :
  NoDup ((λ p : bytes * A, lower <$> p.1) <$> l) → (n, a) ∈ l → lower <$> s = lower <$> n → find_name s l = Some a.
Proof.
  intros Hnd Hin Hs. induction l as [|[n' a'] l IH]; [by apply elem_of_nil in Hin|].
  apply NoDup_cons in Hnd as [Hn' Hnd]. cbn [find_name].
  apply elem_of_cons in Hin as [[= -> ->]|Hin].
  - by rewrite (proj2 (strcasecmp_eq_spec s n') Hs).
  - destruct (strcasecmp_eq s n') eqn:E; [|by apply IH].
    apply strcasecmp_eq_spec in E. exfalso. apply Hn'.
    apply list_elem_of_fmap. exists (n, a). split; [simpl; congruence|done].
Qed.

(** Every name of the two tables is found in any mixture of cases, with the
    constant beside it, and no entry of a table hides another. *)
Theorem tune_names_found s :
  (∀ n v, (n, v) ∈ system_map → lower <$> s = lower <$> n → str2system s = v) ∧
  (∀ n v, (n, v) ∈ modulation_map → lower <$> s = lower <$> n → str2modulation s = v).
Proof.
  unfold str2system, str2modulation.
  split; intros n v Hin Hs.
  - rewrite (find_name_case system_map s n v); [done|by apply (bool_decide_unpack _); vm_compute|done..].
  - rewrite (find_name_case modulation_map s n v); [done|by apply (bool_decide_unpack _); vm_compute|done..].
Qed.

(** The FEC codes are ignored.  Every argument of -c other than "auto" selects
    FEC_NONE, the listed codes included, although the switch has an entry for each. *)
Theorem str2fec_ignores_codes `{!CPlatform} s :
  (str2fec s = if strcasecmp_eq s (lit "auto") then FEC_AUTO else FEC_NONE) ∧
  (fec_switch <$> [12; 23; 34; 45; 56; 67; 78; 35; 910] =
   [FEC_1_2; FEC_2_3; FEC_3_4; FEC_4_5; FEC_5_6; FEC_6_7; FEC_7_8; FEC_3_5; FEC_9_10]).
Proof.
  split; [|done]. unfold str2fec. destruct (strcasecmp_eq s (lit "none")) eqn:E; [|done].
  destruct (strcasecmp_eq s (lit "auto")) eqn:E'; [|done].
  apply strcasecmp_eq_spec in E, E'. rewrite E in E'. by vm_compute in E'.
Qed.

Section lock.
Context `{!Clock}.

(** An event that shows no lock, and one that shows a lock. *)
Definition no_lock (e : fe_event) : Prop :=
  0 ≤ fe_poll e ∧ (0 < fe_poll e → fe_pri e = true → 0 ≤ fe_ioctl e → Z.land (fe_status e) FE_HAS_LOCK = 0).
Definition has_lock (e : fe_event) : Prop :=
  0 < fe_poll e ∧ fe_pri e = true ∧ 0 ≤ fe_ioctl e ∧ Z.land (fe_status e) FE_HAS_LOCK ≠ 0.

#[local] Instance has_lock_dec e : Decision (has_lock e).
Proof. unfold has_lock. apply _. Defined.

(** One event without a lock: the status may change, the clock is read. *)
Lemma lock_loop_no_lock timeout t0 e evs s :
  no_lock e →
  ∃ x, lock_loop timeout t0 (e :: evs) s =
    if clock (tn_ticks s) - t0 >? timeout
    then Ret (Some (false, evs),
              tn_say (lit "Status " ++ hex_alt x ++ lit " No lock!") (tn_tick (tn_stat x s)))
    else lock_loop timeout t0 evs (tn_tick (tn_stat x s)).
Proof.
  intros [Hp Hst].
  assert (∀ x s', tn_status s' = x → tn_stat x s' = s') as Hid by (by intros x [] <-).
  destruct (dvb_fe_get_event e) as [err st] eqn:He.
  assert (0 ≤ err ∧ (0 < err → ∃ x, st = Some x ∧ Z.land x FE_HAS_LOCK = 0)) as [Hpos Hsome].
  { unfold dvb_fe_get_event in He. destruct (Z.gtb_spec (fe_poll e) 0); [|simplify_eq; lia].
    destruct (fe_pri e) eqn:Hpri, (Z.leb_spec 0 (fe_ioctl e)); simplify_eq/=; try lia.
    split; [lia|]. intros _. eexists. split; [done|]. by apply Hst. }
  exists (default (tn_status s) st). cbn [lock_loop]. rewrite He.
  rewrite (M_bind_eq _ _ _ tt (tn_stat (default (tn_status s) st) s)).
  2:{ destruct st; [done|]. simpl. by rewrite Hid. }
  destruct (Z.ltb_spec err 0); [lia|].
  rewrite (M_bind_eq _ _ _ (default (tn_status s) st) (tn_stat (default (tn_status s) st) s)) by done.
  replace ((err >? 0) && negb (Z.land (default (tn_status s) st) FE_HAS_LOCK =? 0)) with false.
  - rewrite (M_bind_eq _ _ _ (clock (tn_ticks s)) (tn_tick (tn_stat (default (tn_status s) st) s))) by done.
    by destruct (_ >? timeout).
  - destruct (Z.gtb_spec err 0) as [Hgt|]; [|done].
    destruct Hsome as (x & -> & Hx); [lia|]. simpl. by rewrite Hx.
Qed.

(** A lock is reported when it comes in time.  If the events before it show no
    lock and no error, and the clock has not passed the time limit when each of them
    is over, [wait_for_lock] consumes exactly these events and the one with the
    lock, and answers that the receiver is locked. *)
Theorem wait_for_lock_finds timeout quiet e rest s :
  Forall no_lock quiet → has_lock e →
  (∀ n, (n ≤ tn_ticks s + length quiet)%nat → clock n - clock (tn_ticks s) ≤ timeout) →
  ∃ s', wait_for_lock timeout (quiet ++ e :: rest) s = Ret (Some (true, rest), s').
Proof.
  intros Hq He Hclock. unfold wait_for_lock.
  rewrite (M_bind_eq _ _ _ (clock (tn_ticks s)) (tn_tick s)) by done.
  remember (clock (tn_ticks s)) as t0 eqn:Et.
  assert (∀ n, (tn_ticks (tn_tick s) ≤ n < tn_ticks (tn_tick s) + length quiet)%nat →
    clock n - t0 ≤ timeout) as Hc by (intros n Hn; apply Hclock; simpl in Hn; lia).
  clear Hclock Et. revert Hc. generalize (tn_tick s) as s1. clear s.
  induction Hq as [|e' quiet He' _ IH]; intros s1 Hc.
  - destruct He as (Hp & Hpri & Hio & Hl). eexists. cbn [app lock_loop]. unfold dvb_fe_get_event.
    destruct (Z.gtb_spec (fe_poll e) 0); [|lia]. rewrite Hpri. rewrite (proj2 (Z.leb_le _ _) Hio). cbn [andb].
    rewrite (M_bind_eq _ _ _ tt (tn_stat (fe_status e) s1)) by done. cbn [Z.ltb Z.gtb Z.compare].
    rewrite (M_bind_eq _ _ _ (fe_status e) (tn_stat (fe_status e) s1)) by done.
    rewrite (proj2 (Z.eqb_neq _ _) Hl). reflexivity.
  - destruct (lock_loop_no_lock timeout t0 e' (quiet ++ e :: rest) s1 He') as [x Hx].
    rewrite <-app_comm_cons, Hx. destruct (Z.gtb_spec (clock (tn_ticks s1) - t0) timeout) as [Hgt|].
    + specialize (Hc (tn_ticks s1)). simpl in Hc. lia.
    + apply IH. intros n Hn. apply Hc. simpl in *. lia.
Qed.

(** The wait is bounded.  When no event reports an error and the clock has
    passed the limit after [k] readings, [wait_for_lock] answers after at most [k]
    events, whatever they are. *)
Theorem wait_for_lock_bounded timeout evs k s :
  Forall (λ e, 0 ≤ fe_poll e) evs → (0 < k ≤ length evs)%nat →
  clock (tn_ticks s + k) - clock (tn_ticks s) > timeout →
  ∃ r rest s', wait_for_lock timeout evs s = Ret (Some (r, rest), s') ∧
    (length evs - length rest ≤ k)%nat.
Proof.
  intros Hevs Hk Hclock. unfold wait_for_lock.
  rewrite (M_bind_eq _ _ _ (clock (tn_ticks s)) (tn_tick s)) by done.
  remember (clock (tn_ticks s)) as t0 eqn:Et.
  assert (∃ j, k = S j ∧ clock (tn_ticks (tn_tick s) + j) - t0 > timeout) as (j & -> & Hj).
  { exists (k - 1)%nat. split; [lia|].
    by replace (tn_ticks (tn_tick s) + (k - 1))%nat with (tn_ticks s + k)%nat by (simpl; lia). }
  clear Hclock Et. revert j Hk Hj. generalize (tn_tick s) as s1. clear s.
  induction Hevs as [|e evs He _ IH]; intros s1 j Hk Hj; [simpl in Hk; lia|].
  destruct (decide (has_lock e)) as [Hl|Hl].
  - destruct Hl as (Hp & Hpri & Hio & Hl). eexists _, evs, _. split; [|simpl; lia].
    cbn [lock_loop]. unfold dvb_fe_get_event.
    destruct (Z.gtb_spec (fe_poll e) 0); [|lia]. rewrite Hpri. rewrite (proj2 (Z.leb_le _ _) Hio). cbn [andb].
    rewrite (M_bind_eq _ _ _ tt (tn_stat (fe_status e) s1)) by done. cbn [Z.ltb Z.gtb Z.compare].
    rewrite (M_bind_eq _ _ _ (fe_status e) (tn_stat (fe_status e) s1)) by done.
    rewrite (proj2 (Z.eqb_neq _ _) Hl). reflexivity.
  - destruct (lock_loop_no_lock timeout t0 e evs s1) as [x Hx].
    { split; [done|]. intros Hp Hpri Hio. destruct (decide (Z.land (fe_status e) FE_HAS_LOCK = 0)); [done|].
      by destruct Hl. }
    rewrite Hx. destruct (Z.gtb_spec (clock (tn_ticks s1) - t0) timeout) as [Hgt|Hle].
    + eexists _, evs, _. split; [done|]. simpl. lia.
    + destruct j as [|j]; [rewrite Nat.add_0_r in Hj; lia|].
      destruct (IH (tn_tick (tn_stat x s1)) j) as (r & rest & s' & Hr & Hn); [simpl in Hk; lia| |].
      { simpl. by replace (S (tn_ticks s1 + j)) with (tn_ticks s1 + S j)%nat by lia. }
      exists r, rest, s'. split; [done|]. simpl. lia.
Qed.
End lock.

Definition demo_fe (poll status : Z) : fe_event :=
  {| fe_poll := poll; fe_pri := true; fe_ioctl := 0; fe_status := status; fe_overflow := false |}.
Definition demo_tuner : tuner := {| tn_ticks := 0; tn_status := 0; tn_out := [] |}.

Lemma wait_for_lock_finds_witness :
  ∃ s', @wait_for_lock (λ n, 100 * Z.of_nat n) 2000 ([demo_fe 0 0; demo_fe 1 7] ++ demo_fe 1 0x1f :: []) demo_tuner
    = Ret (Some (true, []), s').
Proof.
  apply (@wait_for_lock_finds (λ n, 100 * Z.of_nat n) 2000).
  - apply Forall_cons; split; [|apply Forall_cons; split; [|done]]; (split; [simpl; lia|]); intros; by vm_compute.
  - split_and!; [simpl; lia|done|simpl; lia|by vm_compute].
  - intros n Hn. unfold clock. simpl in *. lia.
Defined.

Lemma wait_for_lock_bounded_witness :
  ∃ r rest s', @wait_for_lock (λ n, 1000 * Z.of_nat n) 2000 (replicate 9 (demo_fe 0 0)) demo_tuner
    = Ret (Some (r, rest), s') ∧ (9 - length rest ≤ 3)%nat.
Proof.
  apply (@wait_for_lock_bounded (λ n, 1000 * Z.of_nat n) 2000 (replicate 9 (demo_fe 0 0)) 3).
  - apply Forall_replicate. simpl. lia.
  - simpl. lia.
  - unfold clock. simpl. lia.
Defined.
