(* ===== verification/LogUtils.v ===== *)
(** * Helpers of the log uploader: logupload/client/utils.c

    Small files read and written whole, trailing white space, the fields of a
    kernel log line, and compression of a buffer in place. *)

From S2P Require Import Prelude.
From stdpp Require Import gmap.
Open Scope Z_scope.

(** ** Files *)

(** What the file system answers: whether a path can be opened for reading or for
    writing, and the result of a read or a write of so many bytes. *)
Class Os := {
  open_read : bytes → bool;
  open_write : bytes → bool;
  read_result : bytes → Z → Z;
  write_result : bytes → Z → Z;
  path_access : bytes → bool;
}.

(** The contents of the files and the lines written to stderr. *)
Record world := {
  files : gmap bytes bytes;
  errors : list bytes;
}.
Definition set_file (p c : bytes) (w : world) : world :=
  {| files := <[p := c]> (files w); errors := errors w |}.
Definition add_error (e : bytes) (w : world) : world :=
  {| files := files w; errors := errors w ++ [e] |}.
Abbreviation W := (M world).
Definition perror (what : bytes) : W unit := modify (add_error what).

(** [strtoull(s, NULL, 10)] *)
Definition ULLONG_MAX : Z := 2 ^ 64 - 1.
Definition strtoull (s : bytes) : Z :=
  let '(neg, s) := signed_digits s in
  let v := parse_digits s 0 in
  if v >? ULLONG_MAX then ULLONG_MAX else if neg : bool then u64 (- v) else v.

Section files.
Context `{!Os}.

Definition content (p : bytes) : W bytes := gets (λ w, default [] (files w !! p)).

(** [read(fd, data, n)] at the start of file [p]: its result and the bytes. *)
Definition read_bytes (p : bytes) (n : Z) : W (Z * bytes) :=
  c ← content p;
  let r := read_result p (Z.min n (Z.of_nat (length c))) in
  mret (r, take (Z.to_nat r) c).

(** [read_file_as_string]; [data] is the array, [length] its size. *)
Definition read_file_as_string (file_path : option bytes) (data : option bytes) (length : Z)
    : W (Z * option bytes) :=
  match file_path, data with
  | Some p, Some d =>
      if open_read p then
        '(num_read, bs) ← read_bytes p (length - 1);
        (if num_read <? 0 then perror p else mret tt);;
        if num_read <? 0 then mret (-1, data)
        else
          d ← lift (if decide (List.length bs ≤ List.length d)%nat
                    then Ret (bs ++ drop (List.length bs) d) else Ub);
          d ← lift (buf_set d num_read NUL);
          mret (num_read, Some d)
      else perror p;; mret (-1, data)
  | _, _ => mret (-1, data)
  end.

(** [rstrip]: [l] counts down to -1. *)
Fixpoint rstrip_loop (l : nat) (str : bytes) : outcome bytes :=
  match l with
  | O => Ret str
  | S l =>
      c ← buf_get str (Z.of_nat l);
      if isspace c then str ← buf_set str (Z.of_nat l) NUL; rstrip_loop l str else Ret str
  end.
Definition rstrip (str : bytes) : outcome bytes :=
  s ← cstr str; rstrip_loop (length s) str.

Definition path_exists (p : bytes) : Z := if path_access p then 1 else 0.

Definition read_file_as_uint64 (file_path : bytes) : W Z :=
  if open_read file_path then
    '(num_read, bs) ← read_bytes file_path (64 - 1);
    (if num_read <? 0 then perror file_path else mret tt);;
    if num_read >? 0 then
      s ← lift (cstr (bs ++ [NUL]));
      mret (strtoull s)
    else mret 0
  else perror file_path;; mret 0.

(** Writing at the start of a file that is not truncated. *)
Definition overwrite (p bs : bytes) : W unit :=
  c ← content p;
  modify (set_file p (bs ++ drop (length bs) c)).

Definition write_file_as_uint64 (file_path : bytes) (counter : Z) : W Z :=
  if open_write file_path then
    let data := dec counter ++ [10] in
    let len := Z.of_nat (length data) in
    let num_written := write_result file_path len in
    overwrite file_path (take (Z.to_nat num_written) data);;
    if num_written <? len then perror file_path;; mret (-1) else mret 0
  else perror file_path;; mret (-1).

Definition write_to_file (file_path data : bytes) : W Z :=
  if open_write file_path then
    let len := Z.of_nat (length data) in
    let num_written := write_result file_path len in
    c ← content file_path;
    modify (set_file file_path (c ++ take (Z.to_nat num_written) data));;     (* O_APPEND *)
    if num_written <? len then mret (-1) else mret num_written
  else mret (-1).
End files.

(** ** Kernel log lines *)

Record line_data := {
  level : Z;
  ts_nsec : Z;
  seq_no : Z;
  text : nat;                (* the pointer, as an index into the line *)
}.

(** [strchr(s + from, c)] in an array: the index found. *)
Fixpoint strchr (arr : bytes) (from : nat) (c : Z) : outcome (option nat) :=
  match arr, from with
  | [], _ => Ub
  | x :: arr, S from => r ← strchr arr from c; Ret (option_map S r)
  | x :: arr, O =>
      if x =? c then Ret (Some O)
      else if x =? NUL then Ret None
      else r ← strchr arr O c; Ret (option_map S r)
  end.

(** The string that starts at an index of an array. *)
Definition str_at (arr : bytes) (i : nat) : outcome bytes := cstr (drop i arr).

(** [parse_line_data]: [None] is the result -1; the line is cut after its newline.
    The numbers end at the separators found before, so that reading them stays inside
    the array although it need not be terminated. *)
Definition parse_line_data (line : bytes) : outcome (option (line_data * bytes)) :=
  comma_1 ← strchr line 0 44;
  match comma_1 with
  | None => Ret None
  | Some comma_1 =>
      comma_2 ← strchr line (comma_1 + 1) 44;
      match comma_2 with
      | None => Ret None
      | Some comma_2 =>
          semi ← strchr line (comma_2 + 1) 59;
          match semi with
          | None => Ret None
          | Some semi =>
              newline ← strchr line semi 10;
              match newline with
              | None => Ret None
              | Some newline =>
                  lvl ← atoi line;
                  line' ← buf_set line (Z.of_nat newline + 1) NUL;
                  Ret (Some ({| level := u32 lvl; seq_no := strtoull (drop (comma_1 + 1) line);
                                ts_nsec := strtoull (drop (comma_2 + 1) line);
                                text := semi + 1 |}, line'))
              end
          end
      end
  end.

(** ** Compression in place *)

Inductive z_result := Z_OK | Z_STREAM_END | Z_STREAM_ERROR | Z_BUF_ERROR | Z_OTHER (code : Z).
#[export] Instance z_result_eq_dec : EqDecision z_result.
Proof. solve_decision. Defined.
Inductive z_flush := Z_NO_FLUSH | Z_FINISH.

(** The library's compressor: [deflate st flush input room] is the result, how many
    bytes of the input it consumed, what it wrote, and its new state. *)
Class Zlib (Z_ : Type) := {
  deflateInit : Z_ → z_result * Z_;
  deflate : Z_ → z_flush → bytes → Z → z_result * (nat * bytes * Z_);
}.

(** What the documentation of deflate promises: it stays inside its two buffers,
    and the result Z_OK means that some progress has been made, and Z_STREAM_END is only
    given when Z_FINISH was asked for. *)
Class ZlibLaws (Z_ : Type) `{!Zlib Z_} := {
  deflate_consumed st fl inp room rv n out st' :
    deflate st fl inp room = (rv, (n, out, st')) → (n ≤ length inp)%nat;
  deflate_produced st fl inp room rv n out st' :
    deflate st fl inp room = (rv, (n, out, st')) → Z.of_nat (length out) ≤ Z.max 0 room;
  deflate_progress st fl inp room n out st' :
    deflate st fl inp room = (Z_OK, (n, out, st')) → (0 < n)%nat ∨ out ≠ [];
  deflate_end_finish st inp room rv n out st' :
    deflate st Z_NO_FLUSH inp room = (rv, (n, out, st')) → rv ≠ Z_STREAM_END;
}.

Section deflate.
Context {Z_ : Type} `{!Zlib Z_}.

(** The fields of the stream the code uses: [next_in] and [next_out] are indices
    into [buf] ([next_out] into [temp] during the first call). *)
Record z_stream := ZStream {
  z_state : Z_;
  next_in : nat;
  avail_in : nat;
  next_out : nat;
  avail_out : Z;
}.

(** A call of deflate whose output goes to [buf]. *)
Definition deflate_step (buf : bytes) (s : z_stream) : outcome (z_result * (bytes * z_stream)) :=
  let '(rv, (n, out, st)) := deflate (z_state s) Z_FINISH (take (avail_in s) (drop (next_in s) buf)) (avail_out s) in
  if decide (next_out s + length out ≤ length buf)%nat then
    Ret (rv, (take (next_out s) buf ++ out ++ drop (next_out s + length out) buf,
              ZStream st (next_in s + n) (avail_in s - n) (next_out s + length out)
                      (avail_out s - Z.of_nat (length out))))
  else Ub.

(** [while (rv == Z_OK)] *)
Fixpoint deflate_loop (fuel : nat) (out_len : Z) (rv : z_result) (buf : bytes) (s : z_stream)
    : outcome (z_result * (bytes * z_stream)) :=
  if decide (rv = Z_OK) then
    match fuel with
    | O => OutOfFuel
    | S fuel =>
        let room := u32 (if Nat.eqb (avail_in s) 0 then out_len - Z.of_nat (next_out s)
                         else Z.of_nat (next_in s) - Z.of_nat (next_out s)) in
        '(rv, (buf, s)) ← deflate_step buf (ZStream (z_state s) (next_in s) (avail_in s) (next_out s) room);
        deflate_loop fuel out_len rv buf s
    end
  else Ret (rv, (buf, s)).

(** [deflate_inplace(strm, buf, len, &out_len)]: the result, the buffer and [out_len]. *)
Definition deflate_inplace (st : Z_) (buf : bytes) (len : nat) (out_len : Z)
    : outcome (z_result * (bytes * Z)) :=
  let '(rv, st) := deflateInit st in
  if negb (bool_decide (rv = Z_OK)) then Ret (rv, (buf, out_len))
  else
    let avail_in := Z.to_nat (u32 (Z.of_nat len)) in
    let '(rv, (n, temp, st)) := deflate st Z_NO_FLUSH (take avail_in buf) 1024 in
    if decide (rv = Z_STREAM_ERROR) then Ret (rv, (buf, out_len))
    else
      let temp_used := Z.of_nat (length temp) in
      '(rv, (buf, s)) ← deflate_loop (S (avail_in + Z.to_nat out_len)) out_len rv buf
                          (ZStream st n (avail_in - n) 0 (1024 - temp_used));
      if decide (rv = Z_STREAM_END) then
        if avail_out s <? temp_used then Ret (Z_BUF_ERROR, (buf, out_len))
        else if decide (length temp + next_out s ≤ length buf)%nat then
          (* memmove, then memcpy *)
          let buf := temp ++ take (next_out s) buf ++ drop (length temp + next_out s) buf in
          Ret (Z_OK, (buf, Z.of_nat (next_out s) + temp_used))
        else Ub
      else Ret (rv, (buf, out_len)).
End deflate.

(** The reference: the same calls with the input and the output apart. *)
Section reference.
Context {Z_ : Type} `{!Zlib Z_}.

(** [feeds st inp outs st']: a sequence of calls with Z_FINISH on the pending input
    [inp], all but the last answering Z_OK and the last [rv], writes [out] in all. *)
Inductive feeds : Z_ → bytes → z_result → bytes → Prop :=
  | feeds_last st inp room rv n out st' :
      deflate st Z_FINISH inp room = (rv, (n, out, st')) → rv ≠ Z_OK → feeds st inp rv out
  | feeds_more st inp room n out st' rv out' :
      deflate st Z_FINISH inp room = (Z_OK, (n, out, st')) → feeds st' (drop n inp) rv out' →
      feeds st inp rv (out ++ out').

(** A complete compression of [data]: the first call, then calls to the end. *)
Definition compresses (st : Z_) (data out : bytes) : Prop :=
  ∃ st1 rv n temp st2 out',
    deflateInit st = (Z_OK, st1) ∧ deflate st1 Z_NO_FLUSH data 1024 = (rv, (n, temp, st2)) ∧
    out = temp ++ out' ∧
    rv = Z_OK ∧ feeds st2 (drop n data) Z_STREAM_END out'.
End reference.

(** ** Facts *)

(** ** Compression in place *)

Section deflate_facts.
Context {Z_ : Type} `{!Zlib Z_, !ZlibLaws Z_}.

(** The input [data] that is still to be read lies untouched behind the output. *)
Record in_place (data : bytes) (out_len : Z) (buf : bytes) (s : z_stream (Z_ := Z_)) : Prop := {
  ip_sum : (next_in s + avail_in s = length data)%nat;
  ip_data : take (avail_in s) (drop (next_in s) buf) = drop (next_in s) data;
  ip_order : avail_in s = 0%nat ∨ (next_out s ≤ next_in s)%nat;
  ip_out : Z.of_nat (next_out s) ≤ out_len;
}.

(** One call: what it reads is the pending input, what it writes goes behind the
    output so far and leaves the rest of the input alone. *)
Lemma deflate_step_ok data out_len buf s rv n out st' room :
  in_place data out_len buf s → Z.of_nat (length data) ≤ out_len ≤ Z.of_nat (length buf) →
  room = (if Nat.eqb (avail_in s) 0 then out_len - Z.of_nat (next_out s)
          else Z.of_nat (next_in s) - Z.of_nat (next_out s)) →
  deflate (z_state s) Z_FINISH (drop (next_in s) data) room = (rv, (n, out, st')) →
  ∃ buf', deflate_step buf (ZStream (z_state s) (next_in s) (avail_in s) (next_out s) room) =
    Ret (rv, (buf', ZStream st' (next_in s + n) (avail_in s - n) (next_out s + length out)
                            (room - Z.of_nat (length out)))) ∧
    in_place data out_len buf' (ZStream st' (next_in s + n) (avail_in s - n) (next_out s + length out)
                            (room - Z.of_nat (length out))) ∧
    take (next_out s + length out) buf' = take (next_out s) buf ++ out ∧
    length buf' = length buf ∧ (n ≤ avail_in s)%nat ∧
    Z.of_nat (next_out s) + room ≤ out_len ∧ Z.of_nat (length out) ≤ room.
Proof.
  intros [Hsum Hdata Hord Hout] Hlen Hroom Hd.
  pose proof (deflate_consumed _ _ _ _ _ _ _ _ Hd) as Hn. rewrite length_drop in Hn.
  pose proof (deflate_produced _ _ _ _ _ _ _ _ Hd) as Hp.
  assert (0 ≤ room ∧ Z.of_nat (next_out s) + room ≤ out_len ∧
    (avail_in s = 0%nat ∨ Z.of_nat (next_out s) + room ≤ Z.of_nat (next_in s))) as (Hr0 & Hr1 & Hr2).
  { destruct (Nat.eqb_spec (avail_in s) 0); subst room; lia. }
  assert (next_out s + length out ≤ length buf)%nat as Hfit by lia.
  exists (take (next_out s) buf ++ out ++ drop (next_out s + length out) buf).
  assert (length (take (next_out s) buf) = next_out s) as Hl by (rewrite length_take; lia).
  split_and!.
  - unfold deflate_step. cbn [z_state avail_in next_in next_out avail_out].
    rewrite Hdata, Hd. by rewrite decide_True.
  - split; cbn [next_in avail_in next_out].
    + lia.
    + destruct Hr2 as [Hz|Hle].
      { rewrite Hz. simpl. symmetry. apply drop_ge. lia. }
      assert (drop (next_in s + n) (take (next_out s) buf ++ out ++ drop (next_out s + length out) buf)
        = drop (next_in s + n) buf) as ->.
      { rewrite drop_app_ge by lia. rewrite drop_app_ge by lia. rewrite drop_drop. f_equal. lia. }
      rewrite <-!drop_drop, <-Hdata, skipn_firstn_comm. done.
    + destruct Hr2; [left|right]; lia.
    + lia.
  - rewrite (assoc_L (++)). apply take_app_length'. rewrite length_app. lia.
  - rewrite !length_app, length_drop. lia.
  - lia.
  - lia.
  - lia.
Qed.

Lemma deflate_loop_ok data out_len fuel : ∀ buf s,
  in_place data out_len buf s → Z.of_nat (length data) ≤ out_len ≤ Z.of_nat (length buf) →
  out_len < 2 ^ 32 → (avail_in s + Z.to_nat (out_len - Z.of_nat (next_out s)) < fuel)%nat →
  ∃ rv buf' s' out, deflate_loop fuel out_len Z_OK buf s = Ret (rv, (buf', s')) ∧
    feeds (z_state s) (drop (next_in s) data) rv out ∧ rv ≠ Z_OK ∧
    take (next_out s') buf' = take (next_out s) buf ++ out ∧ length buf' = length buf ∧
    Z.of_nat (next_out s') + avail_out s' ≤ out_len ∧ (next_out s' ≤ length buf')%nat.
Proof.
  induction fuel as [|fuel IH]; intros buf s Hip Hlen H32 Hfuel; [lia|].
  set (room := if Nat.eqb (avail_in s) 0 then out_len - Z.of_nat (next_out s)
               else Z.of_nat (next_in s) - Z.of_nat (next_out s)).
  assert (u32 room = room) as Hu.
  { destruct Hip as [Hsum _ Hord Hout]. unfold u32, room.
    destruct (Nat.eqb_spec (avail_in s) 0); apply Z.mod_small; lia. }
  destruct (deflate (z_state s) Z_FINISH (drop (next_in s) data) room) as [rv [[n out] st']] eqn:Hd.
  destruct (deflate_step_ok data out_len buf s rv n out st' room Hip Hlen eq_refl Hd)
    as (buf1 & Hstep & Hip1 & Htake & Hl1 & Hn & Hroom & Hfit).
  cbn [deflate_loop]. rewrite decide_True by done. fold room. rewrite Hu, Hstep.
  cbn [mbind outcome_bind].
  destruct (decide (rv = Z_OK)) as [->|Hrv].
  - destruct (IH buf1 (ZStream st' (next_in s + n) (avail_in s - n) (next_out s + length out)
                            (room - Z.of_nat (length out)))) as (rv & buf' & s' & out' & Hrun & Hf & Hne & Ht & Hl & Ha & Hb);
      [done|lia|done| |].
    { cbn [avail_in next_out]. destruct (deflate_progress _ _ _ _ _ _ _ Hd) as [|Hout]; [lia|].
      assert (0 < length out)%nat by (destruct out; [done|simpl; lia]). lia. }
    exists rv, buf', s', (out ++ out'). split_and!; [done| |done| |by rewrite Hl|done|done].
    + eapply feeds_more; [exact Hd|]. by rewrite drop_drop.
    + cbn [next_out] in Ht. by rewrite Ht, Htake, <-(assoc_L (++)).
  - exists rv, buf1, (ZStream st' (next_in s + n) (avail_in s - n) (next_out s + length out)
                            (room - Z.of_nat (length out))), out.
    split_and!; [|by eapply feeds_last|done|done|done|cbn; lia|cbn; lia].
    destruct fuel; cbn [deflate_loop]; by rewrite decide_False.
Qed.

(** C13: Compressing in place is safe and exact.  Whatever the compressor does within
    its documented behaviour, [deflate_inplace] never leaves its buffer and always
    ends; when it answers Z_OK the first [out_len] bytes are the output of a
    complete compression of the original data, although the output was written over
    the data while it was being read, and they fit in the given size. *)
Theorem deflate_inplace_correct st buf len out_len :
  (len ≤ length buf)%nat → Z.of_nat len ≤ out_len ≤ Z.of_nat (length buf) → out_len < 2 ^ 32 →
  ∃ rv buf' n, deflate_inplace st buf len out_len = Ret (rv, (buf', n)) ∧
    (rv = Z_OK → compresses st (take len buf) (take (Z.to_nat n) buf') ∧ 0 ≤ n ≤ out_len ∧
       length buf' = length buf) .
Proof.
  intros Hlb Hlen H32. unfold deflate_inplace. destruct (deflateInit st) as [rv0 st1] eqn:Hinit.
  case_bool_decide as H0; cbn [negb]; [subst rv0|exists rv0, buf, out_len; split; congruence].
  replace (Z.to_nat (u32 (Z.of_nat len))) with len by (unfold u32; rewrite Z.mod_small by lia; lia).
  destruct (deflate st1 Z_NO_FLUSH (take len buf) 1024) as [rv [[n temp] st2]] eqn:Hd.
  pose proof (deflate_consumed _ _ _ _ _ _ _ _ Hd) as Hn.
  pose proof (deflate_end_finish _ _ _ _ _ _ _ Hd) as Hend.
  rewrite length_take_le in Hn by done.
  case_decide as Herr; [exists rv, buf, out_len; split; congruence|].
  destruct (decide (rv = Z_OK)) as [->|Hrv].
  2:{ exists rv, buf, out_len. split; [|congruence]. cbn [deflate_loop].
      rewrite decide_False by done. cbn. by rewrite decide_False. }
  destruct (deflate_loop_ok (take len buf) out_len (S (len + Z.to_nat out_len)) buf
    (ZStream st2 n (len - n) 0 (1024 - Z.of_nat (length temp))))
    as (rv & buf' & s' & out & Hrun & Hf & Hne & Ht & Hl & Ha & Hb);
    [|rewrite length_take_le by done; lia|done|cbn; lia|].
  { split; cbn [next_in avail_in next_out]; [rewrite length_take_le; lia| |right; lia|lia].
    by rewrite skipn_firstn_comm. }
  rewrite Hrun. cbn [mbind outcome_bind]. cbn [next_out] in Ht. rewrite take_0 in Ht. cbn [app] in Ht.
  case_decide as Hse; [subst rv|exists rv, buf', out_len; split; congruence].
  destruct (Z.ltb_spec (avail_out s') (Z.of_nat (length temp))); [exists Z_BUF_ERROR, buf', out_len; split; congruence|].
  rewrite decide_True by lia.
  exists Z_OK, (temp ++ take (next_out s') buf' ++ drop (length temp + next_out s') buf'),
    (Z.of_nat (next_out s') + Z.of_nat (length temp)).
  split; [done|]. intros _. split_and!; [|lia|lia|].
  - exists st1, Z_OK, n, temp, st2, out. split_and!; [done|done| |done|done].
    rewrite Ht, (assoc_L (++)). apply take_app_length'. rewrite length_app, <-Ht, length_take. lia.
  - rewrite !length_app, length_take, length_drop. lia.
Qed.
End deflate_facts.

(** A compressor that drops zero bytes. *)
#[local] Instance demo_zlib : Zlib unit := {|
  deflateInit _ := (Z_OK, tt);
  deflate _ fl inp room :=
    let k := (length inp `min` Z.to_nat room)%nat in
    (match fl with
     | Z_FINISH => if Nat.eqb k (length inp) then Z_STREAM_END
                   else if Nat.eqb k 0 then Z_BUF_ERROR else Z_OK
     | Z_NO_FLUSH => if Nat.eqb k 0 then Z_BUF_ERROR else Z_OK
     end, (k, filter (λ b, b ≠ 0) (take k inp), tt));
|}.

#[local] Instance demo_zlib_laws : ZlibLaws unit.
Proof.
  split; intros; simpl in *; simplify_eq.
  - lia.
  - pose proof (length_filter (λ b : Z, b ≠ 0) (take (length inp `min` Z.to_nat room) inp)).
    rewrite length_take in *. lia.
  - left. destruct fl; repeat case_match; simplify_eq; lia || (repeat match goal with
      | H : Nat.eqb _ _ = false |- _ => apply Nat.eqb_neq in H end; lia).
  - by destruct (Nat.eqb _ _).
Qed.

Lemma deflate_inplace_correct_witness :
  ∃ rv buf' n, deflate_inplace (Z_ := unit) tt [5; 0; 0; 6; 0; 7; 9; 9] 6 8 = Ret (rv, (buf', n)) ∧
    (rv = Z_OK → compresses (Z_ := unit) tt [5; 0; 0; 6; 0; 7] (take (Z.to_nat n) buf') ∧ 0 ≤ n ≤ 8 ∧
       length buf' = 8%nat).
Proof. apply (deflate_inplace_correct (Z_ := unit) tt [5; 0; 0; 6; 0; 7; 9; 9] 6 8); simpl; lia. Defined.

(** ** The counter file *)

(** ** Small files *)

(** A string without its trailing white space. *)
Definition rstripped (s : bytes) : bytes := reverse (skip_space (reverse s)).

Lemma rstrip_loop_run s : ∀ rest,
  ∃ rest', rstrip_loop (length s) (s ++ NUL :: rest) = Ret (rstripped s ++ NUL :: rest') ∧
    (length (rstripped s) + length rest' = length s + length rest)%nat.
Proof.
  induction s as [|c s IH] using rev_ind; intros rest; [by exists rest|].
  rewrite length_app, Nat.add_1_r. cbn [rstrip_loop].
  rewrite <-(assoc_L (++)). cbn [app]. rewrite buf_get_app by done. cbn [mbind outcome_bind].
  unfold rstripped. rewrite reverse_snoc. cbn [skip_space]. destruct (isspace c).
  - rewrite buf_set_app by done. cbn [mbind outcome_bind].
    destruct (IH (NUL :: rest)) as (rest' & Hrun & Hl). exists rest'. split; [done|].
    unfold rstripped in Hl. cbn [length] in Hl. lia.
  - exists rest. rewrite reverse_cons, reverse_involutive, <-(assoc_L (++)). split; [done|].
    rewrite length_app. simpl. lia.
Qed.

Lemma rstrip_run arr s : cstr arr = Ret s →
  ∃ rest, rstrip arr = Ret (rstripped s ++ NUL :: rest) ∧ (length (rstripped s ++ NUL :: rest) = length arr)%nat.
Proof.
  intros Hs. unfold rstrip. rewrite Hs. destruct (cstr_Ret _ _ Hs) as (rest & -> & _).
  destruct (rstrip_loop_run s rest) as (rest' & Hrun & Hl). exists rest'. split; [exact Hrun|].
  rewrite !length_app. cbn [length]. lia.
Qed.

Lemma skip_space_suffix s : ∃ pre, s = pre ++ skip_space s.
Proof.
  induction s as [|c s [pre Hpre]]; [by exists []|]. simpl.
  destruct (isspace c); [exists (c :: pre); simpl; by f_equal|by exists []].
Qed.

Lemma rstripped_prefix s : ∃ post, s = rstripped s ++ post.
Proof.
  destruct (skip_space_suffix (reverse s)) as [pre Hpre]. exists (reverse pre).
  unfold rstripped. rewrite <-reverse_app, <-Hpre. by rewrite reverse_involutive.
Qed.

Lemma rstripped_Forall P s : Forall P s → Forall P (rstripped s).
Proof.
  intros Hs. destruct (rstripped_prefix s) as [post Hp]. rewrite Hp in Hs. by apply Forall_app in Hs as [? _].
Qed.

Section small_files.
Context `{!Os}.

(** What [read_file_as_string] reads for an array of [n] bytes. *)
Definition file_bytes (p : bytes) (n : nat) (w : world) : option bytes :=
  let c := default [] (files w !! p) in
  let r := read_result p (Z.min (Z.of_nat n - 1) (Z.of_nat (length c))) in
  if open_read p && (0 <=? r) then Some (take (Z.to_nat r) c) else None.

Lemma file_bytes_length p n w bs : (0 < n)%nat → (∀ f n, read_result f n ≤ n) →
  file_bytes p n w = Some bs → (length bs < n)%nat.
Proof.
  intros Hn Hread. unfold file_bytes.
  set (c := default [] (files w !! p)).
  pose proof (Hread p (Z.min (Z.of_nat n - 1) (Z.of_nat (length c)))) as Hr.
  destruct (_ && _); [|done]. intros [= <-]. rewrite length_take. lia.
Qed.

Lemma read_file_run p d w : (0 < length d)%nat → (∀ f n, read_result f n ≤ n) →
  ∃ rv arr w', read_file_as_string (Some p) (Some d) (Z.of_nat (length d)) w = Ret ((rv, Some arr), w') ∧
    files w' = files w ∧ length arr = length d ∧
    match file_bytes p (length d) w with
    | None => rv = -1
    | Some bs => rv = Z.of_nat (length bs) ∧ ∃ rest, arr = bs ++ NUL :: rest
    end.
Proof.
  intros Hn Hread. unfold read_file_as_string, file_bytes, read_bytes, content.
  destruct (open_read p); [|by eexists (-1), _, _].
  set (c := default [] (files w !! p)).
  set (r := read_result p (Z.min (Z.of_nat (length d) - 1) (Z.of_nat (length c)))).
  pose proof (Hread p (Z.min (Z.of_nat (length d) - 1) (Z.of_nat (length c)))) as Hr. fold r in Hr.
  rewrite (M_bind_eq _ _ _ (r, take (Z.to_nat r) c) w) by done. cbn [andb].
  destruct (Z.ltb_spec r 0), (Z.leb_spec 0 r); try lia; [by eexists (-1), _, _|].
  rewrite (M_bind_eq _ _ _ tt w) by done.
  assert (length (take (Z.to_nat r) c) = Z.to_nat r) as Hlen by (rewrite length_take; lia).
  rewrite decide_True by (rewrite Hlen; lia). rewrite M_bind_lift.
  destruct (drop (length (take (Z.to_nat r) c)) d) as [|x rest] eqn:Hd.
  { apply (f_equal length) in Hd. rewrite length_drop, Hlen in Hd. simpl in Hd. lia. }
  rewrite buf_set_app by (rewrite Hlen; lia). rewrite M_bind_lift. eexists r, _, _.
  split_and!; [done|done| |lia|by eexists].
  apply (f_equal length) in Hd. rewrite length_drop in Hd. rewrite length_app. cbn [length] in *. lia.
Qed.
End small_files.

Section counter.
Context `{!Os}.

(** The file can be opened, read and written in full. *)
Record usable (p : bytes) : Prop := {
  us_read : open_read p = true;
  us_write : open_write p = true;
  us_read_full : ∀ n, read_result p n = n;
  us_write_full : ∀ n, write_result p n = n;
}.

Lemma cstr_prefix a rest : Forall (λ b, b ≠ NUL) a →
  ∃ b, cstr (a ++ rest ++ [NUL]) = Ret (a ++ b) ∧ ∃ t, rest ++ [NUL] = b ++ NUL :: t.
Proof.
  intros Ha.
  assert (∃ b t, rest ++ [NUL] = b ++ NUL :: t ∧ Forall (λ b, b ≠ NUL) b) as (b & t & Hb & Hn).
  { clear Ha. induction rest as [|c rest IH]; [by exists [], []|].
    destruct (decide (c = NUL)) as [->|Hc]; [by exists [], (rest ++ [NUL])|].
    destruct IH as (b & t & Hb & Hn). exists (c :: b), t. split; [simpl; by rewrite Hb|by constructor]. }
  exists b. split; [|by exists t]. rewrite Hb, (assoc_L (++)). apply cstr_app, Forall_app. done.
Qed.

Lemma digits_nonul l : Forall is_digit l → Forall (λ b, b ≠ NUL) l.
Proof. intros Hl. eapply Forall_impl; [exact Hl|]. unfold is_digit, NUL. lia. Qed.

Lemma strtoull_dec n rest : 0 ≤ n < 2 ^ 64 → not_digit_first rest → strtoull (dec n ++ rest) = n.
Proof.
  intros Hn Hr. unfold strtoull. rewrite signed_digits_dec by lia. rewrite parse_digits_dec by (done || lia).
  destruct (Z.gtb_spec n ULLONG_MAX); [unfold ULLONG_MAX in *; lia|done].
Qed.

(** What the file holds after the counter has been written, and how it reads. *)
Definition counter_text (counter : Z) : bytes := dec counter ++ [10].

Lemma counter_write_run p counter w : usable p →
  write_file_as_uint64 p counter w =
  Ret (0, set_file p (counter_text counter ++ drop (length (counter_text counter)) (default [] (files w !! p))) w).
Proof.
  intros [Hr Hw Hrf Hwf]. unfold write_file_as_uint64, overwrite, content. fold (counter_text counter).
  rewrite Hw, Hwf, Nat2Z.id, firstn_all.
  unfold mbind, M_bind, gets, modify, mret, M_ret. by rewrite Z.ltb_irrefl.
Qed.

Lemma counter_read_run p counter rest w : usable p → 0 ≤ counter < 2 ^ 64 →
  files w !! p = Some (counter_text counter ++ rest) → read_file_as_uint64 p w = Ret (counter, w).
Proof.
  intros [Hr Hw Hrf Hwf] Hc Hfile. set (d := counter_text counter) in *.
  assert (0 < length d ≤ 21)%nat as Hd.
  { unfold d, counter_text. rewrite length_app. simpl. pose proof (dec_length counter 20). lia. }
  unfold read_file_as_uint64, read_bytes, content. rewrite Hr.
  unfold mbind, M_bind, gets, modify, mret, M_ret, lift. rewrite Hfile. cbn [from_option id]. rewrite Hrf.
  set (n := Z.min (64 - 1) (Z.of_nat (length (d ++ rest)))).
  assert (Z.of_nat (length d) ≤ n) as Hn by (unfold n; rewrite length_app; lia).
  destruct (Z.ltb_spec n 0); [lia|]. destruct (Z.gtb_spec n 0); [|lia].
  rewrite take_app_ge by lia. rewrite <-(assoc_L (++)).
  destruct (dec_digits counter) as (_ & Hdig & _); [lia|].
  destruct (cstr_prefix (dec counter) ([10] ++ take (Z.to_nat n - length d) rest))
    as (b & Hb & t & Ht); [by apply digits_nonul|].
  rewrite <-(assoc_L (++)), (assoc_L (++)) in Hb. fold (counter_text counter) d in Hb. rewrite Hb. cbn [mbind outcome_bind].
  rewrite strtoull_dec; [done|done|]. intros c l' ->. simplify_eq/=. lia.
Qed.

(** The counter survives.  On a file that can be read and written in full,
    reading back the counter gives the value that was written last, whatever the
    file held before: although the file is not truncated, the newline after the
    number hides the rest of a longer old one. *)
Theorem counter_roundtrip p counter w :
  usable p → 0 ≤ counter < 2 ^ 64 →
  ∃ w', write_file_as_uint64 p counter w = Ret (0, w') ∧ read_file_as_uint64 p w' = Ret (counter, w').
Proof.
  intros Hp Hc. eexists. split; [by apply counter_write_run|].
  eapply counter_read_run; [done|done|]. cbn [files set_file]. by rewrite lookup_insert_eq.
Qed.
End counter.

#[local] Instance demo_os : Os :=
  {| open_read _ := true; open_write _ := true; read_result _ n := n; write_result _ n := n;
     path_access _ := true |}.

Lemma counter_roundtrip_witness :
  ∃ w', write_file_as_uint64 (lit "/tmp/c") 77 {| files := {[ lit "/tmp/c" := lit "1234567" ++ [10] ]}; errors := [] |}
    = Ret (0, w') ∧ read_file_as_uint64 (lit "/tmp/c") w' = Ret (77, w').
Proof. apply counter_roundtrip; [done|lia]. Defined.

(** ** Log lines *)

Lemma strchr_app pre a c rest :
  Forall (λ x, x ≠ c ∧ x ≠ NUL) a →
  strchr (pre ++ a ++ c :: rest) (length pre) c = Ret (Some (length pre + length a)%nat).
Proof.
  intros Ha. induction pre as [|x pre IH]; simpl; [|by rewrite IH].
  induction Ha as [|x a [Hx Hn] _ IH]; simpl; [by rewrite Z.eqb_refl|].
  destruct (Z.eqb_spec x c), (Z.eqb_spec x NUL); [done..|]. by rewrite IH.
Qed.

(** A line of the kernel log: level, sequence number and time, other fields up to a
    semicolon, the text, a newline. *)
Definition kernel_line (lvl seq ts : Z) (extra txt : bytes) : bytes :=
  dec lvl ++ 44 :: dec seq ++ 44 :: dec ts ++ extra ++ 59 :: txt ++ [10].

Definition text_at (lvl seq ts : Z) (extra : bytes) : nat :=
  length (dec lvl ++ 44 :: dec seq ++ 44 :: dec ts ++ extra ++ [59]).

Lemma digits_not l c : Forall is_digit l → ¬ is_digit c → Forall (λ x, x ≠ c ∧ x ≠ NUL) l.
Proof.
  intros Hl Hc. eapply Forall_impl; [exact Hl|]. intros x Hx. split; [by intros ->|].
  unfold is_digit, NUL in *. lia.
Qed.

Lemma not_digit_cons c l : ¬ is_digit c → not_digit_first (c :: l).
Proof. intros Hc c' l' [= <- <-]. unfold is_digit in Hc. lia. Qed.

Lemma parse_line_run lvl seq ts extra txt x rest :
  0 ≤ lvl < 2 ^ 31 → 0 ≤ seq < 2 ^ 64 → 0 ≤ ts < 2 ^ 64 →
  Forall (λ c, c ≠ 59 ∧ c ≠ NUL) extra → not_digit_first extra →
  Forall (λ c, c ≠ 10 ∧ c ≠ NUL) txt →
  ∃ line', parse_line_data (kernel_line lvl seq ts extra txt ++ x :: rest) =
    Ret (Some ({| level := lvl; seq_no := seq; ts_nsec := ts; text := text_at lvl seq ts extra |}, line')) ∧
    line' = kernel_line lvl seq ts extra txt ++ NUL :: rest ∧
    str_at line' (text_at lvl seq ts extra) = Ret (txt ++ [10]).
Proof.
  intros Hl Hs Ht He Hd Htxt.
  exists (kernel_line lvl seq ts extra txt ++ NUL :: rest).
  destruct (dec_digits lvl) as (_ & Dl & _); [lia|].
  destruct (dec_digits seq) as (_ & Ds & _); [lia|].
  destruct (dec_digits ts) as (_ & Dt & _); [lia|].
  assert (¬ is_digit 44 ∧ ¬ is_digit 59 ∧ ¬ is_digit 10) as (N44 & N59 & N10) by (unfold is_digit; lia).
  assert (∀ y, kernel_line lvl seq ts extra txt ++ y :: rest =
    dec lvl ++ 44 :: dec seq ++ 44 :: dec ts ++ extra ++ 59 :: txt ++ 10 :: y :: rest) as Hline
    by (intros; unfold kernel_line; apps).
  split_and!; [|done|].
  - unfold parse_line_data. rewrite Hline.
    change (strchr ?l 0 44) with (strchr ([] ++ l) (length (@nil Z)) 44).
    rewrite strchr_app by (by apply digits_not). cbn [length Nat.add mbind outcome_bind].
    set (l1 := dec lvl ++ [44]).
    assert (length (dec lvl) + 1 = length l1)%nat as E1 by (unfold l1; by rewrite length_app).
    replace (dec lvl ++ 44 :: dec seq ++ 44 :: dec ts ++ extra ++ 59 :: txt ++ 10 :: x :: rest)
      with (l1 ++ dec seq ++ 44 :: dec ts ++ extra ++ 59 :: txt ++ 10 :: x :: rest) by (unfold l1; apps).
    rewrite E1, strchr_app by (by apply digits_not). cbn [mbind outcome_bind].
    set (l2 := l1 ++ dec seq ++ [44]).
    assert (length l1 + length (dec seq) + 1 = length l2)%nat as E2
      by (unfold l2; rewrite !length_app; simpl; lia).
    replace (l1 ++ dec seq ++ 44 :: dec ts ++ extra ++ 59 :: txt ++ 10 :: x :: rest)
      with (l2 ++ (dec ts ++ extra) ++ 59 :: txt ++ 10 :: x :: rest) by (unfold l2; apps).
    rewrite E2, strchr_app by (apply Forall_app; split; [by apply digits_not|done]). cbn [mbind outcome_bind].
    set (l3 := l2 ++ dec ts ++ extra).
    replace (length l2 + length (dec ts ++ extra))%nat with (length l3) by (unfold l3; by rewrite length_app).
    replace (l2 ++ (dec ts ++ extra) ++ 59 :: txt ++ 10 :: x :: rest)
      with (l3 ++ (59 :: txt) ++ 10 :: x :: rest) by (unfold l3; apps).
    rewrite strchr_app by (by constructor). cbn [mbind outcome_bind].
    replace (atoi (l3 ++ (59 :: txt) ++ 10 :: x :: rest)) with (Ret lvl).
    2:{ unfold atoi, l3, l2, l1. rewrite <-!(assoc_L (++)), parse_int_dec by (done || lia || by apply not_digit_cons).
        unfold int_within. destruct (Z.leb_spec (- 2 ^ (32 - 1)) lvl), (Z.ltb_spec lvl (2 ^ (32 - 1))); simpl; done || lia. }
    cbn [mbind outcome_bind].
    set (l4 := l3 ++ (59 :: txt) ++ [10]).
    replace (l3 ++ (59 :: txt) ++ 10 :: x :: rest) with (l4 ++ x :: rest) by (unfold l4; apps).
    rewrite buf_set_app by (unfold l4; rewrite !length_app; simpl; lia). cbn [mbind outcome_bind].
    do 2 f_equal. f_equal; [|unfold l4, l3, l2, l1, kernel_line; apps]. f_equal.
    + unfold u32. rewrite Z.mod_small by lia. done.
    + unfold l4, l3. rewrite <-!(assoc_L (++)), drop_app_length. apply strtoull_dec; [done|].
      destruct extra as [|c extra]; [by apply not_digit_cons|]. intros c' l' [= <- _]. by apply (Hd c extra).
    + unfold l4, l3, l2. rewrite <-!(assoc_L (++)), drop_app_length. by apply strtoull_dec, not_digit_cons.
    + unfold text_at, l3, l2, l1. rewrite !length_app. simpl. rewrite !length_app. simpl. rewrite !length_app. simpl. lia.
  - rewrite Hline. unfold str_at, text_at.
    replace (dec lvl ++ 44 :: dec seq ++ 44 :: dec ts ++ extra ++ 59 :: txt ++ 10 :: NUL :: rest)
      with ((dec lvl ++ 44 :: dec seq ++ 44 :: dec ts ++ extra ++ [59]) ++ (txt ++ [10]) ++ NUL :: rest) by apps.
    rewrite drop_app_length. apply cstr_app. apply Forall_app. split; [|by repeat constructor].
    eapply Forall_impl; [exact Htxt|]. by intros ? [].
Qed.

(** A line of the kernel log is taken apart exactly.  For every level, sequence
    number and time, whatever the other fields and the text hold and whatever follows
    the newline in the buffer, [parse_line_data] returns the three numbers, the place
    of the text, and the line cut after its newline, so that the text it points to
    is a string. *)
Theorem parse_line_fields lvl seq ts extra txt x rest :
  0 ≤ lvl < 2 ^ 31 → 0 ≤ seq < 2 ^ 64 → 0 ≤ ts < 2 ^ 64 →
  Forall (λ c, c ≠ 59 ∧ c ≠ NUL) extra → not_digit_first extra →
  Forall (λ c, c ≠ 10 ∧ c ≠ NUL) txt →
  ∃ line', parse_line_data (kernel_line lvl seq ts extra txt ++ x :: rest) =
    Ret (Some ({| level := lvl; seq_no := seq; ts_nsec := ts; text := text_at lvl seq ts extra |}, line')) ∧
    line' = kernel_line lvl seq ts extra txt ++ NUL :: rest ∧
    str_at line' (text_at lvl seq ts extra) = Ret (txt ++ [10]).
Proof. apply parse_line_run. Qed.

Lemma parse_line_fields_witness :
  ∃ line', parse_line_data (kernel_line 6 12 345 (lit ",-") (lit "hello") ++ 7 :: [7; 7]) =
    Ret (Some ({| level := 6; seq_no := 12; ts_nsec := 345; text := text_at 6 12 345 (lit ",-") |}, line')) ∧
    line' = kernel_line 6 12 345 (lit ",-") (lit "hello") ++ NUL :: [7; 7] ∧
    str_at line' (text_at 6 12 345 (lit ",-")) = Ret (lit "hello" ++ [10]).
Proof.
  apply (parse_line_fields 6 12 345 (lit ",-") (lit "hello") 7 [7; 7]); [lia..| | |].
  - by apply (bool_decide_unpack _); vm_compute.
  - intros c l' [= <- _]. simpl. lia.
  - by apply (bool_decide_unpack _); vm_compute.
Defined.
