(* ===== verification/LogUploader.v ===== *)
(** * The log uploader's reader: logupload/client/log_uploader.c

    Lines of the kernel log are read one at a time, MAC addresses in them are
    replaced by short identifiers, entries already uploaded are skipped, missing
    ones are noted, and the rest is collected in one buffer. *)

From S2P Require Import Prelude LogUtils.
From stdpp Require Import gmap.
Open Scope Z_scope.

(** ** Identifiers for MAC addresses *)

Definition SOFT : bytes := lit "AEIOUYV".
Definition HARD : bytes := lit "BCDFGHJKLMNPQRSTVWXYZAEIOU".
Definition CONSENSUS_KEY_LEN : nat := 16.
Definition consensus_key_file : bytes := lit "/tmp/waveguide/consensus_key".
Definition MAC_ADDR_LEN : Z := 17.

(** HMAC-MD5 of the cryptographic library: its 16-byte digest. *)
Class Hmac := hmac_md5 : bytes → bytes → bytes.
Class HmacLaws `{!Hmac} := {
  hmac_length k d : length (hmac_md5 k d) = 16%nat;
  hmac_bytes k d : all_bytes (hmac_md5 k d);
}.

(** [trigraph(num, out)]: the three characters. *)
Definition trigraph (num : Z) : outcome bytes :=
  let ns := Z.of_nat (length SOFT) in
  let nh := Z.of_nat (length HARD) in
  let c3 := Z.rem num nh in
  let c2 := Z.rem (Z.quot num nh) ns in
  let c1 := Z.quot (Z.quot num nh) ns in
  a ← buf_get (HARD ++ [NUL]) c1;
  b ← buf_get (SOFT ++ [NUL]) c2;
  c ← buf_get (HARD ++ [NUL]) c3;
  Ret [a; b; c].

Definition hex_chr_to_int (hex : Z) : Z :=
  if (48 <=? hex) && (hex <=? 57) then hex - 48
  else if (97 <=? hex) && (hex <=? 102) then hex - 97 + 10
  else if (65 <=? hex) && (hex <=? 70) then hex - 65 + 10
  else 0.

(** [get_binary_mac]: [i] goes over 0, 3, ..., 15. *)
Fixpoint binary_mac_loop (n : nat) (mac : bytes) (i : Z) : outcome bytes :=
  match n with
  | O => Ret []
  | S n =>
      a ← buf_get mac i;
      b ← buf_get mac (i + 1);
      out ← binary_mac_loop n mac (i + 3);
      Ret (u8 (Z.lor (Z.shiftl (hex_chr_to_int a) 4) (hex_chr_to_int b)) :: out)
  end.
Definition get_binary_mac (mac : bytes) : outcome bytes := binary_mac_loop 6 mac 0.

Definition isxdigit (c : Z) : bool :=
  ((48 <=? c) && (c <=? 57)) || ((97 <=? c) && (c <=? 102)) || ((65 <=? c) && (c <=? 70)).

(** The tests of [is_mac_addr] in their order: indices of the separator, then of the
    hexadecimal digits. *)
Fixpoint all_at (p : Z → bool) (s : bytes) (ix : list Z) : outcome bool :=
  match ix with
  | [] => Ret true
  | i :: ix => c ← buf_get s i; if p c then all_at p s ix else Ret false
  end.
Definition mac_seps : list Z := [2; 5; 8; 11; 14].
Definition mac_digits : list Z := [0; 1; 3; 4; 6; 7; 9; 10; 12; 13; 15; 16].
Definition is_mac_addr (s : bytes) (sep : Z) : outcome bool :=
  r ← all_at (λ c, c =? sep) s mac_seps;
  if r : bool then all_at isxdigit s mac_digits else Ret false.

(** ** The consensus key *)

(** What [stat] answers for the key file: its result and two fields of the
    structure (whatever is there when it fails). *)
Class KeyStat := { key_stat : Z; key_ino : Z; key_mtime : Z }.
(** The random bytes the system has, the time, and the clock's fields at the [n]th
    reading. *)
Class Wall := {
  urandom : bytes;
  time_now : Z;
  wall_sec : nat → Z;
  wall_nsec : nat → Z;
  wall_tm : nat → Z * Z * Z * Z * Z;       (* month from 0, day, hour, minute, second *)
}.

(** The state of the program. *)
Record uploader := {
  u_world : world;
  u_key : bytes;             (* consensus_key *)
  u_ino : Z;                 (* static variables of get_consensus_key *)
  u_mtime : Z;
  u_ticks : nat;             (* readings of the clock *)
  u_log : bytes;             (* log_buffer *)
  u_total : Z;               (* total_read *)
  u_counter : Z;             (* last_log_counter *)
  u_line : bytes;            (* line_buffer *)
  u_valid : bool;            (* last_line_valid *)
}.
Abbreviation U := (M uploader).
Definition up_world x s := {| u_world := x; u_key := u_key s; u_ino := u_ino s; u_mtime := u_mtime s;
  u_ticks := u_ticks s; u_log := u_log s; u_total := u_total s; u_counter := u_counter s;
  u_line := u_line s; u_valid := u_valid s |}.
Definition up_key k i m s := {| u_world := u_world s; u_key := k; u_ino := i; u_mtime := m;
  u_ticks := u_ticks s; u_log := u_log s; u_total := u_total s; u_counter := u_counter s;
  u_line := u_line s; u_valid := u_valid s |}.
Definition up_tick s := {| u_world := u_world s; u_key := u_key s; u_ino := u_ino s; u_mtime := u_mtime s;
  u_ticks := S (u_ticks s); u_log := u_log s; u_total := u_total s; u_counter := u_counter s;
  u_line := u_line s; u_valid := u_valid s |}.
Definition up_log l t s := {| u_world := u_world s; u_key := u_key s; u_ino := u_ino s; u_mtime := u_mtime s;
  u_ticks := u_ticks s; u_log := l; u_total := t; u_counter := u_counter s;
  u_line := u_line s; u_valid := u_valid s |}.
Definition up_counter c s := {| u_world := u_world s; u_key := u_key s; u_ino := u_ino s; u_mtime := u_mtime s;
  u_ticks := u_ticks s; u_log := u_log s; u_total := u_total s; u_counter := c;
  u_line := u_line s; u_valid := u_valid s |}.
Definition up_line l v s := {| u_world := u_world s; u_key := u_key s; u_ino := u_ino s; u_mtime := u_mtime s;
  u_ticks := u_ticks s; u_log := u_log s; u_total := u_total s; u_counter := u_counter s;
  u_line := l; u_valid := v |}.

(** A call of a function of utils.c *)
Definition on_world {A} (m : W A) : U A := fun s =>
  '(a, w) ← m (u_world s); Ret (a, up_world w s).

(** [strstr(s, pat) != NULL] *)
Fixpoint strstr (s pat : bytes) : bool :=
  bool_decide (take (length pat) s = pat) || match s with [] => false | _ :: s => strstr s pat end.

Definition LOG_MARKER_START : bytes := lit "*LOG_UPLOAD_START*".
Definition LOG_MARKER_END : bytes := lit "*LOG_UPLOAD_END*".
Definition LOG_MARKER_START_LINE : bytes := lit "<7>*LOG_UPLOAD_START*" ++ [10].
Definition LOG_MARKER_END_LINE : bytes := lit "<7>*LOG_UPLOAD_END*" ++ [10].

Section uploader.
Context `{!CPlatform, !Os, !Hmac, !KeyStat, !Wall}.

Definition default_consensus_key : U unit :=
  if open_read (lit "/dev/urandom") then
    modify (λ s, let k := if bool_decide (length urandom = CONSENSUS_KEY_LEN) then urandom
                          else replicate CONSENSUS_KEY_LEN (u8 time_now) in
                 up_key k (u_ino s) (u_mtime s) s)
  else mret tt.

(** The result of [stat] is tested the wrong way round: the cached values are only
    looked at when it fails. *)
Definition get_consensus_key : U unit :=
  ino ← gets u_ino;
  mtime ← gets u_mtime;
  if negb (key_stat =? 0) && ((key_ino =? ino) && (key_mtime =? mtime)) then mret tt
  else if open_read consensus_key_file then
    '(n, bs) ← on_world (read_bytes consensus_key_file (Z.of_nat CONSENSUS_KEY_LEN));
    if n =? Z.of_nat CONSENSUS_KEY_LEN then modify (up_key bs key_ino key_mtime) else mret tt
  else mret tt.

Definition get_anonid_for_mac (mac : bytes) : U bytes :=
  get_consensus_key;;
  macbin ← lift (get_binary_mac mac);
  k ← gets u_key;
  let digest := hmac_md5 k macbin in
  d0 ← lift (buf_get digest 0);
  d1 ← lift (buf_get digest 1);
  d2 ← lift (buf_get digest 2);
  let num := u32 (Z.lor (Z.lor (Z.shiftl d0 16) (Z.shiftl d1 8)) d2) in
  a ← lift (trigraph (Z.land (Z.shiftr num 12) 0x0fff));
  b ← lift (trigraph (Z.land num 0x0fff));
  mret (a ++ b).

(** [anonymize_mac_address(s, len)] where [s] is index [i] of the array: the new
    array and the bytes saved. *)
Definition anonymize_mac_address (line : bytes) (i len : Z) : U (bytes * Z) :=
  anonid ← get_anonid_for_mac (drop (Z.to_nat i) line);
  let offset := MAC_ADDR_LEN - 6 in
  line ← lift (if decide (0 ≤ i ∧ i + 6 ≤ Z.of_nat (length line))
               then Ret (take (Z.to_nat i) line ++ anonid ++ drop (Z.to_nat i + 6) line) else Ub);
  let s := Z.to_nat (i + 6) in
  let n := Z.to_nat (len - offset) in
  let from := (s + Z.to_nat offset)%nat in
  line ← lift (if decide (from + n ≤ length line)%nat
               then Ret (take s line ++ take n (drop from line) ++ drop (s + n) line) else Ub);
  mret (line, offset).

(** The loop of [suppress_mac_addresses]; [fuel] bounds [len]. *)
Fixpoint suppress_loop (fuel : nat) (line : bytes) (i len new_len : Z) : U (bytes * Z) :=
  match fuel with
  | O => fun _ => OutOfFuel
  | S fuel =>
      if MAC_ADDR_LEN <=? len then
        let s := drop (Z.to_nat i) line in
        c ← lift (is_mac_addr s 58);
        d ← lift (if c : bool then Ret true else is_mac_addr s 45);
        e ← lift (if d : bool then Ret true else is_mac_addr s 95);
        if e : bool then
          '(line, reduce) ← anonymize_mac_address line i len;
          suppress_loop fuel line i (len - reduce) (new_len - reduce)
        else suppress_loop fuel line (i + 1) (len - 1) new_len
      else mret (line, new_len)
  end.
Definition suppress_mac_addresses (line : bytes) (len : Z) : U (bytes * Z) :=
  suppress_loop (S (Z.to_nat len)) line 0 len len.

(** [logmark_once]: 0 or -1 *)
Definition logmark_text (version : bytes) (k : nat) (ntp : Z) : bytes :=
  let '(mon, mday, hour, min, sec) := wall_tm k in
  lit "<7>T: " ++ version ++ lit " " ++ dec (s32 (wall_sec k)) ++ lit "." ++
  dec0 3 (s32 (Z.quot (wall_nsec k) 1000000)) ++ lit " " ++ dec0 2 (mon + 1) ++ lit "/" ++ dec0 2 mday ++
  lit " " ++ dec0 2 hour ++ lit ":" ++ dec0 2 min ++ lit ":" ++ dec0 2 sec ++
  lit " ntp=" ++ dec ntp ++ [10].

Definition logmark_once (output_path version_path ntp_sync_path : bytes) : U Z :=
  '(n, version) ← on_world (read_file_as_string (Some version_path) (Some (replicate 64 0)) 64);
  let version := if n <? 0 then lit "unknown-version" ++ [NUL] else default [] version in
  version ← lift (rstrip version);
  version ← lift (cstr version);
  k ← gets u_ticks;
  modify up_tick;;
  let buf := take 1023 (logmark_text version k (path_exists ntp_sync_path)) in
  rv ← on_world (write_to_file output_path buf);
  if rv <? 0 then on_world (perror output_path);; mret (-1) else mret 0.

(** ** Collecting the log *)

(** What a call of [read_log_data] does: a line, or an error. *)
Inductive kmsg_event := KData (line : bytes) | KAgain | KPipe | KInval | KError.

(** The parameters that do not change. *)
Record log_params := {
  dev_kmsg_path : bytes;
  version_path : bytes;
  ntp_synced_path : bytes;
  line_buffer_size : Z;
  log_buffer_size : Z;       (* total_read on entry *)
  upload_all : bool;
}.

(** The local variables of the loop; the markers are offsets into the log buffer. *)
Record scan := Scan {
  wrote_start_marker : bool;
  last_start_marker : option Z;
  last_start_before_end_marker : option Z;
}.

(** What an iteration does: [continue], [break], or [return NULL]. *)
Inductive control := Continue (l : scan) | Stop (l : scan) | Fail.

(** [snprintf] at the end of the log. *)
Definition log_printf (p : log_params) (txt : bytes) : U unit :=
  log ← gets u_log;
  total ← gets u_total;
  '(n, log) ← lift (snprintf_at log total (ulong (log_buffer_size p - total)) txt);
  modify (up_log log (ulong (total + n))).

Definition missed_text (time_sec time_usec missed : Z) : bytes :=
  lit "<7>[" ++ pad 5 32 (dec time_sec) ++ lit "." ++ dec0 6 time_usec ++ lit "] WARNING: missed " ++
  dec missed ++ lit " log entries" ++ [10].

Definition entry_text (lvl time_sec time_usec : Z) (txt : bytes) : bytes :=
  lit "<" ++ dec lvl ++ lit ">[" ++ pad 5 32 (dec time_sec) ++ lit "." ++ dec0 6 time_usec ++ lit "] " ++ txt.

(** The part of an iteration that has a parsed line. *)
Definition consume_entry (p : log_params) (check_for_markers : bool) (l : scan) (pl : line_data)
    (txt : bytes) : U control :=
  let time_sec := s32 (ts_nsec pl / 1000000) in
  let time_usec := s32 (ts_nsec pl mod 1000000) in
  counter ← gets u_counter;
  skip ← (if counter >? 0 then
            if seq_no pl >? u64 (counter + 1) then
              log_printf p (missed_text time_sec time_usec (u64 (seq_no pl - counter - 1)));;
              mret false
            else mret (negb (upload_all p) && (seq_no pl <=? counter))
          else mret false);
  if skip : bool then mret (Continue l)
  else
    total ← gets u_total;
    let l :=
      if check_for_markers then
        if strstr txt LOG_MARKER_END && bool_decide (is_Some (last_start_marker l)) then
          Scan (wrote_start_marker l) None (last_start_marker l)
        else if strstr txt LOG_MARKER_START then
          Scan (wrote_start_marker l) (Some total) (last_start_before_end_marker l)
        else l
      else l in
    log_printf p (entry_text (s32 (level pl)) time_sec time_usec txt);;
    modify (up_counter (seq_no pl));;
    mret (Continue l).

(** From the suppression of addresses on; [num_read] bytes of the line are new. *)
Definition consume_line (p : log_params) (check_for_markers : bool) (l : scan) (num_read : Z) : U control :=
  line ← gets u_line;
  '(line, num_read) ← suppress_mac_addresses line num_read;
  modify (up_line line false);;
  r ← lift (parse_line_data line);
  match r with
  | None =>
      log ← gets u_log;
      total ← gets u_total;
      log ← lift (if decide (0 ≤ num_read ≤ Z.of_nat (length line) ∧ 0 ≤ total ∧
                             total + num_read ≤ Z.of_nat (length log))
                  then Ret (take (Z.to_nat total) log ++ take (Z.to_nat num_read) line ++
                            drop (Z.to_nat (total + num_read)) log)
                  else Ub);
      modify (up_log log (ulong (total + num_read)));;
      mret (Continue l)
  | Some (pl, line) =>
      modify (up_line line false);;
      txt ← lift (str_at line (text pl));
      if wrote_start_marker l && strstr txt LOG_MARKER_START then
        modify (up_line line true);; mret (Stop l)
      else consume_entry p check_for_markers l pl txt
  end.

(** What happens after a call of [read_log_data]. *)
Definition consume_event (p : log_params) (check_for_markers : bool) (l : scan) (ev : kmsg_event)
    : U control :=
  match ev with
  | KData bs =>
      line ← gets u_line;
      line ← lift (if decide (Z.of_nat (length bs) ≤ Z.of_nat (length line))
                   then Ret (bs ++ drop (length bs) line) else Ub);
      modify (up_line line false);;
      consume_line p check_for_markers l (Z.of_nat (length bs))
  | KAgain =>
      if wrote_start_marker l then mret (Stop l)
      else
        r ← on_world (write_to_file (dev_kmsg_path p) LOG_MARKER_START_LINE);
        if r <? 0 then on_world (perror (lit "start marker"));; mret Fail
        else
          r ← logmark_once (dev_kmsg_path p) (version_path p) (ntp_synced_path p);
          if r <? 0 then on_world (perror (lit "failed to execute logmark-once properly"));; mret Fail
          else mret (Continue (Scan true (last_start_marker l) (last_start_before_end_marker l)))
  | KPipe => mret (Continue l)
  | KInval =>
      on_world (perror (lit "kernel memory possibly corrupted, devkmsg_read"));; mret (Continue l)
  | KError => on_world (perror (lit "/dev/kmsg"));; mret Fail
  end.

(** The loop: [None] when the events end before it does. *)
Fixpoint consume_loop (p : log_params) (check_for_markers : bool) (l : scan) (evs : list kmsg_event)
    : U (option control) :=
  total ← gets u_total;
  if log_buffer_size p <=? ulong (total + 2 * line_buffer_size p) then mret (Some (Stop l))
  else
    match evs with
    | [] => mret None
    | ev :: evs =>
        r ← consume_event p check_for_markers l ev;
        match r with
        | Continue l => consume_loop p check_for_markers l evs
        | r => mret (Some r)
        end
    end.

(** [parse_and_consume_log_data]: the offset of the result in the log buffer, or NULL;
    [None] when the events end first.  An iteration that finds [last_line_valid] set
    reads no event; it can only be the first one. *)
Definition parse_and_consume_log_data (p : log_params) (evs : list kmsg_event)
    : U (option (option Z)) :=
  counter ← gets u_counter;
  let check_for_markers := counter =? 0 in
  let l := Scan false None None in
  log ← gets u_log;
  modify (up_log log 0);;
  valid ← gets u_valid;
  line ← gets u_line;
  r ← (if valid && negb (log_buffer_size p <=? ulong (2 * line_buffer_size p)) then
         modify (up_line line false);;
         r ← consume_line p check_for_markers l 0;
         match r with
         | Continue l => consume_loop p check_for_markers l evs
         | r => mret (Some r)
         end
       else consume_loop p check_for_markers l evs);
  match r with
  | None | Some (Continue _) => mret None
  | Some Fail => mret (Some None)
  | Some (Stop l) =>
      log ← gets u_log;
      total ← gets u_total;
      log ← lift (buf_set log total NUL);
      modify (up_log log total);;
      match last_start_before_end_marker l with
      | Some m => if check_for_markers then modify (up_log log (total - m));; mret (Some (Some m))
                  else mret (Some (Some 0))
      | None => mret (Some (Some 0))
      end
  end.
End uploader.

(** What two hexadecimal digits must satisfy. *)
Definition digits_of (b : Z) : bool :=
  match hex02 b with
  | [x; y] => isxdigit x && isxdigit y && (u8 (Z.lor (Z.shiftl (hex_chr_to_int x) 4) (hex_chr_to_int y)) =? b)
  | _ => false
  end.
Lemma hex02_byte b : is_byte b → ∃ x y, hex02 b = [x; y] ∧ isxdigit x = true ∧ isxdigit y = true ∧
  u8 (Z.lor (Z.shiftl (hex_chr_to_int x) 4) (hex_chr_to_int y)) = b.
Proof.
  intros Hb. assert (digits_of b = true) as Hd by (apply byte_all; [vm_compute; reflexivity|done]). unfold digits_of in Hd.
  destruct (hex02 b) as [|x [|y [|]]]; try done.
  apply andb_prop in Hd as [[Hx Hy]%andb_prop Hv%Z.eqb_eq]. by exists x, y.
Qed.
