(* ===== verification/LogUploaderMac.v ===== *)
(** * MAC addresses in log lines: what suppress_mac_addresses guarantees

    The identifiers are distinct, the text that is kept contains no address, and
    the move that closes the gap reads past the end of the line. *)

From S2P Require Import Prelude LogUtils LogUploader.
From stdpp Require Import gmap.
Open Scope Z_scope.

(** ** Identifiers *)

Definition upper (c : Z) : Prop := 65 ≤ c ≤ 90.

(** The place of a character in a string, and the number a trigraph encodes. *)
Fixpoint place (s : bytes) (c : Z) : Z :=
  match s with [] => 0 | x :: s => if x =? c then 0 else 1 + place s c end.
Definition untrigraph (t : bytes) : Z :=
  match t with [a; b; c] => (place HARD a * 7 + place SOFT b) * 26 + place HARD c | _ => -1 end.

Definition trigraph_ok (n : nat) : bool :=
  match trigraph (Z.of_nat n) with
  | Ret t => (untrigraph t =? Z.of_nat n) && Nat.eqb (length t) 3 &&
             forallb (λ c, (65 <=? c) && (c <=? 90)) t
  | _ => false
  end.

Lemma trigraph_all_ok : forallb trigraph_ok (seq 0 4096) = true.
Proof. vm_compute. reflexivity. Qed.

Lemma trigraph_run n : 0 ≤ n < 4096 →
  ∃ t, trigraph n = Ret t ∧ length t = 3%nat ∧ Forall upper t ∧ untrigraph t = n.
Proof.
  intros Hn. pose proof (proj1 (forallb_forall _ _) trigraph_all_ok (Z.to_nat n)) as H.
  assert (trigraph_ok (Z.to_nat n) = true) as Hok by (apply H, in_seq; lia). clear H.
  unfold trigraph_ok in Hok. rewrite Z2Nat.id in Hok by lia.
  destruct (trigraph n) as [t| |]; [|done..]. exists t.
  apply andb_prop in Hok as [[H1 H2]%andb_prop H3].
  split_and!; [done|by apply Nat.eqb_eq|  |by apply Z.eqb_eq].
  apply Forall_forall. intros c Hc. rewrite forallb_forall in H3.
  specialize (H3 c (proj1 (list_elem_of_In _ _) Hc)). unfold upper. lia.
Qed.

(** Identifiers do not collide.  Every number below 4096 has a trigraph of three
    capital letters, and different numbers have different trigraphs. *)
Theorem trigraph_injective m n :
  0 ≤ m < 4096 → 0 ≤ n < 4096 →
  ∃ t, trigraph m = Ret t ∧ length t = 3%nat ∧ Forall upper t ∧ (trigraph n = Ret t → m = n).
Proof.
  intros Hm Hn. destruct (trigraph_run m Hm) as (t & Ht & Hl & Hu & Hv).
  exists t. split_and!; [done..|]. intros Ht'.
  destruct (trigraph_run n Hn) as (t' & Ht'' & _ & _ & Hv'). congruence.
Qed.

Lemma trigraph_injective_witness :
  ∃ t, trigraph 300 = Ret t ∧ length t = 3%nat ∧ Forall upper t ∧ (trigraph 301 = Ret t → 300 = 301).
Proof. apply (trigraph_injective 300 301); lia. Defined.

(** ** Addresses in a text *)

Definition macs (sep : Z) (l : bytes) : bool :=
  forallb (λ i, nth (Z.to_nat i) l 0 =? sep) mac_seps &&
  forallb (λ i, isxdigit (nth (Z.to_nat i) l 0)) mac_digits.

(** A text that starts with an address. *)
Definition mac (l : bytes) : bool :=
  (17 <=? length l)%nat && (macs 58 l || macs 45 l || macs 95 l).

Lemma all_at_run q s ix :
  Forall (λ i, 0 ≤ i < Z.of_nat (length s)) ix →
  all_at q s ix = Ret (forallb (λ i, q (nth (Z.to_nat i) s 0)) ix).
Proof.
  induction 1 as [|i ix Hi _ IH]; [done|]. cbn [all_at forallb].
  destruct (buf_get_in_range s i Hi) as (c & -> & Hc). cbn [mbind outcome_bind].
  rewrite (nth_lookup_Some _ _ 0 _ Hc). destruct (q c); [exact IH|done].
Qed.

Lemma is_mac_addr_run s sep : (17 ≤ length s)%nat → is_mac_addr s sep = Ret (macs sep s).
Proof.
  intros Hl. unfold is_mac_addr, macs.
  rewrite (all_at_run (λ c, c =? sep)) by (unfold mac_seps; repeat constructor; lia).
  cbn [mbind outcome_bind]. destruct (forallb _ mac_seps); [|done].
  rewrite all_at_run by (unfold mac_digits; repeat constructor; lia). done.
Qed.

(** The three tests of the loop. *)
Lemma mac_tests s : (17 ≤ length s)%nat →
  (c ← is_mac_addr s 58; d ← (if c : bool then Ret true else is_mac_addr s 45);
   if d : bool then Ret true else is_mac_addr s 95) = Ret (mac s).
Proof.
  intros Hl. rewrite !is_mac_addr_run by done. unfold mac. rewrite (proj2 (Nat.leb_le _ _) Hl).
  by destruct (macs 58 s), (macs 45 s), (macs 95 s).
Qed.

Lemma nth_take_lt (i n : nat) (l : bytes) : (i < n)%nat → nth i (take n l) 0 = nth i l 0.
Proof. intros Hi. by rewrite !nth_lookup, lookup_take_lt. Qed.

Lemma forallb_take (q : Z → bool) ix l :
  Forall (λ i, 0 ≤ i < 17) ix →
  forallb (λ i, q (nth (Z.to_nat i) (take 17 l) 0)) ix = forallb (λ i, q (nth (Z.to_nat i) l 0)) ix.
Proof.
  induction 1 as [|i ix Hi _ IH]; [done|]. cbn [forallb]. by rewrite nth_take_lt, IH by lia.
Qed.

Lemma macs_take sep l : macs sep (take 17 l) = macs sep l.
Proof.
  unfold macs. by rewrite (forallb_take (λ c, c =? sep)), forallb_take
    by (unfold mac_seps, mac_digits; repeat constructor; lia).
Qed.

(** Only the first 17 bytes matter. *)
Lemma mac_app l1 l2 : (17 ≤ length l1)%nat → mac (l1 ++ l2) = mac l1.
Proof.
  intros Hl. unfold mac. rewrite length_app.
  rewrite (proj2 (Nat.leb_le _ _) Hl), (proj2 (Nat.leb_le 17 (length l1 + length l2))) by lia.
  by rewrite <-!(macs_take _ (l1 ++ l2)), <-!(macs_take _ l1), take_app_le by done.
Qed.

Definition sep (c : Z) : Prop := c = 58 ∨ c = 45 ∨ c = 95.

(** What an address looks like, position by position. *)
Lemma mac_spec l : mac l = true → (17 ≤ length l)%nat ∧
  (∀ i, (i < 17)%nat → (i `mod` 3 = 2)%nat → sep (nth i l 0)) ∧
  (∀ i, (i < 17)%nat → (i `mod` 3 ≠ 2)%nat → isxdigit (nth i l 0) = true).
Proof.
  unfold mac. intros [Hl Hm]%andb_prop. apply Nat.leb_le in Hl. split; [done|].
  assert (∃ x, sep x ∧ macs x l = true) as (x & Hx & Hmx).
  { apply orb_prop in Hm as [[Hm|Hm]%orb_prop|Hm]; [exists 58|exists 45|exists 95]; unfold sep; auto. }
  apply andb_prop in Hmx as [Hs Hd]. rewrite forallb_forall in Hs, Hd.
  assert (∀ i, (i < 17)%nat → (i `mod` 3 = 2)%nat → In (Z.of_nat i) mac_seps) as Hi2.
  { intros i Hi. do 17 (destruct i as [|i]; [vm_compute; try done; tauto|]). lia. }
  assert (∀ i, (i < 17)%nat → (i `mod` 3 ≠ 2)%nat → In (Z.of_nat i) mac_digits) as Hi1.
  { intros i Hi. do 17 (destruct i as [|i]; [vm_compute; try done; tauto|]). lia. }
  split.
  - intros i Hi Hm3. specialize (Hs _ (Hi2 i Hi Hm3)). rewrite Nat2Z.id in Hs. apply Z.eqb_eq in Hs. by rewrite Hs.
  - intros i Hi Hm3. specialize (Hd _ (Hi1 i Hi Hm3)). by rewrite Nat2Z.id in Hd.
Qed.

(** ** Replacing the addresses of a text *)

(** [suppressed l l']: from left to right, each address of [l] has been replaced by
    six capital letters (which may then be part of a further address). *)
Inductive suppressed : bytes → bytes → Prop :=
  | sup_short l : (length l < 17)%nat → suppressed l l
  | sup_step c l l' :
      (17 ≤ length (c :: l))%nat → mac (c :: l) = false → suppressed l l' → suppressed (c :: l) (c :: l')
  | sup_mac m r anon l' :
      length m = 17%nat → mac m = true → length anon = 6%nat → Forall upper anon →
      suppressed (anon ++ r) l' → suppressed (m ++ r) l'.

Lemma suppressed_length l l' : suppressed l l' → (length l' ≤ length l)%nat.
Proof. induction 1; simpl; rewrite ?length_app in *; lia. Qed.

Lemma suppressed_short l l' : suppressed l l' → (length l < 17)%nat → l' = l.
Proof. destruct 1; [done|lia|]. rewrite length_app. lia. Qed.

(** No address starts at any place of the text. *)
Definition no_mac (l : bytes) : Prop := ∀ i, mac (drop i l) = false.

Lemma mac_short l : (length l < 17)%nat → mac l = false.
Proof. intros Hl. unfold mac. by rewrite (proj2 (Nat.leb_gt _ _) Hl). Qed.

Lemma upper_not_sep c : upper c → ¬ sep c.
Proof. unfold upper, sep. lia. Qed.

(** An address stays one when its last two bytes are replaced by digits. *)
Lemma mac_last l l' :
  mac l = true → (17 ≤ length l')%nat → take 15 l' = take 15 l →
  isxdigit (nth 15 l' 0) = true → isxdigit (nth 16 l' 0) = true → mac l' = true.
Proof.
  intros Hm Hl' Ht H15 H16. unfold mac in *. apply andb_prop in Hm as [_ Hm].
  rewrite (proj2 (Nat.leb_le _ _) Hl'). cbn [andb].
  assert (∀ i, (i < 15)%nat → nth i l' 0 = nth i l 0) as Heq.
  { intros i Hi. by rewrite <-(nth_take_lt i 15 l'), <-(nth_take_lt i 15 l), Ht. }
  assert (∀ x, macs x l = true → macs x l' = true) as H.
  { intros x. unfold macs. cbn [forallb mac_seps mac_digits].
    change (Z.to_nat 15) with 15%nat. change (Z.to_nat 16) with 16%nat. rewrite H15, H16.
    rewrite !Heq by (simpl; lia). rewrite !andb_true_iff. tauto. }
  apply orb_prop in Hm as [[Hm|Hm]%orb_prop|Hm]; rewrite (H _ Hm), ?orb_true_r; done.
Qed.

(** Replacing an address makes no address at an earlier place: a window that reaches
    into the new letters has one of them where a separator must be, unless it only
    reaches the first two, where it was an address before. *)
Lemma mac_earlier p m anon r :
  (0 < length p)%nat → length m = 17%nat → mac m = true → length anon = 6%nat → Forall upper anon →
  mac (p ++ m ++ r) = false → mac (p ++ anon ++ r) = false.
Proof.
  intros Hp Hm Hmac Ha Hu Hnot. destruct (mac (p ++ anon ++ r)) eqn:E; [|done].
  destruct (decide (17 ≤ length p)%nat) as [Hlong|Hshort].
  { rewrite !mac_app in * by done. congruence. }
  pose proof (mac_spec _ E) as (_ & Hsep & Hdig). pose proof (mac_spec _ Hmac) as (_ & _ & Hmd).
  assert (∀ i, (length p ≤ i < length p + 6)%nat → ¬ sep (nth i (p ++ anon ++ r) 0)) as Hno.
  { intros i Hi. apply upper_not_sep. rewrite app_nth2, app_nth1 by lia.
    apply (proj1 (List.Forall_nth upper anon) Hu). lia. }
  assert (15 ≤ length p)%nat as H15.
  { destruct (decide (15 ≤ length p)%nat) as [|Hlt]; [done|]. exfalso.
    assert (∃ i, (length p ≤ i < length p + 3)%nat ∧ (i < 17)%nat ∧ (i `mod` 3 = 2)%nat) as (i & Hi & Hi17 & Hi3).
    { remember (length p) as k eqn:Ek. clear -Hp Hlt.
      do 15 (destruct k as [|k]; [first [lia | exists 2%nat; simpl; lia | exists 5%nat; simpl; lia
        | exists 8%nat; simpl; lia | exists 11%nat; simpl; lia | exists 14%nat; simpl; lia]|]). lia. }
    apply (Hno i); [lia|]. by apply Hsep. }
  assert (mac (p ++ m ++ r) = true); [|congruence].
  apply (mac_last (p ++ anon ++ r)); [done|rewrite !length_app; lia|by rewrite !take_app_le by lia|..].
  - destruct (decide (length p = 15%nat)) as [Hp15|].
    + rewrite app_nth2, app_nth1 by lia. rewrite Hp15. apply (Hmd 0%nat); simpl; lia.
    + specialize (Hdig 15%nat). rewrite app_nth1 in Hdig |- * by lia. apply Hdig; simpl; lia.
  - rewrite app_nth2, app_nth1 by lia.
    destruct (decide (length p = 15%nat)) as [->|]; [apply (Hmd 1%nat); simpl; lia|].
    replace (length p) with 16%nat by lia. apply (Hmd 0%nat); simpl; lia.
Qed.

Lemma suppressed_no_mac_after l l' :
  suppressed l l' → ∀ p, (∀ i, (i < length p)%nat → mac (drop i p ++ l) = false) →
  ∀ i, mac (drop i (p ++ l')) = false.
Proof.
  induction 1 as [l Hl|c l l' Hl Hm _ IH|m r anon l' Hm Hmac Ha Hu _ IH]; intros p Hp i.
  - destruct (decide (i < length p)%nat) as [Hi|Hi].
    + rewrite drop_app_le by lia. by apply Hp.
    + rewrite drop_app_ge by lia. apply mac_short. rewrite length_drop. lia.
  - rewrite cons_middle, (assoc_L (++)). apply IH. intros j Hj. rewrite length_app in Hj. simpl in Hj.
    destruct (decide (j < length p)%nat).
    + rewrite drop_app_le, <-(assoc_L (++)) by lia. by apply Hp.
    + rewrite drop_app_ge by lia. by replace (j - length p)%nat with 0%nat by lia.
  - apply IH. intros j Hj. apply (mac_earlier _ m); [rewrite length_drop; lia|done..|by apply Hp].
Qed.

Lemma suppressed_no_mac l l' : suppressed l l' → no_mac l'.
Proof.
  intros Hs i. change l' with ([] ++ l'). eapply suppressed_no_mac_after; [done|].
  intros j Hj. simpl in Hj. lia.
Qed.

(** ** The code replaces the addresses *)

Lemma land_4095 x : 0 ≤ Z.land x 0xfff < 4096.
Proof. change 0xfff with (Z.ones 12). rewrite Z.land_ones by lia. apply Z.mod_pos_bound. lia. Qed.

(** What a step may change: the key and what is remembered of its file. *)
Record key_only (s s' : uploader) : Prop := {
  ko_world : u_world s' = u_world s;
  ko_ticks : u_ticks s' = u_ticks s;
  ko_log : u_log s' = u_log s;
  ko_total : u_total s' = u_total s;
  ko_counter : u_counter s' = u_counter s;
  ko_line : u_line s' = u_line s;
  ko_valid : u_valid s' = u_valid s;
}.
#[local] Instance key_only_refl : Reflexive key_only.
Proof. by intros s. Qed.
#[local] Instance key_only_trans : Transitive key_only.
Proof. intros s1 s2 s3 [] []. split; congruence. Qed.

Section suppress.
Context `{!Os, !Hmac, !HmacLaws, !KeyStat}.

Lemma get_consensus_key_run s : ∃ s', get_consensus_key s = Ret (tt, s') ∧ key_only s s'.
Proof.
  unfold get_consensus_key, mbind, M_bind, gets, modify, mret, M_ret.
  destruct (_ && _); [by exists s|]. destruct (open_read _); [|by exists s].
  unfold on_world, read_bytes, content, mbind, M_bind, outcome_bind, gets, mret, M_ret.
  destruct (_ =? _); [|by destruct s; eexists]. eexists. split; [done|]. by destruct s.
Qed.

Lemma binary_mac_run n mac i : 0 ≤ i → i + 3 * Z.of_nat n ≤ Z.of_nat (length mac) + 1 →
  ∃ out, binary_mac_loop n mac i = Ret out.
Proof.
  revert i. induction n as [|n IH]; intros i Hi Hn; [by exists []|]. cbn [binary_mac_loop].
  destruct (buf_get_in_range mac i) as (a & -> & _); [lia|].
  destruct (buf_get_in_range mac (i + 1)) as (b & -> & _); [lia|]. cbn [mbind outcome_bind].
  destruct (IH (i + 3)) as [out ->]; [lia..|]. by eexists.
Qed.

Lemma get_anonid_run mac s : (17 ≤ length mac)%nat →
  ∃ anon s', get_anonid_for_mac mac s = Ret (anon, s') ∧ key_only s s' ∧
    length anon = 6%nat ∧ Forall upper anon.
Proof.
  intros Hl. destruct (get_consensus_key_run s) as (s' & Hk & Hko).
  destruct (binary_mac_run 6 mac 0) as [out Hout]; [lia..|].
  unfold get_anonid_for_mac, get_binary_mac. rewrite (M_bind_eq _ _ _ _ _ Hk), Hout.
  unfold lift, mbind, M_bind, outcome_bind, gets, mret, M_ret.
  pose proof (hmac_length (u_key s') out) as Hd.
  destruct (buf_get_in_range (hmac_md5 (u_key s') out) 0) as (d0 & -> & _); [lia|].
  destruct (buf_get_in_range (hmac_md5 (u_key s') out) 1) as (d1 & -> & _); [lia|].
  destruct (buf_get_in_range (hmac_md5 (u_key s') out) 2) as (d2 & -> & _); [lia|].
  set (num := u32 _).
  destruct (trigraph_run _ (land_4095 (Z.shiftr num 12))) as (a & -> & Ha & Hua & _).
  destruct (trigraph_run _ (land_4095 num)) as (b & -> & Hb & Hub & _).
  exists (a ++ b), s'. split_and!; [done|done|rewrite length_app; lia|by apply Forall_app].
Qed.

(** Closing the gap: the six bytes after the text are moved along with it. *)
Lemma anonymize_run p m r tail s :
  length m = 17%nat → (6 ≤ length tail)%nat →
  ∃ anon tail' s', anonymize_mac_address (p ++ (m ++ r) ++ tail) (Z.of_nat (length p)) (Z.of_nat (17 + length r)) s
    = Ret ((p ++ (anon ++ r) ++ tail', 11), s') ∧ key_only s s' ∧ length anon = 6%nat ∧ Forall upper anon ∧
    length tail' = (length tail + 11)%nat.
Proof.
  intros Hm Ht. unfold anonymize_mac_address.
  destruct (get_anonid_run (m ++ r ++ tail) s) as (anon & s' & Hrun & Hko & Ha & Hu); [rewrite length_app; lia|].
  rewrite Nat2Z.id, drop_app_length, <-(assoc_L (++) m). rewrite (M_bind_eq _ _ _ _ _ Hrun).
  change (MAC_ADDR_LEN - 6) with 11.
  set (tail' := take 6 tail ++ drop (6 + length r + 6) (anon ++ drop 6 m ++ r ++ tail)).
  exists anon, tail', s'.
  assert (Z.to_nat (Z.of_nat (length p) + 6) = length p + 6)%nat as -> by lia.
  assert (Z.to_nat (Z.of_nat (17 + length r) - 11) = length r + 6)%nat as -> by lia.
  change (Z.to_nat 11) with 11%nat.
  rewrite decide_True by (rewrite !length_app; lia). rewrite M_bind_unfold. cbn [lift mbind outcome_bind].
  rewrite take_app_length, (drop_app_ge p) by lia.
  replace (length p + 6 - length p)%nat with 6%nat by lia. rewrite (drop_app_le m) by lia.
  rewrite decide_True by (rewrite !length_app, length_drop; lia). rewrite M_bind_unfold. cbn [lift mbind outcome_bind].
  split_and!; [|done|done|done|].
  - unfold mret, M_ret. do 3 f_equal.
    rewrite take_app_ge by lia. replace (length p + 6 - length p)%nat with 6%nat by lia.
    rewrite take_app_le, firstn_all2 by lia.
    rewrite (drop_app_ge p) by lia. replace (length p + 6 + 11 - length p)%nat with 17%nat by lia.
    rewrite (assoc_L (++) anon), drop_app_ge by (rewrite length_app, length_drop; lia).
    rewrite (length_app anon), length_drop. replace (17 - (length anon + (length m - 6)))%nat with 0%nat by lia.
    rewrite drop_0, take_app_ge by lia. replace (length r + 6 - length r)%nat with 6%nat by lia.
    rewrite (drop_app_ge p) by lia. replace (length p + 6 + (length r + 6) - length p)%nat with (6 + length r + 6)%nat by lia.
    unfold tail'. by rewrite <-!(assoc_L (++)).
  - unfold tail'. rewrite length_app, length_take, length_drop, !length_app, length_drop. lia.
Qed.

Lemma suppress_loop_run fuel : ∀ p l tail s,
  (length l < fuel)%nat → (6 ≤ length tail)%nat →
  ∃ l' tail' s', suppress_loop fuel (p ++ l ++ tail) (Z.of_nat (length p)) (Z.of_nat (length l))
      (Z.of_nat (length p + length l)) s = Ret ((p ++ l' ++ tail', Z.of_nat (length p + length l')), s') ∧
    suppressed l l' ∧ key_only s s' ∧ length (l' ++ tail') = length (l ++ tail).
Proof.
  induction fuel as [|fuel IH]; intros p l tail s Hf Ht; [lia|]. cbn [suppress_loop].
  destruct (Z.leb_spec MAC_ADDR_LEN (Z.of_nat (length l))) as [Hl|Hl]; unfold MAC_ADDR_LEN in Hl.
  2:{ exists l, tail, s. split_and!; [done|apply sup_short; lia|done|done]. }
  rewrite Nat2Z.id, drop_app_length.
  assert (mac (l ++ tail) = mac l) as Hml by (apply mac_app; lia).
  pose proof (is_mac_addr_run (l ++ tail)) as Hrun.
  assert (17 ≤ length (l ++ tail))%nat as Hlt by (rewrite length_app; lia).
  assert (∀ k : bool → U (bytes * Z),
    (c ← lift (is_mac_addr (l ++ tail) 58);
     d ← lift (if c : bool then Ret true else is_mac_addr (l ++ tail) 45);
     e ← lift (if d : bool then Ret true else is_mac_addr (l ++ tail) 95); k e) s = k (mac l) s) as Htests.
  { intros k. rewrite !Hrun by done. unfold lift, mbind, M_bind, outcome_bind. rewrite <-Hml.
    unfold mac. rewrite (proj2 (Nat.leb_le _ _) Hlt).
    destruct (macs 58 (l ++ tail)); [done|]. destruct (macs 45 (l ++ tail)); [done|]. done. }
  rewrite Htests. clear Htests. destruct (mac l) eqn:Hm.
  - assert (∃ m r, l = m ++ r ∧ length m = 17%nat) as (m & r & -> & H17).
    { exists (take 17 l), (drop 17 l). by rewrite take_drop, length_take_le by lia. }
    destruct (anonymize_run p m r tail s H17 Ht) as (anon & tail1 & s1 & Hrun1 & Hko1 & Ha & Hu & Ht1).
    rewrite length_app, H17. rewrite (M_bind_eq _ _ _ _ _ Hrun1).
    destruct (IH p (anon ++ r) tail1 s1) as (l' & tail' & s2 & Hrun2 & Hs & Hko2 & Hlen).
    { rewrite length_app in *. lia. }
    { lia. }
    exists l', tail', s2. split_and!.
    + rewrite <-Hrun2. f_equal; rewrite length_app; lia.
    + eapply sup_mac; [exact H17|by rewrite mac_app in Hm by lia|exact Ha|exact Hu|exact Hs].
    + by etrans.
    + rewrite Hlen, !length_app. lia.
  - destruct l as [|c l]; [simpl in Hl; lia|].
    destruct (IH (p ++ [c]) l tail s) as (l' & tail' & s' & Hrun2 & Hs & Hko & Hlen); [simpl in Hf; lia|done|].
    exists (c :: l'), tail', s'. split_and!.
    + rewrite <-!(assoc_L (++)), !length_app in Hrun2. cbn [app length] in *.
      replace (Z.of_nat (length p) + 1) with (Z.of_nat (length p + 1)) by lia.
      replace (Z.of_nat (S (length l)) - 1) with (Z.of_nat (length l)) by lia.
      replace (length p + S (length l))%nat with (length p + 1 + length l)%nat by lia.
      replace (length p + S (length l'))%nat with (length p + 1 + length l')%nat by lia. exact Hrun2.
    + apply sup_step; [lia|done|done].
    + done.
    + simpl. by rewrite Hlen.
Qed.

Lemma suppress_run l tail s :
  (6 ≤ length tail)%nat →
  ∃ l' tail' s', suppress_mac_addresses (l ++ tail) (Z.of_nat (length l)) s =
      Ret ((l' ++ tail', Z.of_nat (length l')), s') ∧
    suppressed l l' ∧ key_only s s' ∧ length (l' ++ tail') = length (l ++ tail).
Proof.
  intros Ht. unfold suppress_mac_addresses. rewrite Nat2Z.id.
  exact (suppress_loop_run (S (length l)) [] l tail s (Nat.lt_succ_diag_r _) Ht).
Qed.

(** C26: No MAC address is uploaded.  For every text with six spare bytes behind it
    in the buffer, whatever the key and the digests are, [suppress_mac_addresses]
    ends without leaving the buffer, and the text of the new length it returns is
    the old one with addresses replaced by identifiers and has no address, in any
    of the three notations, at any place. *)
Theorem suppress_leaves_no_mac line len s :
  (len + 6 ≤ length line)%nat →
  ∃ line' len' s', suppress_mac_addresses line (Z.of_nat len) s = Ret ((line', Z.of_nat len'), s') ∧
    length line' = length line ∧ (len' ≤ len)%nat ∧
    suppressed (take len line) (take len' line') ∧ no_mac (take len' line') ∧ key_only s s'.
Proof.
  intros Hlen. destruct (suppress_run (take len line) (drop len line) s) as (l' & tail' & s' & Hrun & Hs & Hk & Hl).
  { rewrite length_drop. lia. }
  rewrite take_drop, length_take_le in Hrun by lia. rewrite take_drop in Hl.
  pose proof (suppressed_length _ _ Hs) as Hle. rewrite length_take_le in Hle by lia.
  exists (l' ++ tail'), (length l'), s'. rewrite take_app_length.
  split_and!; [done|done|done|done|by eapply suppressed_no_mac|done].
Qed.

(** The gap is closed with bytes from behind the line.  When a line fills the
    buffer and starts with an address, the move that shortens it reads six bytes
    past the end of the buffer. *)
Theorem suppress_reads_past_end line s :
  mac line = true → suppress_mac_addresses line (Z.of_nat (length line)) s = Ub.
Proof.
  intros Hm. pose proof (mac_spec _ Hm) as (Hl & _).
  unfold suppress_mac_addresses. cbn [suppress_loop].
  destruct (Z.leb_spec MAC_ADDR_LEN (Z.of_nat (length line))); [|unfold MAC_ADDR_LEN in *; lia].
  change (Z.to_nat 0) with 0%nat. cbn [drop]. rewrite !is_mac_addr_run by done.
  unfold mac in Hm. apply andb_prop in Hm as [_ Hm].
  assert (∀ k : bool → U (bytes * Z),
    (c ← lift (Ret (macs 58 line)); d ← lift (if c : bool then Ret true else Ret (macs 45 line));
     e ← lift (if d : bool then Ret true else Ret (macs 95 line)); k e) s = k true s) as ->.
  { intros k. unfold lift, mbind, M_bind, outcome_bind.
    destruct (macs 58 line); [done|]. destruct (macs 45 line); [done|]. by simpl in Hm; rewrite Hm. }
  unfold anonymize_mac_address. change (Z.to_nat 0) with 0%nat. cbn [drop].
  destruct (get_anonid_run line s Hl) as (anon & s' & Hrun & _ & Ha & _).
  rewrite M_bind_unfold, (M_bind_eq _ _ _ _ _ Hrun).
  rewrite decide_True by lia. rewrite M_bind_unfold. cbn [lift mbind outcome_bind].
  rewrite M_bind_unfold. cbn [lift mbind outcome_bind].
  rewrite decide_False; [done|]. rewrite !length_app, length_take, length_drop, Ha.
  change (MAC_ADDR_LEN - 6) with 11. lia.
Qed.
End suppress.

Definition demo_hmac : Hmac := λ k d, replicate 16 (u8 (Z.of_nat (length k + length d))).
Lemma demo_hmac_laws : @HmacLaws demo_hmac.
Proof.
  split; intros k d; unfold hmac_md5, demo_hmac; [apply length_replicate|].
  apply Forall_replicate, u8_byte.
Qed.
Definition demo_stat : KeyStat := {| key_stat := 0; key_ino := 1; key_mtime := 2 |}.
Definition demo_uploader : uploader :=
  {| u_world := {| files := ∅; errors := [] |}; u_key := replicate 16 1; u_ino := 0; u_mtime := 0;
     u_ticks := 0; u_log := []; u_total := 0; u_counter := 5; u_line := []; u_valid := false |}.
Definition demo_line : bytes := lit "at f8:8f:ca:00:00:01:77 up".

Lemma suppress_leaves_no_mac_witness :
  ∃ line' len' s', @suppress_mac_addresses demo_os demo_hmac demo_stat (demo_line ++ replicate 6 0) (Z.of_nat 26) demo_uploader
      = Ret ((line', Z.of_nat len'), s') ∧
    length line' = 32%nat ∧ (len' ≤ 26)%nat ∧
    suppressed (take 26 (demo_line ++ replicate 6 0)) (take len' line') ∧ no_mac (take len' line') ∧
    key_only demo_uploader s'.
Proof.
  apply (@suppress_leaves_no_mac demo_os demo_hmac demo_hmac_laws demo_stat (demo_line ++ replicate 6 0) 26).
  simpl. lia.
Defined.

Lemma suppress_reads_past_end_witness :
  @suppress_mac_addresses demo_os demo_hmac demo_stat (lit "f8:8f:ca:00:00:01") 17 demo_uploader = Ub.
Proof. exact (@suppress_reads_past_end demo_os demo_hmac demo_hmac_laws demo_stat (lit "f8:8f:ca:00:00:01") demo_uploader eq_refl). Defined.
