(* ===== verification/LogUploaderSpec.v ===== *)
(** * What parse_and_consume_log_data collects

    Each entry of the kernel log is uploaded once, in order, with its addresses
    suppressed; entries uploaded before are skipped, missing ones are noted, and the
    collection stops at the program's own start marker. *)

From S2P Require Import Prelude LogUtils LogUploader LogUploaderMac.
From stdpp Require Import gmap.
Open Scope Z_scope.

(** ** The specification *)

Record entry := Entry {
  e_level : Z;
  e_seq : Z;
  e_ts : Z;
  e_extra : bytes;
  e_text : bytes;
}.

Definition entry_line (e : entry) : bytes :=
  kernel_line (e_level e) (e_seq e) (e_ts e) (44 :: e_extra e) (e_text e).

Record entry_ok (lbs : Z) (e : entry) : Prop := {
  eo_level : 0 ≤ e_level e < 2 ^ 31;
  eo_seq : 0 < e_seq e < 2 ^ 64 - 1;
  eo_ts : 0 ≤ e_ts e < 2 ^ 64;
  eo_extra : Forall (λ c, c ≠ 59 ∧ c ≠ NUL) (e_extra e);
  eo_text : Forall (λ c, c ≠ 10 ∧ c ≠ NUL) (e_text e);
  eo_fits : Z.of_nat (length (entry_line e)) + 6 ≤ lbs;
}.

Definition e_sec (e : entry) : Z := s32 (e_ts e / 1000000).
Definition e_usec (e : entry) : Z := s32 (e_ts e mod 1000000).

(** [collects all c es out c']: from counter [c], the entries [es] leave the text
    [out] and the counter [c']; [all] is the option --all. *)
Inductive collects (all : bool) : Z → list entry → bytes → Z → Prop :=
  | col_nil c : collects all c [] [] c
  | col_old c e es out c' :
      all = false → e_seq e ≤ c → collects all c es out c' → collects all c (e :: es) out c'
  | col_entry c e es txt out c' :
      all = true ∨ c < e_seq e → suppressed (e_text e) txt → collects all (e_seq e) es out c' →
      collects all c (e :: es)
        ((if e_seq e >? c + 1 then missed_text (e_sec e) (e_usec e) (e_seq e - c - 1) else []) ++
         entry_text (e_level e) (e_sec e) (e_usec e) (txt ++ [10]) ++ out) c'.

(** The reads that deliver the entries, with errors the loop ignores in between. *)
Inductive delivers : list kmsg_event → list entry → Prop :=
  | del_nil : delivers [] []
  | del_entry e evs es : delivers evs es → delivers (KData (entry_line e) :: evs) (e :: es)
  | del_pipe evs es : delivers evs es → delivers (KPipe :: evs) es
  | del_inval evs es : delivers evs es → delivers (KInval :: evs) es.

(** A bound of what an entry adds to the log. *)
Definition cost (e : entry) : Z := 256 + Z.of_nat (length (e_text e)).
Definition costs (es : list entry) : Z := foldr (λ e n, cost e + n) 0 es.

Lemma costs_nonneg es : 0 ≤ costs es.
Proof. induction es as [|e es IH]; simpl; [lia|]. unfold cost. lia. Qed.

(** ** Suppression keeps the structure of a line *)

(** A byte that is in no address. *)
Definition fence (c : Z) : Prop := isxdigit c = false ∧ ¬ sep c.

Lemma mac_no_fence m i : mac m = true → (i < 17)%nat → ¬ fence (nth i m 0).
Proof.
  intros Hm Hi [Hx Hs]. pose proof (mac_spec _ Hm) as (_ & Hsep & Hdig).
  destruct (decide (i `mod` 3 = 2)%nat); [by apply Hs, Hsep|]. by rewrite Hdig in Hx.
Qed.

Lemma suppressed_fence l l' : suppressed l l' → ∀ a f b, l = a ++ f :: b → fence f →
  ∃ a' b', l' = a' ++ f :: b' ∧ suppressed a a' ∧ suppressed b b'.
Proof.
  induction 1 as [l Hl|c l l' Hl Hm Hs IH|m r anon l' Hm Hmac Ha Hu Hs IH]; intros a f b Heq Hf.
  - exists a, b. subst l. rewrite length_app in Hl. simpl in Hl.
    split_and!; [done|apply sup_short; lia|apply sup_short; lia].
  - destruct a as [|c0 a].
    + injection Heq as -> ->. exists [], l'. split_and!; [done|apply sup_short; simpl; lia|done].
    + injection Heq as -> ->. destruct (IH a f b eq_refl Hf) as (a' & b' & -> & Ha & Hb).
      exists (c0 :: a'), b'. split_and!; [done| |done].
      destruct (decide (17 ≤ length (c0 :: a))%nat) as [Hlong|Hshort].
      * apply sup_step; [done| |done]. rewrite <-Hm. change (c0 :: a ++ f :: b) with ((c0 :: a) ++ f :: b).
        symmetry. by apply mac_app.
      * rewrite (suppressed_short _ _ Ha) by (simpl in Hshort; lia). apply sup_short. lia.
  - assert (∃ a1, a = m ++ a1 ∧ r = a1 ++ f :: b) as (a1 & -> & ->).
    { destruct (decide (17 ≤ length a)%nat) as [Hlong|Hshort].
      - exists (drop 17 a). apply (f_equal (take 17)) in Heq as Ht. apply (f_equal (drop 17)) in Heq.
        rewrite take_app_ge, Hm, take_0, app_nil_r in Ht by lia.
        rewrite (take_app_le a) in Ht by lia. rewrite drop_app_ge, Hm, drop_0 in Heq by lia.
        rewrite drop_app_le in Heq by lia. rewrite Ht. by rewrite take_drop.
      - exfalso. apply (mac_no_fence m (length a) Hmac); [lia|].
        apply (f_equal (λ l, nth (length a) l 0)) in Heq. rewrite app_nth1 in Heq by lia.
        rewrite Heq, app_nth2, Nat.sub_diag by lia. done. }
    destruct (IH (anon ++ a1) f b) as (a' & b' & -> & Hsa & Hsb); [by rewrite <-(assoc_L (++))|done|].
    exists a', b'. split_and!; [done|by eapply sup_mac|done].
Qed.

Lemma suppressed_Forall (P : Z → Prop) l l' :
  (∀ c, upper c → P c) → suppressed l l' → Forall P l → Forall P l'.
Proof.
  intros HP. induction 1 as [|c l l' _ _ _ IH|m r anon l' _ _ _ Hu _ IH]; [done|..].
  - intros [Hc Hl]%Forall_cons. constructor; [done|by apply IH].
  - intros [_ Hr]%Forall_app. apply IH, Forall_app. split; [|done]. eapply Forall_impl; [exact Hu|done].
Qed.

Lemma suppressed_id l l' : suppressed l l' → no_mac l → l' = l.
Proof.
  induction 1 as [|c l l' _ _ _ IH|m r anon l' Hm Hmac _ _ _ _]; intros Hno; [done|..].
  - f_equal. apply IH. intros i. apply (Hno (S i)).
  - specialize (Hno 0%nat). rewrite drop_0, mac_app in Hno by lia. congruence.
Qed.

Lemma digits_no_mac l : Forall is_digit l → no_mac l.
Proof.
  intros Hl i. destruct (mac (drop i l)) eqn:E; [|done].
  pose proof (mac_spec _ E) as (Hlen & Hsep & _). specialize (Hsep 2%nat ltac:(lia) eq_refl).
  assert (is_digit (nth 2 (drop i l) 0)) as Hd.
  { apply (proj1 (List.Forall_nth is_digit (drop i l))); [by apply Forall_drop|lia]. }
  unfold sep, is_digit in *. lia.
Qed.

Lemma suppressed_dec n l' : 0 ≤ n → suppressed (dec n) l' → l' = dec n.
Proof.
  intros Hn Hs. apply suppressed_id; [done|]. apply digits_no_mac. by apply dec_digits.
Qed.

Lemma fences : fence 44 ∧ fence 59 ∧ fence 10.
Proof. unfold fence, sep. split_and!; vm_compute; (done || lia). Qed.

Lemma suppressed_line lbs e l' :
  entry_ok lbs e → suppressed (entry_line e) l' →
  ∃ extra txt, l' = kernel_line (e_level e) (e_seq e) (e_ts e) (44 :: extra) txt ∧
    suppressed (e_text e) txt ∧ Forall (λ c, c ≠ 59 ∧ c ≠ NUL) (44 :: extra) ∧
    Forall (λ c, c ≠ 10 ∧ c ≠ NUL) txt.
Proof.
  intros [Hlvl Hseq Hts Hextra Htext _] Hs. pose proof fences as (F44 & F59 & F10).
  unfold entry_line, kernel_line in Hs.
  destruct (suppressed_fence _ _ Hs _ _ _ eq_refl F44) as (a1 & b1 & -> & H1 & Hb1).
  destruct (suppressed_fence _ _ Hb1 _ _ _ eq_refl F44) as (a2 & b2 & -> & H2 & Hb2).
  destruct (suppressed_fence _ _ Hb2 _ _ _ eq_refl F44) as (a3 & b3 & -> & H3 & Hb3).
  destruct (suppressed_fence _ _ Hb3 _ _ _ eq_refl F59) as (a4 & b4 & -> & H4 & Hb4).
  destruct (suppressed_fence _ _ Hb4 _ _ _ eq_refl F10) as (a5 & b5 & -> & H5 & Hb5).
  apply suppressed_short in Hb5 as ->; [|simpl; lia].
  apply suppressed_dec in H1 as ->; [|lia]. apply suppressed_dec in H2 as ->; [|lia].
  apply suppressed_dec in H3 as ->; [|lia].
  exists a4, a5. split_and!; [done|done| |].
  - constructor; [done|]. eapply suppressed_Forall; [|exact H4|done]. unfold upper, NUL. lia.
  - eapply suppressed_Forall; [|exact H5|done]. unfold upper, NUL. lia.
Qed.

(** ** Appending to the log *)

Lemma pad_length n c t : (length (pad n c t) ≤ n `max` length t)%nat.
Proof. unfold pad. rewrite length_app, length_replicate. lia. Qed.

Lemma dec0_length n v : (length (dec0 n v) ≤ S (n `max` length (dec (Z.abs v))))%nat.
Proof.
  unfold dec0. destruct (Z.ltb_spec v 0).
  - rewrite Z.abs_neq by lia. cbn [length]. pose proof (pad_length (n - 1) 48 (dec (- v))). lia.
  - rewrite Z.abs_eq by lia. pose proof (pad_length n 48 (dec v)). lia.
Qed.

Lemma s32_range x : - 2 ^ 31 ≤ s32 x < 2 ^ 31.
Proof. unfold s32. pose proof (Z.mod_pos_bound (x + 2 ^ 31) (2 ^ 32)). lia. Qed.

Lemma time_text_length sec usec :
  - 2 ^ 31 ≤ sec < 2 ^ 31 → - 2 ^ 31 ≤ usec < 2 ^ 31 →
  (length (pad 5 32 (dec sec)) ≤ 11)%nat ∧ (length (dec0 6 usec) ≤ 12)%nat.
Proof.
  intros Hs Hu. split.
  - pose proof (pad_length 5 32 (dec sec)). pose proof (dec_length_signed sec 10). simpl in *. lia.
  - pose proof (dec0_length 6 usec). pose proof (dec_length (Z.abs usec) 10). simpl in *. lia.
Qed.

Lemma missed_text_length e n : 0 ≤ n < 2 ^ 64 →
  (length (missed_text (e_sec e) (e_usec e) n) ≤ 120)%nat.
Proof.
  intros Hn. destruct (time_text_length (e_sec e) (e_usec e)); [apply s32_range..|].
  pose proof (dec_length n 20) as Hd. unfold missed_text. rewrite !length_app. simpl in *. lia.
Qed.

Lemma entry_text_length e txt : 0 ≤ e_level e < 2 ^ 31 →
  (length (entry_text (e_level e) (e_sec e) (e_usec e) txt) ≤ 60 + length txt)%nat.
Proof.
  intros Hn. destruct (time_text_length (e_sec e) (e_usec e)); [apply s32_range..|].
  pose proof (dec_length (e_level e) 10) as Hd. unfold entry_text. rewrite !length_app. simpl in *. lia.
Qed.

(** The log buffer starts with [out], which is all that has been collected. *)
Record logged (p : log_params) (s : uploader) (out : bytes) : Prop := {
  lg_total : u_total s = Z.of_nat (length out);
  lg_text : take (length out) (u_log s) = out;
  lg_size : log_buffer_size p < Z.of_nat (length (u_log s));
  lg_line : Z.of_nat (length (u_line s)) = line_buffer_size p;
}.

(** What appending does not change. *)
Record same_rest (s s' : uploader) : Prop := {
  sr_counter : u_counter s' = u_counter s;
  sr_line : u_line s' = u_line s;
  sr_valid : u_valid s' = u_valid s;
}.

Section collect.
Context `{!CPlatform, !Os, !Hmac, !HmacLaws, !KeyStat, !Wall}.

Lemma log_printf_run p s out txt :
  logged p s out → Z.of_nat (length out + length txt) < log_buffer_size p → log_buffer_size p < 2 ^ 32 →
  ∃ s', log_printf p txt s = Ret (tt, s') ∧ logged p s' (out ++ txt) ∧ same_rest s s'.
Proof.
  intros [Ht Htxt Hsz Hln] Hfit H32. unfold log_printf.
  rewrite (M_bind_eq _ _ _ (u_log s) s), (M_bind_eq _ _ _ (u_total s) s) by done.
  rewrite Ht. rewrite ulong_id by lia. unfold snprintf_at.
  destruct (Z.leb_spec (log_buffer_size p - Z.of_nat (length out)) 0); [lia|].
  rewrite (take_ge txt) by lia.
  rewrite decide_True by (rewrite !length_app; simpl; lia).
  rewrite M_bind_lift. rewrite ulong_id by lia.
  eexists. split; [done|]. split; [split|done]; cbn [up_log u_total u_log u_line].
  - rewrite length_app. lia.
  - rewrite !Nat2Z.id. rewrite Htxt, <-(assoc_L (++) txt), (assoc_L (++) out). apply take_app_length.
  - rewrite !length_app, length_take, length_drop. simpl. lia.
  - done.
Qed.

(** ** One entry *)

Lemma consume_entry_run p s out l e txt all :
  logged p s out → 0 < u_counter s < 2 ^ 64 - 1 → upload_all p = all →
  0 ≤ e_level e < 2 ^ 31 → 0 ≤ e_seq e < 2 ^ 64 →
  Z.of_nat (length out) + 181 + Z.of_nat (length txt) < log_buffer_size p → log_buffer_size p < 2 ^ 32 →
  let pl := {| level := e_level e; seq_no := e_seq e; ts_nsec := e_ts e; text := 0 |} in
  ∃ s', (∀ k, consume_entry p false l {| level := e_level e; seq_no := e_seq e; ts_nsec := e_ts e; text := k |} txt s
              = Ret (Continue l, s')) ∧
    u_line s' = u_line s ∧ u_valid s' = u_valid s ∧
    if decide (all = true ∨ u_counter s < e_seq e) then
      u_counter s' = e_seq e ∧
      logged p s' (out ++ (if e_seq e >? u_counter s + 1
                           then missed_text (e_sec e) (e_usec e) (e_seq e - u_counter s - 1) else []) ++
                   entry_text (e_level e) (e_sec e) (e_usec e) txt)
    else u_counter s' = u_counter s ∧ logged p s' out.
Proof.
  intros Hlog Hc Hall Hl Hs Hfit H32 pl. set (c := u_counter s) in *.
  assert (u64 (c + 1) = c + 1) as Hc1 by (apply Z.mod_small; lia).
  assert (∃ s1 extra skip, (∀ k,
    (if c >? 0 then
       if seq_no {| level := e_level e; seq_no := e_seq e; ts_nsec := e_ts e; text := k |} >? u64 (c + 1) then
         log_printf p (missed_text (e_sec e) (e_usec e) (u64 (e_seq e - c - 1)));; mret false
       else mret (negb (upload_all p) && (e_seq e <=? c))
     else mret false) s = Ret (skip, s1)) ∧ logged p s1 (out ++ extra) ∧ same_rest s s1 ∧
    (length extra ≤ 120)%nat ∧
    extra = (if e_seq e >? c + 1 then missed_text (e_sec e) (e_usec e) (e_seq e - c - 1) else []) ∧
    skip = bool_decide (¬ (all = true ∨ c < e_seq e))) as (s1 & extra & skip & Hrun & Hlog1 & Hsr & Hex & Hextra & Hskip).
  { cbn [seq_no]. destruct (Z.gtb_spec c 0); [|lia]. rewrite Hc1.
    destruct (Z.gtb_spec (e_seq e) (c + 1)).
    - assert (u64 (e_seq e - c - 1) = e_seq e - c - 1) as -> by (apply Z.mod_small; lia).
      pose proof (missed_text_length e (e_seq e - c - 1)) as Hm.
      destruct (log_printf_run p s out (missed_text (e_sec e) (e_usec e) (e_seq e - c - 1)))
        as (s1 & Hrun & Hlog1 & Hsr); [done|lia|done|].
      exists s1, (missed_text (e_sec e) (e_usec e) (e_seq e - c - 1)), false.
      split_and!; [|done|done|lia|done|symmetry; apply bool_decide_eq_false; lia].
      intros _. by rewrite (M_bind_eq _ _ _ _ _ Hrun).
    - exists s, [], (negb (upload_all p) && (e_seq e <=? c)). rewrite app_nil_r.
      split_and!; [done|done|done|simpl; lia|done|].
      rewrite Hall. destruct all, (Z.leb_spec (e_seq e) c); cbn [negb andb]; symmetry;
        [apply bool_decide_eq_false|apply bool_decide_eq_false|apply bool_decide_eq_true|apply bool_decide_eq_false];
        try lia; intros H'; apply H'; by left. }
  destruct Hsr as [Hr1 Hr2 Hr3].
  destruct (decide (all = true ∨ c < e_seq e)) as [Hup|Hold].
  - pose proof (entry_text_length e txt Hl) as Hel.
    destruct (log_printf_run p s1 (out ++ extra) (entry_text (e_level e) (e_sec e) (e_usec e) txt))
      as (s2 & Hrun2 & Hlog2 & [Hq1 Hq2 Hq3]); [done|rewrite length_app; lia|done|].
    exists (up_counter (e_seq e) s2). split; [|split_and!; [cbn; congruence|cbn; congruence|done|]].
    + intros k. unfold consume_entry. rewrite (M_bind_eq _ _ _ c s) by done.
      rewrite (M_bind_eq _ _ _ _ _ (Hrun k)), Hskip, bool_decide_false by tauto.
      rewrite (M_bind_eq _ _ _ (u_total s1) s1) by done. cbn [level ts_nsec seq_no].
      rewrite (s32_id (e_level e)) by lia. fold (e_sec e) (e_usec e).
      by rewrite (M_bind_eq _ _ _ _ _ Hrun2).
    + rewrite <-Hextra, (assoc_L (++)). by destruct Hlog2.
  - exists s1. assert (extra = []) as ->.
    { rewrite Hextra. destruct (Z.gtb_spec (e_seq e) (c + 1)); [|done]. exfalso. apply Hold. right. lia. }
    rewrite app_nil_r in Hlog1. split_and!; [|done|done|done|done].
    intros k. unfold consume_entry. rewrite (M_bind_eq _ _ _ c s) by done.
    by rewrite (M_bind_eq _ _ _ _ _ (Hrun k)), Hskip, bool_decide_true.
Qed.

(** A line that has been read: it is parsed after suppression, and its text goes on
    to [consume_entry] unless it is the program's own marker. *)
Lemma consume_line_run p s out l e tail :
  logged p s out → entry_ok (line_buffer_size p) e → u_line s = entry_line e ++ tail →
  ∃ txt line' k s1,
    suppressed (e_text e) txt ∧
    consume_line p false l (Z.of_nat (length (entry_line e))) s =
      (if wrote_start_marker l && strstr (txt ++ [10]) LOG_MARKER_START
       then Ret (Stop l, up_line line' true s1)
       else consume_entry p false l
              {| level := e_level e; seq_no := e_seq e; ts_nsec := e_ts e; text := k |} (txt ++ [10]) s1) ∧
    logged p s1 out ∧ u_counter s1 = u_counter s ∧ u_line s1 = line' ∧ u_valid s1 = false.
Proof.
  intros [Ht Htxt Hsz Hln] Hok Hline. pose proof (eo_fits _ _ Hok) as Hfits.
  assert (6 ≤ length tail)%nat as Htail by (rewrite Hline, length_app in Hln; lia).
  destruct (suppress_run (entry_line e) tail s Htail) as (l' & tail' & s1 & Hrun & Hs & [K1 K2 K3 K4 K5 K6 K7] & Hlen).
  destruct (suppressed_line _ _ _ Hok Hs) as (extra & txt & -> & Hst & Hex & Htx).
  pose proof (suppressed_length _ _ Hs) as Hle.
  destruct tail' as [|x tail']; [rewrite !length_app in Hlen; simpl in Hlen; lia|].
  destruct (parse_line_run (e_level e) (e_seq e) (e_ts e) (44 :: extra) txt x tail')
    as (line' & Hparse & Hl' & Hstr);
    [apply Hok|pose proof (eo_seq _ _ Hok); lia|apply Hok|done|apply not_digit_cons; unfold is_digit; lia|done|].
  exists txt, line', (text_at (e_level e) (e_seq e) (e_ts e) (44 :: extra)), (up_line line' false s1).
  assert (length line' = length (u_line s)) as Hll.
  { rewrite Hl', Hline, <-Hlen, !length_app. done. }
  split_and!; [done| |split; cbn; [by rewrite K4|by rewrite K3|by rewrite K3|by rewrite Hll]|by cbn|done|done].
  unfold consume_line. rewrite (M_bind_eq _ _ _ (u_line s) s) by done. rewrite Hline.
  rewrite (M_bind_eq _ _ _ _ _ Hrun).
  rewrite (M_bind_eq _ _ _ tt (up_line (kernel_line (e_level e) (e_seq e) (e_ts e) (44 :: extra) txt ++ x :: tail') false s1)) by done.
  rewrite Hparse, M_bind_lift.
  rewrite (M_bind_eq _ _ _ tt (up_line line' false s1)) by done. cbn [text]. rewrite Hstr, M_bind_lift.
  by destruct (_ && _).
Qed.

(** A read that delivers an entry, before the start marker is written. *)
Lemma consume_data_run p s out all c e :
  logged p s out → u_counter s = c → 0 < c < 2 ^ 64 - 1 → upload_all p = all →
  entry_ok (line_buffer_size p) e →
  Z.of_nat (length out) + cost e < log_buffer_size p → log_buffer_size p < 2 ^ 32 →
  ∀ l, wrote_start_marker l = false →
  ∃ s' add c', consume_event p false l (KData (entry_line e)) s = Ret (Continue l, s') ∧
    logged p s' (out ++ add) ∧ u_counter s' = c' ∧ u_valid s' = false ∧ Z.of_nat (length add) ≤ cost e ∧
    (∀ es rest cn, collects all c' es rest cn → collects all c (e :: es) (add ++ rest) cn).
Proof.
  intros Hlog Hcs Hc Hall Hok Hfit H32 l Hl. pose proof Hlog as [Ht Htxt Hsz Hln].
  pose proof (eo_fits _ _ Hok) as Hfits. unfold cost in *.
  set (s0 := up_line (entry_line e ++ drop (length (entry_line e)) (u_line s)) false s).
  assert (logged p s0 out) as Hlog0.
  { split; cbn; [done|done|done|]. rewrite length_app, length_drop. lia. }
  destruct (consume_line_run p s0 out l e (drop (length (entry_line e)) (u_line s)) Hlog0 Hok eq_refl)
    as (txt & line' & k & s1 & Hs & Hrun & Hlog1 & Hc1 & _ & Hv1).
  pose proof (suppressed_length _ _ Hs) as Hle.
  destruct (consume_entry_run p s1 out l e (txt ++ [10]) all Hlog1) as (s2 & Hrun2 & _ & Hv2 & Hcase);
    [rewrite Hc1; cbn; lia|done|apply Hok|pose proof (eo_seq _ _ Hok); lia|rewrite length_app; simpl; lia|done|].
  assert (consume_event p false l (KData (entry_line e)) s = Ret (Continue l, s2)) as Hev.
  { unfold consume_event. rewrite (M_bind_eq _ _ _ (u_line s) s) by done.
    rewrite decide_True by lia. rewrite M_bind_lift. rewrite (M_bind_eq _ _ _ tt s0) by done.
    rewrite Hrun, Hl. cbn [andb]. apply Hrun2. }
  rewrite Hc1 in Hcase. change (u_counter s0) with (u_counter s) in Hcase. rewrite Hcs in Hcase.
  destruct (decide (all = true ∨ c < e_seq e)) as [Hup|Hold]; destruct Hcase as [Hc2 Hlog2].
  - exists s2, ((if e_seq e >? c + 1 then missed_text (e_sec e) (e_usec e) (e_seq e - c - 1) else []) ++
                entry_text (e_level e) (e_sec e) (e_usec e) (txt ++ [10])), (e_seq e).
    split_and!; [done|done|done|by rewrite Hv2| |].
    + rewrite length_app. pose proof (entry_text_length e (txt ++ [10]) (eo_level _ _ Hok)) as Hel.
      rewrite length_app in Hel. cbn [length] in Hel.
      pose proof (eo_seq _ _ Hok).
      destruct (Z.gtb_spec (e_seq e) (c + 1)); [|cbn [length]; lia].
      pose proof (missed_text_length e (e_seq e - c - 1) ltac:(lia)). lia.
    + intros es rest cn Hr. rewrite <-!(assoc_L (++)). by apply col_entry.
  - exists s2, [], c. rewrite app_nil_r. split_and!; [done|done|done|by rewrite Hv2|simpl; lia|].
    intros es rest cn Hr. apply col_old; [|lia|done]. destruct all; [|done]. exfalso. apply Hold. by left.
Qed.

(** ** The start marker *)

(** What the log and the line hold is the same. *)
Record same_logs (s s' : uploader) : Prop := {
  sl_log : u_log s' = u_log s;
  sl_total : u_total s' = u_total s;
  sl_counter : u_counter s' = u_counter s;
  sl_line : u_line s' = u_line s;
  sl_valid : u_valid s' = u_valid s;
}.

Lemma same_logs_logged p s s' out : same_logs s s' → logged p s out → logged p s' out.
Proof. intros [E1 E2 _ E4 _] []. split; congruence. Qed.

Lemma on_world_run {A} (m : W A) s a w :
  m (u_world s) = Ret (a, w) → ∃ s', on_world m s = Ret (a, s') ∧ same_logs s s' ∧ u_world s' = w ∧ u_ticks s' = u_ticks s.
Proof. intros Hm. exists (up_world w s). unfold on_world. by rewrite Hm. Qed.

Lemma cstr_app_tail s rest : cstr (s ++ NUL :: rest) = cstr (s ++ [NUL]).
Proof.
  induction s as [|c s IH]; [done|]. rewrite <-!app_comm_cons. cbn [cstr].
  destruct (decide (c = NUL)); [done|]. by rewrite IH.
Qed.

(** The system never reads more than was asked for, and writes the kernel log in
    full. *)
Record kmsg_ok (p : log_params) : Prop := {
  km_read : ∀ f n, read_result f n ≤ n;
  km_open : open_write (dev_kmsg_path p) = true;
  km_write : ∀ n, write_result (dev_kmsg_path p) n = n;
}.

Lemma write_to_file_run p data w : kmsg_ok p →
  ∃ w', write_to_file (dev_kmsg_path p) data w = Ret (Z.of_nat (length data), w').
Proof.
  intros [_ Ho Hw]. unfold write_to_file. rewrite Ho, Hw.
  unfold content, mbind, M_bind, gets, modify, mret, M_ret.
  destruct (Z.ltb_spec (Z.of_nat (length data)) (Z.of_nat (length data))); [lia|]. by eexists.
Qed.

Lemma logmark_once_run p s : kmsg_ok p →
  ∃ s', logmark_once (dev_kmsg_path p) (version_path p) (ntp_synced_path p) s = Ret (0, s') ∧ same_logs s s'.
Proof.
  intros Hk. unfold logmark_once.
  destruct (read_file_run (version_path p) (replicate 64 0) (u_world s)) as (n & arr & w' & Hr & _ & _ & Harr);
    [simpl; lia|apply Hk|]. rewrite length_replicate in Hr, Harr.
  destruct (on_world_run _ s _ _ Hr) as (s1 & Hrun1 & [E1 E2 E3 E4 E5] & _). rewrite (M_bind_eq _ _ _ _ _ Hrun1).
  set (version := if n <? 0 then lit "unknown-version" ++ [NUL] else default [] (Some arr)).
  assert (∃ v, cstr version = Ret v) as [v Hv].
  { unfold version. destruct (file_bytes (version_path p) 64 (u_world s)) as [bs|].
    - destruct Harr as (-> & rest & ->). destruct (Z.ltb_spec (Z.of_nat (length bs)) 0); [lia|].
      eexists. apply nul_text_cstr.
    - subst n. by eexists. }
  destruct (rstrip_run version v Hv) as (vrest & -> & _). rewrite M_bind_lift.
  rewrite nul_text_cstr, M_bind_lift. set (v3 := nul_text (rstripped v)).
  rewrite (M_bind_eq _ _ _ (u_ticks s1) s1) by done. rewrite (M_bind_eq _ _ _ tt (up_tick s1)) by done.
  destruct (write_to_file_run p (take 1023 (logmark_text v3 (u_ticks s1) (path_exists (ntp_synced_path p))))
    (u_world (up_tick s1)) Hk) as [w2 Hw2].
  destruct (on_world_run _ (up_tick s1) _ _ Hw2) as (s2 & Hrun2 & [F1 F2 F3 F4 F5] & _).
  rewrite (M_bind_eq _ _ _ _ _ Hrun2).
  destruct (Z.ltb_spec (Z.of_nat (length (take 1023 (logmark_text v3 (u_ticks s1) (path_exists (ntp_synced_path p)))))) 0); [lia|].
  exists s2. split; [done|]. simpl in *. split; congruence.
Qed.

Lemma consume_again_run p s l :
  kmsg_ok p → wrote_start_marker l = false →
  ∃ s', consume_event p false l KAgain s =
      Ret (Continue (Scan true (last_start_marker l) (last_start_before_end_marker l)), s') ∧ same_logs s s'.
Proof.
  intros Hk Hl. unfold consume_event. rewrite Hl.
  destruct (write_to_file_run p LOG_MARKER_START_LINE (u_world s) Hk) as [w1 Hw1].
  destruct (on_world_run _ s _ _ Hw1) as (s1 & Hrun1 & [E1 E2 E3 E4 E5] & _). rewrite (M_bind_eq _ _ _ _ _ Hrun1).
  destruct (Z.ltb_spec (Z.of_nat (length LOG_MARKER_START_LINE)) 0); [lia|].
  destruct (logmark_once_run p s1 Hk) as (s2 & Hrun2 & [F1 F2 F3 F4 F5]). rewrite (M_bind_eq _ _ _ _ _ Hrun2).
  exists s2. split; [done|]. split; congruence.
Qed.

(** ** The loop *)

Lemma room_ok p s out :
  logged p s out → Z.of_nat (length out) + 2 * line_buffer_size p < log_buffer_size p →
  log_buffer_size p < 2 ^ 32 → (log_buffer_size p <=? ulong (u_total s + 2 * line_buffer_size p)) = false.
Proof.
  intros [Ht _ _ Hln] Hroom H32. rewrite Ht, ulong_id by lia. apply Z.leb_gt. lia.
Qed.

(** The reads up to the one that finds nothing. *)
Lemma consume_loop_run p all evs es : delivers evs es → ∀ s out c l rest,
  logged p s out → u_counter s = c → 0 < c < 2 ^ 64 - 1 → upload_all p = all →
  Forall (entry_ok (line_buffer_size p)) es → wrote_start_marker l = false →
  Z.of_nat (length out) + costs es + 2 * line_buffer_size p < log_buffer_size p →
  log_buffer_size p < 2 ^ 32 →
  ∃ s' add c', consume_loop p false l (evs ++ rest) s = consume_loop p false l rest s' ∧
    logged p s' (out ++ add) ∧ u_counter s' = c' ∧ collects all c es add c' ∧
    Z.of_nat (length add) ≤ costs es.
Proof.
  induction 1 as [|e evs es _ IH|evs es _ IH|evs es _ IH];
    intros s out c l rest Hlog Hcs Hc Hall Hok Hl Hfit H32.
  - exists s, [], c. rewrite app_nil_r. split_and!; [done|done|done|constructor|simpl; lia].
  - apply Forall_cons in Hok as [He Hes]. cbn [costs foldr] in Hfit. fold (costs es) in Hfit.
    pose proof (costs_nonneg es).
    assert (0 ≤ line_buffer_size p) as Hlb by (destruct Hlog; lia).
    assert (0 ≤ cost e) as Hce by (unfold cost; lia).
    destruct (consume_data_run p s out all c e Hlog Hcs Hc Hall He) with (l := l)
      as (s1 & add1 & c1 & Hrun & Hlog1 & Hc1 & _ & Hadd & Hcol); [lia|lia|done|].
    assert (0 < c1 < 2 ^ 64 - 1) as Hc1r.
    { specialize (Hcol [] [] c1 (col_nil _ _)). inversion Hcol as [|? ? ? ? ? _ _ Hn|? ? ? ? ? ? _ _ Hn]; subst;
        inversion Hn; subst; [lia|]. apply He. }
    destruct (IH s1 (out ++ add1) c1 l rest) as (s2 & add2 & c2 & Hrun2 & Hlog2 & Hc2 & Hcol2 & Hadd2);
      [done|done|done|done|done|done|rewrite length_app; lia|done|].
    exists s2, (add1 ++ add2), c2. split_and!; [|by rewrite (assoc_L (++))|done|by apply Hcol|].
    + rewrite <-Hrun2. cbn [app consume_loop]. rewrite (M_bind_eq _ _ _ (u_total s) s) by done.
      rewrite (room_ok p s out) by (done || lia). by rewrite (M_bind_eq _ _ _ _ _ Hrun).
    + rewrite length_app. cbn [costs foldr]. fold (costs es). lia.
  - pose proof (costs_nonneg es).
    destruct (IH s out c l rest) as (s2 & add2 & c2 & Hrun2 & ?); [done..|].
    exists s2, add2, c2. split; [|done]. rewrite <-Hrun2. cbn [app consume_loop].
    rewrite (M_bind_eq _ _ _ (u_total s) s) by done. by rewrite (room_ok p s out) by (done || lia).
  - pose proof (costs_nonneg es).
    destruct (on_world_run (perror (lit "kernel memory possibly corrupted, devkmsg_read")) s tt
      (add_error (lit "kernel memory possibly corrupted, devkmsg_read") (u_world s)) eq_refl) as (s1 & Hrun1 & Hsl & _).
    destruct (IH s1 out c l rest) as (s2 & add2 & c2 & Hrun2 & ?); [by eapply same_logs_logged|destruct Hsl; congruence|done..|].
    exists s2, add2, c2. split; [|done]. rewrite <-Hrun2. cbn [app consume_loop].
    rewrite (M_bind_eq _ _ _ (u_total s) s) by done. rewrite (room_ok p s out) by (done || lia).
    unfold consume_event. rewrite M_bind_unfold, (M_bind_eq _ _ _ _ _ Hrun1). done.
Qed.

(** C2: The uploader collects the log exactly once.  Starting from the counter of the
    last upload, with room in the buffer, on any sequence of reads that delivers
    entries (with interruptions that are to be ignored) until nothing is left, and
    then the program's own start marker: the result is the start of the buffer, which
    holds, for each entry newer than the last one uploaded and in order, the entry
    with its MAC addresses suppressed, preceded by a warning where entries are
    missing; older entries are skipped unless all are wanted, the counter is that of
    the last entry collected, and the marker's line is kept for the next time. *)
Theorem consume_collects p evs es lvl seq ts extra rest s :
  delivers evs es → Forall (entry_ok (line_buffer_size p)) es →
  entry_ok (line_buffer_size p) (Entry lvl seq ts extra LOG_MARKER_START) →
  kmsg_ok p → u_valid s = false → 0 < u_counter s < 2 ^ 64 - 1 →
  Z.of_nat (length (u_line s)) = line_buffer_size p →
  costs es + 2 * line_buffer_size p < log_buffer_size p < Z.of_nat (length (u_log s)) →
  log_buffer_size p < 2 ^ 32 →
  ∃ s' out c', parse_and_consume_log_data p
      (evs ++ KAgain :: KData (entry_line (Entry lvl seq ts extra LOG_MARKER_START)) :: rest) s = Ret (Some (Some 0), s') ∧
    collects (upload_all p) (u_counter s) es out c' ∧
    u_total s' = Z.of_nat (length out) ∧ cstr (u_log s') = cstr (out ++ [NUL]) ∧ take (length out) (u_log s') = out ∧
    u_counter s' = c' ∧ u_valid s' = true.
Proof.
  intros Hdel Hok Hmark Hk Hv Hc Hln Hfit H32. pose proof (costs_nonneg es).
  set (s0 := up_log (u_log s) 0 s).
  assert (logged p s0 []) as Hlog0 by (split; cbn; [done|done|lia|done]).
  set (l := Scan false None None).
  set (mk := Entry lvl seq ts extra LOG_MARKER_START).
  destruct (consume_loop_run p (upload_all p) evs es Hdel s0 [] (u_counter s) l (KAgain :: KData (entry_line mk) :: rest))
    as (s1 & out & c' & Hrun & Hlog1 & Hc1 & Hcol & Hlen); [done|done|done|done|done|done|cbn [length]; lia|done|].
  cbn [app] in Hlog1.
  destruct (consume_again_run p s1 l Hk eq_refl) as (s2 & Hrun2 & Hsl).
  pose proof (same_logs_logged p s1 s2 out Hsl Hlog1) as Hlog2.
  set (l2 := Scan true None None).
  pose proof (eo_fits _ _ Hmark) as Hmf. fold mk in Hmf.
  pose proof Hlog2 as [G1 G2 G3 G4].
  set (s3 := up_line (entry_line mk ++ drop (length (entry_line mk)) (u_line s2)) false s2).
  assert (logged p s3 out) as Hlog3.
  { split; cbn; [done|done|done|]. rewrite length_app, length_drop. lia. }
  destruct (consume_line_run p s3 out l2 mk (drop (length (entry_line mk)) (u_line s2)) Hlog3 Hmark eq_refl)
    as (txt & line' & k & s4 & Hs & Hrun4 & Hlog4 & Hc4 & _ & _).
  assert (txt = LOG_MARKER_START) as ->.
  { apply suppressed_id; [exact Hs|]. intros i. cbn [e_text mk].
    destruct (decide (i < 2)%nat) as [Hi|Hi]; [by destruct i as [|[|]]; [..|lia]|].
    apply mac_short. rewrite length_drop. unfold LOG_MARKER_START. simpl. lia. }
  change (wrote_start_marker l2 && strstr (LOG_MARKER_START ++ [10]) LOG_MARKER_START) with true in Hrun4.
  pose proof Hlog4 as [J1 J2 J3 J4].
  exists (up_log (<[length out := NUL]> (u_log s4)) (u_total s4) (up_line line' true s4)), out, c'.
  assert (take (length out) (<[length out := NUL]> (u_log s4)) = out) as Htake
    by (by rewrite take_insert_ge by lia).
  split_and!; [|done|done| |done|change (u_counter s4 = c'); rewrite Hc4; destruct Hsl; change (u_counter s2 = c'); congruence|done].
  - unfold parse_and_consume_log_data. rewrite (M_bind_eq _ _ _ (u_counter s) s) by done.
    destruct (Z.eqb_spec (u_counter s) 0); [lia|].
    rewrite (M_bind_eq _ _ _ (u_log s) s), (M_bind_eq _ _ _ tt s0) by done.
    rewrite (M_bind_eq _ _ _ false s0) by (unfold gets; cbn; by rewrite Hv).
    rewrite (M_bind_eq _ _ _ (u_line s0) s0) by done. cbn [andb]. fold l mk.
    rewrite (M_bind_eq _ _ _ (Some (Stop l2)) (up_line line' true s4)).
    2:{ rewrite Hrun. cbn [consume_loop]. rewrite (M_bind_eq _ _ _ (u_total s1) s1) by done.
        rewrite (room_ok p s1 out) by (done || lia). rewrite (M_bind_eq _ _ _ _ _ Hrun2).
        rewrite (M_bind_eq _ _ _ (u_total s2) s2) by done. rewrite (room_ok p s2 out) by (done || lia).
        fold l2. rewrite (M_bind_eq _ _ _ (Stop l2) (up_line line' true s4)); [done|].
        unfold consume_event. rewrite (M_bind_eq _ _ _ (u_line s2) s2) by done.
        rewrite decide_True by lia. rewrite M_bind_lift. by rewrite (M_bind_eq _ _ _ tt s3) by done. }
    rewrite (M_bind_eq _ _ _ (u_log s4) (up_line line' true s4)) by done.
    rewrite (M_bind_eq _ _ _ (u_total s4) (up_line line' true s4)) by done.
    rewrite J1, buf_set_in_range by lia. rewrite M_bind_lift, Nat2Z.id. by rewrite <-J1.
  - cbn [u_log up_log]. rewrite <-(take_drop_middle (<[length out := NUL]> (u_log s4)) (length out) NUL).
    + rewrite Htake. apply cstr_app_tail.
    + apply list_lookup_insert_eq. lia.
Qed.
End collect.

Definition demo_wall : Wall :=
  {| urandom := []; time_now := 0; wall_sec := λ _, 1500000000; wall_nsec := λ _, 0; wall_tm := λ _, (6, 14, 2, 40, 0) |}.
Definition demo_params : log_params :=
  {| dev_kmsg_path := lit "/dev/kmsg"; version_path := lit "/etc/version"; ntp_synced_path := lit "/tmp/ntp.synced";
     line_buffer_size := 100; log_buffer_size := 1000; upload_all := false |}.
Definition demo_old : entry := Entry 6 5 1000000 [] (lit "seen").
Definition demo_new : entry := Entry 4 8 2500000 (lit "-") (lit "sta f8:8f:ca:00:00:01").
Definition demo_reads : list kmsg_event := [KData (entry_line demo_old); KPipe; KData (entry_line demo_new)].
Definition demo_collector : uploader :=
  up_line (replicate 100 0) false (up_log (replicate 1001 0) 0 demo_uploader).

Ltac solve_entry :=
  split; try (cbn; lia); try (by apply (bool_decide_unpack _); vm_compute); apply (bool_decide_unpack _); by vm_compute.

Lemma consume_collects_witness :
  ∃ s' out c', @parse_and_consume_log_data lp64 demo_os demo_hmac demo_stat demo_wall demo_params
      (demo_reads ++ KAgain :: KData (entry_line (Entry 7 9 3000000 [] LOG_MARKER_START)) :: []) demo_collector
      = Ret (Some (Some 0), s') ∧
    collects false 5 [demo_old; demo_new] out c' ∧
    u_total s' = Z.of_nat (length out) ∧ cstr (u_log s') = cstr (out ++ [NUL]) ∧ take (length out) (u_log s') = out ∧
    u_counter s' = c' ∧ u_valid s' = true.
Proof.
  apply (@consume_collects lp64 demo_os demo_hmac demo_hmac_laws demo_stat demo_wall demo_params demo_reads
    [demo_old; demo_new] 7 9 3000000 [] [] demo_collector).
  - repeat constructor.
  - apply Forall_cons. split; [solve_entry|]. apply Forall_cons. split; [solve_entry|done].
  - solve_entry.
  - by split.
  - done.
  - cbn. lia.
  - done.
  - vm_compute. done.
  - done.
Defined.
