(* ===== verification/KvExtract.v ===== *)
(** * What the log uploader tells about the device: logupload/client/kvextract.c

    A linked list of keys and values: the model and the serial number from two files,
    the addresses of the interfaces of interest, and the log's type.  The list is
    allocated pair by pair, and freed when something fails half way. *)

From S2P Require Import Prelude LogUtils.
From stdpp Require Import gmap.
Open Scope Z_scope.

Definition MAX_KV_LENGTH : nat := 128.
Definition KV_OK : Z := 0.
Definition KV_FAIL : Z := -1.
Definition KV_NOTHING : Z := 1.

(** A pair is an allocated block; [next_pair] is the order of the list. *)
Record kvpair := KvPair {
  kv_addr : addr;
  key : bytes;
  value : bytes;
}.

(** The files and stderr, the calls of malloc so far, and the blocks not freed. *)
Record extractor := Extractor {
  ex_world : world;
  ex_heap : heap;
  ex_live : gset addr;
}.
Abbreviation X := (M extractor).
Definition with_world (w : world) (s : extractor) : extractor := Extractor w (ex_heap s) (ex_live s).
Definition with_live (l : gset addr) (s : extractor) : extractor := Extractor (ex_world s) (ex_heap s) l.

(** An address of getifaddrs: its family and the rest of it. *)
Record ifaddr := IfAddr {
  ifa_name : bytes;
  ifa_addr : option (Z * bytes);
}.
Definition AF_INET : Z := 2.
Definition AF_INET6 : Z := 10.
Definition sizeof_sockaddr_in : Z := 16.
Definition sizeof_sockaddr_in6 : Z := 28.

(** The parameters; the two functions give a result and the string they store. *)
Record kvextractparams := {
  interfaces_to_check : list bytes;
  ifaddrs : list ifaddr;
  platform_path : bytes;
  serial_path : bytes;
  logtype : option bytes;
  name_info_resolver : Z * bytes → Z → Z → Z * bytes;
  interface_to_mac : bytes → Z → Z * bytes;
}.

(** The library's text for a failure of getnameinfo. *)
Class GaiStrerror := gai_strerror : Z → bytes.

Section extract.
Context `{!Os, !Allocator, !GaiStrerror}.

Definition on_files {A} (m : W A) : X A := fun s =>
  '(a, w) ← m (ex_world s); Ret (a, with_world w s).
Definition complain (what : bytes) : X unit := on_files (perror what).

(** [malloc(sizeof(struct kvpair))] followed by the memset. *)
Definition new_pair : X (option kvpair) := fun s =>
  let '(a, h) := malloc (ex_heap s) in
  match a with
  | Some a => Ret (Some (KvPair a (replicate MAX_KV_LENGTH 0) (replicate MAX_KV_LENGTH 0)),
                   Extractor (ex_world s) h ({[a]} ∪ ex_live s))
  | None => Ret (None, Extractor (ex_world s) h (ex_live s))
  end.

(** Freeing a block that is not allocated is undefined. *)
Definition free_pair (a : addr) : X unit := fun s =>
  if decide (a ∈ ex_live s) then Ret (tt, with_live (ex_live s ∖ {[a]}) s) else Ub.

Fixpoint free_kv_pairs (pairs : list kvpair) : X unit :=
  match pairs with
  | [] => mret tt
  | p :: next_pair => free_pair (kv_addr p);; free_kv_pairs next_pair
  end.

(** [pair] is the address of a pointer, or NULL; the result is the code and the
    pointer afterwards. *)
Definition get_pair_from_file (filepath : option bytes) (key : bytes)
    (pair : option (option kvpair)) : X (Z * option (option kvpair)) :=
  match pair with
  | None => mret (KV_FAIL, None)
  | Some _ =>
      p ← new_pair;
      match p with
      | None => complain (lit "failed allocating kvpair buffer");; mret (KV_FAIL, Some None)
      | Some p =>
          '(len, v) ← on_files (read_file_as_string filepath (Some (value p)) (Z.of_nat MAX_KV_LENGTH));
          if len <? 0 then
            free_pair (kv_addr p);; mret (KV_NOTHING, Some None)
          else
            v ← lift (rstrip (default [] v));
            (if decide (length key < MAX_KV_LENGTH)%nat then mret tt else stuck);;   (* assert *)
            k ← lift (strcpy (KvExtract.key p) key);
            mret (KV_OK, Some (Some (KvPair (kv_addr p) k v)))
      end
  end.

(** A string stored by a function that was given the room [n]. *)
Definition store (arr : bytes) (n : nat) (txt : bytes) : outcome bytes :=
  if decide (length txt < n)%nat then strcpy arr txt else Ub.

(** The loop over the interfaces for one address, up to its [break]. *)
Fixpoint address_of (p : kvextractparams) (family : Z) (a : ifaddr) (sa : Z * bytes)
    (ifs : list bytes) (pairs : list kvpair) : X (option (list kvpair)) :=
  match ifs with
  | [] => mret (Some pairs)
  | i :: ifs =>
      if decide (ifa_name a = i) then
        n ← new_pair;
        match n with
        | None =>
            complain (lit "failed allocating kvpair buffer");; free_kv_pairs pairs;; mret None
        | Some n =>
            let '(rv, host) := name_info_resolver p sa
              (if family =? AF_INET then sizeof_sockaddr_in else sizeof_sockaddr_in6)
              (Z.of_nat MAX_KV_LENGTH) in
            if rv =? 0 then
              v ← lift (store (value n) MAX_KV_LENGTH host);
              k ← lift (strcpy (key n) (if family =? AF_INET then lit "ip" else lit "ip6"));
              mret (Some (pairs ++ [KvPair (kv_addr n) k v]))
            else
              complain (lit "getnameinfo(): " ++ gai_strerror rv);;
              free_kv_pairs (pairs ++ [n]);; mret None
        end
      else address_of p family a sa ifs pairs
  end.

Fixpoint addresses (p : kvextractparams) (ifas : list ifaddr) (pairs : list kvpair)
    : X (option (list kvpair)) :=
  match ifas with
  | [] => mret (Some pairs)
  | a :: ifas =>
      match ifa_addr a with
      | None => addresses p ifas pairs
      | Some (family, rest) =>
          if (family =? AF_INET) || (family =? AF_INET6) then
            r ← address_of p family a (family, rest) (interfaces_to_check p) pairs;
            match r with None => mret None | Some pairs => addresses p ifas pairs end
          else addresses p ifas pairs
      end
  end.

(** A pair with the given texts at the end of the list. *)
Definition add_pair (pairs : list kvpair) (k v : bytes) : X (option (list kvpair)) :=
  n ← new_pair;
  match n with
  | None =>
      complain (lit "failed allocating memory for kvpair");; free_kv_pairs pairs;; mret None
  | Some n =>
      k ← lift (strcpy (key n) k);
      v ← lift (strcpy (value n) v);
      mret (Some (pairs ++ [KvPair (kv_addr n) k v]))
  end.

Fixpoint mac_addresses (p : kvextractparams) (ifs : list bytes) (pairs : list kvpair)
    : X (option (list kvpair)) :=
  match ifs with
  | [] => mret (Some pairs)
  | i :: ifs =>
      let '(rv, mac) := interface_to_mac p i 32 in
      if rv =? 0 then
        mac_buf ← lift (store (replicate 32 0) 32 mac);
        mac ← lift (cstr mac_buf);
        r ← add_pair pairs (lit "hw") mac;
        match r with None => mret None | Some pairs => mac_addresses p ifs pairs end
      else mac_addresses p ifs pairs
  end.

Definition add_logtype (p : kvextractparams) (pairs : list kvpair) : X (option (list kvpair)) :=
  match logtype p with
  | Some t => if strlen t >? 0 then add_pair pairs (lit "logtype") t else mret (Some pairs)
  | None => mret (Some pairs)
  end.

Definition extract_kv_pairs (p : kvextractparams) : X (option (list kvpair)) :=
  '(rv, slot) ← get_pair_from_file (Some (platform_path p)) (lit "model") (Some None);
  match negb (rv =? KV_OK), slot with
  | false, Some (Some model) =>
      '(rv, slot) ← get_pair_from_file (Some (serial_path p)) (lit "serial") (Some None);
      match negb (rv =? KV_OK), slot with
      | false, Some (Some serial) =>
          r ← addresses p (ifaddrs p) [model; serial];
          match r with
          | None => mret None
          | Some pairs =>
              r ← mac_addresses p (interfaces_to_check p) pairs;
              match r with None => mret None | Some pairs => add_logtype p pairs end
          end
      | _, _ =>
          complain (lit "failed getting kv for " ++ serial_path p);;
          free_kv_pairs [model];; mret None
      end
  | _, _ => complain (lit "failed getting kv for " ++ platform_path p);; mret None
  end.
End extract.

(** ** What the list holds *)

Definition pair_text (p : kvpair) : bytes * bytes := (nul_text (key p), nul_text (value p)).

Section spec.
Context `{!Os}.

(** The text of a file of one line. *)
Definition file_text (p : bytes) (w : world) : option bytes :=
  rstripped ∘ nul_text <$> file_bytes p MAX_KV_LENGTH w.

(** The addresses of the interfaces of interest, in the order of getifaddrs. *)
Definition ip_texts (p : kvextractparams) : list ifaddr → list (bytes * bytes) :=
  flat_map (λ a,
    match ifa_addr a with
    | Some (family, rest) =>
        if ((family =? AF_INET) || (family =? AF_INET6)) && bool_decide (ifa_name a ∈ interfaces_to_check p)
        then [(if family =? AF_INET then lit "ip" else lit "ip6",
               nul_text (name_info_resolver p (family, rest)
                 (if family =? AF_INET then sizeof_sockaddr_in else sizeof_sockaddr_in6) 128).2)]
        else []
    | None => []
    end).
Definition mac_texts (p : kvextractparams) : list bytes → list (bytes * bytes) :=
  flat_map (λ i, if (interface_to_mac p i 32).1 =? 0 then [(lit "hw", nul_text (interface_to_mac p i 32).2)] else []).
Definition logtype_texts (p : kvextractparams) : list (bytes * bytes) :=
  match logtype p with Some (c :: t) => [(lit "logtype", nul_text (c :: t))] | _ => [] end.

Definition device_texts (p : kvextractparams) (w : world) : option (list (bytes * bytes)) :=
  model ← file_text (platform_path p) w;
  serial ← file_text (serial_path p) w;
  Some ((lit "model", model) :: (lit "serial", serial) ::
        ip_texts p (ifaddrs p) ++ mac_texts p (interfaces_to_check p) ++ logtype_texts p).
End spec.

(** What the callers of the two functions and of the extraction keep to. *)
Record params_ok (p : kvextractparams) : Prop := {
  po_resolver sa len : (length (name_info_resolver p sa len 128).2 < 128)%nat;
  po_mac i : (length (interface_to_mac p i 32).2 < 32)%nat;
  po_logtype t : logtype p = Some t → (length t < 128)%nat;
}.

(** Nothing fails that may fail. *)
Definition healthy `{!Allocator} (p : kvextractparams) : Prop :=
  (∀ n, malloc_ok n = true) ∧ ∀ sa len, (name_info_resolver p sa len 128).1 = 0.

(** The blocks of the list are allocated once each, beside those of [L]. *)
Record owns (L : gset addr) (pairs : list kvpair) (s : extractor) : Prop := {
  ow_live : ex_live s = L ∪ list_to_set (kv_addr <$> pairs);
  ow_dup : NoDup (kv_addr <$> pairs);
  ow_fresh : ∀ a, a ∈ kv_addr <$> pairs → a ∉ L;
  ow_bound : ∀ a, a ∈ ex_live s → (a < ex_heap s)%nat;
}.

Lemma owns_same L pairs s s' :
  ex_live s' = ex_live s → ex_heap s' = ex_heap s → owns L pairs s → owns L pairs s'.
Proof. intros Hl Hh [H1 H2 H3 H4]. split; [congruence|done|done|]. rewrite Hl, Hh. exact H4. Qed.

Lemma owns_addrs L pairs pairs' s :
  kv_addr <$> pairs' = kv_addr <$> pairs → owns L pairs s → owns L pairs' s.
Proof. intros Ha [H1 H2 H3 H4]. split; by rewrite ?Ha. Qed.

Section facts.
Context `{!Os, !Allocator, !GaiStrerror}.
Context (read_le : ∀ f n, read_result f n ≤ n).

Lemma complain_run what s : complain what s = Ret (tt, with_world (add_error what (ex_world s)) s).
Proof. done. Qed.

Lemma new_pair_run L pairs s : owns L pairs s →
  (∃ s', new_pair s = Ret (None, s') ∧ ex_world s' = ex_world s ∧ owns L pairs s' ∧ ¬ (∀ n, malloc_ok n = true)) ∨
  (∃ a s', new_pair s = Ret (Some (KvPair a (replicate 128 0) (replicate 128 0)), s') ∧ ex_world s' = ex_world s ∧
    ∀ k v, owns L (pairs ++ [KvPair a k v]) s').
Proof.
  intros [G1 G2 G3 G4]. unfold new_pair, malloc. destruct (malloc_ok (ex_heap s)) eqn:E.
  - right. eexists (ex_heap s), _. split; [done|]. split; [done|]. intros k v.
    assert (ex_heap s ∉ ex_live s) as Hn by (intros Hin; apply G4 in Hin; lia).
    rewrite G1 in Hn. split; cbn [ex_live ex_heap].
    + rewrite fmap_app, list_to_set_app_L, G1. simpl. set_solver.
    + rewrite fmap_app. apply NoDup_app. split; [done|]. split; [|apply NoDup_singleton].
      intros a Ha Hin%list_elem_of_singleton. simpl in Hin. subst a. apply Hn.
      apply elem_of_union_r. by apply elem_of_list_to_set.
    + intros a. rewrite fmap_app. intros [Ha|Ha%list_elem_of_singleton]%elem_of_app; [by apply G3|].
      simpl in Ha. subst a. set_solver.
    + intros a [->%elem_of_singleton|Ha]%elem_of_union; [lia|]. apply G4 in Ha. lia.
  - left. eexists. split; [done|]. split; [done|]. split; [|intros Hok; by rewrite Hok in E].
    split; cbn; [done|done|done|]. intros a Ha%G4. lia.
Qed.

(** Freeing the list gives back its blocks and nothing else. *)
Lemma free_kv_pairs_run L pairs : ∀ s, owns L pairs s →
  ∃ s', free_kv_pairs pairs s = Ret (tt, s') ∧ ex_live s' = L ∧ ex_world s' = ex_world s.
Proof.
  induction pairs as [|p pairs IH]; intros s [G1 G2 G3 G4].
  - exists s. split_and!; [done|set_solver|done].
  - cbn [free_kv_pairs]. rewrite fmap_cons in *. apply NoDup_cons in G2 as [Hn G2].
    rewrite (M_bind_eq _ _ _ tt (with_live (ex_live s ∖ {[kv_addr p]}) s)).
    2:{ unfold free_pair. rewrite decide_True; [done|]. rewrite G1. set_solver. }
    apply (IH (with_live (ex_live s ∖ {[kv_addr p]}) s)).
    assert (kv_addr p ∉ L) as HL by (apply G3; set_solver).
    split; cbn [ex_live with_live ex_heap]; [|done|set_solver|set_solver].
    rewrite G1. apply set_eq. intros a. simpl.
    rewrite elem_of_difference, !elem_of_union, elem_of_singleton, elem_of_list_to_set. split.
    + intros [[?|[?|?]] ?]; [by left|done|by right].
    + intros [Ha|Ha]; (split; [tauto|]); intros ->; done.
Qed.

(** What every step promises: a longer list, or nothing and nothing leaked. *)
Definition extends (p : kvextractparams) (L : gset addr) (pairs : list kvpair) (txts : list (bytes * bytes))
    (w : world) (r : option (list kvpair)) (s' : extractor) : Prop :=
  match r with
  | Some pairs' => owns L pairs' s' ∧ pair_text <$> pairs' = (pair_text <$> pairs) ++ txts ∧
                   files (ex_world s') = files w
  | None => ex_live s' = L ∧ ¬ healthy p
  end.

Lemma fail_live L pairs what s : owns L pairs s →
  ∃ s', (complain what;; free_kv_pairs pairs;; mret (@None (list kvpair))) s = Ret (None, s') ∧ ex_live s' = L.
Proof.
  intros Ho. rewrite (M_bind_eq _ _ _ _ _ (complain_run what s)).
  destruct (free_kv_pairs_run L pairs (with_world (add_error what (ex_world s)) s)) as (s' & Hrun & Hl & _);
    [by eapply owns_same; [..|exact Ho]|].
  exists s'. by rewrite (M_bind_eq _ _ _ _ _ Hrun).
Qed.

Lemma fail_run p L pairs pairs0 txts w what s : owns L pairs s → ¬ healthy p →
  ∃ s', (complain what;; free_kv_pairs pairs;; mret (@None (list kvpair))) s = Ret (None, s') ∧
    extends p L pairs0 txts w None s'.
Proof.
  intros Ho Hn. destruct (fail_live L pairs what s Ho) as (s' & Hrun & Hl). by exists s'.
Qed.

Lemma strcpy_field s : (length s < 128)%nat →
  ∃ arr, strcpy (replicate 128 0) s = Ret arr ∧ nul_text arr = nul_text s.
Proof.
  intros Hs. rewrite strcpy_run by (rewrite length_replicate; lia). eexists. split; [done|].
  apply nul_text_app_nul.
Qed.

Lemma add_pair_run p L pairs k v s : owns L pairs s → (length k < 128)%nat → (length v < 128)%nat →
  ∃ r s', add_pair pairs k v s = Ret (r, s') ∧
    extends p L pairs [(nul_text k, nul_text v)] (ex_world s) r s'.
Proof.
  intros Ho Hk Hv. unfold add_pair.
  destruct (new_pair_run L pairs s Ho) as [(s1 & Hrun & _ & Ho1 & Hn)|(a & s1 & Hrun & Hw & Ho1)];
    rewrite (M_bind_eq _ _ _ _ _ Hrun).
  - destruct (fail_run p L pairs pairs [(nul_text k, nul_text v)] (ex_world s)
      (lit "failed allocating memory for kvpair") s1) as (s2 & Hrun2 & He); [done|by intros [? _]|].
    by exists None, s2.
  - cbn [key value]. destruct (strcpy_field k Hk) as (ka & -> & Hka). destruct (strcpy_field v Hv) as (va & -> & Hva).
    rewrite !M_bind_lift. eexists (Some _), s1. split; [done|]. split_and!; [apply Ho1| |by rewrite Hw].
    rewrite fmap_app. simpl. unfold pair_text at 2. cbn [key value]. by rewrite Hka, Hva.
Qed.

Lemma extends_nil p L pairs s : owns L pairs s → extends p L pairs [] (ex_world s) (Some pairs) s.
Proof. intros Ho. split_and!; [done|by rewrite app_nil_r|done]. Qed.

Lemma extends_trans p L pairs txts w pairs1 txts1 r s1 s2 :
  extends p L pairs txts w (Some pairs1) s1 → extends p L pairs1 txts1 (ex_world s1) r s2 →
  extends p L pairs (txts ++ txts1) w r s2.
Proof.
  intros (Ho & Ht & Hf). destruct r as [pairs2|]; [|done]. intros (Ho2 & Ht2 & Hf2).
  split_and!; [done|by rewrite Ht2, Ht, <-(assoc_L (++))|congruence].
Qed.

(** One address of an interface: its text when the interface is of interest. *)
Definition address_texts (p : kvextractparams) (family : Z) (a : ifaddr) (sa : Z * bytes) (ifs : list bytes) :
    list (bytes * bytes) :=
  if bool_decide (ifa_name a ∈ ifs)
  then [(if family =? AF_INET then lit "ip" else lit "ip6",
         nul_text (name_info_resolver p sa
           (if family =? AF_INET then sizeof_sockaddr_in else sizeof_sockaddr_in6) 128).2)]
  else [].

Lemma address_of_run p L family a sa ifs : params_ok p → ∀ pairs s, owns L pairs s →
  ∃ r s', address_of p family a sa ifs pairs s = Ret (r, s') ∧
    extends p L pairs (address_texts p family a sa ifs) (ex_world s) r s'.
Proof.
  intros Hp pairs s Ho. unfold address_texts. induction ifs as [|i ifs IH].
  { exists (Some pairs), s. split; [done|]. by apply extends_nil. }
  cbn [address_of]. destruct (decide (ifa_name a = i)) as [Heq|Hne].
  2:{ rewrite (bool_decide_ext (ifa_name a ∈ i :: ifs) (ifa_name a ∈ ifs)); [exact IH|].
      rewrite elem_of_cons. naive_solver. }
  clear IH. rewrite bool_decide_true by (rewrite Heq; by left).
  set (len := if family =? AF_INET then sizeof_sockaddr_in else sizeof_sockaddr_in6).
  set (txts := [(if family =? AF_INET then lit "ip" else lit "ip6", nul_text (name_info_resolver p sa len 128).2)]).
  destruct (new_pair_run L pairs s Ho) as [(s1 & Hrun & _ & Ho1 & Hn)|(ad & s1 & Hrun & Hw & Ho1)];
    rewrite (M_bind_eq _ _ _ _ _ Hrun).
  - destruct (fail_run p L pairs pairs txts (ex_world s) (lit "failed allocating kvpair buffer") s1)
      as (s2 & Hrun2 & He); [done|by intros [? _]|]. by exists None, s2.
  - fold len. change (Z.of_nat MAX_KV_LENGTH) with 128. pose proof (po_resolver p Hp sa len) as Hl.
    subst txts. destruct (name_info_resolver p sa len 128) as [rv host] eqn:E. cbn [snd] in *.
    destruct (Z.eqb_spec rv 0) as [->|Hrv].
    + unfold store. rewrite decide_True by done. cbn [key value].
      destruct (strcpy_field host Hl) as (va & -> & Hva).
      destruct (strcpy_field (if family =? AF_INET then lit "ip" else lit "ip6")) as (ka & -> & Hka);
        [destruct (family =? AF_INET); simpl; lia|].
      rewrite !M_bind_lift. eexists (Some _), s1. split; [done|]. split_and!; [apply Ho1| |by rewrite Hw].
      rewrite fmap_app. cbn [fmap list_fmap]. unfold pair_text at 2. cbn [key value]. rewrite Hka, Hva.
      by destruct (family =? AF_INET).
    + destruct (fail_run p L (pairs ++ [KvPair ad (replicate 128 0) (replicate 128 0)]) pairs
        [(if family =? AF_INET then lit "ip" else lit "ip6", nul_text host)] (ex_world s)
        (lit "getnameinfo(): " ++ gai_strerror rv) s1) as (s2 & Hrun2 & He);
        [apply Ho1|intros [_ Hr]; specialize (Hr sa len); by rewrite E in Hr|].
      by exists None, s2.
Qed.

Lemma addresses_run p L ifas : params_ok p → ∀ pairs s, owns L pairs s →
  ∃ r s', addresses p ifas pairs s = Ret (r, s') ∧ extends p L pairs (ip_texts p ifas) (ex_world s) r s'.
Proof.
  intros Hp. induction ifas as [|a ifas IH]; intros pairs s Ho.
  { exists (Some pairs), s. split; [done|]. by apply extends_nil. }
  cbn [addresses ip_texts flat_map]. fold (ip_texts p ifas).
  destruct (ifa_addr a) as [[family rest]|]; [|by apply IH].
  destruct ((family =? AF_INET) || (family =? AF_INET6)); [|by apply IH]. cbn [andb].
  destruct (address_of_run p L family a (family, rest) (interfaces_to_check p) Hp pairs s Ho) as (r & s1 & Hrun & He).
  rewrite (M_bind_eq _ _ _ _ _ Hrun). unfold address_texts in He.
  destruct r as [pairs1|]; [|by exists None, s1].
  destruct (IH pairs1 s1) as (r2 & s2 & Hrun2 & He2); [apply He|]. exists r2, s2. split; [done|].
  by eapply extends_trans.
Qed.

Lemma mac_addresses_run p L ifs : params_ok p → ∀ pairs s, owns L pairs s →
  ∃ r s', mac_addresses p ifs pairs s = Ret (r, s') ∧ extends p L pairs (mac_texts p ifs) (ex_world s) r s'.
Proof.
  intros Hp. induction ifs as [|i ifs IH]; intros pairs s Ho.
  { exists (Some pairs), s. split; [done|]. by apply extends_nil. }
  cbn [mac_addresses mac_texts flat_map]. fold (mac_texts p ifs). pose proof (po_mac p Hp i) as Hm.
  destruct (interface_to_mac p i 32) as [rv mac]. cbn [fst snd] in *.
  destruct (rv =? 0); [|by apply IH].
  unfold store. rewrite decide_True, strcpy_run by (rewrite ?length_replicate; lia).
  rewrite M_bind_lift, nul_text_cstr, M_bind_lift. pose proof (nul_text_length mac).
  destruct (add_pair_run p L pairs (lit "hw") (nul_text mac) s Ho) as (r & s1 & Hrun & He); [simpl; lia|lia|].
  rewrite (M_bind_eq _ _ _ _ _ Hrun). rewrite (nul_text_id (nul_text mac)) in He by apply nul_text_nonul.
  change (nul_text (lit "hw")) with (lit "hw") in He.
  destruct r as [pairs1|]; [|by exists None, s1].
  destruct (IH pairs1 s1) as (r2 & s2 & Hrun2 & He2); [apply He|]. exists r2, s2. split; [done|].
  by eapply (extends_trans p L pairs _ (ex_world s) pairs1 _ r2 s1 s2 He).
Qed.

Lemma add_logtype_run p L pairs s : params_ok p → owns L pairs s →
  ∃ r s', add_logtype p pairs s = Ret (r, s') ∧ extends p L pairs (logtype_texts p) (ex_world s) r s'.
Proof.
  intros Hp Ho. unfold add_logtype, logtype_texts. pose proof (po_logtype p Hp) as Hl.
  destruct (logtype p) as [[|c t]|].
  - exists (Some pairs), s. split; [done|]. by apply extends_nil.
  - apply (add_pair_run p L pairs (lit "logtype") (c :: t) s Ho); [simpl; lia|by apply Hl].
  - exists (Some pairs), s. split; [done|]. by apply extends_nil.
Qed.

Lemma free_last L pairs n s : owns L (pairs ++ [n]) s →
  ∃ s', free_pair (kv_addr n) s = Ret (tt, s') ∧ owns L pairs s'.
Proof.
  intros [G1 G2 G3 G4]. rewrite fmap_app in *. simpl in *.
  apply NoDup_app in G2 as (G2 & Hd & _).
  assert (kv_addr n ∉ L) as Hn by (apply G3; set_solver).
  assert (kv_addr n ∉ kv_addr <$> pairs) as Hn2 by (intros Hin; apply (Hd _ Hin); set_solver).
  rewrite list_to_set_app_L in G1. simpl in G1.
  exists (with_live (ex_live s ∖ {[kv_addr n]}) s). split.
  - unfold free_pair. rewrite decide_True; [done|]. rewrite G1. set_solver.
  - split; cbn [ex_live with_live ex_heap]; [|done|set_solver|set_solver].
    rewrite G1. apply set_eq. intros a.
    rewrite elem_of_difference, !elem_of_union, !elem_of_singleton, elem_of_list_to_set.
    destruct (decide (a = kv_addr n)) as [->|]; [|set_solver]. tauto.
Qed.

(** The first pairs: a file's text under a key. *)
Lemma get_pair_run p L path k pairs s : owns L pairs s → (length k < 128)%nat →
  (∃ rv slot s', get_pair_from_file (Some path) k (Some None) s = Ret ((rv, slot), s') ∧ rv ≠ KV_OK ∧
     owns L pairs s' ∧ (healthy p → file_text path (ex_world s) = None)) ∨
  (∃ n s' txt, get_pair_from_file (Some path) k (Some None) s = Ret ((KV_OK, Some (Some n)), s') ∧
     owns L (pairs ++ [n]) s' ∧ files (ex_world s') = files (ex_world s) ∧
     file_text path (ex_world s) = Some txt ∧ pair_text n = (nul_text k, txt)).
Proof.
  intros Ho Hk. cbn [get_pair_from_file].
  destruct (new_pair_run L pairs s Ho) as [(s1 & Hrun & Hw & Ho1 & Hn)|(ad & s1 & Hrun & Hw & Ho1)];
    rewrite (M_bind_eq _ _ _ _ _ Hrun).
  { left. eexists _, _, _. split; [done|]. split; [done|]. split; [|by intros [? _]].
    by eapply owns_same; [..|exact Ho1]. }
  cbn [key value kv_addr]. unfold file_text. rewrite <-Hw.
  destruct (read_file_run path (replicate 128 0) (ex_world s1)) as (rv & arr & w' & Hread & Hfiles & Hlen & Hb);
    [simpl; lia|done|]. change (Z.of_nat (length (replicate 128 0))) with (Z.of_nat MAX_KV_LENGTH) in Hread.
  change (length (replicate 128 0)) with MAX_KV_LENGTH in Hb, Hlen.
  rewrite (M_bind_eq _ _ _ (rv, Some arr) (with_world w' s1)) by (unfold on_files; by rewrite Hread).
  destruct (file_bytes path MAX_KV_LENGTH (ex_world s1)) as [bs|] eqn:E.
  - destruct Hb as [-> (rest & ->)]. destruct (Z.ltb_spec (Z.of_nat (length bs)) 0); [lia|].
    change (default [] (Some (bs ++ NUL :: rest))) with (bs ++ NUL :: rest).
    destruct (rstrip_run (bs ++ NUL :: rest) (nul_text bs)) as (rest' & -> & _); [apply nul_text_cstr|].
    rewrite M_bind_lift. rewrite decide_True by (unfold MAX_KV_LENGTH; lia).
    destruct (strcpy_field k Hk) as (ka & Hka & Htk). right.
    eexists (KvPair ad ka _), (with_world w' s1), _.
    split; [by unfold mret at 1, M_ret; rewrite M_bind_unfold, Hka|]. split_and!; [|done|done|].
    + apply (owns_same L _ s1); [done|done|]. apply Ho1.
    + unfold pair_text. cbn [key value]. rewrite Htk, nul_text_app_nul. f_equal. apply nul_text_id.
      apply rstripped_Forall, nul_text_nonul.
  - subst rv. left.
    destruct (free_last L pairs (KvPair ad (replicate 128 0) (replicate 128 0)) (with_world w' s1))
      as (s2 & Hfree & Ho2); [by eapply owns_same; [..|apply Ho1]|].
    eexists _, _, s2. cbn [Z.ltb Z.compare]. rewrite (M_bind_eq _ _ _ _ _ Hfree). done.
Qed.

Lemma file_text_files path w w' : files w' = files w → file_text path w' = file_text path w.
Proof. intros Hf. unfold file_text, file_bytes. by rewrite Hf. Qed.

(** The part after the two files. *)
Lemma extract_rest_run p L pairs s : params_ok p → owns L pairs s →
  ∃ r s', (r ← addresses p (ifaddrs p) pairs;
           match r with
           | None => mret None
           | Some pairs =>
               r ← mac_addresses p (interfaces_to_check p) pairs;
               match r with None => mret None | Some pairs => add_logtype p pairs end
           end) s = Ret (r, s') ∧
    extends p L pairs (ip_texts p (ifaddrs p) ++ mac_texts p (interfaces_to_check p) ++ logtype_texts p)
      (ex_world s) r s'.
Proof.
  intros Hp Ho.
  destruct (addresses_run p L (ifaddrs p) Hp pairs s Ho) as (r1 & s1 & Hrun1 & He1).
  rewrite (M_bind_eq _ _ _ _ _ Hrun1). destruct r1 as [pairs1|]; [|by exists None, s1].
  destruct (mac_addresses_run p L (interfaces_to_check p) Hp pairs1 s1) as (r2 & s2 & Hrun2 & He2); [apply He1|].
  rewrite (M_bind_eq _ _ _ _ _ Hrun2). destruct r2 as [pairs2|]; [|by exists None, s2].
  destruct (add_logtype_run p L pairs2 s2 Hp) as (r3 & s3 & Hrun3 & He3); [apply He2|].
  exists r3, s3. split; [done|]. eapply extends_trans; [done|]. by eapply extends_trans.
Qed.

(** C30: The pairs are complete, and nothing leaks.  Whatever fails on the way
    (an allocation, a file, the text of an address), [extract_kv_pairs] comes back
    without touching memory it does not own, and what it has allocated and not
    freed is exactly the list it returns.  The list it returns holds the model, the
    serial number, every address of the interfaces of interest in the system's
    order, their hardware addresses and the log's type; it returns NULL only when an
    allocation or a resolution may fail or one of the two files cannot be read. *)
Theorem extract_kv_pairs_complete p s :
  params_ok p → (∀ a, a ∈ ex_live s → (a < ex_heap s)%nat) →
  ∃ r s', extract_kv_pairs p s = Ret (r, s') ∧
    match r with
    | Some pairs => device_texts p (ex_world s) = Some (pair_text <$> pairs) ∧ owns (ex_live s) pairs s'
    | None => ex_live s' = ex_live s ∧ (healthy p → device_texts p (ex_world s) = None)
    end.
Proof.
  intros Hp Hs. set (L := ex_live s). unfold extract_kv_pairs, device_texts.
  assert (owns L [] s) as Ho by (split; [simpl; set_solver|constructor|set_solver|done]).
  destruct (get_pair_run p L (platform_path p) (lit "model") [] s Ho) as
    [(rv & slot & s1 & Hrun & Hrv & Ho1 & Hn)|(model & s1 & m & Hrun & Ho1 & Hf1 & Hm & Htm)];
    [simpl; lia| |]; rewrite (M_bind_eq _ _ _ _ _ Hrun).
  { destruct (Z.eqb_spec rv KV_OK); [done|]. cbn [negb]. rewrite (M_bind_eq _ _ _ _ _ (complain_run _ s1)).
    eexists None, _. split; [by destruct slot as [[]|]|]. split; [|intros Hh; by rewrite (Hn Hh)].
    destruct Ho1 as [G1 _ _ _]. cbn. rewrite G1. simpl. set_solver. }
  rewrite Z.eqb_refl. cbn [negb].
  destruct (get_pair_run p L (serial_path p) (lit "serial") [model] s1 Ho1) as
    [(rv & slot & s2 & Hrun2 & Hrv & Ho2 & Hn)|(serial & s2 & sn & Hrun2 & Ho2 & Hf2 & Hsn & Hts)];
    [simpl; lia| |]; rewrite (M_bind_eq _ _ _ _ _ Hrun2).
  { destruct (Z.eqb_spec rv KV_OK); [done|]. cbn [negb].
    destruct (fail_live L [model] (lit "failed getting kv for " ++ serial_path p) s2 Ho2) as (s3 & Hrun3 & Hl3).
    exists None, s3. split; [by destruct slot as [[]|]|]. split; [done|]. intros Hh. rewrite Hm.
    cbn [mbind option_bind]. by rewrite <-(file_text_files _ _ _ Hf1), (Hn Hh). }
  rewrite Z.eqb_refl. cbn [negb].
  destruct (extract_rest_run p L [model; serial] s2 Hp Ho2) as (r & s3 & Hrun3 & He).
  exists r, s3. split; [exact Hrun3|]. destruct r as [pairs|].
  - destruct He as (Ho3 & Ht & _). split; [|done]. rewrite Hm. cbn [mbind option_bind].
    rewrite <-(file_text_files _ _ _ Hf1), Hsn. cbn [mbind option_bind]. rewrite Ht.
    cbn [fmap list_fmap app]. by rewrite Htm, Hts.
  - destruct He as [Hl Hn]. by split.
Qed.
End facts.

#[local] Existing Instance demo_os.
Definition demo_kvparams : kvextractparams :=
  {| interfaces_to_check := [lit "br0"; lit "man"];
     ifaddrs := [IfAddr (lit "lo") (Some (AF_INET, [127; 0; 0; 1])); IfAddr (lit "man") None;
                 IfAddr (lit "man") (Some (AF_INET6, [0; 1])); IfAddr (lit "br0") (Some (AF_INET, [10; 0; 0; 7]))];
     platform_path := lit "/tmp/platform"; serial_path := lit "/tmp/serial"; logtype := Some (lit "test");
     name_info_resolver := λ sa _ _, (0, if sa.1 =? AF_INET then lit "10.0.0.7" else lit "::1");
     interface_to_mac := λ i _, (if bool_decide (i = lit "br0") then 0 else -1, lit "f8:8f:ca:00:00:01") |}.
Definition demo_extractor : extractor :=
  Extractor {| files := {[ lit "/tmp/platform" := lit "GFHD100" ++ [10]; lit "/tmp/serial" := lit "42 " ++ [10] ]}; errors := [] |} 7 {[ 3%nat ]}.

Lemma extract_kv_pairs_complete_witness :
  ∃ r s', @extract_kv_pairs demo_os (λ n, negb (Nat.eqb n 11)) (λ _, []) demo_kvparams demo_extractor = Ret (r, s') ∧
    match r with
    | Some pairs => device_texts demo_kvparams (ex_world demo_extractor) = Some (pair_text <$> pairs) ∧
                    owns (ex_live demo_extractor) pairs s'
    | None => ex_live s' = ex_live demo_extractor ∧
              (@healthy (λ n, negb (Nat.eqb n 11)) demo_kvparams → device_texts demo_kvparams (ex_world demo_extractor) = None)
    end.
Proof.
  apply (@extract_kv_pairs_complete demo_os (λ n, negb (Nat.eqb n 11)) (λ _, [])).
  - intros f n. cbn. lia.
  - split.
    + intros [f r] len. cbn. destruct (f =? AF_INET); cbn; lia.
    + intros i. cbn. lia.
    + intros t [= <-]. cbn. lia.
  - intros a Ha. cbn in Ha. apply elem_of_singleton in Ha as ->. cbn. lia.
Defined.

(** With memory, the list of the example. *)
Example demo_pairs :
  match @extract_kv_pairs demo_os (λ _, true) (λ _, []) demo_kvparams demo_extractor with
  | Ret (Some pairs, _) => pair_text <$> pairs
  | _ => []
  end = [(lit "model", lit "GFHD100"); (lit "serial", lit "42"); (lit "ip6", lit "::1");
         (lit "ip", lit "10.0.0.7"); (lit "hw", lit "f8:8f:ca:00:00:01"); (lit "logtype", lit "test")].
Proof. vm_compute. reflexivity. Qed.
