(* ===== verification/Upload.v ===== *)
(** * Sending the log: logupload/client/upload.c

    The server is asked for an address to post to, and the data is posted there
    as a form, first over IPv6 and then over IPv4.  libcurl is a parameter: what
    its calls answer, and how it calls back for data. *)

From S2P Require Import Prelude LogUtils KvExtract.
From stdpp Require Import gmap.
Open Scope Z_scope.

Definition DEVICE_KEY_PATH : bytes := lit "/tmp/ssl/private/device.key".
Definition DEVICE_CERT_PATH : bytes := lit "/tmp/ssl/certs/device.pem".
Definition FORM_DATA_SPLITTER_PREFIX : bytes := lit "foo-splitter-".

Record getdatamem := GetData {
  memory : bytes;            (* 4096 bytes *)
  used_size : Z;
}.

Record postdatamem := PostData {
  content_type : bytes;      (* 128 bytes *)
  blob : bytes;
  data_prefix : bytes;       (* 128 bytes *)
  data_postfix : bytes;      (* 64 bytes *)
  prefix_offset : Z;
  prefix_length : Z;
  postfix_offset : Z;
  postfix_length : Z;
  blob_offset : Z;
  blob_length : Z;
}.
Definition with_offsets (a b c : Z) (p : postdatamem) : postdatamem :=
  PostData (content_type p) (blob p) (data_prefix p) (data_postfix p)
    a (prefix_length p) c (postfix_length p) b (blob_length p).

(** ** The callbacks *)

Section callbacks.
Context `{!CPlatform}.

Definition too_much_text (realsize used : Z) : bytes :=
  lit "curl sent back more data than fits in our buffer  outsize=4096 usedsize=" ++ dec (ulong (realsize + used)).

(** [my_write_callback]: the result, the buffer, and whether it complains. *)
Definition my_write_callback (contents : bytes) (size nmemb : Z) (memp : getdatamem)
    : outcome (Z * (getdatamem * option bytes)) :=
  let realsize := ulong (size * nmemb) in
  if ulong (realsize + used_size memp) >? Z.of_nat (length (memory memp)) then
    Ret (0, (memp, Some (too_much_text realsize (used_size memp))))
  else
    let at_ := Z.to_nat (used_size memp) in
    let n := Z.to_nat realsize in
    if decide (n ≤ length contents ∧ at_ + n ≤ length (memory memp))%nat then
      let m := take at_ (memory memp) ++ take n contents ++ drop (at_ + n) (memory memp) in
      let used := ulong (used_size memp + realsize) in
      m ← buf_set m used NUL;
      Ret (realsize, (GetData m used, None))
    else Ub.

(** One of the three parts: at most [realsize] bytes from [off] on. *)
Definition copy_part (arr : bytes) (off len realsize : Z) : outcome (bytes * Z) :=
  let xfer_size := ulong (len - off) in
  let xfer_size := if xfer_size >? realsize then realsize else xfer_size in
  if decide (0 ≤ off ∧ off + xfer_size ≤ Z.of_nat (length arr)) then
    Ret (take (Z.to_nat xfer_size) (drop (Z.to_nat off) arr), xfer_size)
  else Ub.

(** [my_read_callback]: the result, what it puts in the buffer, and the offsets. *)
Definition my_read_callback (size nitems : Z) (p : postdatamem) : outcome (Z * (bytes * postdatamem)) :=
  let realsize := ulong (size * nitems) in
  '(b1, n1) ← (if prefix_offset p <? prefix_length p
               then copy_part (data_prefix p) (prefix_offset p) (prefix_length p) realsize
               else Ret ([], 0));
  let realsize := ulong (realsize - n1) in
  '(b2, n2) ← (if (realsize >? 0) && (blob_offset p <? blob_length p)
               then copy_part (blob p) (blob_offset p) (blob_length p) realsize
               else Ret ([], 0));
  let realsize := ulong (realsize - n2) in
  '(b3, n3) ← (if (realsize >? 0) && (postfix_offset p <? postfix_length p)
               then copy_part (data_postfix p) (postfix_offset p) (postfix_length p) realsize
               else Ret ([], 0));
  let realsize := ulong (realsize - n3) in
  Ret (ulong (ulong (size * nitems) - realsize),
       (b1 ++ b2 ++ b3,
        with_offsets (sword (prefix_offset p + n1)) (sword (blob_offset p + n2)) (sword (postfix_offset p + n3)) p)).
End callbacks.

(** ** libcurl *)

Inductive curl_option :=
  | CURLOPT_URL (url : bytes) | CURLOPT_USERAGENT (s : bytes) | CURLOPT_IPRESOLVE (v : Z)
  | CURLOPT_FOLLOWLOCATION (v : Z) | CURLOPT_SSL_VERIFYPEER (v : Z) | CURLOPT_SSL_VERIFYHOST (v : Z)
  | CURLOPT_TIMEOUT (v : Z) | CURLOPT_SSLKEY (s : bytes) | CURLOPT_SSLCERT (s : bytes)
  | CURLOPT_HTTPGET (v : Z) | CURLOPT_WRITEFUNCTION | CURLOPT_WRITEDATA
  | CURLOPT_POST (v : Z) | CURLOPT_READFUNCTION | CURLOPT_READDATA | CURLOPT_POSTFIELDSIZE (v : Z)
  | CURLOPT_HTTPHEADER (headers : list bytes).
Definition CURL_IPRESOLVE_V4 : Z := 1.
Definition CURL_IPRESOLVE_V6 : Z := 2.
Definition CURLE_OK : Z := 0.
Definition CURLE_WRITE_ERROR : Z := 23.

(** The calls made to the library, in order, with the success of the two
    initialisations. *)
Inductive curl_call :=
  | Global_init (ok : bool) | Global_cleanup
  | Easy_init (ok : bool) | Easy_cleanup | Easy_escape (s : bytes) | Easy_reset
  | Easy_setopt (o : curl_option)
  | Slist_append (s : bytes)
  | Perform_get
  | Perform_post (sent : bytes).       (* what the read callback gave *)

(** What the library answers, given the calls so far. *)
Class Curl := {
  global_init : list curl_call → Z;
  easy_init_ok : list curl_call → bool;
  easy_escape : list curl_call → bytes → option bytes;
  easy_setopt : list curl_call → curl_option → Z;
  slist_append_ok : list curl_call → bool;
  (** the deliveries (size, nmemb and contents) of a GET, and its result when none is refused *)
  get_transfer : list curl_call → list (Z * Z * bytes) * Z;
  (** the requests for data (size and nitems) of a POST, and its result *)
  post_transfer : list curl_call → list (Z * Z) * Z;
  response_code : list curl_call → Z;
  easy_strerror : Z → bytes;
  time_null : list curl_call → Z;
}.

(** The two buffers, the calls and the messages. *)
Record sender := Sender {
  sn_get : getdatamem;
  sn_post : postdatamem;
  sn_calls : list curl_call;
  sn_errors : list bytes;
}.
Abbreviation C := (M sender).
Definition sn_call (c : curl_call) (s : sender) : sender :=
  Sender (sn_get s) (sn_post s) (sn_calls s ++ [c]) (sn_errors s).
Definition sn_error (e : bytes) (s : sender) : sender :=
  Sender (sn_get s) (sn_post s) (sn_calls s) (sn_errors s ++ [e]).
Definition with_get (g : getdatamem) (s : sender) : sender :=
  Sender g (sn_post s) (sn_calls s) (sn_errors s).
Definition with_post (p : postdatamem) (s : sender) : sender :=
  Sender (sn_get s) p (sn_calls s) (sn_errors s).

(** The list of headers: NULL, a list, or one that has been freed. *)
Inductive slist := NoHeaders | Headers (l : list bytes) | Freed.

Section curl.
Context `{!CPlatform, !Os, !Curl}.

Definition call (c : curl_call) : C unit := modify (sn_call c).
Definition report (e : bytes) : C unit := modify (sn_error e).

(** The macro SET_CURL_OPT: on an error it frees the headers and goes on. *)
Definition SET_CURL_OPT (h : slist) (name : bytes) (o : curl_option) : C slist :=
  before ← gets sn_calls;
  call (Easy_setopt o);;
  let res := easy_setopt before o in
  if res =? CURLE_OK then mret h
  else
    report (lit "failed to set curl option " ++ name ++ lit ": " ++ easy_strerror res ++ lit " (" ++ dec res ++ lit ")");;
    match h with NoHeaders => mret NoHeaders | Headers _ => mret Freed | Freed => stuck end.

(** [curl_slist_append]: NULL on an error *)
Definition slist_append (h : slist) (s : bytes) : C (option slist) :=
  match h with
  | Freed => stuck
  | _ =>
      before ← gets sn_calls;
      call (Slist_append s);;
      if slist_append_ok before
      then mret (Some (Headers (match h with Headers l => l | _ => [] end ++ [s]))) else mret None
  end.
Definition slist_free_all (h : slist) : C unit := match h with Freed => stuck | _ => mret tt end.

(** The deliveries of a GET: one that is not taken in full ends the transfer. *)
Fixpoint deliver (ds : list (Z * Z * bytes)) (res : Z) : C Z :=
  match ds with
  | [] => mret res
  | (size, nmemb, contents) :: ds =>
      g ← gets sn_get;
      '(n, (g, e)) ← lift (my_write_callback contents size nmemb g);
      modify (with_get g);;
      (match e with Some e => report e | None => mret tt end);;
      if n =? ulong (size * nmemb) then deliver ds res else mret CURLE_WRITE_ERROR
  end.

(** The data a POST asks for. *)
Fixpoint ask (asks : list (Z * Z)) : C bytes :=
  match asks with
  | [] => mret []
  | (size, nitems) :: asks =>
      p ← gets sn_post;
      '(n, (bs, p)) ← lift (my_read_callback size nitems p);
      modify (with_post p);;
      rest ← ask asks;
      mret (bs ++ rest)
  end.

(** [curl_easy_perform] *)
Definition perform (post : bool) : C Z :=
  before ← gets sn_calls;
  if post then
    let '(asks, res) := post_transfer before in
    sent ← ask asks;
    call (Perform_post sent);; mret res
  else
    let '(ds, res) := get_transfer before in
    r ← deliver ds res;
    call Perform_get;; mret r.

(** The options common to both requests, up to the certificate. *)
Definition common_options (server_url : bytes) (ipv : Z) (h : slist) : C slist :=
  h ← SET_CURL_OPT h (lit "CURLOPT_URL") (CURLOPT_URL server_url);
  h ← SET_CURL_OPT h (lit "CURLOPT_USERAGENT") (CURLOPT_USERAGENT (lit "upload-logs"));
  h ← SET_CURL_OPT h (lit "CURLOPT_IPRESOLVE") (CURLOPT_IPRESOLVE ipv);
  h ← SET_CURL_OPT h (lit "CURLOPT_FOLLOWLOCATION") (CURLOPT_FOLLOWLOCATION 0);
  h ← SET_CURL_OPT h (lit "CURLOPT_SSL_VERIFYPEER") (CURLOPT_SSL_VERIFYPEER 1);
  h ← SET_CURL_OPT h (lit "CURLOPT_SSL_VERIFYHOST") (CURLOPT_SSL_VERIFYHOST 2);
  h ← SET_CURL_OPT h (lit "CURLOPT_TIMEOUT") (CURLOPT_TIMEOUT 60);
  h ← (if negb (path_exists DEVICE_KEY_PATH =? 0)
       then SET_CURL_OPT h (lit "CURLOPT_SSLKEY") (CURLOPT_SSLKEY DEVICE_KEY_PATH) else mret h);
  if negb (path_exists DEVICE_CERT_PATH =? 0)
  then SET_CURL_OPT h (lit "CURLOPT_SSLCERT") (CURLOPT_SSLCERT DEVICE_CERT_PATH) else mret h.

(** The options of the GET, or of the POST; [None] is its early return. *)
Definition method_options (post : bool) (h : slist) : C (option slist) :=
  if post then
    h ← SET_CURL_OPT h (lit "CURLOPT_POST") (CURLOPT_POST 1);
    h ← SET_CURL_OPT h (lit "CURLOPT_READFUNCTION") CURLOPT_READFUNCTION;
    h ← SET_CURL_OPT h (lit "CURLOPT_READDATA") CURLOPT_READDATA;
    p ← gets sn_post;
    h ← SET_CURL_OPT h (lit "CURLOPT_POSTFIELDSIZE")
          (CURLOPT_POSTFIELDSIZE (sword (prefix_length p + blob_length p + postfix_length p)));
    ct ← lift (cstr (content_type p));
    r ← slist_append h ct;
    match r with
    | None =>
        report (lit "failed setting up curl headers");; slist_free_all h;; mret None
    | Some h =>
        modify (λ s, with_post (with_offsets 0 0 0 (sn_post s)) s);; mret (Some h)
    end
  else
    h ← SET_CURL_OPT h (lit "CURLOPT_HTTPGET") (CURLOPT_HTTPGET 1);
    h ← SET_CURL_OPT h (lit "CURLOPT_WRITEFUNCTION") CURLOPT_WRITEFUNCTION;
    h ← SET_CURL_OPT h (lit "CURLOPT_WRITEDATA") CURLOPT_WRITEDATA;
    mret (Some h).

Definition header_list (h : slist) : list bytes := match h with Headers l => l | _ => [] end.

(** [do_request_via_ipv]: the result and [http_code]; [post] says which of the two
    buffers is given. *)
Definition do_request_via_ipv (server_url : bytes) (post : bool) (ipv http_code : Z) : C (Z * Z) :=
  call Easy_reset;;
  h ← common_options server_url ipv NoHeaders;
  r ← slist_append h (lit "Expect:");
  match r with
  | None => report (lit "failed setting up curl headers");; mret (-1, http_code)
  | Some h =>
      r ← method_options post h;
      match r with
      | None => mret (-1, http_code)
      | Some h =>
          h ← SET_CURL_OPT h (lit "CURLOPT_HTTPHEADER") (CURLOPT_HTTPHEADER (header_list h));
          (* a freed list is read by the transfer *)
          (match h with Freed => stuck | _ => mret tt end);;
          curl_res ← perform post;
          slist_free_all h;;
          http_code ← gets (response_code ∘ sn_calls);
          if negb (curl_res =? CURLE_OK) then
            report (lit "request failed: " ++ easy_strerror curl_res ++ lit " (" ++ dec curl_res ++ lit ")");;
            mret (-1, 599)
          else if http_code =? 200 then
            if negb post then mret (0, http_code)
            else report (lit "received a 200 response for a POST request");; mret (-1, http_code)
          else if (http_code =? 302) && post then mret (0, http_code)
          else mret (-1, http_code)
      end
  end.

(** ** The upload *)

(** [while (target_name[0] == '/') target_name++;] *)
Fixpoint strip_slashes (s : bytes) : bytes :=
  match s with c :: t => if c =? 47 then strip_slashes t else s | [] => [] end.

(** One step of the loop that adds the parameters to the URL; [None] when a text
    cannot be escaped. *)
Definition add_parameter (url : bytes) (kv : kvpair) (last : bool) : C (option bytes) :=
  k ← lift (cstr (key kv));
  before ← gets sn_calls;
  call (Easy_escape k);;
  match easy_escape before k with
  | None => report (lit "failure in curl_easy_escape");; mret None
  | Some encoded_key =>
      v ← lift (cstr (value kv));
      before ← gets sn_calls;
      call (Easy_escape v);;
      match easy_escape before v with
      | None => report (lit "failure in curl_easy_escape");; mret None
      | Some encoded_value =>
          u ← lift (cstr url);
          let lim := ulong (2048 - strlen u) in
          '(_, url) ← lift (snprintf_at url (strlen u) lim
            (encoded_key ++ lit "=" ++ encoded_value ++ if last then [] else lit "&"));
          mret (Some url)
      end
  end.

Fixpoint add_parameters (url : bytes) (kvs : list kvpair) : C (option bytes) :=
  match kvs with
  | [] => mret (Some url)
  | kv :: kvs =>
      r ← add_parameter url kv (match kvs with [] => true | _ => false end);
      match r with None => mret None | Some url => add_parameters url kvs end
  end.

(** The full URL, in the array [url]. *)
Definition request_url (server_url target : bytes) (kvpairs : list kvpair) (url : bytes) : C (option bytes) :=
  '(_, url) ← lift (snprintf_at url 0 2048
    (server_url ++ lit "/upload/" ++ target ++ match kvpairs with [] => [] | _ => lit "?" end));
  add_parameters url kvpairs.

(** The form around the data. *)
Definition boundary (timeval : Z) : bytes := FORM_DATA_SPLITTER_PREFIX ++ lit "-" ++ dec timeval.
Definition content_type_text (timeval : Z) : bytes :=
  lit "Content-Type: multipart/form-data; boundary=" ++ boundary timeval.
Definition CRLF : bytes := [13; 10].
Definition quoted (s : bytes) : bytes := 34 :: s ++ [34].
Definition prefix_text (timeval : Z) (target : bytes) : bytes :=
  lit "--" ++ boundary timeval ++ CRLF ++ lit "Content-Disposition: form-data; name=" ++ quoted (lit "file") ++
  lit "; filename=" ++ quoted target ++ CRLF ++ CRLF.
Definition postfix_text (timeval : Z) : bytes := CRLF ++ lit "--" ++ boundary timeval ++ lit "--" ++ CRLF ++ CRLF.

Definition fill_form (timeval : Z) (target data : bytes) (len : Z) (p : postdatamem) : outcome postdatamem :=
  '(_, ct) ← snprintf_at (content_type p) 0 (Z.of_nat (length (content_type p))) (content_type_text timeval);
  '(_, pre) ← snprintf_at (data_prefix p) 0 (Z.of_nat (length (data_prefix p))) (prefix_text timeval target);
  pre_s ← cstr pre;
  '(_, post) ← snprintf_at (data_postfix p) 0 (Z.of_nat (length (data_postfix p))) (postfix_text timeval);
  post_s ← cstr post;
  Ret (PostData ct data pre post (prefix_offset p) (strlen pre_s) (postfix_offset p) (strlen post_s)
         (blob_offset p) len).

(** The body of the loop over the resolvers: [return], [continue] or [break], with rv. *)
Inductive attempt_result := Return (rv : Z) | Retry (rv : Z) | Done (rv : Z).

Definition attempt (server_url target data : bytes) (len : Z) (kvpairs : list kvpair) (url : bytes)
    (ipv : Z) (ipv_str : bytes) : C (attempt_result * bytes) :=
  before ← gets sn_calls;
  call (Easy_init (easy_init_ok before));;
  if negb (easy_init_ok before) then
    call Global_cleanup;; report (lit "failed initializing curl");; mret (Return (-1), url)
  else
    r ← request_url server_url target kvpairs url;
    match r with
    | None => call Easy_cleanup;; call Global_cleanup;; mret (Return (-1), url)
    | Some url =>
        u ← lift (cstr url);
        '(rv, _) ← do_request_via_ipv u false ipv 0;
        if negb (rv =? 0) then
          report (lit "Curl failed in GET " ++ ipv_str);; call Easy_cleanup;; mret (Retry rv, url)
        else
          t ← gets (time_null ∘ sn_calls);
          p ← gets sn_post;
          p ← lift (fill_form (s32 t) target data len p);
          modify (with_post p);;
          post_url ← gets (memory ∘ sn_get);
          post_url ← lift (cstr post_url);
          '(rv, http_code) ← do_request_via_ipv post_url true ipv 0;
          if negb (rv =? 0) then
            call Easy_cleanup;;
            report (lit "curl failed with " ++ ipv_str ++ lit " http error: " ++ dec http_code);;
            mret (Retry rv, url)
          else mret (Done rv, url)
    end.

Definition resolvers : list (Z * bytes) := [(CURL_IPRESOLVE_V6, lit "IPv6"); (CURL_IPRESOLVE_V4, lit "IPv4")].

(** The loop and what follows it; the handle is cleaned up when the loop is left by
    its [break]. *)
Fixpoint attempts (server_url target data : bytes) (len : Z) (kvpairs : list kvpair) (url : bytes)
    (rs : list (Z * bytes)) (rv : Z) : C Z :=
  match rs with
  | [] => call Global_cleanup;; mret rv
  | (ipv, ipv_str) :: rs =>
      '(r, url) ← attempt server_url target data len kvpairs url ipv ipv_str;
      match r with
      | Return rv => mret rv
      | Retry rv => attempts server_url target data len kvpairs url rs rv
      | Done rv => call Easy_cleanup;; call Global_cleanup;; mret rv
      end
  end.

Definition empty_get : getdatamem := GetData (replicate 4096 0) 0.
Definition empty_post : postdatamem :=
  PostData (replicate 128 0) [] (replicate 128 0) (replicate 64 0) 0 0 0 0 0 0.

Definition upload_file (server_url target_name data : bytes) (len : Z) (kvpairs : list kvpair) : C Z :=
  modify (λ s, with_get empty_get (with_post empty_post s));;
  let target := strip_slashes target_name in
  before ← gets sn_calls;
  call (Global_init (global_init before =? 0));;
  if negb (global_init before =? 0) then report (lit "failed with curl_global_init");; mret (-1)
  else attempts server_url target data len kvpairs (replicate 2048 0) resolvers (-1).
End curl.

(** ** The form is sent exactly *)

Lemma boundary_nonul t : nonul (boundary t).
Proof. unfold boundary, FORM_DATA_SPLITTER_PREFIX. auto with nonul_db nocore. Qed.
#[local] Hint Resolve boundary_nonul : nonul_db.

Lemma content_type_text_nonul t : nonul (content_type_text t).
Proof. unfold content_type_text. auto with nonul_db nocore. Qed.
Lemma prefix_text_nonul t target : nonul target → nonul (prefix_text t target).
Proof. intros Ht. unfold prefix_text, quoted, CRLF. auto 20 with nonul_db nocore. Qed.
Lemma postfix_text_nonul t : nonul (postfix_text t).
Proof. unfold postfix_text, CRLF. auto 20 with nonul_db nocore. Qed.

Section form.
Context `{!CPlatform, !Os, !Curl}.

(** What the form consists of. *)
Definition form_body (p : postdatamem) : bytes :=
  take (Z.to_nat (prefix_length p)) (data_prefix p) ++ take (Z.to_nat (blob_length p)) (blob p) ++
  take (Z.to_nat (postfix_length p)) (data_postfix p).

(** The three lengths are those of strings inside their arrays, and fit a long. *)
Record form_ok (p : postdatamem) : Prop := {
  fo_prefix : 0 ≤ prefix_length p ≤ Z.of_nat (length (data_prefix p));
  fo_blob : 0 ≤ blob_length p ≤ Z.of_nat (length (blob p));
  fo_postfix : 0 ≤ postfix_length p ≤ Z.of_nat (length (data_postfix p));
  fo_total : prefix_length p + blob_length p + postfix_length p < 2 ^ (ulong_bits - 1);
}.

(** [k] bytes of the form have been sent. *)
Record sent_so_far (p : postdatamem) (k : Z) : Prop := {
  ss_prefix : prefix_offset p = Z.min k (prefix_length p);
  ss_blob : blob_offset p = Z.min (Z.max 0 (k - prefix_length p)) (blob_length p);
  ss_postfix : postfix_offset p = Z.min (Z.max 0 (k - prefix_length p - blob_length p)) (postfix_length p);
}.

Definition form_length (p : postdatamem) : Z := prefix_length p + blob_length p + postfix_length p.

Lemma form_body_length p : form_ok p → Z.of_nat (length (form_body p)) = form_length p.
Proof.
  intros [Hp Hb Hq _]. unfold form_body, form_length. rewrite !length_app, !length_take. lia.
Qed.

Lemma ulong_fits x : 0 ≤ x < 2 ^ ulong_bits → ulong x = x.
Proof. apply Z.mod_small. Qed.

Lemma half_ulong : 2 ^ ulong_bits = 2 * 2 ^ (ulong_bits - 1).
Proof. pose proof ulong_bits_ge. rewrite <-Z.pow_succ_r by lia. f_equal. lia. Qed.

(** The guarded copy of one part: [off] bytes of it have been sent. *)
Lemma copy_part_run (g : bool) arr off len room :
  0 ≤ off ≤ len → len ≤ Z.of_nat (length arr) → len < 2 ^ (ulong_bits - 1) → 0 ≤ room →
  (g = true ∨ room = 0) →
  ∃ n, (if g && (off <? len) then copy_part arr off len room else Ret ([], 0)) =
    Ret (take (Z.to_nat n) (drop (Z.to_nat off) (take (Z.to_nat len) arr)), n) ∧ n = Z.min room (len - off).
Proof.
  intros Hoff Hlen H31 Hroom Hg. exists (Z.min room (len - off)). split; [|done].
  destruct (Z.ltb_spec off len) as [Hlt|Hge].
  2:{ rewrite andb_false_r. replace (Z.min room (len - off)) with 0 by lia. done. }
  rewrite andb_true_r. destruct g.
  2:{ destruct Hg as [Hg|Hg]; [done|subst room]. replace (Z.min 0 (len - off)) with 0 by lia. done. }
  unfold copy_part. pose proof half_ulong. rewrite ulong_fits by lia.
  assert ((if len - off >? room then room else len - off) = Z.min room (len - off)) as ->.
  { destruct (Z.gtb_spec (len - off) room); lia. }
  rewrite decide_True by lia. do 2 f_equal.
  rewrite skipn_firstn_comm, take_take. f_equal. lia.
Qed.

Lemma sent_so_far_next p k m : form_ok p → sent_so_far p k → 0 ≤ m → k + m ≤ form_length p →
  0 ≤ k → ∀ a b c,
  a = Z.min m (prefix_length p - prefix_offset p) →
  b = Z.min (m - a) (blob_length p - blob_offset p) →
  c = Z.min (m - a - b) (postfix_length p - postfix_offset p) →
  a + b + c = m ∧
  sent_so_far (with_offsets (prefix_offset p + a) (blob_offset p + b) (postfix_offset p + c) p) (k + m).
Proof.
  intros [Hp Hb Hq _] [E1 E2 E3] Hm Hk Hk0 a b c Ha Hb' Hc. unfold form_length in Hk. split; [lia|].
  split; cbn; lia.
Qed.

(** A piece of a list, cut to what there is. *)
Lemma piece_clamp (l : bytes) k m j n :
  j = (k `min` length l)%nat → n = (m `min` (length l - j))%nat → take n (drop j l) = take m (drop k l).
Proof.
  intros -> ->. destruct (decide (k ≤ length l)%nat).
  - rewrite (Nat.min_l k) by lia. destruct (decide (m ≤ length l - k)%nat); [by rewrite (Nat.min_l m) by lia|].
    rewrite (Nat.min_r m) by lia. rewrite !take_ge by (rewrite length_drop; lia). done.
  - rewrite (Nat.min_r k) by lia. rewrite !drop_ge by lia. by rewrite !take_nil.
Qed.

(** The same with integers; [k] and [m] may be negative. *)
Lemma piece_clamp_Z (l : bytes) k m off n :
  off = Z.min (Z.max 0 k) (Z.of_nat (length l)) → n = Z.min (Z.max 0 m) (Z.of_nat (length l) - off) →
  take (Z.to_nat n) (drop (Z.to_nat off) l) = take (Z.to_nat m) (drop (Z.to_nat k) l).
Proof. intros -> ->. apply piece_clamp; lia. Qed.

(** The bytes of the three parts are the next ones of the form. *)
Lemma form_body_next p k m : form_ok p → sent_so_far p k → 0 ≤ m → 0 ≤ k → ∀ a b c,
  a = Z.min m (prefix_length p - prefix_offset p) →
  b = Z.min (m - a) (blob_length p - blob_offset p) →
  c = Z.min (m - a - b) (postfix_length p - postfix_offset p) →
  take (Z.to_nat a) (drop (Z.to_nat (prefix_offset p)) (take (Z.to_nat (prefix_length p)) (data_prefix p))) ++
  take (Z.to_nat b) (drop (Z.to_nat (blob_offset p)) (take (Z.to_nat (blob_length p)) (blob p))) ++
  take (Z.to_nat c) (drop (Z.to_nat (postfix_offset p)) (take (Z.to_nat (postfix_length p)) (data_postfix p)))
  = take (Z.to_nat m) (drop (Z.to_nat k) (form_body p)).
Proof.
  intros [Hp Hb Hq _] [E1 E2 E3] Hm Hk0 a b c Ha Hb' Hc. unfold form_body.
  assert (∀ len (l : bytes), 0 ≤ len ≤ Z.of_nat (length l) → Z.of_nat (length (take (Z.to_nat len) l)) = len) as Hl
    by (intros; rewrite length_take; lia).
  apply Hl in Hp as Hx, Hb as Hy, Hq as Hz. clear Hl.
  remember (take (Z.to_nat (prefix_length p)) (data_prefix p)) as x eqn:Ex. clear Ex.
  remember (take (Z.to_nat (blob_length p)) (blob p)) as y eqn:Ey. clear Ey.
  remember (take (Z.to_nat (postfix_length p)) (data_postfix p)) as z eqn:Ez. clear Ez.
  remember (prefix_length p) as pl eqn:Epl. remember (blob_length p) as bl eqn:Ebl.
  remember (postfix_length p) as ql eqn:Eql. clear Epl Ebl Eql.
  rewrite E1, E2, E3 in *. clear E1 E2 E3.
  rewrite !drop_app, !take_app, !length_drop.
  replace (Z.to_nat k - length x)%nat with (Z.to_nat (k - pl)) by (clear -Hx Hk0; lia).
  replace (Z.to_nat m - (length x - Z.to_nat k))%nat with (Z.to_nat (m - Z.max 0 (pl - k))) by (clear -Hx Hk0 Hm; lia).
  replace (Z.to_nat (k - pl) - length y)%nat with (Z.to_nat (k - pl - bl)) by (clear -Hx Hy Hk0; lia).
  replace (Z.to_nat (m - Z.max 0 (pl - k)) - (length y - Z.to_nat (k - pl)))%nat
    with (Z.to_nat (m - Z.max 0 (pl - k) - Z.max 0 (bl - Z.max 0 (k - pl)))) by (clear -Hx Hy Hk0 Hm; lia).
  f_equal; [|f_equal]; apply piece_clamp_Z; lia.
Qed.

(** One call gives the next bytes of the form, as many as there are. *)
Lemma part_offsets P B Q po bo qo k : 0 ≤ P → 0 ≤ B → 0 ≤ Q → 0 ≤ k ≤ P + B + Q →
  po = Z.min k P → bo = Z.min (Z.max 0 (k - P)) B → qo = Z.min (Z.max 0 (k - P - B)) Q →
  0 ≤ po ≤ P ∧ 0 ≤ bo ≤ B ∧ 0 ≤ qo ≤ Q ∧ P + B + Q - k = (P - po) + (B - bo) + (Q - qo).
Proof. intros. split_and!; lia. Qed.

(** How [n] bytes are taken from three parts with [x], [y] and [z] bytes left. *)
Lemma part_sizes x y z n m a b c : 0 ≤ x → 0 ≤ y → 0 ≤ z → 0 ≤ n →
  m = Z.min n (x + y + z) → a = Z.min n x → b = Z.min (n - a) y → c = Z.min (n - a - b) z →
  a = Z.min m x ∧ b = Z.min (m - a) y ∧ c = Z.min (m - a - b) z ∧ a + b + c = m ∧
  0 ≤ a ≤ x ∧ 0 ≤ b ≤ y ∧ 0 ≤ c ≤ z ∧ 0 ≤ m ≤ n ∧ 0 ≤ n - a ∧ 0 ≤ n - a - b.
Proof. intros. destruct (Z.le_gt_cases n x), (Z.le_gt_cases n (x + y)); split_and!; lia. Qed.

Lemma read_callback_run p k size nitems : form_ok p → 0 ≤ k ≤ form_length p → sent_so_far p k →
  0 ≤ size * nitems < 2 ^ ulong_bits →
  let m := Z.min (size * nitems) (form_length p - k) in
  ∃ p', my_read_callback size nitems p = Ret (m, (take (Z.to_nat m) (drop (Z.to_nat k) (form_body p)), p')) ∧
    sent_so_far p' (k + m) ∧ form_ok p' ∧ form_body p' = form_body p ∧ form_length p' = form_length p.
Proof.
  intros Hok Hk Hs Hn m. pose proof half_ulong as Hhalf.
  pose proof Hok as [[Hp0 Hp] [Hb0 Hb] [Hq0 Hq] Ht]. pose proof Hs as [E1 E2 E3].
  remember (size * nitems) as n eqn:En. unfold form_length in Hk.
  destruct (part_offsets _ _ _ _ _ _ k Hp0 Hb0 Hq0 Hk E1 E2 E3) as (Hpo & Hbo & Hqo & Hleft).
  assert (m = Z.min n ((prefix_length p - prefix_offset p) + (blob_length p - blob_offset p) +
    (postfix_length p - postfix_offset p))) as Hm by (unfold m, form_length; by rewrite Hleft).
  assert (k + m ≤ form_length p) as Hkm by (unfold m; clear; lia).
  destruct (part_sizes _ _ _ n m _ _ _ (proj2 (Z.le_0_sub _ _) (proj2 Hpo)) (proj2 (Z.le_0_sub _ _) (proj2 Hbo))
    (proj2 (Z.le_0_sub _ _) (proj2 Hqo)) (proj1 Hn) Hm eq_refl eq_refl eq_refl)
    as (Ea & Eb & Ec & Hsum & Ha0 & Hb1 & Hc0 & Hmn & Hna & Hnab).
  remember (Z.min n (prefix_length p - prefix_offset p)) as a eqn:Ea'.
  remember (Z.min (n - a) (blob_length p - blob_offset p)) as b eqn:Eb'.
  remember (Z.min (n - a - b) (postfix_length p - postfix_offset p)) as c eqn:Ec'.
  pose proof (form_body_next p k m Hok Hs (proj1 Hmn) (proj1 Hk) a b c Ea Eb Ec) as Hbody.
  destruct (sent_so_far_next p k m Hok Hs (proj1 Hmn) Hkm (proj1 Hk) a b c Ea Eb Ec) as [_ Hs'].
  clear E1 E2 E3 Ea Eb Ec Hm Hs. clearbody m.
  unfold my_read_callback. rewrite <-En, (ulong_fits n) by exact Hn.
  destruct (copy_part_run true (data_prefix p) (prefix_offset p) (prefix_length p) n)
    as (a1 & Ha & ->); [lia..|by left|]. cbn [andb] in Ha. rewrite <-Ea' in Ha. rewrite Ha. cbn [mbind outcome_bind].
  rewrite (ulong_fits (n - a)) by lia.
  destruct (copy_part_run (n - a >? 0) (blob p) (blob_offset p) (blob_length p) (n - a))
    as (b1 & Hb' & ->); [lia..|destruct (Z.gtb_spec (n - a) 0); [by left|right; lia]|].
  rewrite <-Eb' in Hb'. rewrite Hb'. cbn [mbind outcome_bind]. rewrite (ulong_fits (n - a - b)) by lia.
  destruct (copy_part_run (n - a - b >? 0) (data_postfix p) (postfix_offset p) (postfix_length p) (n - a - b))
    as (c1 & Hc & ->); [lia..|destruct (Z.gtb_spec (n - a - b) 0); [by left|right; lia]|].
  rewrite <-Ec' in Hc. rewrite Hc. cbn [mbind outcome_bind]. clear Ea' Eb' Ec' Ha Hb' Hc.
  rewrite !sword_id by lia. rewrite (ulong_fits (n - a - b - c)), (ulong_fits (n - _)) by lia.
  eexists. split; [|split; [exact Hs'|]].
  - rewrite Hbody. do 2 f_equal. lia.
  - split; [by split|done].
Qed.

(** How much a sequence of requests asks for in all. *)
Definition asked (asks : list (Z * Z)) : Z := foldr (λ a n, a.1 * a.2 + n) 0 asks.

Lemma ask_run asks : ∀ s k, form_ok (sn_post s) → 0 ≤ k ≤ form_length (sn_post s) → sent_so_far (sn_post s) k →
  Forall (λ a, 0 ≤ a.1 * a.2 < 2 ^ ulong_bits) asks →
  ∃ s', ask asks s = Ret (take (Z.to_nat (asked asks)) (drop (Z.to_nat k) (form_body (sn_post s))), s') ∧
    sent_so_far (sn_post s') (Z.min (k + asked asks) (form_length (sn_post s))).
Proof.
  induction asks as [|[size nitems] asks IH]; intros s k Hok Hk Hs Ha.
  - exists s. cbn [ask asked foldr]. split; [done|]. by rewrite Z.add_0_r, Z.min_l by lia.
  - apply Forall_cons in Ha as [Hn Ha]. cbn [fst snd] in Hn. cbn [ask asked foldr fst snd]. fold (asked asks).
    assert (0 ≤ asked asks) as Hnn by (clear -Ha; induction Ha as [|a l Ha _ IHl]; simpl; lia).
    destruct (read_callback_run (sn_post s) k size nitems Hok Hk Hs Hn) as (p' & Hrun & Hs' & Hok' & Hbody & Hlen).
    set (n := size * nitems) in *. set (m := Z.min n (form_length (sn_post s) - k)) in *.
    rewrite (M_bind_eq _ _ _ (sn_post s) s) by done. rewrite Hrun, M_bind_lift.
    rewrite (M_bind_eq _ _ _ tt (with_post p' s)) by done.
    destruct (IH (with_post p' s) (k + m)) as (s2 & Hrun2 & Hs2); [done|cbn [sn_post with_post]; lia|done|done|].
    rewrite (M_bind_eq _ _ _ _ _ Hrun2). cbn [sn_post with_post] in *. rewrite Hbody, Hlen in *.
    exists s2. split.
    + unfold mret, M_ret. do 2 f_equal.
      assert (0 ≤ n ∧ 0 ≤ m ∧ 0 ≤ k) as (Hn0 & Hm0 & Hk0) by (clear -Hn Hk; lia).
      rewrite (Z2Nat.inj_add n (asked asks)), (Z2Nat.inj_add k m) by done.
      rewrite <-take_take_drop, drop_drop.
      destruct (Z.le_ge_cases n (form_length (sn_post s) - k)); [by replace m with n by lia|].
      pose proof (form_body_length _ Hok).
      rewrite !(drop_ge (form_body _) (Z.to_nat k + _)) by lia. rewrite !take_nil. f_equal.
      rewrite !take_ge by (rewrite length_drop; lia). done.
    + replace (Z.min (k + (n + asked asks)) (form_length (sn_post s)))
        with (Z.min (k + m + asked asks) (form_length (sn_post s))) by lia. exact Hs2.
Qed.

(** ** Filling in the form *)

(** A whole array filled by snprintf. *)
Lemma snprintf_array arr n txt : length arr = S n → nonul txt →
  ∃ arr', snprintf_at arr 0 (Z.of_nat (length arr)) txt = Ret (Z.of_nat (length txt), arr') ∧
    cstr arr' = Ret (take n txt) ∧ length arr' = S n ∧ take (length (take n txt)) arr' = take n txt.
Proof.
  intros Hlen Ht. destruct (snprintf_at_run arr 0 (Z.of_nat (length arr)) txt) as (rest & Hrun & Hl); [lia..|].
  rewrite Hlen in Hrun, Hl. replace (Z.to_nat (Z.of_nat (S n) - 1)) with n in Hrun, Hl by lia.
  change (Z.to_nat 0) with 0%nat in Hrun, Hl. rewrite take_0, app_nil_l in Hrun, Hl.
  rewrite Hlen. eexists. split; [exact Hrun|]. split; [apply cstr_app; by apply Forall_take|].
  split; [exact Hl|]. apply take_app_length.
Qed.

Record form_arrays (p : postdatamem) : Prop := {
  fa_content_type : length (content_type p) = 128%nat;
  fa_prefix : length (data_prefix p) = 128%nat;
  fa_postfix : length (data_postfix p) = 64%nat;
}.

Lemma postfix_text_length t : - 2 ^ 31 ≤ t < 2 ^ 31 → (length (postfix_text t) ≤ 63)%nat.
Proof.
  intros Ht. pose proof (dec_length_signed t 10). unfold postfix_text, boundary. rewrite !length_app. simpl in *. lia.
Qed.

Lemma fill_form_run t target data len p :
  form_arrays p → nonul target → 0 ≤ len ≤ Z.of_nat (length data) → len < 2 ^ (ulong_bits - 1) - 256 →
  - 2 ^ 31 ≤ t < 2 ^ 31 →
  ∃ p', fill_form t target data len p = Ret p' ∧ form_arrays p' ∧ form_ok p' ∧
    form_body p' = take 127 (prefix_text t target) ++ take (Z.to_nat len) data ++ postfix_text t ∧
    cstr (content_type p') = Ret (take 127 (content_type_text t)).
Proof.
  intros [A1 A2 A3] Htarget Hlen Hmax Ht. unfold fill_form.
  destruct (snprintf_array _ _ _ A1 (content_type_text_nonul t)) as (ct & -> & Hct & Lct & _). cbn [mbind outcome_bind].
  destruct (snprintf_array _ _ _ A2 (prefix_text_nonul t target Htarget)) as (pre & -> & Hpre & Lpre & Tpre).
  cbn [mbind outcome_bind]. rewrite Hpre. cbn [mbind outcome_bind].
  destruct (snprintf_array _ _ _ A3 (postfix_text_nonul t)) as (post & -> & Hpost & Lpost & Tpost).
  cbn [mbind outcome_bind]. rewrite Hpost. cbn [mbind outcome_bind].
  assert (length (take 127 (prefix_text t target)) ≤ 127)%nat as B1 by (rewrite length_take; lia).
  assert (length (take 63 (postfix_text t)) ≤ 63)%nat as B2 by (rewrite length_take; lia).
  eexists. split; [done|]. split; [by split|]. unfold strlen. split; [split|split].
  1-4: cbn [prefix_length data_prefix blob_length blob postfix_length data_postfix]; lia.
  - unfold form_body. cbn [prefix_length data_prefix blob_length blob postfix_length data_postfix].
    rewrite !Nat2Z.id, Tpre, Tpost. by rewrite (take_ge (postfix_text t)) by by apply postfix_text_length.
  - exact Hct.
Qed.

End form.

(** ** The URL *)

(** The parameters of the URL. *)
Fixpoint query (esc : bytes → bytes) (kvs : list kvpair) : bytes :=
  match kvs with
  | [] => []
  | [kv] => esc (nul_text (key kv)) ++ lit "=" ++ esc (nul_text (value kv))
  | kv :: kvs => esc (nul_text (key kv)) ++ lit "=" ++ esc (nul_text (value kv)) ++ lit "&" ++ query esc kvs
  end.

Section url.
Context `{!CPlatform, !Os, !Curl}.
Context (esc : bytes → bytes).
Hypothesis (escapes : ∀ calls s, easy_escape calls s = Some (esc s)).
Hypothesis (esc_nonul : ∀ s, nonul (esc s)).

(** The two fields are strings. *)
Definition terminated (kv : kvpair) : Prop := NUL ∈ key kv ∧ NUL ∈ value kv.

Lemma cstr_terminated arr : NUL ∈ arr → cstr arr = Ret (nul_text arr).
Proof.
  intros Hin. apply list_elem_of_split in Hin as (a & b & ->). rewrite nul_text_cstr.
  f_equal. symmetry. apply nul_text_app_nul.
Qed.

Definition url_array (url full : bytes) : Prop :=
  length url = 2048%nat ∧ cstr url = Ret (take 2047 full) ∧ nonul full.

Lemma add_parameter_run url full kv last s :
  url_array url full → terminated kv →
  ∃ url' s', add_parameter url kv last s = Ret (Some url', s') ∧
    url_array url' (full ++ esc (nul_text (key kv)) ++ lit "=" ++ esc (nul_text (value kv)) ++ if last then [] else lit "&").
Proof.
  intros (Hlen & Hc & Hn) [Hk Hv]. unfold add_parameter.
  rewrite (cstr_terminated _ Hk), M_bind_lift. rewrite (M_bind_eq _ _ _ (sn_calls s) s) by done.
  rewrite (M_bind_eq _ _ _ tt (sn_call (Easy_escape (nul_text (key kv))) s)) by done. rewrite escapes.
  rewrite (cstr_terminated _ Hv), M_bind_lift. set (s1 := sn_call _ s).
  rewrite (M_bind_eq _ _ _ (sn_calls s1) s1) by done.
  rewrite (M_bind_eq _ _ _ tt (sn_call (Easy_escape (nul_text (value kv))) s1)) by done. rewrite escapes.
  rewrite Hc, M_bind_lift.
  set (txt := esc (nul_text (key kv)) ++ lit "=" ++ esc (nul_text (value kv)) ++ (if last then [] else lit "&")).
  assert (nonul txt) as Htxt by (unfold txt; destruct last; auto 10 with nonul_db nocore).
  assert (length (take 2047 full) ≤ 2047)%nat as Hfl by (rewrite length_take; lia).
  assert (2048 < 2 ^ ulong_bits) as Hbig.
  { pose proof ulong_bits_ge. apply (Z.lt_le_trans _ (2 ^ 32)); [lia|]. apply Z.pow_le_mono_r; lia. }
  unfold strlen. rewrite ulong_fits by lia.
  destruct (snprintf_at_run url (Z.of_nat (length (take 2047 full))) (2048 - Z.of_nat (length (take 2047 full))) txt)
    as (rest & -> & Hl); [lia..|]. rewrite M_bind_lift. eexists _, _. split; [done|].
  destruct (cstr_Ret _ _ Hc) as (tail & Htail & _).
  split; [by rewrite Hl|]. rewrite Nat2Z.id, Htail, take_app_length.
  split; [|by apply nonul_app].
  rewrite (assoc_L (++)), cstr_app.
  2:{ apply nonul_app; [by apply Forall_take|by apply Forall_take]. }
  f_equal. rewrite (take_app full). do 2 f_equal. rewrite length_take. lia.
Qed.

Lemma add_parameters_run kvs : ∀ url full s, url_array url full → Forall terminated kvs →
  ∃ url' s', add_parameters url kvs s = Ret (Some url', s') ∧ url_array url' (full ++ query esc kvs).
Proof.
  induction kvs as [|kv kvs IH]; intros url full s Hu Hkvs.
  - exists url, s. split; [done|]. by rewrite app_nil_r.
  - apply Forall_cons in Hkvs as [Hkv Hkvs]. cbn [add_parameters].
    destruct (add_parameter_run url full kv (match kvs with [] => true | _ => false end) s Hu Hkv)
      as (url1 & s1 & Hrun & Hu1). rewrite (M_bind_eq _ _ _ _ _ Hrun).
    destruct (IH url1 _ s1 Hu1 Hkvs) as (url2 & s2 & Hrun2 & Hu2). exists url2, s2. split; [done|].
    destruct kvs as [|kv2 kvs]; cbn [query] in *; [by rewrite !app_nil_r in *|].
    rewrite <-!(assoc_L (++)) in Hu2. done.
Qed.

(** The URL of the request.  With any list of pairs whose fields are strings and
    a total escaping function, the array ends up with the server, the target and
    every pair, each escaped, with the separators in the right places, cut to the
    2047 characters it can hold and terminated, whatever it held before. *)
Theorem request_url_text server target kvs url s :
  length url = 2048%nat → nonul server → nonul target → Forall terminated kvs →
  ∃ url' s', request_url server target kvs url s = Ret (Some url', s') ∧ length url' = 2048%nat ∧
    cstr url' = Ret (take 2047 (server ++ lit "/upload/" ++ target ++
                                match kvs with [] => [] | _ => lit "?" end ++ query esc kvs)).
Proof.
  intros Hlen Hs Ht Hkvs. unfold request_url.
  set (base := server ++ lit "/upload/" ++ target ++ match kvs with [] => [] | _ => lit "?" end).
  assert (nonul base) as Hb by (unfold base; destruct kvs; auto 10 with nonul_db nocore).
  destruct (snprintf_array url 2047 base Hlen Hb) as (url1 & Hrun & Hc & Hl & _).
  rewrite Hlen in Hrun. change (Z.of_nat 2048) with 2048 in Hrun. rewrite Hrun, M_bind_lift.
  destruct (add_parameters_run kvs url1 base s) as (url2 & s2 & Hrun2 & Hl2 & Hc2 & _); [done|done|].
  exists url2, s2. split_and!; [done|done|]. rewrite Hc2. unfold base. by rewrite <-!(assoc_L (++)).
Qed.
End url.

(** ** The order of the calls *)

(** The states of the library, and what may be called in each. *)
Inductive lib_state := Closed | Opened | Handle.
Definition lib_step (st : lib_state) (c : curl_call) : option lib_state :=
  match st, c with
  | Closed, Global_init ok => Some (if ok then Opened else Closed)
  | Opened, Easy_init ok => Some (if ok then Handle else Opened)
  | Opened, Global_cleanup => Some Closed
  | Handle, (Global_init _ | Global_cleanup | Easy_init _) => None
  | Handle, Easy_cleanup => Some Opened
  | Handle, _ => Some Handle
  | _, _ => None
  end.
Fixpoint lib_run (st : lib_state) (cs : list curl_call) : option lib_state :=
  match cs with [] => Some st | c :: cs => st ← lib_step st c; lib_run st cs end.

Lemma lib_run_app cs1 cs2 : ∀ a b, lib_run a cs1 = Some b → lib_run a (cs1 ++ cs2) = lib_run b cs2.
Proof.
  induction cs1 as [|c cs1 IH]; intros a b; [by intros [= ->]|]. simpl.
  destruct (lib_step a c) as [a'|]; [|done]. apply IH.
Qed.

(** Every run that returns makes calls that take the library from [a] to a state
    that depends on the result. *)
Definition moves {A} (a : lib_state) (post : A → lib_state) (m : C A) : Prop :=
  ∀ s r s', m s = Ret (r, s') → ∃ cs, sn_calls s' = sn_calls s ++ cs ∧ lib_run a cs = Some (post r).

Section protocol.
Context `{!CPlatform, !Os, !Curl}.

Lemma moves_bind {A B} a (mid : A → lib_state) (post : B → lib_state) (m : C A) (f : A → C B) :
  moves a mid m → (∀ x, moves (mid x) post (f x)) → moves a post (m ≫= f).
Proof.
  intros Hm Hf s r s'' (x & s' & H1' & H2')%M_bind_Ret.
  destruct (Hm _ _ _ H1') as (cs1 & E1 & R1). destruct (Hf _ _ _ _ H2') as (cs2 & E2 & R2).
  exists (cs1 ++ cs2). split; [by rewrite E2, E1, (assoc_L (++))|]. by rewrite (lib_run_app _ _ _ _ R1).
Qed.

Lemma moves_silent {A} a (m : C A) : keeps (λ s s', sn_calls s' = sn_calls s) m → moves a (λ _, a) m.
Proof. intros Hm s r s' Hr. exists []. rewrite app_nil_r. split; [by eapply Hm|done]. Qed.

Lemma moves_ret {A} (post : A → lib_state) x : moves (post x) post (mret x).
Proof. intros s r s' [= <- <-]. exists []. by rewrite app_nil_r. Qed.

Lemma moves_call a b c : lib_step a c = Some b → moves a (λ _, b) (call c).
Proof. intros Hc s r s' [= <- <-]. exists [c]. split; [done|]. simpl. by rewrite Hc. Qed.

Lemma moves_stuck {A} a (post : A → lib_state) : moves a post stuck.
Proof. by intros s r s'. Qed.

(** The calls on a handle keep it. *)
Definition stays {A} (m : C A) : Prop := moves Handle (λ _, Handle) m.

Lemma stays_bind {A B} (m : C A) (f : A → C B) : stays m → (∀ x, stays (f x)) → stays (m ≫= f).
Proof. intros Hm Hf. by eapply moves_bind. Qed.
Lemma stays_ret {A} (x : A) : stays (mret x).
Proof. by apply (moves_ret (λ _, Handle)). Qed.
Lemma stays_gets {A} (f : sender → A) : stays (gets f).
Proof. apply moves_silent. by intros s r s' [= _ <-]. Qed.
Lemma stays_modify f : (∀ s, sn_calls (f s) = sn_calls s) → stays (modify f).
Proof. intros Hf. apply moves_silent. intros s r s' [= _ <-]. apply Hf. Qed.
Lemma stays_lift {A} (m : outcome A) : stays (lift m).
Proof. apply moves_silent. intros s r s'. unfold lift. destruct m; [|done..]. by intros [= _ <-]. Qed.
Lemma stays_stuck {A} : stays (@stuck sender A).
Proof. apply moves_stuck. Qed.
Lemma stays_call c : lib_step Handle c = Some Handle → stays (call c).
Proof. apply moves_call. Qed.
Lemma stays_report e : stays (report e).
Proof. by apply stays_modify. Qed.

Create HintDb stays_db.
Hint Resolve stays_ret stays_gets stays_lift stays_stuck stays_report : stays_db.
Hint Extern 1 (stays (modify _)) => by apply stays_modify : stays_db.
Hint Extern 1 (stays (call _)) => by apply stays_call : stays_db.
Ltac stays_auto :=
  repeat first
    [ progress intros
    | solve [auto with stays_db nocore]
    | match goal with
      | |- stays (_ ≫= _) => apply stays_bind
      | |- stays (match ?x with _ => _ end) => destruct x
      end ].

Lemma stays_setopt h name o : stays (SET_CURL_OPT h name o).
Proof. unfold SET_CURL_OPT. stays_auto. Qed.
Lemma stays_append h s : stays (slist_append h s).
Proof. unfold slist_append. stays_auto. Qed.
Lemma stays_free h : stays (slist_free_all h).
Proof. unfold slist_free_all. stays_auto. Qed.
Hint Resolve stays_setopt stays_append stays_free : stays_db.

Lemma stays_deliver ds res : stays (deliver ds res).
Proof. induction ds as [|[[] ?] ds IH]; cbn [deliver]; stays_auto. Qed.
Lemma stays_ask asks : stays (ask asks).
Proof. induction asks as [|[] asks IH]; cbn [ask]; stays_auto. Qed.
Hint Resolve stays_deliver stays_ask : stays_db.
Lemma stays_perform post : stays (perform post).
Proof. unfold perform. stays_auto. Qed.
Lemma stays_common url ipv h : stays (common_options url ipv h).
Proof. unfold common_options. stays_auto. Qed.
Lemma stays_method post h : stays (method_options post h).
Proof. unfold method_options. stays_auto. Qed.
Hint Resolve stays_perform stays_common stays_method : stays_db.

Lemma stays_request url post ipv code : stays (do_request_via_ipv url post ipv code).
Proof. unfold do_request_via_ipv. stays_auto. Qed.
Lemma stays_parameter url kv last : stays (add_parameter url kv last).
Proof. unfold add_parameter. stays_auto. Qed.
Hint Resolve stays_request stays_parameter : stays_db.
Lemma stays_parameters kvs : ∀ url, stays (add_parameters url kvs).
Proof. induction kvs as [|kv kvs IH]; intros url; cbn [add_parameters]; stays_auto. Qed.
Lemma stays_url server target kvs url : stays (request_url server target kvs url).
Proof. unfold request_url. pose proof stays_parameters. stays_auto. Qed.

(** An iteration leaves the library in the state its way out stands for. *)
Definition attempt_post {A} (r : attempt_result * A) : lib_state :=
  match r.1 with Return _ => Closed | Retry _ => Opened | Done _ => Handle end.

Lemma moves_gets {A} a (f : sender → A) : moves a (λ _, a) (gets f).
Proof. apply moves_silent. by intros s r s' [= _ <-]. Qed.
Lemma moves_report a e : moves a (λ _, a) (report e).
Proof. apply moves_silent. by intros s r s' [= _ <-]. Qed.

(** The next statement takes the library to [b]. *)
Ltac step_to b :=
  apply (moves_bind _ (λ _, b));
    [solve [by apply moves_call|apply moves_gets|apply moves_report|by apply stays_modify
           |apply stays_url|apply stays_request|apply stays_lift]|intros ?].

Lemma moves_attempt server target data len kvs url ipv name :
  moves Opened attempt_post (attempt server target data len kvs url ipv name).
Proof.
  unfold attempt. step_to Opened. destruct (easy_init_ok x); cbn [negb].
  2:{ step_to Opened. step_to Closed. step_to Closed. apply (moves_ret attempt_post (Return (-1), url)). }
  step_to Handle. step_to Handle. destruct x1 as [url'|].
  2:{ step_to Opened. step_to Closed. apply (moves_ret attempt_post (Return (-1), url)). }
  step_to Handle. step_to Handle. destruct x2 as [rv code]. destruct (negb (rv =? 0)).
  { step_to Handle. step_to Opened. apply (moves_ret attempt_post (Retry rv, url')). }
  do 7 step_to Handle. destruct x8 as [rv2 code2]. destruct (negb (rv2 =? 0)).
  - step_to Opened. step_to Opened. apply (moves_ret attempt_post (Retry rv2, url')).
  - apply (moves_ret attempt_post (Done rv2, url')).
Qed.

Lemma moves_attempts server target data len kvs rs : ∀ url rv,
  moves Opened (λ _, Closed) (attempts server target data len kvs url rs rv).
Proof.
  induction rs as [|[ipv name] rs IH]; intros url rv; cbn [attempts].
  - step_to Closed. apply (moves_ret (λ _, Closed)).
  - apply (moves_bind _ attempt_post); [apply moves_attempt|]. intros [[rv'|rv'|rv'] url'].
    + apply (moves_ret (λ _, Closed)).
    + apply IH.
    + cbn [attempt_post fst]. step_to Opened. step_to Closed. apply (moves_ret (λ _, Closed)).
Qed.

(** The library is used in order on every path.  However its calls answer, and
    whichever way [upload_file] returns, the calls it has made initialise the library
    once, work on one handle at a time and only while it exists, clean every handle
    up exactly once, and leave the library cleaned up. *)
Theorem upload_protocol server target data len kvs s r s' :
  upload_file server target data len kvs s = Ret (r, s') →
  ∃ cs, sn_calls s' = sn_calls s ++ cs ∧ lib_run Closed cs = Some Closed.
Proof.
  assert (moves Closed (λ _, Closed) (upload_file server target data len kvs)) as H'; [|apply H'].
  unfold upload_file. apply (moves_bind _ (λ _, Closed)); [apply moves_silent; by intros ? ? ? [= _ <-]|]. intros _.
  step_to Closed. destruct (global_init x =? 0).
  - step_to Opened. apply moves_attempts.
  - step_to Closed. step_to Closed. apply (moves_ret (λ _, Closed)).
Qed.
End protocol.

(** ** The answer to the GET *)

Section answer.
Context `{!CPlatform, !Os, !Curl}.

(** The buffer holds the text [t]. *)
Record holds (g : getdatamem) (t : bytes) : Prop := {
  ho_size : length (memory g) = 4096%nat;
  ho_used : used_size g = Z.of_nat (length t);
  ho_text : take (length t) (memory g) = t;
  ho_end : memory g !! length t = Some NUL;
}.

(** A delivery of [contents]. *)
Definition delivery (d : Z * Z * bytes) : Prop := Z.of_nat (length d.2) = d.1.1 * d.1.2.

Lemma write_callback_run g t size nmemb contents :
  holds g t → delivery (size, nmemb, contents) → (length t + length contents < 4096)%nat →
  ∃ g', my_write_callback contents size nmemb g = Ret (size * nmemb, (g', None)) ∧ holds g' (t ++ contents).
Proof.
  intros [Hs Hu Ht He] Hd Hfit. unfold delivery in Hd. cbn [fst snd] in Hd. unfold my_write_callback.
  rewrite Hs, Hu, <-Hd, (ulong_id (Z.of_nat (length contents))), (ulong_id (_ + _)) by lia.
  change (Z.of_nat 4096) with 4096.
  destruct (Z.gtb_spec (Z.of_nat (length contents) + Z.of_nat (length t)) 4096); [lia|].
  rewrite !Nat2Z.id, decide_True by lia. rewrite (take_ge contents) by lia.
  rewrite Ht, (ulong_id (_ + _)) by lia.
  destruct (drop (length t + length contents) (memory g)) as [|x rest] eqn:E.
  { apply (f_equal length) in E. rewrite length_drop in E. simpl in E. lia. }
  apply (f_equal length) in E. rewrite length_drop, Hs in E. cbn [length] in E.
  rewrite (assoc_L (++)), buf_set_app by (rewrite length_app; lia). cbn [mbind outcome_bind].
  eexists. split; [done|]. split; cbn [memory used_size].
  - rewrite !length_app. cbn [length]. lia.
  - rewrite length_app. lia.
  - apply take_app_length.
  - apply list_lookup_middle. done.
Qed.

Lemma deliver_run ds res : ∀ s t, holds (sn_get s) t → Forall delivery ds →
  (length t + length (concat (map snd ds)) < 4096)%nat →
  ∃ s', deliver ds res s = Ret (res, s') ∧ holds (sn_get s') (t ++ concat (map snd ds)) ∧
    sn_errors s' = sn_errors s.
Proof.
  induction ds as [|[[size nmemb] contents] ds IH]; intros s t Hh Hds Hfit.
  - exists s. cbn. by rewrite app_nil_r.
  - apply Forall_cons in Hds as [Hd Hds]. cbn [map snd concat] in *. rewrite length_app in Hfit.
    destruct (write_callback_run (sn_get s) t size nmemb contents Hh Hd) as (g' & Hrun & Hh'); [lia|].
    cbn [deliver]. rewrite (M_bind_eq _ _ _ (sn_get s) s) by done. rewrite Hrun, M_bind_lift.
    rewrite (M_bind_eq _ _ _ tt (with_get g' s)), (M_bind_eq _ _ _ tt (with_get g' s)) by done.
    unfold delivery in Hd. cbn [fst snd] in Hd. rewrite ulong_id, Z.eqb_refl by lia.
    destruct (IH (with_get g' s) (t ++ contents)) as (s2 & Hrun2 & Hh2 & He2); [done|done|rewrite length_app; lia|].
    exists s2. split; [done|]. split; [by rewrite (assoc_L (++))|done].
Qed.

(** What the server answers is added to the buffer.  With deliveries of any
    number and sizes that fit together with what the buffer holds already, the
    transfer gives the library's own result and the string in the buffer, from which
    the address of the POST is taken, is the old text followed by all that was
    delivered: the buffer is only empty before the first of the two attempts. *)
Theorem get_adds_to_buffer ds res s t :
  holds (sn_get s) t → Forall delivery ds → nonul (t ++ concat (map snd ds)) →
  (length t + length (concat (map snd ds)) < 4096)%nat →
  ∃ s', deliver ds res s = Ret (res, s') ∧ cstr (memory (sn_get s')) = Ret (t ++ concat (map snd ds)).
Proof.
  intros Hh Hds Hn Hfit. destruct (deliver_run ds res s t Hh Hds Hfit) as (s' & Hrun & [H1' H2' H3' H4'] & _).
  exists s'. split; [done|]. rewrite <-(take_drop_middle _ _ _ H4'), H3'. by apply cstr_app.
Qed.

(** An answer that fills the buffer exactly is accepted, and its terminator is
    written behind the array. *)
Lemma write_callback_overflow g t contents :
  holds g t → (length t + length contents = 4096)%nat →
  my_write_callback contents 1 (Z.of_nat (length contents)) g = Ub.
Proof.
  intros [Hs Hu Ht He] Hfit. unfold my_write_callback.
  rewrite Hs, Hu, Z.mul_1_l, (ulong_id (Z.of_nat (length contents))), (ulong_id (_ + _)) by lia.
  change (Z.of_nat 4096) with 4096.
  destruct (Z.gtb_spec (Z.of_nat (length contents) + Z.of_nat (length t)) 4096); [lia|].
  rewrite !Nat2Z.id, decide_True by lia. rewrite (take_ge contents) by lia. rewrite Ht, (ulong_id (_ + _)) by lia.
  unfold buf_set. rewrite decide_False; [done|]. rewrite !length_app, length_drop. lia.
Qed.

(** A failure to set an option of the transfer after the headers exist makes the
    request free them twice. *)
Lemma setopt_failure_frees_twice url ipv code s h s1 :
  (call Easy_reset;; common_options url ipv NoHeaders) s = Ret (h, s1) →
  h = NoHeaders → slist_append_ok (sn_calls s1) = true →
  (∀ calls, easy_setopt calls (CURLOPT_HTTPGET 1) ≠ CURLE_OK) →
  (∀ calls o, o ≠ CURLOPT_HTTPGET 1 → easy_setopt calls o = CURLE_OK) →
  do_request_via_ipv url false ipv code s = Ub.
Proof.
  intros Hrun -> Hok Hbad Hgood. apply M_bind_Ret in Hrun as ([] & s0 & Hr0 & Hr1).
  unfold do_request_via_ipv. rewrite (M_bind_eq _ _ _ _ _ Hr0), (M_bind_eq _ _ _ _ _ Hr1).
  cbn [slist_append]. rewrite M_bind_unfold, (M_bind_eq _ _ _ (sn_calls s1) s1) by done.
  rewrite (M_bind_eq _ _ _ tt (sn_call (Slist_append (lit "Expect:")) s1)) by done. rewrite Hok.
  cbn [mret M_ret app]. set (s2 := sn_call _ s1).
  assert (∀ s h name o, easy_setopt (sn_calls s) o = CURLE_OK →
    SET_CURL_OPT h name o s = Ret (h, sn_call (Easy_setopt o) s)) as Hset.
  { intros s' h name o Ho. unfold SET_CURL_OPT. rewrite (M_bind_eq _ _ _ (sn_calls s') s') by done.
    rewrite (M_bind_eq _ _ _ tt (sn_call (Easy_setopt o) s')) by done. by rewrite Ho. }
  assert (∃ s3, method_options false (Headers [lit "Expect:"]) s2 = Ret (Some Freed, s3)) as [s3 Hm].
  { assert (∃ s', SET_CURL_OPT (Headers [lit "Expect:"]) (lit "CURLOPT_HTTPGET") (CURLOPT_HTTPGET 1) s2 = Ret (Freed, s'))
      as [s' Hfail].
    { unfold SET_CURL_OPT. rewrite (M_bind_eq _ _ _ (sn_calls s2) s2) by done.
      rewrite (M_bind_eq _ _ _ tt (sn_call (Easy_setopt (CURLOPT_HTTPGET 1)) s2)) by done.
      destruct (Z.eqb_spec (easy_setopt (sn_calls s2) (CURLOPT_HTTPGET 1)) CURLE_OK) as [E|E]; [by apply Hbad in E|].
      by eexists. }
    unfold method_options. rewrite (M_bind_eq _ _ _ _ _ Hfail).
    rewrite (M_bind_eq _ _ _ _ _ (Hset _ _ _ CURLOPT_WRITEFUNCTION (Hgood _ CURLOPT_WRITEFUNCTION ltac:(done)))).
    rewrite (M_bind_eq _ _ _ _ _ (Hset _ _ _ CURLOPT_WRITEDATA (Hgood _ CURLOPT_WRITEDATA ltac:(done)))). by eexists. }
  rewrite (M_bind_eq _ _ _ _ _ Hm).
  by rewrite (M_bind_eq _ _ _ _ _ (Hset _ _ _ (CURLOPT_HTTPHEADER (header_list Freed)) (Hgood _ (CURLOPT_HTTPHEADER (header_list Freed)) ltac:(done)))).
Qed.
End answer.

(** ** Examples *)

#[local] Existing Instance demo_os.
#[local] Existing Instance lp64.
Definition is_post (c : curl_call) : bool := match c with Perform_post _ => true | _ => false end.
Definition is_get (c : curl_call) : bool := match c with Perform_get => true | _ => false end.

(** A server that gives a different address for each GET; the first POST fails. *)
#[local] Instance demo_curl : Curl := {|
  global_init _ := 0; easy_init_ok _ := true; easy_escape _ s := Some (nul_text s); easy_setopt _ _ := 0;
  slist_append_ok _ := true;
  get_transfer calls := ([(1, 8, if existsb is_get calls then lit "http://b" else lit "http://a")], 0);
  post_transfer _ := ([(1, 100); (10, 20)], 0);
  response_code calls := if is_post (List.last calls Perform_get)
                         then if Nat.eqb (length (List.filter is_post calls)) 1 then 500 else 302 else 200;
  easy_strerror _ := lit "error"; time_null _ := 1500000000 |}.
Definition demo_sender : sender := Sender empty_get empty_post [] [].
Definition demo_pair : kvpair := KvPair 0 (strncpy 128 (lit "model")) (strncpy 128 (lit "GFHD100")).

(** The second POST goes to the two addresses put together. *)
Definition posted_to (cs : list curl_call) : list bytes :=
  flat_map (λ c, match c with Easy_setopt (CURLOPT_URL u) => [u] | _ => [] end) cs.
Example demo_retry :
  match upload_file (lit "https://s") (lit "/dmesg") (lit "log") 3 [demo_pair] demo_sender with
  | Ret (rv, s) => (rv, posted_to (sn_calls s)) | _ => (-2, [])
  end = (0, [lit "https://s/upload/dmesg?model=GFHD100"; lit "http://a";
             lit "https://s/upload/dmesg?model=GFHD100"; lit "http://ahttp://b"]).
Proof. vm_compute. reflexivity. Qed.


Lemma request_url_text_witness :
  ∃ url' s', request_url (lit "https://s") (lit "dmesg") [demo_pair; demo_pair] (replicate 2048 7) demo_sender = Ret (Some url', s') ∧
    length url' = 2048%nat ∧
    cstr url' = Ret (take 2047 (lit "https://s" ++ lit "/upload/" ++ lit "dmesg" ++ lit "?" ++ query nul_text [demo_pair; demo_pair])).
Proof.
  apply (request_url_text nul_text) with (kvs := [demo_pair; demo_pair]).
  - done.
  - apply nul_text_nonul.
  - done.
  - by apply (bool_decide_unpack _); vm_compute.
  - by apply (bool_decide_unpack _); vm_compute.
  - unfold terminated. by apply (bool_decide_unpack _); vm_compute.
Defined.

Lemma upload_protocol_witness : ∃ r s',
  upload_file (lit "https://s") (lit "/dmesg") (lit "log") 3 [demo_pair] demo_sender = Ret (r, s') ∧
  ∃ cs, sn_calls s' = sn_calls demo_sender ++ cs ∧ lib_run Closed cs = Some Closed.
Proof.
  destruct (upload_file (lit "https://s") (lit "/dmesg") (lit "log") 3 [demo_pair] demo_sender) as [[r s']| |] eqn:E;
    [|by vm_compute in E..].
  exists r, s'. split; [done|]. by apply (upload_protocol (lit "https://s") (lit "/dmesg") (lit "log") 3 [demo_pair] demo_sender r).
Defined.

Lemma get_adds_to_buffer_witness :
  ∃ s', deliver [(1, 3, lit "htt"); (5, 1, lit "p://b")] 0 demo_sender = Ret (0, s') ∧
    cstr (memory (sn_get s')) = Ret ([] ++ concat (map snd [(1, 3, lit "htt"); (5, 1, lit "p://b")])).
Proof.
  apply (get_adds_to_buffer [(1, 3, lit "htt"); (5, 1, lit "p://b")] 0 demo_sender []).
  - by split.
  - by repeat constructor.
  - by apply (bool_decide_unpack _); vm_compute.
  - simpl. lia.
Defined.
