(* ===== verification/LogUploaderMain.v ===== *)
(** * The log uploader: logupload/client/log_uploader_main.c

    Options, the loop that collects the log, compresses it, uploads it and records
    how far it has got, and the helpers the other files are given. *)

From S2P Require Import Prelude LogUtils LogUploader LogUploaderMac KvExtract Upload.
From stdpp Require Import gmap.
Open Scope Z_scope.

Definition DEFAULT_SERVER : bytes := lit "https://diag.cpe.gfsvc.com".
Definition COUNTER_MARKER_FILE : bytes := lit "/tmp/loguploadcounter".
Definition LOGS_UPLOADED_MARKER_FILE : bytes := lit "/tmp/logs-uploaded".
Definition DEFAULT_UPLOAD_TARGET : bytes := lit "dmesg".
Definition MAX_LOG_SIZE : Z := 8 * 1024 * 1024.
Definition LOG_BUF_EXTRA : Z := 65536.
Definition DEV_KMSG_PATH : bytes := lit "/dev/kmsg".
Definition NTP_SYNCED_PATH : bytes := lit "/tmp/ntp.synced".
Definition VERSION_PATH : bytes := lit "/etc/version".
Definition SERIAL_PATH : bytes := lit "/tmp/serial".
Definition PLATFORM_PATH : bytes := lit "/tmp/platform".
Definition LOG_LINE_BUFFER_SIZE : Z := 8192.
Definition main_interfaces : list bytes :=
  [lit "br0"; lit "br1"; lit "eth0"; lit "man"; lit "pon0"; lit "wcli0"; lit "wcli1";
   lit "wlan0_portal"; lit "wlan1_portal"].

Record upload_config := Config {
  server : bytes;
  cf_logtype : bytes;
  cf_upload_all : bool;
  use_stdout : bool;
  use_stdin : bool;
  freq : Z;
  upload_target : bytes;
}.
Definition default_config : upload_config :=
  Config DEFAULT_SERVER [] false false false 0 DEFAULT_UPLOAD_TARGET.

(** ** Options *)

(** The answers of getopt_long before its -1. *)
Inductive opt := Opt_all | Opt_stdout | Opt_server (optarg : bytes) | Opt_stdin (optarg : bytes)
  | Opt_logtype (optarg : bytes) | Opt_freq (optarg : bytes) | Opt_unknown.

(** [snprintf(array, n, "%s", s)] as the string the array then holds. *)
Definition fit (n : nat) (s : bytes) : bytes := take (n - 1) s.

Definition parse_opt (c : upload_config) (o : opt) : outcome (upload_config + list bytes) :=
  match o with
  | Opt_all => Ret (inl (Config (server c) (cf_logtype c) true (use_stdout c) (use_stdin c) (freq c) (upload_target c)))
  | Opt_stdout => Ret (inl (Config (server c) (cf_logtype c) (cf_upload_all c) true (use_stdin c) (freq c) (upload_target c)))
  | Opt_server s => Ret (inl (Config (fit 1024 s) (cf_logtype c) (cf_upload_all c) (use_stdout c) (use_stdin c) (freq c) (upload_target c)))
  | Opt_stdin s => Ret (inl (Config (server c) (cf_logtype c) (cf_upload_all c) (use_stdout c) true (freq c) (fit 1024 s)))
  | Opt_logtype s => Ret (inl (Config (server c) (fit 128 s) (cf_upload_all c) (use_stdout c) (use_stdin c) (freq c) (upload_target c)))
  | Opt_freq s =>
      f ← atoi s;
      if f <? 0 then Ret (inr [lit "fatal: freq must be >= 0"])
      else Ret (inl (Config (server c) (cf_logtype c) (cf_upload_all c) (use_stdout c) (use_stdin c) f (upload_target c)))
  | Opt_unknown => Ret (inr [])
  end.

(** [parse_args]: the messages of a result -1; [extra] says that arguments are left
    over. *)
Fixpoint parse_args (c : upload_config) (opts : list opt) (extra : bool) : outcome (upload_config + list bytes) :=
  match opts with
  | [] => Ret (if extra then inr [] else inl c)
  | o :: opts => r ← parse_opt c o; match r with inr m => Ret (inr m) | inl c => parse_args c opts extra end
  end.

Definition usage (progname : bytes) : bytes :=
  10 :: lit "Usage: " ++ progname ++ lit " [options...]" ++ [10] ++
  lit " --server URL    Server URL [" ++ DEFAULT_SERVER ++ lit "]" ++ [10] ++
  lit " --all           Upload entire logs, not just new data" ++ [10] ++
  lit " --logtype TYPE  Tell server which log category this is" ++ [10] ++
  lit " --freq SECS     Repeat every SECS secs (default=once)" ++ [10] ++
  lit " --stdout        Print to stdout instead of uploading" ++ [10] ++
  lit " --stdin NAME    Get data from stdin, not /dev/kmsg, and" ++ [10] ++
  lit "                   name uploaded file NAME rather than 'dmesg'" ++ [10].

(** [pick_delay] with the value of random(). *)
Definition pick_delay (c : upload_config) (random : Z) : Z :=
  let variance := Z.quot (freq c) 12 in
  s32 (s32 (freq c - variance) + Z.rem random (s32 (variance * 2 + 1))).

(** ** Interfaces *)

(** The six bytes of an interface's hardware address, when the system call
    succeeds. *)
Class Ioctl := siocgifhwaddr : bytes → option (list Z).
(** Whether char is signed. *)
Class CharSign := char_is_signed : bool.
Definition char_value `{!CharSign} (b : Z) : Z := if char_is_signed then (if b <? 128 then b else b - 256) else b.

Definition IFNAMSIZ : Z := 16.
(** The bytes as hexadecimal numbers of at least two digits, between colons. *)
Fixpoint mac_text `{!CharSign} (mac : list Z) : bytes :=
  match mac with
  | [] => []
  | [b] => hex02 (char_value b)
  | b :: mac => hex02 (char_value b) ++ lit ":" ++ mac_text mac
  end.

Definition iface_to_mac `{!Ioctl, !CharSign} (iface : bytes) (len : Z) : Z * bytes :=
  if len <? 18 then (-1, [])
  else if strlen iface + 1 >? IFNAMSIZ then (-1, [])
  else
    match siocgifhwaddr iface with
    | None => (-1, [])
    | Some mac =>
        (0, take (Z.to_nat (len - 1)) (mac_text mac))
    end.

(** ** The program *)

(** A read of stdin: what it gives, and whether the alarm has gone off when it
    returns. *)
Inductive stdin_read := StdinData (bs : bytes) (alarmed : bool) | StdinEof | StdinError (eintr : bool).

(** What the system does during an iteration of the main loop. *)
Record cycle := Cycle {
  cy_stdin : list stdin_read;
  cy_kmsg : list kmsg_event;
  cy_ifaddrs : option (list ifaddr);     (* getifaddrs *)
  cy_random : Z * Z;                     (* for the alarm and for the sleep *)
}.

(** The state: the uploader's (log_buffer, line_buffer, the counter, the files), the
    heap, the calls of libcurl, and what the process prints and waits for. *)
Record process := Process {
  pr_up : uploader;
  pr_heap : heap;
  pr_live : gset addr;
  pr_sender : sender;
  pr_stdout : bytes;
  pr_waits : list Z;                     (* arguments of alarm and sleep *)
}.
Abbreviation PM := (M process).
Definition set_up u p := Process u (pr_heap p) (pr_live p) (pr_sender p) (pr_stdout p) (pr_waits p).
Definition set_heap h l p := Process (pr_up p) h l (pr_sender p) (pr_stdout p) (pr_waits p).
Definition set_sender s p := Process (pr_up p) (pr_heap p) (pr_live p) s (pr_stdout p) (pr_waits p).
Definition add_stdout t p := Process (pr_up p) (pr_heap p) (pr_live p) (pr_sender p) (pr_stdout p ++ t) (pr_waits p).
Definition add_wait t p := Process (pr_up p) (pr_heap p) (pr_live p) (pr_sender p) (pr_stdout p) (pr_waits p ++ [t]).

(** What an iteration does: the next one, [break], or [return status]. *)
Inductive next_step := Again | Break | Exit (status : Z).

Section main.
Context {Z_ : Type} `{!Zlib Z_}.
Context `{!CPlatform, !Os, !Hmac, !KeyStat, !Wall, !Allocator, !GaiStrerror, !Curl, !Ioctl, !CharSign}.
Context (getnameinfo : Z * bytes → Z → Z → Z * bytes).

Definition on_up {A} (m : U A) : PM A := fun p =>
  '(a, u) ← m (pr_up p); Ret (a, set_up u p).
Definition on_files' {A} (m : W A) : PM A := on_up (on_world m).
Definition on_extractor {A} (m : X A) : PM A := fun p =>
  '(a, e) ← m (Extractor (u_world (pr_up p)) (pr_heap p) (pr_live p));
  Ret (a, set_heap (ex_heap e) (ex_live e) (set_up (up_world (ex_world e) (pr_up p)) p)).
Definition on_sender {A} (m : C A) : PM A := fun p =>
  '(a, s) ← m (pr_sender p); Ret (a, set_sender s p).
Definition say (t : bytes) : PM unit := on_files' (perror t).

(** The loop that reads stdin: [total_read], or the status to return; [None] when
    the reads run out first.  Bytes that arrive as the alarm goes off are not
    counted. *)
Fixpoint stdin_loop (reads : list stdin_read) (total : Z) : PM (option (next_step + Z)) :=
  match reads with
  | [] => mret None
  | StdinData bs alarmed :: reads =>
      if Z.of_nat (length bs) =? 0 then mret None
      else
        log ← gets (u_log ∘ pr_up);
        log ← lift (if decide (0 ≤ total ∧ total + Z.of_nat (length bs) ≤ MAX_LOG_SIZE ∧ MAX_LOG_SIZE ≤ Z.of_nat (length log))
                    then Ret (take (Z.to_nat total) log ++ bs ++ drop (Z.to_nat total + length bs) log) else Ub);
        modify (λ p, set_up (up_log log (u_total (pr_up p)) (pr_up p)) p);;
        if alarmed : bool then mret (Some (inr total)) else stdin_loop reads (total + Z.of_nat (length bs))
  | StdinEof :: _ =>
      if total =? 0 then
        say (lit "stdin: end of input. done.");; mret (Some (inl (Exit 0)))
      else mret (Some (inr total))
  | StdinError eintr :: _ =>
      if eintr : bool then mret (Some (inr total))
      else say (lit "stdin");; mret (Some (inl (Exit 2)))
  end.

(** The first part of an iteration: where the data starts and how much there is. *)
Definition collect (c : upload_config) (cy : cycle) : PM (option (next_step + Z * Z)) :=
  if use_stdin c then
    modify (add_wait (pick_delay c (cy_random cy).1));;
    r ← stdin_loop (cy_stdin cy) 0;
    mret (match r with
          | None => None | Some (inl e) => Some (inl e) | Some (inr total) => Some (inr (0, total)) end)
  else
    on_files' (modify (λ w, {| files := delete LOGS_UPLOADED_MARKER_FILE (files w); errors := errors w |}));;
    counter ← gets (u_counter ∘ pr_up);
    marked ← (if counter =? 0 then on_up (logmark_once DEV_KMSG_PATH VERSION_PATH NTP_SYNCED_PATH) else mret 0);
    if negb (marked =? 0) then
      say (lit "failed to execute logmark-once properly");; mret (Some (inl (Exit 3)))
    else
      r ← on_up (parse_and_consume_log_data
            {| dev_kmsg_path := DEV_KMSG_PATH; version_path := VERSION_PATH; ntp_synced_path := NTP_SYNCED_PATH;
               line_buffer_size := LOG_LINE_BUFFER_SIZE; log_buffer_size := MAX_LOG_SIZE; upload_all := cf_upload_all c |}
            (cy_kmsg cy));
      match r with
      | None => mret None
      | Some None => say (lit "failed with logs parsing, abort!");; mret (Some (inl (Exit 4)))
      | Some (Some start) => total ← gets (u_total ∘ pr_up); mret (Some (inr (start, total)))
      end.

(** The counter's file, then the marker file. *)
Definition record_upload : PM next_step :=
  counter ← gets (u_counter ∘ pr_up);
  r ← on_files' (write_file_as_uint64 COUNTER_MARKER_FILE counter);
  if negb (r =? 0) then say (lit "unable to write out last log counter");; mret (Exit 9)
  else
    (if open_write LOGS_UPLOADED_MARKER_FILE
     then on_files' (modify (λ w, {| files := <[LOGS_UPLOADED_MARKER_FILE := default [] (files w !! LOGS_UPLOADED_MARKER_FILE)]> (files w);
                                     errors := errors w |}))
     else mret tt);;
    mret Again.

(** Compression and upload of [total] bytes from [start] on. *)
Definition send (zstrm : Z_) (c : upload_config) (cy : cycle) (start total : Z) : PM next_step :=
  match cy_ifaddrs cy with
  | None => say (lit "getifaddrs");; mret (Exit 5)
  | Some ifaddr =>
      kvpairs ← on_extractor (extract_kv_pairs
        {| interfaces_to_check := main_interfaces; ifaddrs := ifaddr; platform_path := PLATFORM_PATH;
           serial_path := SERIAL_PATH; logtype := Some (cf_logtype c); name_info_resolver := getnameinfo;
           interface_to_mac := iface_to_mac |});
      match kvpairs with
      | None => say (lit "failure extracting kv pairs, abort");; mret (Exit 6)
      | Some kvpairs =>
          log ← gets (u_log ∘ pr_up);
          let at_ := Z.to_nat start in
          '(comp_result, (data, compressed_size)) ← lift (deflate_inplace zstrm (drop at_ log) (Z.to_nat total)
                                                            (MAX_LOG_SIZE + LOG_BUF_EXTRA - start));
          modify (λ p, set_up (up_log (take at_ log ++ data) (u_total (pr_up p)) (pr_up p)) p);;
          if negb (bool_decide (comp_result = Z_OK)) then
            say (lit "fatal: deflate_inplace failed");; mret (Exit 7)
          else
            upload_res ← on_sender (upload_file (server c) (upload_target c) data compressed_size kvpairs);
            on_extractor (free_kv_pairs kvpairs);;
            if negb (upload_res =? 0) then say (lit "upload_file failed");; mret (Exit 8)
            else record_upload
      end
  end.

(** An iteration of the main loop; [None] when it does not end on the given input. *)
Definition main_cycle (zstrm : Z_) (c : upload_config) (cy : cycle) : PM (option next_step) :=
  r ← collect c cy;
  match r with
  | None => mret None
  | Some (inl e) => mret (Some e)
  | Some (inr (start, total)) =>
      say (lit "uploading " ++ dec total ++ lit " bytes of logs.");;
      r ← (if use_stdout c then
             log ← gets (u_log ∘ pr_up);
             (if decide (0 ≤ start ∧ 0 ≤ total ∧ start + total ≤ Z.of_nat (length log))
              then modify (add_stdout (take (Z.to_nat total) (drop (Z.to_nat start) log))) else stuck);;
             mret Again
           else send zstrm c cy start total);
      match r with
      | Again =>
          marked ← (if use_stdin c then mret 0 else on_files' (write_to_file DEV_KMSG_PATH LOG_MARKER_END_LINE));
          if marked <? 0 then say (lit "end marker");; mret (Some (Exit 10))
          else if freq c =? 0 then mret (Some Break)
          else
            (if use_stdin c then mret tt else modify (add_wait (pick_delay c (cy_random cy).2)));;
            mret (Some Again)
      | r => mret (Some r)
      end
  end.

(** The loop, and the release of the log buffer after its [break]. *)
Fixpoint main_loop (zstrm : Z_) (c : upload_config) (log_buffer_addr : addr) (cys : list cycle) : PM (option Z) :=
  match cys with
  | [] => mret None
  | cy :: cys =>
      r ← main_cycle zstrm c cy;
      match r with
      | None => mret None
      | Some (Exit status) => mret (Some status)
      | Some Break =>
          modify (λ p, set_heap (pr_heap p) (pr_live p ∖ {[log_buffer_addr]}) p);; mret (Some 0)
      | Some Again => main_loop zstrm c log_buffer_addr cys
      end
  end.

(** [main]; [log_buffer] and [line_buffer] are what the fresh memory holds.  The
    usage message ends the process with success. *)
Definition main (zstrm : Z_) (progname : bytes) (opts : list opt) (extra : bool) (log_buffer line_buffer : bytes) (cys : list cycle)
    : PM (option Z) :=
  on_up default_consensus_key;;
  config ← lift (parse_args default_config opts extra);
  match config with
  | inr messages =>
      on_files' (modify (λ w, {| files := files w; errors := errors w ++ messages |}));;
      say (usage progname);; mret (Some 0)
  | inl c =>
      h ← gets pr_heap;
      let '(a, h) := malloc h in
      l ← gets pr_live;
      modify (set_heap h (match a with Some a => {[a]} ∪ l | None => l end));;
      match a with
      | None => say (lit "Failed to allocate log_buffer!");; mret (Some 98)
      | Some log_buffer_addr =>
          if negb (use_stdin c) && negb (open_read DEV_KMSG_PATH) then
            say DEV_KMSG_PATH;; mret (Some 1)
          else
            counter ← on_files' (read_file_as_uint64 COUNTER_MARKER_FILE);
            modify (λ p, set_up (up_counter counter (up_line line_buffer false (up_log log_buffer 0 (pr_up p)))) p);;
            main_loop zstrm c log_buffer_addr cys
      end
  end.
End main.

(** ** The counter's file *)

Section counter_file.
Context `{!CPlatform, !Os, !Hmac, !KeyStat, !Wall, !Allocator, !GaiStrerror}.

(** The counter's file is left alone. *)
Definition same_file (w w' : world) : Prop := files w' !! COUNTER_MARKER_FILE = files w !! COUNTER_MARKER_FILE.
#[local] Instance same_file_refl : Reflexive same_file.
Proof. done. Qed.
#[local] Instance same_file_trans : Transitive same_file.
Proof. intros a b c Hab Hbc. unfold same_file in *. congruence. Qed.
Definition up_same (u u' : uploader) : Prop := same_file (u_world u) (u_world u').
#[local] Instance up_same_refl : Reflexive up_same.
Proof. intros u. unfold up_same. reflexivity. Qed.
#[local] Instance up_same_trans : Transitive up_same.
Proof. intros a b c Hab Hbc. unfold up_same in *. etrans; eassumption. Qed.

#[local] Hint Extern 1 (keeps _ stuck) => by intros ? ? ? : keeps_db.
#[local] Hint Extern 1 (keeps _ (λ _, OutOfFuel)) => by intros ? ? ? : keeps_db.
#[local] Hint Extern 1 (keeps _ (modify _)) => by apply keeps_modify : keeps_db.

Lemma keeps_perror t : keeps same_file (perror t).
Proof. unfold perror. keeps_auto. Qed.
Lemma keeps_content f : keeps same_file (content f).
Proof. unfold content. keeps_auto. Qed.
#[local] Hint Resolve keeps_perror keeps_content : keeps_db.
Lemma keeps_read_bytes f n : keeps same_file (read_bytes f n).
Proof. unfold read_bytes. keeps_auto. Qed.
#[local] Hint Resolve keeps_read_bytes : keeps_db.
Lemma keeps_read_string f d n : keeps same_file (read_file_as_string f d n).
Proof. unfold read_file_as_string. keeps_auto. Qed.
Lemma keeps_write f d : f ≠ COUNTER_MARKER_FILE → keeps same_file (write_to_file f d).
Proof.
  intros Hf. unfold write_to_file. destruct (open_write f); [|keeps_auto].
  apply keeps_bind; [apply _|keeps_auto|]. intros c. apply keeps_bind; [apply _| |intros; keeps_auto].
  apply keeps_modify. intros w. unfold same_file, set_file. cbn. by rewrite lookup_insert_ne.
Qed.

Lemma keeps_on_world {A} (m : W A) : keeps same_file m → keeps up_same (on_world m).
Proof.
  intros Hm u a u'. unfold on_world. intros ([b w] & Hb & [= <- <-])%outcome_bind_Ret. by apply (Hm _ _ _ Hb).
Qed.
#[local] Hint Resolve keeps_read_string keeps_on_world : keeps_db.

Lemma keeps_anonid mac : keeps up_same (get_anonid_for_mac mac).
Proof.
  unfold get_anonid_for_mac, get_consensus_key.
  keeps_auto.
Qed.
#[local] Hint Resolve keeps_anonid : keeps_db.
Lemma keeps_suppress fuel : ∀ line i len new_len, keeps up_same (suppress_loop fuel line i len new_len).
Proof.
  induction fuel as [|fuel IH]; intros line i len new_len; cbn [suppress_loop]; [keeps_auto|].
  unfold anonymize_mac_address. keeps_auto.
Qed.
Lemma keeps_suppress_all line len : keeps up_same (suppress_mac_addresses line len).
Proof. apply keeps_suppress. Qed.
#[local] Hint Resolve keeps_suppress_all : keeps_db.

Lemma keeps_logmark out v n : out ≠ COUNTER_MARKER_FILE → keeps up_same (logmark_once out v n).
Proof. intros Ho. pose proof (keeps_write out). unfold logmark_once. keeps_auto. Qed.

Context (p : log_params) (Hp : dev_kmsg_path p ≠ COUNTER_MARKER_FILE).

Lemma keeps_line check l n : keeps up_same (consume_line p check l n).
Proof. unfold consume_line, consume_entry, log_printf. keeps_auto. Qed.
#[local] Hint Resolve keeps_line : keeps_db.
Lemma keeps_event check l ev : keeps up_same (consume_event p check l ev).
Proof.
  pose proof (keeps_write (dev_kmsg_path p)). pose proof (keeps_logmark (dev_kmsg_path p)).
  unfold consume_event. keeps_auto.
Qed.
#[local] Hint Resolve keeps_event : keeps_db.
Lemma keeps_loop check evs : ∀ l, keeps up_same (consume_loop p check l evs).
Proof. induction evs as [|ev evs IH]; intros l; cbn [consume_loop]; keeps_auto. Qed.
#[local] Hint Resolve keeps_loop : keeps_db.
Lemma keeps_parse evs : keeps up_same (parse_and_consume_log_data p evs).
Proof. unfold parse_and_consume_log_data. keeps_auto. Qed.

Lemma keeps_free ps : keeps (λ e e', same_file (ex_world e) (ex_world e')) (free_kv_pairs ps).
Proof.
  induction ps as [|p0 ps IH]; cbn [free_kv_pairs]; [by intros s a s' [= _ <-]|].
  intros s a s' ([] & s1 & Hf & Hr)%M_bind_Ret. apply IH in Hr. unfold free_pair in Hf.
  case_decide; [|done]. by injection Hf as <-.
Qed.

Lemma keeps_extract q : keeps (λ e e', same_file (ex_world e) (ex_world e')) (extract_kv_pairs q).
Proof.
  set (R := λ e e', same_file (ex_world e) (ex_world e')).
  assert (Reflexive R) by (intros e; unfold R; reflexivity).
  assert (Transitive R) by (intros a b d Hab Hbd; unfold R in *; etrans; eassumption).
  assert (∀ A (m : W A), keeps same_file m → keeps R (on_files m)) as Hon.
  { intros A m Hm s a s'. unfold on_files. intros ([b w] & Hb & [= <- <-])%outcome_bind_Ret. by apply (Hm _ _ _ Hb). }
  assert (∀ t, keeps R (complain t)) as Hc by (intros t; apply Hon, keeps_perror).
  assert (keeps R new_pair) as Hnew.
  { intros s a s'. unfold new_pair. destruct (malloc (ex_heap s)) as [[ad|] h]; by intros [= _ <-]. }
  assert (∀ a, keeps R (free_pair a)) as Hfree.
  { intros a s u s'. unfold free_pair. case_decide; [by intros [= _ <-]|done]. }
  pose proof (keeps_free : ∀ ps, keeps R (free_kv_pairs ps)) as Hfrees.
  assert (∀ f k sl, keeps R (get_pair_from_file f k sl)) as Hget.
  { intros f k sl. pose proof (λ f d n, Hon _ _ (keeps_read_string f d n)). unfold get_pair_from_file. keeps_auto. }
  assert (∀ fa a sa ifs ps, keeps R (address_of q fa a sa ifs ps)) as Haddr.
  { intros fa a sa ifs. induction ifs; intros ps; cbn [address_of]; keeps_auto. }
  assert (∀ ifas ps, keeps R (addresses q ifas ps)) as Haddrs.
  { intros ifas. induction ifas; intros ps; cbn [addresses]; keeps_auto. }
  assert (∀ ps k v, keeps R (add_pair ps k v)) as Hadd by (intros; unfold add_pair; keeps_auto).
  assert (∀ ifs ps, keeps R (mac_addresses q ifs ps)) as Hmac.
  { intros ifs. induction ifs; intros ps; cbn [mac_addresses]; keeps_auto. }
  unfold extract_kv_pairs, add_logtype. keeps_auto.
Qed.
End counter_file.

(** ** The loop *)

Section recorded.
Context {Z_ : Type} `{!Zlib Z_}.
Context `{!CPlatform, !Os, !Hmac, !KeyStat, !Wall, !Allocator, !GaiStrerror, !Curl, !Ioctl, !CharSign}.
Context (getnameinfo : Z * bytes → Z → Z → Z * bytes).

(** Neither the counter's file nor the connection has been touched. *)
Definition untouched (p p' : process) : Prop :=
  up_same (pr_up p) (pr_up p') ∧ pr_sender p' = pr_sender p.
#[local] Instance untouched_refl : Reflexive untouched.
Proof. by intros p. Qed.
#[local] Instance untouched_trans : Transitive untouched.
Proof. intros a b c [H1' H2'] [H3' H4']. split; [unfold up_same, same_file in *|]; congruence. Qed.

#[local] Hint Extern 1 (keeps _ stuck) => by intros ? ? ? : keeps_db.
#[local] Hint Extern 1 (keeps _ (modify _)) => by apply keeps_modify : keeps_db.

Lemma keeps_on_up {A} (m : U A) : keeps up_same m → keeps untouched (on_up m).
Proof.
  intros Hm p a p'. unfold on_up. intros ([b u] & Hb & [= <- <-])%outcome_bind_Ret. split; [by apply (Hm _ _ _ Hb)|done].
Qed.
Lemma keeps_on_files {A} (m : W A) : keeps same_file m → keeps untouched (on_files' m).
Proof. intros Hm. by apply keeps_on_up, keeps_on_world. Qed.
Lemma keeps_say t : keeps untouched (say t).
Proof. apply keeps_on_files, keeps_perror. Qed.
Lemma keeps_on_extractor {A} (m : X A) :
  keeps (λ e e', same_file (ex_world e) (ex_world e')) m → keeps untouched (on_extractor m).
Proof.
  intros Hm p a p'. unfold on_extractor. intros ([b e] & Hb & [= <- <-])%outcome_bind_Ret.
  split; [by apply (Hm _ _ _ Hb)|done].
Qed.
#[local] Hint Resolve keeps_say keeps_on_up : keeps_db.

Lemma keeps_stdin reads : ∀ total, keeps untouched (stdin_loop reads total).
Proof. induction reads as [|r reads IH]; intros total; cbn [stdin_loop]; keeps_auto. Qed.
#[local] Hint Resolve keeps_stdin : keeps_db.

Lemma keeps_collect c cy : keeps untouched (collect c cy).
Proof.
  unfold collect. destruct (use_stdin c); [keeps_auto|].
  apply keeps_bind; [apply _| |intros _].
  { apply keeps_on_files, keeps_modify. intros w. unfold same_file. cbn. by rewrite lookup_delete_ne. }
  assert (keeps up_same (logmark_once DEV_KMSG_PATH VERSION_PATH NTP_SYNCED_PATH)) by by apply keeps_logmark.
  pose proof (keeps_parse {| dev_kmsg_path := DEV_KMSG_PATH; version_path := VERSION_PATH; ntp_synced_path := NTP_SYNCED_PATH;
    line_buffer_size := LOG_LINE_BUFFER_SIZE; log_buffer_size := MAX_LOG_SIZE; upload_all := cf_upload_all c |} ltac:(done)).
  keeps_auto.
Qed.

(** A status that the program returns before the upload is done. *)
Definition early (r : next_step) : Prop := ∃ n, r = Exit n ∧ 0 ≤ n ≤ 8.

(** Either the upload fails, or all that is left is to record it. *)
Lemma send_cases zst c cy start total p r p' :
  send getnameinfo zst c cy start total p = Ret (r, p') →
  (early r ∧ same_file (u_world (pr_up p)) (u_world (pr_up p'))) ∨
  ∃ p1 data len kvs, untouched p (set_sender (pr_sender p) p1) ∧
    upload_file (server c) (upload_target c) data len kvs (pr_sender p) = Ret (0, pr_sender p1) ∧
    record_upload p1 = Ret (r, p').
Proof.
  unfold send. destruct (cy_ifaddrs cy) as [ifa|].
  2:{ intros ([] & p1 & H1' & [= <- <-])%M_bind_Ret. left. split; [by exists 5|]. by apply (keeps_say _ _ _ _ H1'). }
  intros (kvs & p1 & H1' & H2')%M_bind_Ret.
  apply (keeps_on_extractor _ (keeps_extract _)) in H1'.
  destruct kvs as [kvs|].
  2:{ apply M_bind_Ret in H2' as ([] & p2 & H2' & [= <- <-]). left. split; [by exists 6|].
      apply (keeps_say _ _ _ _) in H2'. by apply (untouched_trans _ _ _ H1' H2'). }
  apply M_bind_Ret in H2' as (log & p2 & [= <- <-] & H2').
  apply M_bind_Ret in H2' as ([comp [data len]] & p2 & H3' & H2').
  assert (p2 = p1) as ->.
  { revert H3'. unfold lift. destruct (deflate_inplace _ _ _ _); [|done..]. by intros [= _ ->]. }
  apply M_bind_Ret in H2' as ([] & p3 & [= <-] & H2').
  destruct (negb _).
  { apply M_bind_Ret in H2' as ([] & p2 & H2' & [= <- <-]). left. split; [by exists 7|].
    apply (keeps_say _ _ _ _) in H2'. destruct H1' as [H1' _], H2' as [H2' _]. by apply (up_same_trans _ _ _ H1' H2'). }
  apply M_bind_Ret in H2' as (rv & p3 & H4' & H2').
  unfold on_sender in H4'. apply outcome_bind_Ret in H4' as ([rv' s] & Hup & [= -> <-]).
  apply M_bind_Ret in H2' as ([] & p4 & H5' & H2').
  apply (keeps_on_extractor _ (keeps_free kvs)) in H5'. destruct H5' as [H5' H6'], H1' as [H1' H7'].
  destruct (Z.eqb_spec rv 0) as [->|Hrv]; cbn [negb] in H2'.
  - right. exists p4, data, len, kvs. split; [split; [|done]|].
    + unfold up_same, same_file in *. cbn in *. congruence.
    + split; [|done]. cbn in *. rewrite H6'. rewrite <-H7'. exact Hup.
  - apply M_bind_Ret in H2' as ([] & p5 & H2' & [= <- <-]). left. split; [by exists 8|].
    apply (keeps_say _ _ _ _) in H2'. destruct H2' as [H2' _]. unfold up_same, same_file in *. cbn in *. congruence.
Qed.

Lemma record_run p : usable COUNTER_MARKER_FILE →
  ∃ p', record_upload p = Ret (Again, p') ∧ u_counter (pr_up p') = u_counter (pr_up p) ∧
    pr_sender p' = pr_sender p ∧
    ∃ rest, files (u_world (pr_up p')) !! COUNTER_MARKER_FILE = Some (counter_text (u_counter (pr_up p)) ++ rest).
Proof.
  intros Hus. unfold record_upload. rewrite (M_bind_eq _ _ _ (u_counter (pr_up p)) p) by done.
  set (w := set_file COUNTER_MARKER_FILE (counter_text (u_counter (pr_up p)) ++
    drop (length (counter_text (u_counter (pr_up p)))) (default [] (files (u_world (pr_up p)) !! COUNTER_MARKER_FILE)))
    (u_world (pr_up p))).
  assert (on_files' (write_file_as_uint64 COUNTER_MARKER_FILE (u_counter (pr_up p))) p
    = Ret (0, set_up (up_world w (pr_up p)) p)) as Hw.
  { unfold on_files', on_up, on_world. by rewrite counter_write_run. }
  rewrite (M_bind_eq _ _ _ _ _ Hw). cbn [Z.eqb negb].
  assert (files w !! COUNTER_MARKER_FILE = Some (counter_text (u_counter (pr_up p)) ++
    drop (length (counter_text (u_counter (pr_up p)))) (default [] (files (u_world (pr_up p)) !! COUNTER_MARKER_FILE)))) as Hf
    by (unfold w, set_file; cbn [files]; by rewrite lookup_insert_eq).
  destruct (open_write LOGS_UPLOADED_MARKER_FILE).
  - eexists. split; [done|]. split_and!; [done|done|]. eexists. cbn [pr_up set_up u_world up_world files].
    rewrite lookup_insert_ne by done. exact Hf.
  - eexists. split; [done|]. split_and!; [done|done|]. eexists. exact Hf.
Qed.

(** The collection stops the program with a status up to 4. *)
Lemma stdin_early reads : ∀ total p e p', stdin_loop reads total p = Ret (Some (inl e), p') → early e.
Proof.
  induction reads as [|r reads IH]; intros total p e p'; cbn [stdin_loop]; [done|].
  destruct r as [bs alarmed| |eintr].
  - destruct (_ =? 0); [done|]. intros (log & p1 & _ & (log' & p2 & _ & ([] & p3 & _ & Hr)%M_bind_Ret)%M_bind_Ret)%M_bind_Ret.
    destruct alarmed; [done|]. by eapply IH.
  - destruct (total =? 0); [|done]. intros ([] & p1 & _ & [= <- _])%M_bind_Ret. by exists 0.
  - destruct eintr; [done|]. intros ([] & p1 & _ & [= <- _])%M_bind_Ret. by exists 2.
Qed.

Lemma collect_early c cy p e p' : collect c cy p = Ret (Some (inl e), p') → early e.
Proof.
  unfold collect. destruct (use_stdin c).
  - intros ([] & p1 & _ & (r & p2 & Hr & Hx)%M_bind_Ret)%M_bind_Ret.
    destruct r as [[|]|]; [|done..]. injection Hx as -> _. by eapply stdin_early.
  - intros ([] & p1 & _ & (n & p2 & _ & (m & p3 & _ & Hr)%M_bind_Ret)%M_bind_Ret)%M_bind_Ret.
    destruct (negb _); [apply M_bind_Ret in Hr as ([] & p4 & _ & [= <- _]); by exists 3|].
    apply M_bind_Ret in Hr as (r & p4 & _ & Hr). destruct r as [[start|]|]; [| |done].
    + by apply M_bind_Ret in Hr as (t & p5 & _ & ?).
    + apply M_bind_Ret in Hr as ([] & p5 & _ & [= <- _]). by exists 4.
Qed.

(** What holds after an iteration. *)
Definition recorded (p' : process) : Prop :=
  read_file_as_uint64 COUNTER_MARKER_FILE (u_world (pr_up p')) = Ret (u_counter (pr_up p'), u_world (pr_up p')).

Lemma keeps_counter_write f d p a p' :
  on_files' (write_to_file f d) p = Ret (a, p') → u_counter (pr_up p') = u_counter (pr_up p).
Proof.
  unfold on_files', on_up, on_world. intros ([b u] & Hb & [= <- <-])%outcome_bind_Ret.
  by apply outcome_bind_Ret in Hb as ([b' w] & _ & [= <- <-]).
Qed.

(** What follows the upload in an iteration. *)
Lemma finish_recorded c (random : Z) p r p' :
  (marked ← (if use_stdin c then mret 0 else on_files' (write_to_file DEV_KMSG_PATH LOG_MARKER_END_LINE));
   if marked <? 0 then say (lit "end marker");; mret (Some (Exit 10))
   else if freq c =? 0 then mret (Some Break)
   else (if use_stdin c then mret tt else modify (add_wait (pick_delay c random)));; mret (Some Again)) p = Ret (r, p') →
  r ≠ None ∧ ¬ (∃ r', r = Some r' ∧ early r') ∧ untouched p p' ∧ u_counter (pr_up p') = u_counter (pr_up p).
Proof.
  intros (m & p1 & H1' & H2')%M_bind_Ret.
  assert (untouched p p1 ∧ u_counter (pr_up p1) = u_counter (pr_up p)) as [Hu Hc].
  { destruct (use_stdin c); [injection H1' as <- <-; by split|].
    split; [|by eapply keeps_counter_write]. eapply (keeps_on_files _ (keeps_write DEV_KMSG_PATH _ ltac:(done))). exact H1'. }
  destruct (m <? 0).
  - apply M_bind_Ret in H2' as ([] & p2 & H2' & [= <- <-]). split; [done|]. split.
    + intros (r' & [= <-] & n & [= <-] & ?). lia.
    + split; [by apply (untouched_trans _ _ _ Hu), (keeps_say _ _ _ _ H2')|].
      rewrite <-Hc. by injection H2' as <-.
  - assert (∀ r, r = Again ∨ r = Break → ¬ early r) as Hne by (intros x [->| ->] (n & ? & _); done).
    destruct (freq c =? 0).
    + injection H2' as <- <-. split; [done|]. split; [|done]. intros (r' & [= <-] & He). by apply (Hne Break); [right|].
    + apply M_bind_Ret in H2' as ([] & p2 & H2' & [= <- <-]).
      assert (untouched p1 p2 ∧ u_counter (pr_up p2) = u_counter (pr_up p1)) as [Hu2 Hc2].
      { destruct (use_stdin c); by injection H2' as <-. }
      split; [done|]. split; [intros (r' & [= <-] & He); by apply (Hne Again); [left|]|].
      split; [by apply (untouched_trans _ _ _ Hu)|congruence].
Qed.

(** C6: The counter is recorded when, and only when, the upload has succeeded.  An
    iteration of the main loop either stops with a status up to 8 and leaves the
    counter's file as it was, so that what was not uploaded is collected again, or
    [upload_file] has returned 0 and the file now reads as the sequence number of
    the last entry collected, where a restarted program continues. *)
Theorem counter_follows_upload zst c cy p r p' :
  usable COUNTER_MARKER_FILE → use_stdout c = false → 0 ≤ u_counter (pr_up p') < 2 ^ 64 →
  main_cycle getnameinfo zst c cy p = Ret (Some r, p') →
  (early r ∧ files (u_world (pr_up p')) !! COUNTER_MARKER_FILE = files (u_world (pr_up p)) !! COUNTER_MARKER_FILE) ∨
  (¬ early r ∧ recorded p' ∧
   ∃ data len kvs, upload_file (server c) (upload_target c) data len kvs (pr_sender p) = Ret (0, pr_sender p')).
Proof.
  intros Hus Hout Hc. unfold main_cycle. intros (x & p1 & H1' & H2')%M_bind_Ret.
  pose proof H1' as Hcol. apply (keeps_collect _ _ _ _ _) in H1'.
  destruct x as [[e|[start total]]|]; [| |done].
  { injection H2' as -> <-. left. split; [by eapply collect_early|]. apply H1'. }
  rewrite Hout in H2'. apply M_bind_Ret in H2' as ([] & p2 & H2' & H3').
  apply (keeps_say _ _ _ _) in H2'. pose proof (untouched_trans _ _ _ H1' H2') as [Hw Hs]. clear H1' H2'.
  apply M_bind_Ret in H3' as (r1 & p3 & H4' & H5').
  apply send_cases in H4' as [[(n & -> & Hn) Hf]|(p4 & data & len & kvs & [Hu1 Hu2] & Hup & Hrec)].
  { injection H5' as <- <-. left. split; [by exists n|]. unfold up_same, same_file in *. congruence. }
  right. destruct (record_run p4 Hus) as (p5 & Hrun & Hc5 & Hs5 & rest & Hf5). rewrite Hrun in Hrec.
  injection Hrec as <- <-. apply finish_recorded in H5' as (_ & He & [Hu Hs6] & Hc6).
  split; [intros He'; apply He; by exists r|]. split.
  - unfold recorded. eapply counter_read_run; [done|done|]. unfold up_same, same_file in Hu.
    rewrite Hu, Hf5, Hc6, Hc5. reflexivity.
  - exists data, len, kvs. rewrite <-Hs, Hup. congruence.
Qed.
End recorded.

(** ** Delays and addresses *)

(** The delay is near the requested one.  For every frequency whose upper limit
    fits an int and every value of random(), the delay lies within a twelfth of the
    frequency on either side. *)
Theorem pick_delay_bounds c random :
  0 ≤ freq c → freq c + freq c / 12 < 2 ^ 31 → 0 ≤ random →
  freq c - freq c / 12 ≤ pick_delay c random ≤ freq c + freq c / 12.
Proof.
  intros Hf Hmax Hr. unfold pick_delay. rewrite Z.quot_div_nonneg by lia. set (v := freq c / 12) in *.
  assert (0 ≤ v ∧ 12 * v ≤ freq c) as Hv by (unfold v; split; [apply Z.div_pos; lia|apply Z.mul_div_le; lia]).
  rewrite (s32_id (freq c - v)), (s32_id (v * 2 + 1)) by lia.
  rewrite Z.rem_mod_nonneg by lia. pose proof (Z.mod_pos_bound random (v * 2 + 1)).
  rewrite s32_id by lia. lia.
Qed.

Lemma pick_delay_bounds_witness :
  60 - 60 / 12 ≤ pick_delay (Config [] [] false false false 60 []) 1804289383 ≤ 60 + 60 / 12.
Proof. by apply (pick_delay_bounds (Config [] [] false false false 60 []) 1804289383). Defined.

(** An interface's address is printed so that it reads back.  Where char is
    unsigned, the text of an interface's hardware address is one that
    [is_mac_addr] recognises (so that it is suppressed in the log), and
    [get_binary_mac] gives the six bytes back. *)
Theorem iface_mac_roundtrip `{!Ioctl, !CharSign} iface a b c d e f len :
  char_is_signed = false → siocgifhwaddr iface = Some [a; b; c; d; e; f] → all_bytes [a; b; c; d; e; f] →
  strlen iface ≤ 15 → 18 ≤ len →
  ∃ t, iface_to_mac iface len = (0, t) ∧ length t = 17%nat ∧ is_mac_addr t 58 = Ret true ∧
    get_binary_mac t = Ret [a; b; c; d; e; f].
Proof.
  intros Hsign Hio Hall Hname Hlen. unfold iface_to_mac, IFNAMSIZ.
  destruct (Z.ltb_spec len 18); [lia|]. destruct (Z.gtb_spec (strlen iface + 1) 16); [lia|]. rewrite Hio.
  assert (∀ x, char_value x = x) as Hcv by (intros x; unfold char_value; by rewrite Hsign).
  unfold mac_text. rewrite !Hcv.
  repeat match goal with Hx : all_bytes (_ :: _) |- _ => apply Forall_cons in Hx as [?%hex02_byte Hx] end.
  repeat match goal with Hx : ∃ _ _, _ |- _ => destruct Hx as (? & ? & -> & ? & ? & ?) end.
  change (lit ":") with [58]. cbn [app]. eexists. split; [done|]. rewrite take_ge by (simpl; lia). split; [done|]. split.
  - rewrite is_mac_addr_run by (simpl; lia). unfold macs, mac_seps, mac_digits. cbn [forallb]. nat_indices. cbn -[isxdigit].
    repeat match goal with E : isxdigit ?x = true |- context [isxdigit ?x] => rewrite E end. done.
  - unfold get_binary_mac. cbn [binary_mac_loop]. rewrite !buf_get_nth by (cbn; lia).
    nat_indices. cbn -[u8 hex_chr_to_int Z.lor Z.shiftl].
    repeat match goal with E : u8 _ = _ |- _ => rewrite <-E; clear E end. done.
Qed.

Lemma iface_mac_roundtrip_witness :
  ∃ t, @iface_to_mac (λ _, Some [0xf8; 0x8f; 0xca; 0; 1; 255]) false (lit "br0") 32 = (0, t) ∧ length t = 17%nat ∧
    is_mac_addr t 58 = Ret true ∧ get_binary_mac t = Ret [0xf8; 0x8f; 0xca; 0; 1; 255].
Proof.
  apply (@iface_mac_roundtrip (λ _, Some [0xf8; 0x8f; 0xca; 0; 1; 255]) false (lit "br0") 0xf8 0x8f 0xca 0 1 255 32).
  - done.
  - done.
  - by apply (bool_decide_unpack _); vm_compute.
  - done.
  - done.
Defined.

(** Where char is signed, a byte from 128 on is printed as eight digits, and the
    text is cut off inside the fourth byte. *)
Example iface_mac_signed :
  @iface_to_mac (λ _, Some [0xf8; 0x8f; 0xca; 0; 1; 2]) true (lit "br0") 32 = (0, lit "fffffff8:ffffff8f:ffffffca:00:0").
Proof. vm_compute. reflexivity. Qed.

(** Bytes that a read of stdin returns as the alarm goes off are not uploaded. *)
Example stdin_alarm_drops `{!Os} p :
  Z.of_nat (length (u_log (pr_up p))) = MAX_LOG_SIZE →
  ∃ p', stdin_loop [StdinData (lit "lost") true] 0 p = Ret (Some (inr 0), p').
Proof.
  intros Hl. cbn [stdin_loop]. change (Z.of_nat (length (lit "lost")) =? 0) with false. cbv iota.
  rewrite (M_bind_eq _ _ _ (u_log (pr_up p)) p) by done. rewrite decide_True by (cbn; unfold MAX_LOG_SIZE in *; lia).
  rewrite M_bind_lift. by eexists.
Qed.

(** An option that is not understood ends the program with success. *)
Lemma bad_option_succeeds {Z_ : Type} `{!Zlib Z_, !CPlatform, !Os, !Hmac, !KeyStat, !Wall, !Allocator,
    !GaiStrerror, !Curl, !Ioctl, !CharSign} gni (zst : Z_) name opts extra log0 line0 cys p u :
  default_consensus_key (pr_up p) = Ret (tt, u) →
  ∃ p', main gni zst name (Opt_unknown :: opts) extra log0 line0 cys p = Ret (Some 0, p').
Proof.
  intros Hk. unfold main.
  rewrite (M_bind_eq _ _ _ tt (set_up u p)) by (unfold on_up; by rewrite Hk).
  cbn [parse_args parse_opt mbind outcome_bind]. rewrite M_bind_lift. by eexists.
Qed.

(** ** An iteration that succeeds *)

#[local] Existing Instance demo_zlib.
#[local] Existing Instance demo_os.
#[local] Existing Instance demo_hmac.
#[local] Existing Instance demo_stat.
#[local] Existing Instance lp64.
#[local] Existing Instance demo_curl.
#[local] Instance demo_time : Wall :=
  {| urandom := []; time_now := 0; wall_sec := λ _, 1500000000; wall_nsec := λ _, 0; wall_tm := λ _, (6, 14, 2, 40, 0) |}.
#[local] Instance demo_alloc : Allocator := λ _, true.
#[local] Instance demo_gai : GaiStrerror := λ _, [].
#[local] Instance demo_ioctl : Ioctl := λ _, None.
#[local] Instance demo_sign : CharSign := false.

Definition demo_process : process :=
  Process (up_line (replicate 200 0) false (up_log (replicate 2000 0) 0
    (up_world {| files := {[ COUNTER_MARKER_FILE := counter_text 5 ]}; errors := [] |} demo_uploader))) 0 ∅ demo_sender [] [].
Definition demo_cycle : cycle :=
  Cycle [] [KData (kernel_line 6 6 1000000 (lit ",-") (lit "hello")); KAgain;
            KData (kernel_line 7 7 2000000 (lit ",-") LOG_MARKER_START)] (Some []) (0, 0).
Definition demo_run := main_cycle (λ _ _ _, (0, [])) tt default_config demo_cycle demo_process.
Definition demo_after : process := match demo_run with Ret (_, p') => p' | _ => demo_process end.

Lemma counter_follows_upload_witness :
  ∃ r p', main_cycle (λ _ _ _, (0, [])) tt default_config demo_cycle demo_process = Ret (Some r, p') ∧
  ((early r ∧ files (u_world (pr_up p')) !! COUNTER_MARKER_FILE = files (u_world (pr_up demo_process)) !! COUNTER_MARKER_FILE) ∨
   (¬ early r ∧ recorded p' ∧
    ∃ data len kvs, upload_file (server default_config) (upload_target default_config) data len kvs (pr_sender demo_process)
      = Ret (0, pr_sender p'))).
Proof.
  assert (main_cycle (λ _ _ _, (0, [])) tt default_config demo_cycle demo_process = Ret (Some Break, demo_after)) as Hrun
    by (vm_compute; reflexivity).
  exists Break, demo_after. split; [exact Hrun|].
  apply (counter_follows_upload (λ _ _ _, (0, [])) tt default_config demo_cycle demo_process Break demo_after); [..|exact Hrun];
    clear Hrun.
  - by split.
  - reflexivity.
  - vm_compute. split; [discriminate|reflexivity].
Defined.
