(* ===== verification/Anonid.v ===== *)
(** * The identifier tool: cmds/anonid.c

    It prints the identifier that stands for a MAC address under the consensus key,
    with its own copy of the functions of the log uploader. *)

From S2P Require Import Prelude LogUtils LogUploader LogUploaderMac.
From stdpp Require Import gmap.
Open Scope Z_scope.

Module Anonid.

Definition SOFT : bytes := lit "AEIOUY" ++ lit "V".
Definition HARD : bytes := lit "BCDFGHJKLMNPQRSTVWXYZ" ++ lit "AEIOU".
Definition consensus_key_file : bytes := lit "/tmp/waveguide/consensus_key".
Definition CONSENSUS_KEY_LEN : nat := 16.
Definition MAC_ADDR_LEN : Z := 17.

(** The key, the files, and what has been printed on stdout. *)
Record tool := Tool {
  an_key : bytes;
  an_world : world;
  an_out : bytes;
}.
Abbreviation T := (M tool).
Definition with_key k s := Tool k (an_world s) (an_out s).

Section anonid.
Context `{!Os, !Hmac, !Wall}.

Definition on_files {A} (m : W A) : T A := fun s =>
  '(a, w) ← m (an_world s); Ret (a, Tool (an_key s) w (an_out s)).

Definition default_consensus_key : T unit :=
  if open_read (lit "/dev/urandom") then
    modify (with_key (if bool_decide (length urandom = CONSENSUS_KEY_LEN) then urandom
                      else replicate CONSENSUS_KEY_LEN (u8 time_now)))
  else mret tt.

Definition get_consensus_key : T Z :=
  if open_read consensus_key_file then
    '(n, new_key) ← on_files (read_bytes consensus_key_file (Z.of_nat CONSENSUS_KEY_LEN));
    if n =? Z.of_nat CONSENSUS_KEY_LEN then modify (with_key new_key);; mret 0 else mret 1
  else mret 1.

Definition trigraph (num : Z) : outcome bytes :=
  let ns := Z.of_nat (length SOFT) in
  let nh := Z.of_nat (length HARD) in
  let c3 := Z.rem num nh in
  let c2 := Z.rem (Z.quot num nh) ns in
  let c1 := Z.quot (Z.quot num nh) ns in
  a ← buf_get (HARD ++ [NUL]) c1;
  b ← buf_get (SOFT ++ [NUL]) c2;
  c ← buf_get (HARD ++ [NUL]) c3;
  Ret [a; b; c].

Definition hex_chr_to_int (hex : Z) : Z :=
  if (48 <=? hex) && (hex <=? 57) then hex - 48
  else if (97 <=? hex) && (hex <=? 102) then hex - 97 + 10
  else if (65 <=? hex) && (hex <=? 70) then hex - 65 + 10
  else 0.

(** [for (i = 0; i < MAC_ADDR_LEN; i += 3)]; seven rounds of fuel are enough. *)
Fixpoint mac_loop (fuel : nat) (mac : bytes) (i : Z) : outcome bytes :=
  match fuel with
  | O => OutOfFuel
  | S fuel =>
      if i <? MAC_ADDR_LEN then
        a ← buf_get mac i;
        b ← buf_get mac (i + 1);
        out ← mac_loop fuel mac (i + 3);
        Ret (u8 (Z.lor (Z.shiftl (hex_chr_to_int a) 4) (hex_chr_to_int b)) :: out)
      else Ret []
  end.
Definition get_binary_mac (mac : bytes) : outcome bytes := mac_loop 7 mac 0.

Definition get_anonid_for_mac (mac : bytes) : T bytes :=
  macbin ← lift (get_binary_mac mac);
  k ← gets an_key;
  let digest := hmac_md5 k macbin in
  d0 ← lift (buf_get digest 0);
  d1 ← lift (buf_get digest 1);
  d2 ← lift (buf_get digest 2);
  let num := u32 (Z.lor (Z.lor (Z.shiftl d0 16) (Z.shiftl d1 8)) d2) in
  a ← lift (trigraph (Z.land (Z.shiftr num 12) 0x0fff));
  b ← lift (trigraph (Z.land num 0x0fff));
  mret (a ++ b).

(** The message of [usage], which ends the process with status 1. *)
Definition usage (progname : bytes) : T Z :=
  on_files (perror (lit "usage: " ++ progname ++ lit ": -a ##:##:##:##:##:## [-k consensus_key]"));;
  on_files (perror (9 :: lit "-a addr: MAC address to generate an anonid for"));;
  on_files (perror (9 :: lit "-k key: Use a specific consensus_key. Default is to read it from " ++ consensus_key_file));;
  mret 1.

Inductive anon_opt := Opt_a (optarg : bytes) | Opt_k (optarg : bytes) | Opt_other.

(** The key given on the command line. *)
Definition key_arg (optarg : bytes) : bytes :=
  let lim := Nat.min (length optarg) CONSENSUS_KEY_LEN in
  take lim optarg ++ replicate (CONSENSUS_KEY_LEN - lim) 0.

(** The loop over the options: [inr] is the exit status of [usage]. *)
Fixpoint options_loop (progname : bytes) (opts : list anon_opt) (addr : option bytes) : T (option bytes + Z) :=
  match opts with
  | [] => mret (inl addr)
  | Opt_a a :: opts => options_loop progname opts (Some a)
  | Opt_k k :: opts => modify (with_key (key_arg k));; options_loop progname opts addr
  | Opt_other :: _ => inr <$> usage progname
  end.

Definition main (progname : bytes) (opts : list anon_opt) : T Z :=
  rc ← get_consensus_key;
  (if negb (rc =? 0) then default_consensus_key else mret tt);;
  r ← options_loop progname opts None;
  match r with
  | inr status => mret status
  | inl None => usage progname
  | inl (Some addr) =>
      anonid ← get_anonid_for_mac (addr ++ [NUL]);
      modify (λ s, Tool (an_key s) (an_world s) (an_out s ++ anonid ++ [10]));;
      mret 0
  end.
End anonid.
End Anonid.

(** ** The same identifiers as the log uploader's *)

Section agreement.
Context `{!Os, !Hmac, !HmacLaws, !KeyStat, !Wall}.

Lemma mac_loop_S n mac i : Anonid.mac_loop (S n) mac i =
  if i <? 17 then
    a ← buf_get mac i; b ← buf_get mac (i + 1); out ← Anonid.mac_loop n mac (i + 3);
    Ret (u8 (Z.lor (Z.shiftl (Anonid.hex_chr_to_int a) 4) (Anonid.hex_chr_to_int b)) :: out)
  else Ret [].
Proof. done. Qed.

Lemma mac_loop_run addr rest : (17 ≤ length addr)%nat →
  Anonid.get_binary_mac (addr ++ [NUL]) = LogUploader.get_binary_mac (addr ++ rest).
Proof.
  intros Hl.
  assert (∀ i, 0 ≤ i < 17 → buf_get (addr ++ [NUL]) i = buf_get (addr ++ rest) i) as Hg.
  { intros i Hi. rewrite !buf_get_nth by (rewrite length_app; lia). by rewrite !app_nth1 by lia. }
  assert (∀ n i, 0 ≤ i → i + 3 * Z.of_nat n = 18 →
    Anonid.mac_loop (S n) (addr ++ [NUL]) i = binary_mac_loop n (addr ++ rest) i) as Hloop.
  { induction n as [|n IH]; intros i Hi Hn; rewrite mac_loop_S; cbn [binary_mac_loop].
    - destruct (Z.ltb_spec i 17); [lia|done].
    - destruct (Z.ltb_spec i 17); [|lia]. rewrite !Hg by lia.
      by rewrite <-IH by lia. }
  by apply Hloop.
Qed.

(** The identifier of an address under a key. *)
Definition id_under (k mac : bytes) : outcome bytes :=
  macbin ← LogUploader.get_binary_mac mac;
  let digest := hmac_md5 k macbin in
  d0 ← buf_get digest 0; d1 ← buf_get digest 1; d2 ← buf_get digest 2;
  let num := u32 (Z.lor (Z.lor (Z.shiftl d0 16) (Z.shiftl d1 8)) d2) in
  a ← LogUploader.trigraph (Z.land (Z.shiftr num 12) 0x0fff);
  b ← LogUploader.trigraph (Z.land num 0x0fff);
  Ret (a ++ b).

(** Two sequences of the same steps, one of them with a state. *)
Ltac bind_cases :=
  repeat match goal with
  | |- (lift ?m ≫= _) _ = _ => destruct m as [?| |]; [rewrite M_bind_lift; cbn [mbind outcome_bind]|done|done]
  | |- (gets _ ≫= _) ?s = _ => rewrite (M_bind_eq _ _ s _ s eq_refl)
  end; done.

Lemma anonid_under addr rest s : (17 ≤ length addr)%nat →
  Anonid.get_anonid_for_mac (addr ++ [NUL]) s = (a ← id_under (Anonid.an_key s) (addr ++ rest); Ret (a, s)).
Proof.
  intros Hl. unfold Anonid.get_anonid_for_mac, id_under. rewrite (mac_loop_run addr rest Hl).
  change Anonid.trigraph with LogUploader.trigraph. bind_cases.
Qed.

Lemma uploader_under mac u u1 : get_consensus_key u = Ret (tt, u1) →
  get_anonid_for_mac mac u = (a ← id_under (u_key u1) mac; Ret (a, u1)).
Proof.
  intros Hk. unfold get_anonid_for_mac, id_under. rewrite (M_bind_eq _ _ _ _ _ Hk).
  bind_cases.
Qed.

(** The tool prints the identifier that the log shows.  For every address of at
    least 17 characters and every key given with -k, the tool ends with success and
    prints six capital letters, which are those that the log uploader puts in place
    of the same address, whatever follows it in the line, when it uses the same key. *)
Theorem anonid_agrees progname addr k s rest u u1 :
  (17 ≤ length addr)%nat → get_consensus_key u = Ret (tt, u1) → u_key u1 = Anonid.key_arg k →
  ∃ anonid s' u', Anonid.main progname [Anonid.Opt_a addr; Anonid.Opt_k k] s = Ret (0, s') ∧
    Anonid.an_out s' = Anonid.an_out s ++ anonid ++ [10] ∧
    get_anonid_for_mac (addr ++ rest) u = Ret (anonid, u') ∧
    length anonid = 6%nat ∧ Forall upper anonid.
Proof.
  intros Hl Hk Hkey.
  destruct (get_anonid_run (addr ++ rest) u) as (anonid & u' & Hrun & _ & Hlen & Hup); [rewrite length_app; lia|].
  exists anonid.
  assert (id_under (Anonid.key_arg k) (addr ++ rest) = Ret anonid) as Hid.
  { rewrite (uploader_under _ _ _ Hk), Hkey in Hrun. by apply outcome_bind_Ret in Hrun as (a & -> & [= -> _]). }
  unfold Anonid.main.
  assert (∃ rc s1, Anonid.get_consensus_key s = Ret (rc, s1) ∧ Anonid.an_out s1 = Anonid.an_out s) as (rc & s1 & Hrc & Ho1).
  { unfold Anonid.get_consensus_key. destruct (open_read Anonid.consensus_key_file); [|by eexists _, _].
    unfold Anonid.on_files, read_bytes, content, mbind, M_bind, outcome_bind, gets, mret, M_ret, modify.
    destruct (_ =? _); by eexists _, _. }
  rewrite (M_bind_eq _ _ _ _ _ Hrc).
  assert (∃ s2, (if negb (rc =? 0) then Anonid.default_consensus_key else mret tt) s1 = Ret (tt, s2) ∧
    Anonid.an_out s2 = Anonid.an_out s1) as (s2 & Hd & Ho2).
  { unfold Anonid.default_consensus_key. destruct (negb _); [destruct (open_read _)|]; by eexists. }
  rewrite (M_bind_eq _ _ _ _ _ Hd). cbn [Anonid.options_loop].
  rewrite (M_bind_eq _ _ _ (inl (Some addr)) (Anonid.with_key (Anonid.key_arg k) s2)) by done.
  rewrite M_bind_unfold, (anonid_under addr rest) by done.
  change (Anonid.an_key (Anonid.with_key (Anonid.key_arg k) s2)) with (Anonid.key_arg k). rewrite Hid. cbn [mbind outcome_bind].
  eexists _, u'. split; [done|]. split; [|by split_and!]. cbn. congruence.
Qed.

(** An address that is too short is read past its end. *)
Lemma anonid_short addr s : (length addr < 16)%nat → Anonid.get_anonid_for_mac (addr ++ [NUL]) s = Ub.
Proof.
  intros Hl. unfold Anonid.get_anonid_for_mac. rewrite M_bind_unfold.
  assert (Anonid.get_binary_mac (addr ++ [NUL]) = Ub) as ->; [|done].
  assert (∀ fuel i, (0 < fuel)%nat → 0 ≤ i ≤ 15 → 15 - i < 3 * Z.of_nat fuel → i mod 3 = 0 →
    Anonid.mac_loop fuel (addr ++ [NUL]) i = Ub) as Hub; [|apply Hub; [lia|lia|lia|done]].
  induction fuel as [|fuel IH]; intros i Hf Hi Hfi Hm; [lia|]. rewrite mac_loop_S. destruct (Z.ltb_spec i 17); [|lia].
  assert (∀ j, 0 ≤ j → (∃ c, buf_get (addr ++ [NUL]) j = Ret c) ∨ buf_get (addr ++ [NUL]) j = Ub) as Hc.
  { intros j Hj. pose proof (buf_get_no_fuel (addr ++ [NUL]) j). destruct (buf_get _ j); [by left; eexists|by right|done]. }
  destruct (Hc i) as [[a ->]| ->]; [lia| |done]. cbn [mbind outcome_bind].
  destruct (Hc (i + 1)) as [[b Hb]| ->]; [lia| |done]. rewrite Hb. cbn [mbind outcome_bind].
  rewrite (IH (i + 3)); [done|..].
  all: apply buf_get_Ret in Hb as [_ Hb%lookup_lt_Some]; rewrite length_app in Hb; simpl in Hb.
  all: assert (i ≤ 12) by (pose proof (Z.div_mod i 3 ltac:(lia)); lia).
  - lia.
  - lia.
  - lia.
  - rewrite <-Z.add_mod_idemp_l, Hm by lia. done.
Qed.
End agreement.

#[local] Existing Instance demo_os.
#[local] Existing Instance demo_hmac.
#[local] Existing Instance demo_hmac_laws.
#[local] Existing Instance demo_stat.
#[local] Instance demo_wall0 : Wall :=
  {| urandom := []; time_now := 0; wall_sec := λ _, 0; wall_nsec := λ _, 0; wall_tm := λ _, (0, 0, 0, 0, 0) |}.
Definition demo_keyed : uploader :=
  {| u_world := {| files := {[ LogUploader.consensus_key_file := lit "0123456789" ++ replicate 6 0 ]}; errors := [] |};
     u_key := replicate 16 1; u_ino := 0; u_mtime := 0; u_ticks := 0; u_log := []; u_total := 0; u_counter := 5;
     u_line := []; u_valid := false |}.
Definition demo_tool : Anonid.tool := Anonid.Tool [] {| files := ∅; errors := [] |} [].

Lemma anonid_agrees_witness :
  ∃ anonid s' u', Anonid.main (lit "anonid") [Anonid.Opt_a (lit "00:11:22:33:44:55"); Anonid.Opt_k (lit "0123456789")] demo_tool
      = Ret (0, s') ∧
    Anonid.an_out s' = Anonid.an_out demo_tool ++ anonid ++ [10] ∧
    get_anonid_for_mac (lit "00:11:22:33:44:55" ++ lit " up") demo_keyed = Ret (anonid, u') ∧
    length anonid = 6%nat ∧ Forall upper anonid.
Proof.
  apply (anonid_agrees (lit "anonid") (lit "00:11:22:33:44:55") (lit "0123456789") demo_tool (lit " up") demo_keyed
    (up_key (lit "0123456789" ++ replicate 6 0) 1 2 demo_keyed)).
  - simpl. lia.
  - vm_compute. reflexivity.
  - vm_compute. reflexivity.
Defined.
