(* ===== verification/Hnvram.v ===== *)
(** * The NVRAM tool: hnvram/hnvram_main.c

    Variables of the NVRAM are read and written as text; fields known to the tool
    have a format, the others are strings.  The vendor's library, which keeps the
    variables, is a parameter. *)

From S2P Require Import Prelude LogUploader.
From stdpp Require Import gmap.
Open Scope Z_scope.

Definition NVRAM_MAX_DATA : Z := 64 * 1024.
Definition GPN_HEX_BYTES : Z := 4.

(** The library's field numbers, by their names. *)
Inductive NVRAM_FIELD_T :=
  | NVRAM_FIELD_SYSTEM_ID | NVRAM_FIELD_MAC_ADDR | NVRAM_FIELD_SERIAL_NO | NVRAM_FIELD_LOADER_VERSION
  | NVRAM_FIELD_ACTIVATED_KERNEL_NUM | NVRAM_FIELD_MTD_TYPE_FOR_KERNEL | NVRAM_FIELD_ACTIVATED_KERNEL_NAME
  | NVRAM_FIELD_EXTRA_KERNEL_OPT | NVRAM_FIELD_PLATFORM_NAME | NVRAM_FIELD_1ST_SERIAL_NUMBER
  | NVRAM_FIELD_2ND_SERIAL_NUMBER | NVRAM_FIELD_GPN | NVRAM_FIELD_MAC_ADDR_MOCA | NVRAM_FIELD_MAC_ADDR_BT
  | NVRAM_FIELD_MAC_ADDR_WIFI | NVRAM_FIELD_MAC_ADDR_WIFI2 | NVRAM_FIELD_MAC_ADDR_WAN | NVRAM_FIELD_HDCP_KEY
  | NVRAM_FIELD_DTCP_KEY | NVRAM_FIELD_GOOGLE_SSL_PEM | NVRAM_FIELD_GOOGLE_SSL_CRT | NVRAM_FIELD_PAIRED_DISK
  | NVRAM_FIELD_PARTITION_VER | NVRAM_FIELD_HW_VER | NVRAM_FIELD_UITYPE | NVRAM_FIELD_LASER_CHANNEL
  | NVRAM_FIELD_MAC_ADDR_PON | NVRAM_FIELD_PRODUCTION_UNIT | NVRAM_FIELD_BOOT_TARGET
  | NVRAM_FIELD_ANDROID_ACTIVE_PARTITION.

Inductive hnvram_format_e :=
  | HNVRAM_STRING | HNVRAM_MAC | HNVRAM_HMXSWVERS | HNVRAM_UINT8 | HNVRAM_GPN | HNVRAM_HEXSTRING.

Record hnvram_field_t := Field {
  fd_name : bytes;
  nvram_type : NVRAM_FIELD_T;
  fd_format : hnvram_format_e;
}.

Definition nvram_fields : list hnvram_field_t := [
  Field (lit "SYSTEM_ID") NVRAM_FIELD_SYSTEM_ID HNVRAM_STRING;
  Field (lit "MAC_ADDR") NVRAM_FIELD_MAC_ADDR HNVRAM_MAC;
  Field (lit "SERIAL_NO") NVRAM_FIELD_SERIAL_NO HNVRAM_STRING;
  Field (lit "LOADER_VERSION") NVRAM_FIELD_LOADER_VERSION HNVRAM_HMXSWVERS;
  Field (lit "ACTIVATED_KERNEL_NUM") NVRAM_FIELD_ACTIVATED_KERNEL_NUM HNVRAM_UINT8;
  Field (lit "MTD_TYPE_FOR_KERNEL") NVRAM_FIELD_MTD_TYPE_FOR_KERNEL HNVRAM_STRING;
  Field (lit "ACTIVATED_KERNEL_NAME") NVRAM_FIELD_ACTIVATED_KERNEL_NAME HNVRAM_STRING;
  Field (lit "EXTRA_KERNEL_OPT") NVRAM_FIELD_EXTRA_KERNEL_OPT HNVRAM_STRING;
  Field (lit "PLATFORM_NAME") NVRAM_FIELD_PLATFORM_NAME HNVRAM_STRING;
  Field (lit "1ST_SERIAL_NUMBER") NVRAM_FIELD_1ST_SERIAL_NUMBER HNVRAM_STRING;
  Field (lit "2ND_SERIAL_NUMBER") NVRAM_FIELD_2ND_SERIAL_NUMBER HNVRAM_STRING;
  Field (lit "GPN") NVRAM_FIELD_GPN HNVRAM_GPN;
  Field (lit "MAC_ADDR_MOCA") NVRAM_FIELD_MAC_ADDR_MOCA HNVRAM_MAC;
  Field (lit "MAC_ADDR_BT") NVRAM_FIELD_MAC_ADDR_BT HNVRAM_MAC;
  Field (lit "MAC_ADDR_WIFI") NVRAM_FIELD_MAC_ADDR_WIFI HNVRAM_MAC;
  Field (lit "MAC_ADDR_WIFI2") NVRAM_FIELD_MAC_ADDR_WIFI2 HNVRAM_MAC;
  Field (lit "MAC_ADDR_WAN") NVRAM_FIELD_MAC_ADDR_WAN HNVRAM_MAC;
  Field (lit "HDCP_KEY") NVRAM_FIELD_HDCP_KEY HNVRAM_HEXSTRING;
  Field (lit "DTCP_KEY") NVRAM_FIELD_DTCP_KEY HNVRAM_HEXSTRING;
  Field (lit "GOOGLE_SSL_PEM") NVRAM_FIELD_GOOGLE_SSL_PEM HNVRAM_STRING;
  Field (lit "GOOGLE_SSL_CRT") NVRAM_FIELD_GOOGLE_SSL_CRT HNVRAM_STRING;
  Field (lit "PAIRED_DISK") NVRAM_FIELD_PAIRED_DISK HNVRAM_STRING;
  Field (lit "PARTITION_VER") NVRAM_FIELD_PARTITION_VER HNVRAM_STRING;
  Field (lit "HW_VER") NVRAM_FIELD_HW_VER HNVRAM_UINT8;
  Field (lit "UITYPE") NVRAM_FIELD_UITYPE HNVRAM_STRING;
  Field (lit "LASER_CHANNEL") NVRAM_FIELD_LASER_CHANNEL HNVRAM_STRING;
  Field (lit "MAC_ADDR_PON") NVRAM_FIELD_MAC_ADDR_PON HNVRAM_MAC;
  Field (lit "PRODUCTION_UNIT") NVRAM_FIELD_PRODUCTION_UNIT HNVRAM_STRING;
  Field (lit "BOOT_TARGET") NVRAM_FIELD_BOOT_TARGET HNVRAM_STRING;
  Field (lit "ANDROID_ACTIVE_PARTITION") NVRAM_FIELD_ANDROID_ACTIVE_PARTITION HNVRAM_STRING].

(** [strcasecmp(a, b) == 0] in the C locale *)
Definition lower (c : Z) : Z := if (65 <=? c) && (c <=? 90) then c + 32 else c.
Definition same_name (a b : bytes) : bool := bool_decide (lower <$> a = lower <$> b).

Fixpoint find_field (name : bytes) (fs : list hnvram_field_t) : option hnvram_field_t :=
  match fs with
  | [] => None
  | f :: fs => if same_name name (fd_name f) then Some f else find_field name fs
  end.
Definition get_nvram_field (name : bytes) : option hnvram_field_t := find_field name nvram_fields.

(** ** Formats

    [data] is the whole array that holds the value; the results are the text in
    [output], or the status of a call of exit. *)

Definition text_in (outlen : Z) (t : bytes) : bytes := take (Z.to_nat (outlen - 1)) t.

Definition format_string (data : bytes) (outlen : Z) : outcome bytes :=
  s ← cstr data; Ret (text_in outlen s).

Definition format_mac (data : bytes) (outlen : Z) : outcome bytes :=
  a ← buf_get data 0; b ← buf_get data 1; c ← buf_get data 2;
  d ← buf_get data 3; e ← buf_get data 4; f ← buf_get data 5;
  Ret (text_in outlen (hex02 a ++ lit ":" ++ hex02 b ++ lit ":" ++ hex02 c ++ lit ":" ++
                       hex02 d ++ lit ":" ++ hex02 e ++ lit ":" ++ hex02 f)).

Definition format_hmxswvers (data : bytes) (outlen : Z) : outcome bytes :=
  a ← buf_get data 1; b ← buf_get data 0;
  Ret (text_in outlen (dec a ++ lit "." ++ dec b)).

Definition format_uint8 (data : bytes) (outlen : Z) : outcome bytes :=
  a ← buf_get data 0; Ret (text_in outlen (dec a)).

Fixpoint hexstring_loop (n : nat) (data : bytes) (i : Z) : outcome bytes :=
  match n with
  | O => Ret []
  | S n => b ← buf_get data i; rest ← hexstring_loop n data (i + 1); Ret (hex02 b ++ rest)
  end.
Definition format_hexstring (data : bytes) (datalen outlen : Z) : outcome (bytes + Z) :=
  if outlen <? s32 (datalen * 2 + 1) then Ret (inr 1)
  else t ← hexstring_loop (Z.to_nat datalen) data 0; Ret (inl t).

(** Its message before it exits. *)
Definition hexstring_complaint (datalen outlen : Z) : bytes :=
  lit "format_hexstring buffer too small " ++ dec outlen ++ lit " < " ++ dec (s32 (datalen * 2 + 1)).

Definition format_gpn (data : bytes) (data_len outlen : Z) : outcome (bytes + Z) :=
  if data_len =? GPN_HEX_BYTES then format_hexstring data GPN_HEX_BYTES outlen
  else t ← format_string data outlen; Ret (inl t).

Definition format_nvram (f : hnvram_format_e) (data : bytes) (data_len outlen : Z) : outcome (bytes + Z) :=
  match f with
  | HNVRAM_STRING => inl <$> format_string data outlen
  | HNVRAM_MAC => inl <$> format_mac data outlen
  | HNVRAM_HMXSWVERS => inl <$> format_hmxswvers data outlen
  | HNVRAM_UINT8 => inl <$> format_uint8 data outlen
  | HNVRAM_GPN => format_gpn data data_len outlen
  | HNVRAM_HEXSTRING => format_hexstring data data_len outlen
  end.

(** ** Parsing: the bytes stored, or NULL *)

Definition parse_string (input : bytes) (outlen : Z) : option bytes :=
  if strlen input >? outlen then None else Some input.

(** The conversion %02hhx of sscanf: white space, then at most two characters that are
    a number in base 16 with an optional sign; the value as a byte, and the rest.  A lone
    sign and a lone 0x do not match. *)
Definition scan_hex2 (s : bytes) : option (Z * bytes) :=
  match skip_space s with
  | c :: t =>
      if (c =? 45) || (c =? 43) then
        match t with
        | d :: t => if isxdigit d then Some (u8 (if c =? 45 then - hex_chr_to_int d else hex_chr_to_int d), t) else None
        | [] => None
        end
      else if isxdigit c then
        match t with
        | d :: t' =>
            if (c =? 48) && ((d =? 120) || (d =? 88)) then None
            else if isxdigit d then Some (hex_chr_to_int c * 16 + hex_chr_to_int d, t')
            else Some (hex_chr_to_int c, t)
        | [] => Some (hex_chr_to_int c, t)
        end
      else None
  | [] => None
  end.

(** A literal character of the format. *)
Definition scan_char (c : Z) (s : bytes) : option bytes :=
  match s with x :: t => if x =? c then Some t else None | [] => None end.

Definition scan_sep_hex2 (s : bytes) : option (Z * bytes) := t ← scan_char 58 s; scan_hex2 t.

Definition parse_mac (input : bytes) (outlen : Z) : option bytes :=
  if outlen <? 6 then None
  else
    '(a, s) ← scan_hex2 input; '(b, s) ← scan_sep_hex2 s; '(c, s) ← scan_sep_hex2 s;
    '(d, s) ← scan_sep_hex2 s; '(e, s) ← scan_sep_hex2 s; '(f, s) ← scan_sep_hex2 s;
    Some [a; b; c; d; e; f].

(** The conversion %hhd: white space, a sign, digits; the value is cut to a byte (C leaves
    the result open when it does not fit). *)
Fixpoint skip_digits (t : bytes) : bytes :=
  match t with x :: u => if (48 <=? x) && (x <=? 57) then skip_digits u else t | [] => [] end.
Definition scan_dec (s : bytes) : option (Z * bytes) :=
  let s := skip_space s in
  let '(neg, t) := match s with c :: t => if c =? 45 then (true, t) else if c =? 43 then (false, t) else (false, s)
                   | [] => (false, []) end in
  match t with
  | d :: _ =>
      if (48 <=? d) && (d <=? 57) then
        let v := parse_digits t 0 in
        Some (u8 (if neg : bool then - v else v), skip_digits t)
      else None
  | [] => None
  end.

Definition parse_hmxswvers (input : bytes) (outlen : Z) : option bytes :=
  if outlen <? 2 then None
  else '(a, s) ← scan_dec input; s ← scan_char 46 s; '(b, _) ← scan_dec s; Some [b; a].

Definition parse_uint8 (input : bytes) (outlen : Z) : option bytes :=
  if outlen <? 1 then None else Some [u8 (default NUL (head input) - 48)].

Definition parse_hexdigit (c : Z) : Z :=
  if (48 <=? c) && (c <=? 57) then c - 48
  else if (97 <=? c) && (c <=? 102) then 10 + (c - 97)
  else if (65 <=? c) && (c <=? 70) then 10 + (c - 65)
  else 0xff.

Fixpoint parse_hex_loop (n : nat) (input : bytes) : bytes :=
  match n, input with
  | S n, a :: b :: input => u8 (Z.lor (Z.shiftl (parse_hexdigit a) 4) (parse_hexdigit b)) :: parse_hex_loop n input
  | _, _ => []
  end.
Definition parse_hexstring (input : bytes) (outlen : Z) : option bytes :=
  let len := strlen input / 2 in
  let len := if outlen <? len then outlen else len in
  Some (parse_hex_loop (Z.to_nat len) input).

Definition is_hexstring (input : bytes) (hex_len : nat) : bool :=
  forallb isxdigit (take hex_len input) && Nat.eqb (length input) hex_len.

Definition parse_gpn (input : bytes) (outlen : Z) : option bytes :=
  if outlen <? 4 then None
  else if is_hexstring input (Z.to_nat (GPN_HEX_BYTES * 2)) then
    '(a, s) ← scan_hex2 input; '(b, s) ← scan_hex2 s; '(c, s) ← scan_hex2 s; '(d, s) ← scan_hex2 s;
    Some [a; b; c; d]
  else parse_string input outlen.

Definition parse_nvram (f : hnvram_format_e) (input : bytes) (outlen : Z) : option bytes :=
  match f with
  | HNVRAM_STRING => parse_string input outlen
  | HNVRAM_MAC => parse_mac input outlen
  | HNVRAM_HMXSWVERS => parse_hmxswvers input outlen
  | HNVRAM_UINT8 => parse_uint8 input outlen
  | HNVRAM_GPN => parse_gpn input outlen
  | HNVRAM_HEXSTRING => parse_hexstring input outlen
  end.

(** ** The library and the program *)

Inductive DRV_Error := DRV_OK | DRV_ERR | DRV_OTHER (code : Z).
#[export] Instance DRV_Error_eq_dec : EqDecision DRV_Error.
Proof. solve_decision. Defined.
Inductive partition := PARTITION_UNSPECIFIED | PARTITION_RW | PARTITION_RO.
#[export] Instance partition_eq_dec : EqDecision partition.
Proof. solve_decision. Defined.

(** What the program supplies for two routines of the library. *)
Definition DRV_NANDFLASH_GetNvramHandle (handle : Z) : DRV_Error := DRV_ERR.
Definition DRV_FLASH_Write (offset : Z) (data : bytes) (nDataSize : Z) : DRV_Error := DRV_ERR.

(** The vendor's functions on their state.  A read gives the bytes it puts at the
    start of the array, and the length it reports. *)
Class Hmx (St : Type) := {
  HMX_NVRAM_Init : option bytes → St → DRV_Error * St;
  HMX_NVRAM_GetField : St → NVRAM_FIELD_T → Z → DRV_Error * bytes;
  HMX_NVRAM_GetLength : St → NVRAM_FIELD_T → DRV_Error * Z;
  HMX_NVRAM_SetField : NVRAM_FIELD_T → bytes → St → DRV_Error * St;
  HMX_NVRAM_Read : St → partition → bytes → Z → DRV_Error * (bytes * Z);
  HMX_NVRAM_Write : partition → bytes → bytes → St → DRV_Error * St;
  HMX_NVRAM_Remove : partition → bytes → St → DRV_Error * St;
  HMX_NVRAM_Dir : St → DRV_Error * bytes;
  drv_code : DRV_Error → Z;
  part_code : partition → Z;
}.

Section hnvram.
Context {St : Type} `{!Hmx St}.

(** The library's state, can_add_flag, what is printed, and the array [output]. *)
Record tool := Tool {
  hn_store : St;
  can_add_flag : bool;
  hn_out : bytes;
  hn_err : list bytes;
  hn_output : bytes;
}.
Abbreviation H := (M tool).
Definition set_store st s := Tool st (can_add_flag s) (hn_out s) (hn_err s) (hn_output s).
Definition set_can_add b s := Tool (hn_store s) b (hn_out s) (hn_err s) (hn_output s).
Definition print t s := Tool (hn_store s) (can_add_flag s) (hn_out s ++ t) (hn_err s) (hn_output s).
Definition complain t s := Tool (hn_store s) (can_add_flag s) (hn_out s) (hn_err s ++ [t]) (hn_output s).
Definition set_output o s := Tool (hn_store s) (can_add_flag s) (hn_out s) (hn_err s) o.

Definition on_store {A} (f : St → A * St) : H A := fun s =>
  let '(a, st) := f (hn_store s) in Ret (a, set_store st s).

(** What a read of the library leaves in an array. *)
Definition fill (arr bs : bytes) : outcome bytes :=
  if decide (length bs ≤ length arr)%nat then Ret (bs ++ drop (length bs) arr) else Ub.

Definition zeros : bytes := replicate (Z.to_nat NVRAM_MAX_DATA) 0.

(** [read_raw_nvram(name, output, outlen)] with the array [output] of the program. *)
Definition read_raw_nvram (name : bytes) : H Z :=
  output ← gets hn_output;
  let outlen := Z.of_nat (length output) in
  match get_nvram_field name with
  | None => mret (-1)
  | Some field =>
      st ← gets hn_store;
      let '(e, ret) := HMX_NVRAM_GetLength st (nvram_type field) in
      if negb (bool_decide (e = DRV_OK)) then mret (-1)
      else if u32 ret >? outlen then mret (-1)
      else
        let '(e, bs) := HMX_NVRAM_GetField st (nvram_type field) outlen in
        output ← lift (fill output bs);
        modify (set_output output);;
        if negb (bool_decide (e = DRV_OK)) then mret (-1) else mret (s32 (u32 ret))
  end.

(** Reading a variable that is not a field: RW first, then RO; the array, the length
    and the partition. *)
Definition read_variable (st : St) (name : bytes) : outcome (option (bytes * Z * partition)) :=
  let '(e, (bs, n)) := HMX_NVRAM_Read st PARTITION_RW name NVRAM_MAX_DATA in
  data ← fill zeros bs;
  if bool_decide (e = DRV_OK) then Ret (Some (data, n, PARTITION_RW))
  else
    let '(e, (bs, n)) := HMX_NVRAM_Read st PARTITION_RO name NVRAM_MAX_DATA in
    data ← fill data bs;
    if bool_decide (e = DRV_OK) then Ret (Some (data, n, PARTITION_RO)) else Ret None.

(** The value of a variable, its length, its format, and the partition for one that
    is not a field. *)
Definition read_value (st : St) (name : bytes)
    : outcome (option (bytes * Z * hnvram_format_e * option partition)) :=
  match get_nvram_field name with
  | Some field =>
      let '(e, bs) := HMX_NVRAM_GetField st (nvram_type field) NVRAM_MAX_DATA in
      data ← fill zeros bs;
      if negb (bool_decide (e = DRV_OK)) then Ret None
      else
        let '(e, n) := HMX_NVRAM_GetLength st (nvram_type field) in
        if negb (bool_decide (e = DRV_OK)) then Ret None
        else Ret (Some (data, n, fd_format field, None))
  | None =>
      r ← read_variable st name;
      Ret ('(data, n, p) ← r; Some (data, n, HNVRAM_STRING, Some p))
  end.

(** [read_nvram]: the text for an array of [outlen] bytes and [*part_used], NULL, or
    the status of exit. *)
Inductive read_result := Text (t : bytes) (p : option partition) | Null | Exits (status : Z).
Definition read_nvram (name : bytes) (outlen : Z) (quiet : bool) : H read_result :=
  st ← gets hn_store;
  r ← lift (read_value st name);
  match r with
  | None => mret Null
  | Some (data, data_len, format_type, part_used) =>
      nv ← lift (format_nvram format_type data (s32 (u32 data_len)) (NVRAM_MAX_DATA * 2));
      match nv with
      | inr status => modify (complain (hexstring_complaint (s32 (u32 data_len)) (NVRAM_MAX_DATA * 2)));; mret (Exits status)
      | inl nv => mret (Text (text_in outlen (if quiet then nv else name ++ lit "=" ++ nv)) part_used)
      end
  end.

Definition clear_nvram (optarg : bytes) : H DRV_Error :=
  err1 ← on_store (HMX_NVRAM_Remove PARTITION_RW optarg);
  err2 ← on_store (HMX_NVRAM_Remove PARTITION_RO optarg);
  if bool_decide (err1 = DRV_ERR ∨ err1 = DRV_OK) && bool_decide (err2 = DRV_ERR ∨ err2 = DRV_OK) then mret DRV_OK
  else
    modify (complain (lit "Error while deleting key " ++ optarg ++ lit ". RW: " ++ dec (drv_code err1) ++
                      lit " RO: " ++ dec (drv_code err2) ++ lit "."));;
    mret DRV_ERR.

(** [write_nvram]: its result, or [inr] the status of exit. *)
Definition write_nvram (name value : bytes) (desired_part : partition) : H (Z + Z) :=
  let field := get_nvram_field name in
  let format_type := match field with Some f => fd_format f | None => HNVRAM_STRING end in
  if strlen value >? NVRAM_MAX_DATA then
    modify (complain (lit "Value length " ++ dec (strlen value) ++ lit " exceeds maximum data size of 65536"));;
    mret (inl (-1))
  else
    match parse_nvram format_type value NVRAM_MAX_DATA with
    | None => mret (inl (-2))
    | Some nvram_value =>
        match field with
        | None =>
            r ← read_nvram name NVRAM_MAX_DATA true;
            match r with
            | Exits status => mret (inr status)
            | Null => mret (inl (-3))
            | Text _ part =>
                let part_used := default PARTITION_UNSPECIFIED part in
                if negb (bool_decide (desired_part = PARTITION_UNSPECIFIED)) &&
                   negb (bool_decide (desired_part = part_used)) then
                  modify (complain (lit "Variable already exists in other partition: " ++ name));;
                  mret (inl (-4))
                else
                  er ← on_store (HMX_NVRAM_Write part_used name nvram_value);
                  if negb (bool_decide (er = DRV_OK)) then mret (inl (-5)) else mret (inl 0)
            end
        | Some f =>
            if negb (bool_decide (desired_part = PARTITION_UNSPECIFIED)) then
              modify (complain (lit "Partition was specified (" ++ dec (part_code desired_part) ++ lit ") on a field variable: " ++ name));;
              mret (inl (-6))
            else
              er ← on_store (HMX_NVRAM_SetField (nvram_type f) nvram_value);
              if negb (bool_decide (er = DRV_OK)) then mret (inl (-7)) else mret (inl 0)
        end
    end.

Definition write_nvram_new (name value : bytes) (desired_part : partition) : H Z :=
  can ← gets can_add_flag;
  if negb can then
    modify (complain (lit "Key not found in NVRAM. Add -n to allow creation " ++ name));; mret (-1)
  else
    match parse_nvram HNVRAM_STRING value NVRAM_MAX_DATA with
    | None => mret (-2)
    | Some nvram_value =>
        let desired_part := if bool_decide (desired_part = PARTITION_UNSPECIFIED) then PARTITION_RW else desired_part in
        er ← on_store (HMX_NVRAM_Write desired_part name nvram_value);
        if negb (bool_decide (er = DRV_OK)) then mret (-3) else mret 0
    end.

(** ** The command line *)

Definition usage (progname : bytes) : bytes :=
  lit "Usage: " ++ progname ++ lit " [-d | [-q|-b] [-r|-k] VARNAME] [ [-n [-p [RO|RW]]] -w VARNAME=value]" ++ [10] ++
  [9] ++ lit "-d : dump all NVRAM variables" ++ [10] ++
  [9] ++ lit "-r VARNAME : read VARNAME from NVRAM" ++ [10] ++
  [9] ++ lit "-q : quiet mode, suppress the variable name and equal sign" ++ [10] ++
  [9] ++ lit "-b : read VARNAME from NVRAM in raw binary format, e.g. dumping a binary key" ++ [10] ++
  [9] ++ lit "-w VARNAME=value : write value to VARNAME in NVRAM." ++ [10] ++
  [9] ++ lit "-n : toggles whether -w can create new variables. Default is off" ++ [10] ++
  [9] ++ lit "-p [RW|RO] : toggles what partition new writes (-n) used. Default is RW" ++ [10] ++
  [9] ++ lit "-k VARNAME : delete existing key/value pair from NVRAM." ++ [10] ++
  [9] ++ lit " Set environment variable: $HNVRAM_LOCATION to change where read/writes are performed." ++
  [9] ++ lit " By default hnvram uses '/dev/mtd/hnvram'" ++ [10].

(** The answers of getopt. *)
Inductive hn_opt := Opt_b | Opt_q | Opt_n | Opt_p (optarg : bytes) | Opt_w (optarg : bytes) | Opt_k (optarg : bytes)
  | Opt_r | Opt_d | Opt_other.

Record flags := Flags {
  op : option bool;          (* None, 'r' is false, 'd' is true *)
  op_cnt : Z;
  q_flag : bool;
  b_flag : bool;
  desired : partition;
}.

(** [strchr(duparg, '=')]: the text before and after. *)
Fixpoint split_equal (s : bytes) : option (bytes * bytes) :=
  match s with
  | [] => None
  | c :: s => if c =? 61 then Some ([], s) else '(n, v) ← split_equal s; Some (c :: n, v)
  end.

Definition write_option (optarg : bytes) (part : partition) : H (option Z) :=
  match split_equal optarg with
  | None => mret (Some (-1))           (* return -1 *)
  | Some (name, value) =>
      ret ← write_nvram name value part;
      match ret with
      | inr status => mret (Some status)
      | inl ret =>
          ret ← (if ret =? -3 then write_nvram_new name value part else mret ret);
          if negb (ret =? 0) then
            modify (complain (lit "Err " ++ dec ret ++ lit ": Unable to write " ++ name));; mret (Some 1)
          else mret None
      end
  end.

(** An option: the flags, or the status the program ends with. *)
Definition do_option (progname : bytes) (f : flags) (o : hn_opt) : H (flags + Z) :=
  match o with
  | Opt_b => mret (inl (Flags (op f) (op_cnt f) (q_flag f) true (desired f)))
  | Opt_q => mret (inl (Flags (op f) (op_cnt f) true (b_flag f) (desired f)))
  | Opt_n => modify (set_can_add true);; mret (inl f)
  | Opt_p a =>
      if bool_decide (a = lit "RO") then mret (inl (Flags (op f) (op_cnt f) (q_flag f) (b_flag f) PARTITION_RO))
      else if bool_decide (a = lit "RW") then mret (inl (Flags (op f) (op_cnt f) (q_flag f) (b_flag f) PARTITION_RW))
      else modify (complain (lit "Invalid partition: " ++ a ++ lit ". Use RW or RO"));; mret (inr 1)
  | Opt_w a =>
      r ← write_option a (desired f);
      mret (match r with Some status => inr status | None => inl f end)
  | Opt_k a =>
      e ← clear_nvram a;
      if negb (bool_decide (e = DRV_OK)) then
        modify (complain (lit "Unable to remove key " ++ a));; mret (inr 1)
      else mret (inl f)
  | Opt_r | Opt_d =>
      let c := match o with Opt_d => true | _ => false end in
      mret (inl (Flags (Some c) (if bool_decide (op f = Some c) then op_cnt f else op_cnt f + 1)
                       (q_flag f) (b_flag f) (desired f)))
  | Opt_other => modify (print (usage progname));; mret (inr 1)
  end.

Fixpoint do_options (progname : bytes) (f : flags) (opts : list hn_opt) : H (flags + Z) :=
  match opts with
  | [] => mret (inl f)
  | o :: opts =>
      r ← do_option progname f o;
      match r with inr status => mret (inr status) | inl f => do_options progname f opts end
  end.

(** One of the names to read; the status when it cannot be read. *)
Definition read_arg (f : flags) (name : bytes) : H (option Z) :=
  if b_flag f then
    len ← read_raw_nvram name;
    if len <? 0 then modify (complain (lit "Unable to read " ++ name));; mret (Some 1)
    else
      output ← gets hn_output;
      (if decide (Z.to_nat len ≤ length output)%nat then modify (print (take (Z.to_nat len) output)) else stuck);;
      mret None
  else
    output ← gets hn_output;
    r ← read_nvram name (Z.of_nat (length output)) (q_flag f);
    match r with
    | Exits status => mret (Some status)
    | Null => modify (complain (lit "Unable to read " ++ name));; mret (Some 1)
    | Text t _ =>
        modify (set_output (t ++ NUL :: drop (S (length t)) output));;
        modify (print (t ++ [10]));; mret None
    end.

Fixpoint read_args (f : flags) (names : list bytes) : H Z :=
  match names with
  | [] => mret 0
  | n :: names => r ← read_arg f n; match r with Some status => mret status | None => read_args f names end
  end.

Definition init_nvram (location : option bytes) : H Z :=
  e ← on_store (HMX_NVRAM_Init location); mret (drv_code e).

(** [hnvram_main]: the exit status; [args] are the arguments that are not options. *)
Definition hnvram_main (location : option bytes) (progname : bytes) (opts : list hn_opt) (args : list bytes) : H Z :=
  ret ← init_nvram location;
  if negb (ret =? 0) then modify (complain (lit "NVRAM Init failed: " ++ dec ret));; mret 1
  else
    r ← do_options progname (Flags None 0 false false PARTITION_UNSPECIFIED) opts;
    match r with
    | inr status => mret status
    | inl f =>
        if op_cnt f >? 1 then modify (print (usage progname));; mret 1
        else
          match op f with
          | None => mret 0
          | Some true =>
              match args with
              | _ :: _ => modify (print (usage progname));; mret 1
              | [] =>
                  st ← gets hn_store;
                  let '(err, listing) := HMX_NVRAM_Dir st in
                  modify (print listing);;
                  (if negb (bool_decide (err = DRV_OK))
                   then modify (complain (lit "Unable to dump variables, HMX_NVRAM_Dir=" ++ dec (drv_code err)))
                   else mret tt);;
                  mret 0
              end
          | Some false =>
              match args with
              | [] => modify (print (usage progname));; mret 1
              | _ => read_args f args
              end
          end
    end.
End hnvram.

(** ** Formats and parsers *)

(** A value that a field of the format holds. *)
Definition valid_value (f : hnvram_format_e) (d : bytes) : Prop :=
  match f with
  | HNVRAM_STRING => nonul d ∧ strlen d < NVRAM_MAX_DATA
  | HNVRAM_MAC => length d = 6%nat ∧ all_bytes d
  | HNVRAM_HMXSWVERS => length d = 2%nat ∧ all_bytes d
  | HNVRAM_UINT8 => ∃ b, d = [b] ∧ 0 ≤ b < 10
  | HNVRAM_GPN => length d = 4%nat ∧ all_bytes d ∨
      nonul d ∧ strlen d < NVRAM_MAX_DATA ∧ length d ≠ 4%nat ∧ is_hexstring d 8 = false
  | HNVRAM_HEXSTRING => all_bytes d ∧ 2 * strlen d < NVRAM_MAX_DATA
  end.

(** The text of a value. *)
Definition hexes (d : bytes) : bytes := flat_map hex02 d.
Definition text_of (f : hnvram_format_e) (d : bytes) : bytes :=
  match f with
  | HNVRAM_STRING => d
  | HNVRAM_MAC => match d with [] => [] | b :: d => hex02 b ++ flat_map (λ c, 58 :: hex02 c) d end
  | HNVRAM_HMXSWVERS => dec (nth 1 d 0) ++ 46 :: dec (nth 0 d 0)
  | HNVRAM_UINT8 => dec (nth 0 d 0)
  | HNVRAM_GPN => if Nat.eqb (length d) 4 then hexes d else d
  | HNVRAM_HEXSTRING => hexes d
  end.

Lemma text_in_id outlen t : strlen t < outlen → text_in outlen t = t.
Proof. unfold strlen, text_in. intros. apply take_ge. lia. Qed.

(** The digits of a byte, for each of the readers of digits. *)
Definition digits_read (b : Z) : bool :=
  match hex02 b with
  | [x; y] =>
      isxdigit x && isxdigit y && negb (isspace x) && negb (x =? 45) && negb (x =? 43) &&
      negb ((x =? 48) && ((y =? 120) || (y =? 88))) && (hex_chr_to_int x * 16 + hex_chr_to_int y =? b) &&
      (u8 (Z.lor (Z.shiftl (parse_hexdigit x) 4) (parse_hexdigit y)) =? b) && negb (x =? 0) && negb (y =? 0)
  | _ => false
  end.
Lemma hex02_digits b : is_byte b → ∃ x y, hex02 b = [x; y] ∧ isxdigit x = true ∧ isxdigit y = true ∧
  nonul [x; y] ∧
  u8 (Z.lor (Z.shiftl (parse_hexdigit x) 4) (parse_hexdigit y)) = b ∧
  (∀ rest, scan_hex2 (x :: y :: rest) = Some (b, rest)).
Proof.
  intros Hb. assert (digits_read b = true) as Hd by (apply byte_all; [vm_compute; reflexivity|done]).
  unfold digits_read in Hd. destruct (hex02 b) as [|x [|y [|]]]; try done.
  repeat match goal with H : _ && _ = true |- _ => apply andb_prop in H as [? ?] end.
  exists x, y. split_and!; [done|done|done| |by apply Z.eqb_eq|].
  - unfold nonul, NUL. repeat constructor; lia.
  - intros rest. unfold scan_hex2. simpl.
    repeat match goal with H : negb _ = true |- _ => apply negb_true_iff in H end.
    repeat match goal with H : ?c = false |- context [?c] => rewrite H end.
    repeat match goal with H : isxdigit _ = true |- _ => rewrite H end. simpl.
    do 2 f_equal. lia.
Qed.

Lemma scan_hex2_hex02 b rest : is_byte b → scan_hex2 (hex02 b ++ rest) = Some (b, rest).
Proof. intros (x & y & -> & _ & _ & _ & _ & Hs)%hex02_digits. apply Hs. Qed.
Lemma hex02_length b : is_byte b → length (hex02 b) = 2%nat.
Proof. by intros (x & y & -> & _)%hex02_digits. Qed.

Lemma hexes_length d : all_bytes d → length (hexes d) = (2 * length d)%nat.
Proof.
  induction 1 as [|b d Hb _ IH]; [done|]. unfold hexes in *. cbn [flat_map length].
  rewrite length_app, IH, hex02_length by done. lia.
Qed.
Lemma hexes_nonul d : all_bytes d → nonul (hexes d).
Proof.
  induction 1 as [|b d Hb _ IH]; [constructor|]. apply nonul_app; [|done].
  by apply hex02_digits in Hb as (x & y & -> & _ & _ & ? & _).
Qed.

Lemma hexstring_loop_run d rest : all_bytes d → ∀ pre,
  hexstring_loop (length d) (pre ++ d ++ rest) (strlen pre) = Ret (hexes d).
Proof.
  induction 1 as [|b d Hb _ IH]; intros pre; [done|]. cbn [length hexstring_loop app].
  rewrite (buf_get_app pre (d ++ rest) (strlen pre) b) by done. cbn [mbind outcome_bind].
  specialize (IH (pre ++ [b])). rewrite <-(assoc_L (++)) in IH.
  replace (strlen pre + 1) with (strlen (pre ++ [b])) by (unfold strlen; rewrite length_app; simpl; lia).
  cbn [app] in IH. by rewrite IH.
Qed.

Lemma format_hexstring_run d rest outlen : all_bytes d → 2 * strlen d < outlen → outlen ≤ 131072 →
  format_hexstring (d ++ rest) (strlen d) outlen = Ret (inl (hexes d)).
Proof.
  unfold strlen. intros Hd Hl Ho. unfold format_hexstring. rewrite s32_id by lia.
  destruct (Z.ltb_spec outlen (Z.of_nat (length d) * 2 + 1)); [lia|].
  rewrite Nat2Z.id.
  pose proof (hexstring_loop_run d rest Hd []) as E. change (strlen []) with 0 in E. cbn [app] in E. by rewrite E.
Qed.

Lemma parse_hex_loop_hexes d : all_bytes d → parse_hex_loop (length d) (hexes d) = d.
Proof.
  induction 1 as [|b d Hb _ IH]; [done|]. unfold hexes in *. cbn [flat_map length].
  apply hex02_digits in Hb as (x & y & -> & _ & _ & _ & Hp & _).
  cbn [app parse_hex_loop]. by rewrite Hp, IH.
Qed.

Lemma skip_digits_app l rest : Forall is_digit l → not_digit_first rest → skip_digits (l ++ rest) = rest.
Proof.
  intros Hl Hr. induction Hl as [|c l Hc _ IH]; unfold is_digit in *.
  - destruct rest as [|c rest]; [done|]. specialize (Hr c rest eq_refl). simpl.
    destruct (Z.leb_spec 48 c), (Z.leb_spec c 57); simpl; lia || done.
  - simpl. destruct (Z.leb_spec 48 c), (Z.leb_spec c 57); simpl; [apply IH|lia..].
Qed.

Lemma scan_dec_dec v rest : is_byte v → not_digit_first rest → scan_dec (dec v ++ rest) = Some (v, rest).
Proof.
  intros Hv Hr. unfold scan_dec. unfold is_byte in Hv.
  destruct (skip_space_dec v rest) as (c & t & Ht & Hc & ->); [lia|]. unfold is_digit in Hc.
  destruct (Z.eqb_spec c 45); [lia|]. destruct (Z.eqb_spec c 43); [lia|].
  destruct (Z.leb_spec 48 c), (Z.leb_spec c 57); cbn [andb]; [|lia..].
  destruct (dec_digits v) as (_ & Hd & _); [lia|].
  rewrite <-Ht, skip_digits_app, parse_digits_dec by (done || lia). by rewrite u8_id.
Qed.

Lemma dec_digit b : 0 ≤ b < 10 → dec b = [48 + b].
Proof.
  intros Hb. pose (P := λ b, if b <? 10 then match dec b with [c] => c =? 48 + b | _ => false end else true).
  assert (P b = true) as Hd by (apply byte_all; [by vm_compute|unfold is_byte; lia]).
  unfold P in Hd. destruct (Z.ltb_spec b 10); [|lia].
  destruct (dec b) as [|c [|]]; [done| |done]. f_equal. lia.
Qed.

Lemma dec_byte_length b : is_byte b → (length (dec b) ≤ 3)%nat.
Proof. intros Hb. apply dec_length; [|lia]. unfold is_byte in Hb. simpl. lia. Qed.

Ltac split_list H :=
  repeat match type of H with
  | length ?d = O => destruct d; [clear H|discriminate H]
  | length ?d = S _ => destruct d; [discriminate H|]; cbn [length] in H; apply Nat.succ_inj in H
  end.

(** The text of a value is a string that fits the array of a value. *)
Lemma text_of_fits f d : valid_value f d → nonul (text_of f d) ∧ strlen (text_of f d) < NVRAM_MAX_DATA.
Proof.
  unfold NVRAM_MAX_DATA, strlen. destruct f; cbn [valid_value text_of].
  - done.
  - intros [Hl Hd]. split_list Hl. repeat (apply Forall_cons in Hd as [?%hex02_digits Hd]).
    cbn [flat_map].
    repeat match goal with Hx : ∃ _ _, _ |- _ => destruct Hx as (? & ? & -> & _ & _ & ? & _) end.
    split; [|cbn; lia]. cbn [app].
    repeat match goal with Hx : nonul _ |- _ => unfold nonul in Hx; rewrite !Forall_cons in Hx; destruct Hx as (? & ? & _) end.
    unfold nonul. rewrite !Forall_cons. by split_and!.
  - intros [Hl Hd]. split_list Hl. rewrite !Forall_cons in Hd. destruct Hd as (? & ? & _). cbn [nth].
    split; [eauto 6 with nonul_db|]. rewrite length_app. cbn [length].
    pose proof (dec_byte_length z ltac:(done)). pose proof (dec_byte_length z0 ltac:(done)). lia.
  - intros (b & -> & Hb). cbn [nth]. rewrite dec_digit by done. split; [|simpl; lia].
    constructor; [unfold NUL; lia|constructor].
  - intros [[Hl Hd]|(Hn & Hl & Hne & _)].
    + rewrite Hl. cbn [Nat.eqb]. rewrite hexes_length by done. split; [by apply hexes_nonul|lia].
    + by destruct (Nat.eqb_spec (length d) 4).
  - intros [Hd Hl]. unfold strlen in Hl. rewrite hexes_length by done. split; [by apply hexes_nonul|].
    unfold NVRAM_MAX_DATA in Hl. lia.
Qed.

Ltac indices := rewrite !buf_get_nth by (cbn [length app]; lia); nat_indices; cbn [nth app mbind outcome_bind fmap outcome_fmap].

(** A value in the array of a variable is printed as its text. *)
Lemma format_nvram_run f d rest : valid_value f d →
  format_nvram f (d ++ NUL :: rest) (strlen d) (NVRAM_MAX_DATA * 2) = Ret (inl (text_of f d)).
Proof.
  intros Hv. pose proof (text_of_fits f d Hv) as [Hn Hl]. unfold NVRAM_MAX_DATA in Hl.
  assert (text_in (NVRAM_MAX_DATA * 2) (text_of f d) = text_of f d) as Hin
    by (apply text_in_id; unfold NVRAM_MAX_DATA; lia).
  destruct f; cbn [text_of format_nvram] in *.
  - unfold format_string. rewrite cstr_app by done. cbn [mbind outcome_bind fmap outcome_fmap]. by rewrite Hin.
  - destruct Hv as [Hlen _]. split_list Hlen. cbn [flat_map app] in Hin. rewrite app_nil_r in Hin.
    unfold format_mac. indices. change (lit ":") with [58]. cbn [flat_map app]. by rewrite app_nil_r, Hin.
  - destruct Hv as [Hlen _]. split_list Hlen. cbn [nth] in Hin. unfold format_hmxswvers. indices.
    change (lit ".") with [46]. cbn [nth app]. by rewrite Hin.
  - destruct Hv as (b & -> & _). cbn [nth] in Hin. unfold format_uint8. indices. cbn [nth]. by rewrite Hin.
  - unfold format_gpn, GPN_HEX_BYTES. destruct Hv as [[Hlen Hd]|(Hd & _ & Hne & _)].
    + unfold strlen. rewrite Hlen in *. cbn [Nat.eqb] in *. change (Z.of_nat 4 =? 4) with true. cbv iota.
      change 4 with (Z.of_nat 4) at 1. rewrite <-Hlen. apply format_hexstring_run; [done| |unfold NVRAM_MAX_DATA; lia].
      unfold strlen, NVRAM_MAX_DATA. lia.
    + destruct (Nat.eqb_spec (length d) 4); [done|]. destruct (Z.eqb_spec (strlen d) 4) as [E|]; [unfold strlen in E; lia|].
      unfold format_string. rewrite cstr_app by done. cbn [mbind outcome_bind]. by rewrite Hin.
  - destruct Hv as [Hd Hl']. apply format_hexstring_run; [done| |unfold NVRAM_MAX_DATA; lia].
    unfold NVRAM_MAX_DATA in *. lia.
Qed.

Lemma is_hexstring_hexes d : all_bytes d → is_hexstring (hexes d) (2 * length d) = true.
Proof.
  intros Hd. unfold is_hexstring. rewrite hexes_length, Nat.eqb_refl, andb_true_r by done.
  rewrite take_ge by (rewrite hexes_length; [lia|done]).
  induction Hd as [|b d Hb _ IH]; [done|]. unfold hexes in *. cbn [flat_map].
  apply hex02_digits in Hb as (x & y & -> & Hx & Hy & _). cbn [app forallb]. by rewrite Hx, Hy, IH.
Qed.

Lemma parse_text_of f d : valid_value f d → parse_nvram f (text_of f d) NVRAM_MAX_DATA = Some d.
Proof.
  intros Hv. pose proof (text_of_fits f d Hv) as [_ Hl].
  assert (∀ t, strlen t < NVRAM_MAX_DATA → parse_string t NVRAM_MAX_DATA = Some t) as Hstr.
  { intros t Ht. unfold parse_string. destruct (Z.gtb_spec (strlen t) NVRAM_MAX_DATA); [lia|done]. }
  destruct f; cbn [text_of parse_nvram] in *.
  - by apply Hstr.
  - destruct Hv as [Hlen Hd]. split_list Hlen. rewrite !Forall_cons in Hd. destruct Hd as (? & ? & ? & ? & ? & ? & _).
    unfold parse_mac, scan_sep_hex2. change (NVRAM_MAX_DATA <? 6) with false. cbv iota. cbn [flat_map app].
    do 6 (rewrite scan_hex2_hex02 by done; cbn [mbind option_bind scan_char app]; rewrite ?Z.eqb_refl; cbn [mbind option_bind]).
    done.
  - destruct Hv as [Hlen Hd]. split_list Hlen. rewrite !Forall_cons in Hd. destruct Hd as (? & ? & _). cbn [nth].
    unfold parse_hmxswvers. change (NVRAM_MAX_DATA <? 2) with false. cbv iota.
    rewrite scan_dec_dec; [|done|by intros c l [= <- _]; lia]. cbn [mbind option_bind scan_char].
    rewrite Z.eqb_refl. cbn [mbind option_bind]. rewrite <-(app_nil_r (dec z)).
    by rewrite scan_dec_dec.
  - destruct Hv as (b & -> & Hb). cbn [nth]. rewrite dec_digit by done. unfold parse_uint8.
    change (NVRAM_MAX_DATA <? 1) with false. cbv iota. cbn [head default]. do 2 f_equal.
    rewrite u8_id; [simpl; lia|unfold is_byte; simpl; lia].
  - unfold parse_gpn. change (NVRAM_MAX_DATA <? 4) with false. cbv iota.
    change (Z.to_nat (GPN_HEX_BYTES * 2)) with 8%nat. destruct Hv as [[Hlen Hd]|(Hd & Hl' & Hne & Hx)].
    + rewrite Hlen in *. cbn [Nat.eqb]. pose proof (is_hexstring_hexes d Hd) as Hx. rewrite Hlen in Hx.
      change (2 * 4)%nat with 8%nat in Hx. rewrite Hx. split_list Hlen. rewrite !Forall_cons in Hd.
      destruct Hd as (? & ? & ? & ? & _). unfold hexes. cbn [flat_map].
      do 4 (rewrite scan_hex2_hex02 by done; cbn [mbind option_bind]). done.
    + destruct (Nat.eqb_spec (length d) 4); [done|]. rewrite Hx. by apply Hstr.
  - destruct Hv as [Hd Hl']. unfold parse_hexstring. f_equal.
    replace (strlen (hexes d) / 2) with (strlen d)
      by (unfold strlen; rewrite hexes_length, Nat2Z.inj_mul, Z.mul_comm, Z.div_mul by (done || lia); done).
    destruct (Z.ltb_spec NVRAM_MAX_DATA (strlen d)); [unfold strlen in *; lia|]. unfold strlen. rewrite Nat2Z.id.
    by apply parse_hex_loop_hexes.
Qed.

(** C37: What the tool prints for a value is what it accepts for it.  A valid value of
    any format, in the array that a read of the library fills, is printed as a string
    that fits the arrays of the program, and parsing this string gives the value. *)
Theorem format_parse_roundtrip f d rest : valid_value f d →
  ∃ t, format_nvram f (d ++ NUL :: rest) (strlen d) (NVRAM_MAX_DATA * 2) = Ret (inl t) ∧
    nonul t ∧ strlen t < NVRAM_MAX_DATA ∧ parse_nvram f t NVRAM_MAX_DATA = Some d.
Proof.
  intros Hv. exists (text_of f d). pose proof (text_of_fits f d Hv) as [? ?].
  split_and!; [by apply format_nvram_run|done|done|by apply parse_text_of].
Qed.

Lemma format_parse_roundtrip_witness :
  ∃ t, format_nvram HNVRAM_MAC ([0xf8; 0x8f; 0xca; 0; 1; 2] ++ NUL :: []) 6 (NVRAM_MAX_DATA * 2) = Ret (inl t) ∧
    nonul t ∧ strlen t < NVRAM_MAX_DATA ∧ parse_nvram HNVRAM_MAC t NVRAM_MAX_DATA = Some [0xf8; 0x8f; 0xca; 0; 1; 2].
Proof. apply (format_parse_roundtrip HNVRAM_MAC _ []). by apply (bool_decide_unpack _); vm_compute. Defined.

(** What does not come back: a byte of more than one digit; a new-format GPN that reads
    as eight digits is stored as four bytes; other characters than digits in a hex
    string are stored as if they were digits. *)
Lemma uint8_keeps_one_digit :
  format_nvram HNVRAM_UINT8 [254] 1 (NVRAM_MAX_DATA * 2) = Ret (inl (lit "254")) ∧
  parse_nvram HNVRAM_UINT8 (lit "254") NVRAM_MAX_DATA = Some [2].
Proof. by split. Qed.
Lemma hexstring_accepts_anything :
  parse_nvram HNVRAM_HEXSTRING (lit "zz") NVRAM_MAX_DATA = Some [255].
Proof. done. Qed.
