(* ===== verification/HnvramSpec.v ===== *)
(** * The NVRAM tool: its specification

    The variables as a map, what the library promises about them, and the options of
    the tool as steps on the map. *)

From stdpp Require Import gmap.
From S2P Require Import Prelude Hnvram.
Open Scope Z_scope.

#[export] Instance NVRAM_FIELD_T_eq_dec : EqDecision NVRAM_FIELD_T.
Proof. solve_decision. Defined.
#[export] Instance partition_countable : Countable partition.
Proof.
  refine (inj_countable' (λ p, match p with PARTITION_UNSPECIFIED => 0%nat | PARTITION_RW => 1%nat | PARTITION_RO => 2%nat end)
    (λ n, match n with 0%nat => PARTITION_UNSPECIFIED | 1%nat => PARTITION_RW | _ => PARTITION_RO end) _).
  by intros [].
Defined.

(** The contents of the NVRAM: the variables of the partitions, and the fields. *)
Record nvram := Nvram {
  vars : gmap (partition * bytes) bytes;
  fields : NVRAM_FIELD_T → option bytes;
}.
Definition set_var p n v nv := Nvram (<[(p, n) := v]> (vars nv)) (fields nv).
Definition remove_var p n nv := Nvram (delete (p, n) (vars nv)) (fields nv).
Definition set_field f v nv := Nvram (vars nv) (λ g, if decide (g = f) then Some v else fields nv g).

(** What the program relies on: a value that was stored is read back with its length;
    a read that fails leaves the array alone; a change that fails changes nothing;
    removing a variable that is not there is DRV_ERR. *)
Class HmxLaws (St : Type) `{!Hmx St} := {
  view : St → nvram;
  read_present st p n v : vars (view st) !! (p, n) = Some v → strlen v ≤ NVRAM_MAX_DATA →
    HMX_NVRAM_Read st p n NVRAM_MAX_DATA = (DRV_OK, (v, strlen v));
  read_absent st p n : vars (view st) !! (p, n) = None →
    ∃ e len, HMX_NVRAM_Read st p n NVRAM_MAX_DATA = (e, ([], len)) ∧ e ≠ DRV_OK;
  write_view p n v st : view (snd (HMX_NVRAM_Write p n v st)) =
    if decide (fst (HMX_NVRAM_Write p n v st) = DRV_OK) then set_var p n v (view st) else view st;
  set_field_view f v st : view (snd (HMX_NVRAM_SetField f v st)) =
    if decide (fst (HMX_NVRAM_SetField f v st) = DRV_OK) then set_field f v (view st) else view st;
  get_field_present st f v : fields (view st) f = Some v → strlen v ≤ NVRAM_MAX_DATA →
    HMX_NVRAM_GetField st f NVRAM_MAX_DATA = (DRV_OK, v) ∧ HMX_NVRAM_GetLength st f = (DRV_OK, strlen v);
  remove_ok p n st : fst (HMX_NVRAM_Remove p n st) = DRV_OK →
    view (snd (HMX_NVRAM_Remove p n st)) = remove_var p n (view st);
  remove_missing p n st : fst (HMX_NVRAM_Remove p n st) = DRV_ERR →
    vars (view st) !! (p, n) = None ∧ view (snd (HMX_NVRAM_Remove p n st)) = view st;
  remove_failed p n st : fst (HMX_NVRAM_Remove p n st) ≠ DRV_OK →
    view (snd (HMX_NVRAM_Remove p n st)) = view st;
}.

(** ** The specification *)

(** Where a variable that is not a field is, and its value. *)
Definition find_var (nv : nvram) (n : bytes) : option (partition * bytes) :=
  match vars nv !! (PARTITION_RW, n) with
  | Some v => Some (PARTITION_RW, v)
  | None => match vars nv !! (PARTITION_RO, n) with Some v => Some (PARTITION_RO, v) | None => None end
  end.

(** The one change that -w makes, when it is allowed. *)
Inductive change := Set_var (p : partition) (n v : bytes) | Set_field (f : NVRAM_FIELD_T) (v : bytes).
Definition effect (c : change) (nv : nvram) : nvram :=
  match c with Set_var p n v => set_var p n v nv | Set_field f v => set_field f v nv end.

Definition plan (nv : nvram) (can_add : bool) (part : partition) (name value : bytes) : option change :=
  if strlen value >? NVRAM_MAX_DATA then None
  else match get_nvram_field name with
  | Some f =>
      v ← parse_nvram (fd_format f) value NVRAM_MAX_DATA;
      if decide (part = PARTITION_UNSPECIFIED) then Some (Set_field (nvram_type f) v) else None
  | None =>
      match find_var nv name with
      | Some (p, _) => if decide (part = PARTITION_UNSPECIFIED ∨ part = p) then Some (Set_var p name value) else None
      | None =>
          if can_add then Some (Set_var (if decide (part = PARTITION_UNSPECIFIED) then PARTITION_RW else part) name value)
          else None
      end
  end.

(** The values of the variables are shorter than the array they are read into. *)
Definition wf (nv : nvram) : Prop := ∀ p n v, vars nv !! (p, n) = Some v → strlen v < NVRAM_MAX_DATA.

(** The state of the specification: contents, whether new variables may be added, and
    the partition asked for. *)
Record spec := Spec { sp_nvram : nvram; sp_can_add : bool; sp_part : partition }.

(** An option is a step; the status is there when it ends the program.  The library may
    refuse a change or a removal. *)
Section steps.
Variable refuses : change → nvram → Prop.
Variable refuses_removal : partition → bytes → nvram → Prop.

Inductive removal (p : partition) (n : bytes) (nv : nvram) : nvram → bool → Prop :=
  | removal_done : removal p n nv (remove_var p n nv) true
  | removal_refused : refuses_removal p n nv → removal p n nv nv false.

Inductive opt_step : spec → hn_opt → spec → option Z → Prop :=
  | step_write nv can part name value c :
      61 ∉ name → plan nv can part name value = Some c →
      opt_step (Spec nv can part) (Opt_w (name ++ 61 :: value)) (Spec (effect c nv) can part) None
  | step_write_refused nv can part name value c :
      61 ∉ name → plan nv can part name value = Some c → refuses c nv →
      opt_step (Spec nv can part) (Opt_w (name ++ 61 :: value)) (Spec nv can part) (Some 1)
  | step_write_bad nv can part name value :
      61 ∉ name → plan nv can part name value = None →
      opt_step (Spec nv can part) (Opt_w (name ++ 61 :: value)) (Spec nv can part) (Some 1)
  | step_write_nothing nv can part a :
      61 ∉ a → opt_step (Spec nv can part) (Opt_w a) (Spec nv can part) (Some (-1))
  | step_remove nv can part n nv1 b1 nv2 b2 :
      removal PARTITION_RW n nv nv1 b1 → removal PARTITION_RO n nv1 nv2 b2 →
      opt_step (Spec nv can part) (Opt_k n) (Spec nv2 can part) (if b1 && b2 then None else Some 1)
  | step_can_add nv can part : opt_step (Spec nv can part) Opt_n (Spec nv true part) None
  | step_part_RO nv can part : opt_step (Spec nv can part) (Opt_p (lit "RO")) (Spec nv can PARTITION_RO) None
  | step_part_RW nv can part : opt_step (Spec nv can part) (Opt_p (lit "RW")) (Spec nv can PARTITION_RW) None
  | step_part_bad nv can part a : a ≠ lit "RO" → a ≠ lit "RW" →
      opt_step (Spec nv can part) (Opt_p a) (Spec nv can part) (Some 1)
  | step_flag sp o : o ∈ [Opt_b; Opt_q; Opt_r; Opt_d] → opt_step sp o sp None
  | step_bad sp : opt_step sp Opt_other sp (Some 1).

Inductive opt_steps : spec → list hn_opt → spec → option Z → Prop :=
  | steps_done sp : opt_steps sp [] sp None
  | steps_end sp o opts sp' status : opt_step sp o sp' (Some status) → opt_steps sp (o :: opts) sp' (Some status)
  | steps_next sp o sp' opts sp'' r :
      opt_step sp o sp' None → opt_steps sp' opts sp'' r → opt_steps sp (o :: opts) sp'' r.
End steps.

(** ** Reading *)

Section refinement.
Context {St : Type} `{!Hmx St, !HmxLaws St}.

(** An array of zeros that a value was read into. *)
Lemma fill_replicate n v : (length v < n)%nat → ∃ rest, fill (replicate n 0) v = Ret (v ++ NUL :: rest).
Proof.
  intros Hv. unfold fill. rewrite decide_True by (rewrite length_replicate; lia).
  exists (replicate (n - S (length v)) 0). rewrite drop_replicate.
  by replace (n - length v)%nat with (S (n - S (length v))) by lia.
Qed.
Lemma fill_zeros v : strlen v < NVRAM_MAX_DATA → ∃ rest, fill zeros v = Ret (v ++ NUL :: rest).
Proof. intros Hv. apply fill_replicate. apply Nat2Z.inj_lt. by rewrite Z2Nat.id by done. Qed.

Lemma fill_nothing arr : fill arr [] = Ret arr.
Proof. unfold fill. rewrite decide_True by (simpl; lia). done. Qed.

(** A variable is looked for in RW, then in RO. *)
Lemma read_variable_run st name : wf (view st) →
  match find_var (view st) name with
  | Some (p, v) => ∃ rest, read_variable st name = Ret (Some (v ++ NUL :: rest, strlen v, p))
  | None => read_variable st name = Ret None
  end.
Proof.
  intros Hwf. unfold find_var, read_variable.
  destruct (vars (view st) !! (PARTITION_RW, name)) as [v|] eqn:Hrw.
  - pose proof (Hwf _ _ _ Hrw). rewrite (read_present _ _ _ _ Hrw) by lia.
    destruct (fill_zeros v) as [rest ->]; [done|]. by exists rest.
  - destruct (read_absent _ _ _ Hrw) as (e & len & -> & He). rewrite fill_nothing. cbn [mbind outcome_bind].
    rewrite bool_decide_false by done.
    destruct (vars (view st) !! (PARTITION_RO, name)) as [v|] eqn:Hro.
    + pose proof (Hwf _ _ _ Hro). rewrite (read_present _ _ _ _ Hro) by lia.
      destruct (fill_zeros v) as [rest ->]; [done|]. by exists rest.
    + destruct (read_absent _ _ _ Hro) as (e' & len' & -> & He'). rewrite fill_nothing. cbn [mbind outcome_bind].
      by rewrite bool_decide_false.
Qed.

Lemma read_nvram_variable name outlen quiet s : wf (view (hn_store s)) → get_nvram_field name = None →
  read_nvram name outlen quiet s = Ret
    (match find_var (view (hn_store s)) name with
     | Some (p, v) =>
         let t := text_in (NVRAM_MAX_DATA * 2) (nul_text v) in
         Text (text_in outlen (if quiet then t else name ++ lit "=" ++ t)) (Some p)
     | None => Null
     end, s).
Proof.
  intros Hwf Hf. unfold read_nvram. rewrite (M_bind_eq _ _ s _ s eq_refl).
  pose proof (read_variable_run (hn_store s) name Hwf) as Hr. unfold read_value. rewrite Hf.
  destruct (find_var _ _) as [[p v]|].
  - destruct Hr as [rest ->]. cbn [mbind outcome_bind option_bind]. rewrite M_bind_lift.
    cbn [format_nvram]. unfold format_string. rewrite nul_text_cstr. done.
  - by rewrite Hr.
Qed.

(** ** Writing *)

(** The library's part of a change. *)
Definition perform (c : change) (st : St) : DRV_Error * St :=
  match c with Set_var p n v => HMX_NVRAM_Write p n v st | Set_field f v => HMX_NVRAM_SetField f v st end.

Lemma perform_view c st : view (snd (perform c st)) =
  if decide (fst (perform c st) = DRV_OK) then effect c (view st) else view st.
Proof. destruct c; [apply write_view|apply set_field_view]. Qed.

Lemma on_store_run {A} (f : St → A * St) s :
  on_store f s = Ret (fst (f (hn_store s)), set_store (snd (f (hn_store s))) s).
Proof. unfold on_store. by destruct (f (hn_store s)). Qed.

(** A call of the library, of which the program keeps whether it succeeded. *)
Lemma checked_call {B} (f : St → DRV_Error * St) (code : B) (ok : B) s :
  (er ← on_store f; if negb (bool_decide (er = DRV_OK)) then mret code else mret ok) s =
  Ret (if decide (fst (f (hn_store s)) = DRV_OK) then ok else code, set_store (snd (f (hn_store s))) s).
Proof.
  rewrite (M_bind_eq _ _ _ _ _ (on_store_run f s)).
  case_decide; [by rewrite bool_decide_true|by rewrite bool_decide_false].
Qed.

(** What may change besides the messages. *)
Definition moved (st : St) (s s' : tool (St:=St)) : Prop := hn_store s' = st ∧ can_add_flag s' = can_add_flag s.

(** The planned change was passed to the library, and the code is 0 when it was made;
    without a change planned, nothing happened. *)
Definition carried (s : tool (St:=St)) (c : option change) (code : Z) (s' : tool (St:=St)) : Prop :=
  match c with
  | Some c => (code = 0 ↔ fst (perform c (hn_store s)) = DRV_OK) ∧ moved (snd (perform c (hn_store s))) s s'
  | None => code ≠ 0 ∧ moved (hn_store s) s s'
  end.
Definition planned (s : tool (St:=St)) part name value : option change :=
  plan (view (hn_store s)) (can_add_flag s) part name value.

Lemma carried_call c code s : code ≠ 0 →
  carried s (Some c) (if decide (fst (perform c (hn_store s)) = DRV_OK) then 0 else code) (set_store (snd (perform c (hn_store s))) s).
Proof. intros Hc. split; [|done]. by case_decide. Qed.

Lemma parse_string_short value : (strlen value >? NVRAM_MAX_DATA) = false → parse_string value NVRAM_MAX_DATA = Some value.
Proof. intros H. unfold parse_string. by rewrite H. Qed.

Lemma write_field_run name f value part s : get_nvram_field name = Some f →
  ∃ code s', write_nvram name value part s = Ret (inl code, s') ∧ code ≠ -3 ∧ carried s (planned s part name value) code s'.
Proof.
  intros Hf. unfold write_nvram, planned, plan. rewrite Hf.
  destruct (strlen value >? NVRAM_MAX_DATA); [by eexists _, _|].
  destruct (parse_nvram (fd_format f) value NVRAM_MAX_DATA) as [v|]; cbn [mbind option_bind]; [|by eexists _, _].
  destruct (decide (part = PARTITION_UNSPECIFIED)) as [->|Hp].
  - rewrite (bool_decide_true (PARTITION_UNSPECIFIED = _)) by done. cbn [negb]. rewrite checked_call.
    exists (if decide (fst (perform (Set_field (nvram_type f) v) (hn_store s)) = DRV_OK) then 0 else -7). eexists.
    split; [by cbn; case_decide|]. split; [by case_decide|by apply carried_call].
  - rewrite bool_decide_false by done. by eexists _, _.
Qed.

Lemma write_var_run name value part s : wf (view (hn_store s)) → get_nvram_field name = None → strlen value ≠ NVRAM_MAX_DATA →
  ∃ code s', write_nvram name value part s = Ret (inl code, s') ∧
  match find_var (view (hn_store s)) name with
  | None => moved (hn_store s) s s' ∧ code = (if strlen value >? NVRAM_MAX_DATA then -1 else -3)
  | Some _ => code ≠ -3 ∧ carried s (planned s part name value) code s'
  end.
Proof.
  intros Hwf Hf Hl. unfold write_nvram, planned, plan. rewrite Hf.
  destruct (strlen value >? NVRAM_MAX_DATA) eqn:Hlong.
  { eexists _, _. split; [done|]. by destruct (find_var _ _). }
  cbn [parse_nvram]. rewrite parse_string_short by done.
  rewrite (M_bind_eq _ _ _ _ _ (read_nvram_variable name NVRAM_MAX_DATA true s Hwf Hf)).
  destruct (find_var _ _) as [[p v]|]; [|by eexists _, _].
  cbn [default].
  destruct (decide (part = PARTITION_UNSPECIFIED ∨ part = p)) as [Hp|Hp].
  - replace (negb (bool_decide (part = PARTITION_UNSPECIFIED)) && negb (bool_decide (part = p))) with false
      by (destruct Hp; [rewrite bool_decide_true by done|rewrite (bool_decide_true (part = p)) by done; rewrite andb_false_r]; done).
    rewrite checked_call.
    exists (if decide (fst (perform (Set_var p name value) (hn_store s)) = DRV_OK) then 0 else -5). eexists.
    split; [by cbn; case_decide|]. split; [by case_decide|by apply carried_call].
  - rewrite !bool_decide_false by tauto. by eexists _, _.
Qed.

Lemma write_new_run name value part s : get_nvram_field name = None → find_var (view (hn_store s)) name = None →
  (strlen value >? NVRAM_MAX_DATA) = false →
  ∃ code s', write_nvram_new name value part s = Ret (code, s') ∧ carried s (planned s part name value) code s'.
Proof.
  intros Hf Hn Hl. unfold write_nvram_new, planned, plan. rewrite Hf, Hn, Hl. rewrite (M_bind_eq _ _ s _ s eq_refl).
  destruct (can_add_flag s); [|by eexists _, _]. cbn [negb parse_nvram]. rewrite parse_string_short by done.
  destruct (decide (part = PARTITION_UNSPECIFIED)) as [->|Hp];
    [rewrite bool_decide_true by done|rewrite bool_decide_false by done]; rewrite checked_call;
    eexists _, _; (split; [done|]); by apply (carried_call (Set_var _ name value) (-3)).
Qed.

Lemma split_equal_app name value : 61 ∉ name → split_equal (name ++ 61 :: value) = Some (name, value).
Proof.
  induction name as [|c name IH]; intros Hn; [done|]. apply not_elem_of_cons in Hn as [Hc Hn]. simpl.
  destruct (Z.eqb_spec c 61); [done|]. by rewrite IH.
Qed.

(** -w makes exactly the planned change, and says whether the library made it. *)
Lemma write_option_run name value part s :
  61 ∉ name → wf (view (hn_store s)) → strlen value ≠ NVRAM_MAX_DATA →
  ∃ code s', write_option (name ++ 61 :: value) part s = Ret (if decide (code = 0) then None else Some 1, s') ∧
    carried s (planned s part name value) code s'.
Proof.
  intros Hn Hwf Hl. unfold write_option. rewrite split_equal_app by done.
  assert (∃ code s', write_nvram name value part s = Ret (inl code, s') ∧
    (code ≠ -3 ∧ carried s (planned s part name value) code s' ∨
     code = -3 ∧ ∃ code' s'', write_nvram_new name value part s' = Ret (code', s'') ∧
                 carried s (planned s part name value) code' s'')) as (code & s1 & Hw & Hcase).
  { destruct (get_nvram_field name) as [f|] eqn:Hf.
    - destruct (write_field_run name f value part s Hf) as (code & s' & ? & ? & ?). exists code, s'. tauto.
    - destruct (write_var_run name value part s Hwf Hf Hl) as (code & s' & Hw & Hp). exists code, s'. split; [done|].
      destruct (find_var (view (hn_store s)) name) as [[p v]|] eqn:Hv; [by left|].
      destruct Hp as [[Hst Hcan] ->]. destruct (strlen value >? NVRAM_MAX_DATA) eqn:Hlong.
      + left. split; [done|]. unfold planned, plan. by rewrite Hlong.
      + right. split; [done|]. unfold planned, carried, moved. rewrite <-Hst, <-Hcan in *.
        by apply write_new_run. }
  assert (∃ code' s2, (if code =? -3 then write_nvram_new name value part else mret code) s1 = Ret (code', s2) ∧
    carried s (planned s part name value) code' s2) as (code' & s2 & Hnew & Hc).
  { destruct Hcase as [[Hne Hc]|[-> Hc]]; [|done]. rewrite (proj2 (Z.eqb_neq _ _) Hne). by eexists _, _. }
  rewrite (M_bind_eq _ _ _ _ _ Hw), (M_bind_eq _ _ _ _ _ Hnew).
  destruct (Z.eqb_spec code' 0) as [->|H0]; eexists _, _.
  - split; [by rewrite decide_True|done].
  - split; [by rewrite decide_False|]. unfold carried, moved in *. by destruct (planned _ _ _ _).
Qed.

(** ** The options *)

Lemma split_equal_Some a n v : split_equal a = Some (n, v) → a = n ++ 61 :: v ∧ 61 ∉ n.
Proof.
  revert n. induction a as [|c a IH]; intros n; [done|]. simpl. destruct (Z.eqb_spec c 61) as [->|Hc].
  - intros [= <- <-]. split; [done|apply not_elem_of_nil].
  - destruct (split_equal a) as [[n' v']|]; [|done]. intros [= <- <-]. destruct (IH n' eq_refl) as [-> ?].
    split; [done|]. by apply not_elem_of_cons.
Qed.
Lemma split_equal_None a : split_equal a = None → 61 ∉ a.
Proof.
  induction a as [|c a IH]; [intros _; apply not_elem_of_nil|]. simpl. destruct (Z.eqb_spec c 61); [done|].
  destruct (split_equal a) as [[]|]; [done|]. intros _. apply not_elem_of_cons. auto.
Qed.

(** The library refuses in some state with these contents. *)
Definition library_refuses (c : change) (nv : nvram) : Prop :=
  ∃ st, view st = nv ∧ fst (perform c st) ≠ DRV_OK.
Definition library_refuses_removal (p : partition) (n : bytes) (nv : nvram) : Prop :=
  ∃ st, view st = nv ∧ fst (HMX_NVRAM_Remove p n st) ≠ DRV_OK ∧ fst (HMX_NVRAM_Remove p n st) ≠ DRV_ERR.
Abbreviation step := (opt_step library_refuses library_refuses_removal).
Abbreviation steps := (opt_steps library_refuses library_refuses_removal).

Definition spec_of (s : tool (St:=St)) (part : partition) : spec := Spec (view (hn_store s)) (can_add_flag s) part.

(** The value given with -w is not exactly as long as the array. *)
Definition opt_ok (o : hn_opt) : Prop :=
  match o with
  | Opt_w a => match split_equal a with Some (_, v) => strlen v ≠ NVRAM_MAX_DATA | None => True end
  | _ => True
  end.

Lemma plan_wf nv can part name value c : wf nv → strlen value ≠ NVRAM_MAX_DATA →
  plan nv can part name value = Some c → wf (effect c nv).
Proof.
  intros Hwf Hl. unfold plan. destruct (Z.gtb_spec (strlen value) NVRAM_MAX_DATA); [done|].
  assert (∀ p, wf (set_var p name value nv)) as Hset.
  { intros p q n v. cbn. destruct (decide ((p, name) = (q, n))) as [<-|Hne].
    - rewrite lookup_insert_eq. intros [= <-]. lia.
    - rewrite lookup_insert_ne by done. apply Hwf. }
  destruct (get_nvram_field name) as [f|].
  - destruct (parse_nvram _ _ _); [|done]. simpl. case_decide; [|done]. by intros [= <-].
  - destruct (find_var nv name) as [[p v]|]; [case_decide|destruct can]; [|done| |done]; intros [= <-]; apply Hset.
Qed.

Lemma remove_wf p n nv : wf nv → wf (remove_var p n nv).
Proof. intros Hwf q m v. cbn. intros [_ Hv]%lookup_delete_Some. by eapply Hwf. Qed.

(** A removal that the program accepts leaves the variable out. *)
Lemma removal_run p n s :
  removal library_refuses_removal p n (view (hn_store s)) (view (snd (HMX_NVRAM_Remove p n (hn_store s))))
    (bool_decide (fst (HMX_NVRAM_Remove p n (hn_store s)) = DRV_ERR ∨ fst (HMX_NVRAM_Remove p n (hn_store s)) = DRV_OK)).
Proof.
  set (st := hn_store s). destruct (decide (fst (HMX_NVRAM_Remove p n st) = DRV_OK)) as [Hok|Hok].
  - rewrite bool_decide_true by tauto. rewrite remove_ok by done. constructor.
  - rewrite (remove_failed _ _ _ Hok). destruct (decide (fst (HMX_NVRAM_Remove p n st) = DRV_ERR)) as [Herr|Herr].
    + rewrite bool_decide_true by tauto. destruct (remove_missing _ _ _ Herr) as [Hnone _].
      replace (view st) with (remove_var p n (view st)) at 2; [constructor|].
      unfold remove_var. rewrite delete_id by done. by destruct (view st).
    + rewrite bool_decide_false by tauto. constructor. by exists st.
Qed.

Definition result_part (f : flags) (r : flags + Z) : partition := match r with inl f => desired f | inr _ => desired f end.
Definition result_status (r : flags + Z) : option Z := match r with inl _ => None | inr status => Some status end.

(** The option -w. *)
Lemma write_step a part s : wf (view (hn_store s)) → opt_ok (Opt_w a) →
  ∃ r s', write_option a part s = Ret (r, s') ∧ step (spec_of s part) (Opt_w a) (spec_of s' part) r ∧
    wf (view (hn_store s')).
Proof.
  intros Hwf Hok. simpl in Hok. destruct (split_equal a) as [[name value]|] eqn:Ha.
  - apply split_equal_Some in Ha as [-> Hn]. destruct (write_option_run name value part s Hn Hwf Hok) as (code & s' & Hw & Hc).
    eexists _, s'. split; [done|]. unfold planned in Hc. destruct (plan _ _ _ _ _) as [c|] eqn:Hp; cbn in Hc.
    + destruct Hc as [Hcode [Hst Hcan]]. unfold spec_of. rewrite Hst, Hcan, perform_view.
      destruct (decide (code = 0)) as [H0|H0].
      * rewrite decide_True by tauto. split; [by constructor|by eapply plan_wf].
      * rewrite decide_False by tauto. split; [|done]. eapply step_write_refused; [done|done|]. exists (hn_store s). tauto.
    + destruct Hc as [H0 [Hst Hcan]]. rewrite decide_False by done. unfold spec_of. rewrite Hst, Hcan.
      split; [by constructor|done].
  - eexists _, s. unfold write_option. rewrite Ha. split; [done|]. split; [|done]. constructor. by apply split_equal_None.
Qed.

(** The option -k. *)
Definition removed_ok (p : partition) (n : bytes) (s : tool (St:=St)) : bool :=
  bool_decide (fst (HMX_NVRAM_Remove p n (hn_store s)) = DRV_ERR ∨ fst (HMX_NVRAM_Remove p n (hn_store s)) = DRV_OK).
Definition after_remove (p : partition) (n : bytes) (s : tool (St:=St)) : tool :=
  set_store (snd (HMX_NVRAM_Remove p n (hn_store s))) s.

Lemma clear_nvram_run a s :
  let s1 := after_remove PARTITION_RW a s in
  let s2 := after_remove PARTITION_RO a s1 in
  ∃ s', clear_nvram a s = Ret (if removed_ok PARTITION_RW a s && removed_ok PARTITION_RO a s1 then DRV_OK else DRV_ERR, s') ∧
    moved (hn_store s2) s s'.
Proof.
  intros s1 s2. unfold clear_nvram.
  rewrite (M_bind_eq _ _ _ _ _ (on_store_run _ s)), (M_bind_eq _ _ _ _ _ (on_store_run _ s1)).
  change (bool_decide _ && bool_decide _) with (removed_ok PARTITION_RW a s && removed_ok PARTITION_RO a s1).
  by destruct (removed_ok PARTITION_RW a s && removed_ok PARTITION_RO a s1); eexists.
Qed.

Lemma remove_step progname a f s : wf (view (hn_store s)) →
  ∃ r s', do_option progname f (Opt_k a) s = Ret (r, s') ∧
    step (spec_of s (desired f)) (Opt_k a) (spec_of s' (result_part f r)) (result_status r) ∧ wf (view (hn_store s')).
Proof.
  intros Hwf. set (s1 := after_remove PARTITION_RW a s).
  pose proof (removal_run PARTITION_RW a s) as H1. pose proof (removal_run PARTITION_RO a s1) as H2.
  pose proof (step_remove library_refuses library_refuses_removal _ (can_add_flag s) (desired f) a _ _ _ _ H1 H2) as Hstep.
  destruct (clear_nvram_run a s) as (s' & Hclear & Hst & Hcan).
  assert (wf (view (hn_store s'))) as Hwf'.
  { assert (∀ p nv nv' b, removal library_refuses_removal p a nv nv' b → wf nv → wf nv') as Hr
      by (intros p nv nv' b [|] ?; [by apply remove_wf|done]). rewrite Hst. eauto. }
  unfold spec_of. cbn [do_option]. rewrite (M_bind_eq _ _ _ _ _ Hclear). fold s1 in Hst |- *.
  change (bool_decide _ && bool_decide _) with (removed_ok PARTITION_RW a s && removed_ok PARTITION_RO a s1) in Hstep.
  destruct (removed_ok PARTITION_RW a s && removed_ok PARTITION_RO a s1); eexists _, _; (split; [done|]);
    cbn; rewrite Hst, Hcan; (split; [exact Hstep|by rewrite <-Hst]).
Qed.

(** Every option does what its step says, and no variable becomes too long. *)
Lemma option_step progname f o s : wf (view (hn_store s)) → opt_ok o →
  ∃ r s', do_option progname f o s = Ret (r, s') ∧
    step (spec_of s (desired f)) o (spec_of s' (result_part f r)) (result_status r) ∧ wf (view (hn_store s')).
Proof.
  intros Hwf Hok. destruct o; try (eexists _, _; split; [done|]; split; [constructor; set_solver|done]).
  - cbn [do_option]. destruct (decide (optarg = lit "RO")) as [->|Hro].
    { eexists _, _. split; [done|]. split; [constructor|done]. }
    rewrite bool_decide_false by done. destruct (decide (optarg = lit "RW")) as [->|Hrw].
    { eexists _, _. split; [done|]. split; [constructor|done]. }
    rewrite bool_decide_false by done. eexists _, _. split; [done|]. split; [by constructor|done].
  - destruct (write_step optarg (desired f) s Hwf Hok) as (r & s' & Hw & Hstep & Hwf').
    cbn [do_option]. rewrite (M_bind_eq _ _ _ _ _ Hw). destruct r; by eexists _, _.
  - by apply remove_step.
Qed.


(** ** Reading what was written *)

Definition format_of (name : bytes) : hnvram_format_e :=
  match get_nvram_field name with Some f => fd_format f | None => HNVRAM_STRING end.

Lemma valid_short f d : valid_value f d → strlen d < NVRAM_MAX_DATA.
Proof.
  unfold strlen, NVRAM_MAX_DATA. destruct f; cbn [valid_value].
  - by intros [].
  - intros [-> _]. done.
  - intros [-> _]. done.
  - by intros (b & -> & _).
  - intros [[-> _]|(_ & ? & _)]; done.
  - intros [_ H]. unfold strlen, NVRAM_MAX_DATA in H. lia.
Qed.

Lemma read_nvram_field name f d outlen quiet s : get_nvram_field name = Some f →
  fields (view (hn_store s)) (nvram_type f) = Some d → valid_value (fd_format f) d →
  read_nvram name outlen quiet s = Ret
    (Text (text_in outlen (if quiet then text_of (fd_format f) d else name ++ lit "=" ++ text_of (fd_format f) d)) None, s).
Proof.
  intros Hf Hd Hv. pose proof (valid_short _ _ Hv) as Hl. unfold read_nvram. rewrite (M_bind_eq _ _ s _ s eq_refl).
  unfold read_value. rewrite Hf. destruct (get_field_present _ _ _ Hd) as [-> ->]; [lia|].
  destruct (fill_zeros d Hl) as [rest ->]. cbn [mbind outcome_bind].
  rewrite bool_decide_true by done. cbn [negb]. rewrite M_bind_lift.
  assert (s32 (u32 (strlen d)) = strlen d) as ->.
  { unfold strlen, NVRAM_MAX_DATA in *. unfold u32. rewrite Z.mod_small by lia. apply s32_id. lia. }
  by rewrite format_nvram_run.
Qed.

Lemma find_var_set p n v nv : p = PARTITION_RW ∨ p = PARTITION_RO ∧ vars nv !! (PARTITION_RW, n) = None →
  find_var (set_var p n v nv) n = Some (p, v).
Proof.
  unfold find_var. cbn. intros [->|[-> H]].
  - by rewrite lookup_insert_eq.
  - rewrite lookup_insert_ne by done. by rewrite H, lookup_insert_eq.
Qed.

(** The change planned for a variable is found where it is looked for. *)
Lemma plan_var_found nv can part name value c : get_nvram_field name = None →
  plan nv can part name value = Some c → ∃ p, find_var (effect c nv) name = Some (p, value).
Proof.
  intros Hf. unfold plan. rewrite Hf. destruct (_ >? _); [done|].
  destruct (find_var nv name) as [[p v]|] eqn:Hv.
  - case_decide; [|done]. intros [= <-]. exists p. apply find_var_set. unfold find_var in Hv.
    destruct (vars nv !! (PARTITION_RW, name)); [left; congruence|].
    destruct (vars nv !! (PARTITION_RO, name)); [right; split; [congruence|done]|done].
  - destruct can; [|done]. intros [= <-]. eexists. apply find_var_set. unfold find_var in Hv.
    destruct (vars nv !! (PARTITION_RW, name)); [done|]. case_decide; [by left|]. destruct part; naive_solver.
Qed.

(** C17: What is written is read back.  When -w ends without an error for the text of a
    valid value, of a field or of any other variable, in either partition, reading the
    name gives this text. *)
Theorem write_then_read name d part s s' :
  61 ∉ name → wf (view (hn_store s)) → valid_value (format_of name) d →
  write_option (name ++ 61 :: text_of (format_of name) d) part s = Ret (None, s') →
  ∃ p, read_nvram name NVRAM_MAX_DATA true s' = Ret (Text (text_of (format_of name) d) p, s').
Proof.
  intros Hn Hwf Hv Hrun. pose proof (text_of_fits _ _ Hv) as [Hnul Hfit].
  destruct (write_option_run name (text_of (format_of name) d) part s) as (code & s1 & Hw & Hc); [done|done|lia|].
  rewrite Hw in Hrun. destruct (decide (code = 0)) as [H0|]; [|done]. injection Hrun as ->.
  unfold planned in Hc. destruct (plan _ _ _ _ _) as [c|] eqn:Hp; [|by destruct Hc]. cbn in Hc.
  destruct Hc as [Hcode [Hst _]].
  assert (view (hn_store s') = effect c (view (hn_store s))) as Hview by (rewrite Hst, perform_view; by rewrite decide_True by tauto).
  assert (text_in NVRAM_MAX_DATA (text_of (format_of name) d) = text_of (format_of name) d) as Hin by (by apply text_in_id).
  destruct (get_nvram_field name) as [f|] eqn:Hf.
  - assert (format_of name = fd_format f) as Hfo by (unfold format_of; by rewrite Hf). rewrite Hfo in *.
    unfold plan in Hp. rewrite Hf in Hp.
    destruct (_ >? _); [done|]. rewrite parse_text_of in Hp by done. cbn [mbind option_bind] in Hp.
    destruct (decide _); [|done]. injection Hp as <-. exists None.
    rewrite (read_nvram_field name f d); [by rewrite Hin|done| |done]. rewrite Hview. cbn. by rewrite decide_True.
  - destruct (plan_var_found _ _ _ _ _ _ Hf Hp) as [p Hfound].
    assert (wf (view (hn_store s'))) as Hwf' by (rewrite Hview; eapply plan_wf; [done| |done]; lia).
    exists (Some p). rewrite read_nvram_variable by done. rewrite Hview, Hfound. cbv zeta iota.
    rewrite nul_text_id by done. rewrite (text_in_id (NVRAM_MAX_DATA * 2)) by (unfold NVRAM_MAX_DATA in *; lia).
    by rewrite Hin.
Qed.

(** A value exactly as long as the array is accepted, and cannot be read any more. *)
Lemma fill_exact n v : length v = n → fill (replicate n 0) v = Ret v.
Proof.
  intros <-. unfold fill. rewrite decide_True by (by rewrite length_replicate).
  rewrite drop_ge by (by rewrite length_replicate). by rewrite app_nil_r.
Qed.
Lemma full_value_unreadable name v outlen quiet s : get_nvram_field name = None →
  vars (view (hn_store s)) !! (PARTITION_RW, name) = Some v → nonul v → strlen v = NVRAM_MAX_DATA →
  parse_nvram HNVRAM_STRING v NVRAM_MAX_DATA = Some v ∧ read_nvram name outlen quiet s = Ub.
Proof.
  intros Hf Hv Hn Hl. split.
  { apply parse_string_short. destruct (Z.gtb_spec (strlen v) NVRAM_MAX_DATA); [lia|done]. }
  unfold read_nvram. rewrite (M_bind_eq _ _ s _ s eq_refl). unfold read_value, read_variable. rewrite Hf.
  rewrite (read_present _ _ _ _ Hv) by lia. unfold zeros. rewrite fill_exact by (unfold strlen in Hl; lia).
  cbn [mbind outcome_bind]. rewrite bool_decide_true by done. cbn [mbind outcome_bind option_bind]. rewrite M_bind_lift.
  cbn [format_nvram]. unfold format_string. by rewrite cstr_unterminated.
Qed.
End refinement.

(** ** A library that keeps the variables in memory *)

#[local] Instance memory_hmx : Hmx nvram := {|
  HMX_NVRAM_Init _ st := (DRV_OK, st);
  HMX_NVRAM_GetField st f _ := match fields st f with Some v => (DRV_OK, v) | None => (DRV_ERR, []) end;
  HMX_NVRAM_GetLength st f := match fields st f with Some v => (DRV_OK, strlen v) | None => (DRV_ERR, 0) end;
  HMX_NVRAM_SetField f v st := (DRV_OK, set_field f v st);
  HMX_NVRAM_Read st p n _ := match vars st !! (p, n) with Some v => (DRV_OK, (v, strlen v)) | None => (DRV_ERR, ([], 0)) end;
  HMX_NVRAM_Write p n v st := (DRV_OK, set_var p n v st);
  HMX_NVRAM_Remove p n st :=
    match vars st !! (p, n) with Some _ => (DRV_OK, remove_var p n st) | None => (DRV_ERR, st) end;
  HMX_NVRAM_Dir st := (DRV_OK, []);
  drv_code e := match e with DRV_OK => 0 | DRV_ERR => 1 | DRV_OTHER c => c end;
  part_code p := match p with PARTITION_UNSPECIFIED => 0 | PARTITION_RW => 1 | PARTITION_RO => 2 end;
|}.
#[local] Instance memory_laws : HmxLaws nvram.
Proof.
  refine {| view := id |}; unfold HMX_NVRAM_Read, HMX_NVRAM_Write, HMX_NVRAM_SetField, HMX_NVRAM_GetField,
    HMX_NVRAM_GetLength, HMX_NVRAM_Remove, memory_hmx, id; intros.
  - by rewrite H.
  - rewrite H. by eexists _, _.
  - by rewrite decide_True.
  - by rewrite decide_True.
  - by rewrite H.
  - by destruct (vars st !! (p, n)).
  - by destruct (vars st !! (p, n)).
  - by destruct (vars st !! (p, n)).
Defined.

(** A variable in each partition. *)
Definition demo_nvram : nvram :=
  Nvram {[ (PARTITION_RW, lit "COLOR") := lit "red"; (PARTITION_RO, lit "ORIGIN") := lit "factory" ]} (λ _, None).
Definition demo_hnvram : tool := Tool demo_nvram false [] [] (replicate 3 0).
Definition demo_options : list hn_opt :=
  [Opt_w (lit "COLOR=blue"); Opt_n; Opt_w (lit "SHAPE=round"); Opt_k (lit "ORIGIN"); Opt_p (lit "RO"); Opt_w (lit "COLOR=green")].

Lemma demo_nvram_wf : wf demo_nvram.
Proof.
  intros p n v. unfold demo_nvram. cbn [vars]. intros [[_ <-]|[_ [_ <-]%lookup_singleton_Some]]%lookup_insert_Some; done.
Qed.


Lemma write_then_read_witness :
  ∃ s' p, write_option (lit "MAC_ADDR=f8:8f:ca:00:01:02") PARTITION_UNSPECIFIED demo_hnvram = Ret (None, s') ∧
    read_nvram (lit "MAC_ADDR") NVRAM_MAX_DATA true s' = Ret (Text (lit "f8:8f:ca:00:01:02") p, s').
Proof.
  destruct (write_option (lit "MAC_ADDR=f8:8f:ca:00:01:02") PARTITION_UNSPECIFIED demo_hnvram) as [[[e|] s']| |] eqn:E;
    [vm_compute in E; discriminate E| |vm_compute in E; discriminate E..].
  exists s'. destruct (write_then_read (lit "MAC_ADDR") [0xf8; 0x8f; 0xca; 0; 1; 2] PARTITION_UNSPECIFIED demo_hnvram s') as [p Hp].
  - apply (bool_decide_unpack _). by vm_compute.
  - exact demo_nvram_wf.
  - apply (bool_decide_unpack _). by vm_compute.
  - exact E.
  - by exists p.
Defined.
