(* ===== verification/Sysmgr.v ===== *)
(** * The system manager: sysmgr/sysmgr.cc and sysmgr/peripheral/

    A daemon that reads the temperatures and the fan's speed from files of the GPIO
    mailbox, sets the fan, and switches the box off when it stays too hot.  The log
    of the program (LOG) is not modelled. *)

From stdpp Require Import gmap.
From S2P Require Import Prelude.
Open Scope Z_scope.

(** ** What is outside the program

    What the program sees changes while it sleeps or waits for a command: the [n]th
    instant is what holds after [n] of these. *)
Record instant := Instant {
  in_files : gmap bytes bytes;      (* the files that can be opened for reading *)
  in_time : Z;                      (* CLOCK_MONOTONIC in milliseconds *)
  in_command : option bytes;        (* what popen and its output give *)
  in_writable : bytes → bool;       (* the files that can be opened for writing *)
}.
Class Outside := outside : nat → instant.

(** What the program does. *)
Inductive action :=
  | Write_file (path text : bytes)
  | Append_file (path text : bytes)
  | Rename (from to : bytes)
  | Unlink (path : bytes)
  | System (command : bytes)
  | Restart
  | Stderr (text : bytes)
  | Sleep (seconds : Z)
  | Usleep (useconds : Z).

(** ** base/time.cc *)

Definition HALF : Z := 0x80000000.
Definition Time (now : instant) : Z := u32 (in_time now).
Definition TimeAfter (now : instant) (elapsed : Z) : Z := u32 (Time now + elapsed).
Definition TimeIsLaterOrEqual (earlier later : Z) : bool :=
  let diff := s32 (later - earlier) in (0 <=? diff) && (u32 diff <? HALF).

(** ** Streams of characters *)

(** [std::getline] until the end of the file: the lines, the last one without a line
    feed (and empty when the file ends with one). *)
Fixpoint split_lines (s : bytes) : list bytes :=
  match s with
  | [] => [[]]
  | c :: s =>
      if c =? 10 then [] :: split_lines s
      else match split_lines s with l :: ls => (c :: l) :: ls | [] => [[c]] end
  end.
Definition first_line (s : bytes) : bytes := default [] (head (split_lines s)).

(** [ss >> word] until it fails. *)
Fixpoint take_word (s : bytes) : bytes :=
  match s with c :: t => if isspace c then [] else c :: take_word t | [] => [] end.
Fixpoint words_loop (fuel : nat) (s : bytes) : list bytes :=
  match fuel with
  | O => []
  | S fuel =>
      let s := skip_space s in
      match s with
      | [] => []
      | _ => take_word s :: words_loop fuel (drop (length (take_word s)) s)
      end
  end.
Definition words (s : bytes) : list bytes := words_loop (length s) s.

Fixpoint count_digits (s : bytes) : nat :=
  match s with c :: t => if (48 <=? c) && (c <=? 57) then S (count_digits t) else O | [] => O end.

(** [ss >> value] for a uint16_t: the value and whether it succeeded.  Without digits the
    value is 0, beyond the type it is the largest one; a minus sign negates modulo 2^16. *)
Definition read_u16 (s : bytes) : Z * bool :=
  let '(neg, t) := signed_digits s in
  if Nat.eqb (count_digits t) 0 then (0, false)
  else
    let v := parse_digits t 0 in
    if 65535 <? v then (65535, false) else (u16 (if neg : bool then - v else v), true).

(** A float is [f_man * 2 ^ f_exp]. *)
Record float := Float { f_man : Z; f_exp : Z }.
Definition float_zero : float := Float 0 0.

(** Round [num / den] to the nearest integer, to the even one of two. *)
Definition round_even (num den : Z) : Z :=
  let q := num / den in
  let r := 2 * (num mod den) in
  if r <? den then q else if den <? r then q + 1 else if Z.even q then q else q + 1.

(** [num * 2 ^ -e] over [den], as a fraction of integers *)
Definition scaled (num den e : Z) : Z * Z :=
  if e <=? 0 then (num * 2 ^ (- e), den) else (num, den * 2 ^ e).

(** The float nearest to [num / den]; nothing when it is too large. *)
Definition round_float (num den : Z) : option float :=
  if num =? 0 then Some float_zero
  else
    let l := Z.log2 num - Z.log2 den in
    let '(n1, d1) := scaled num den l in
    let e := (if n1 <? d1 then l - 1 else l) - 23 in
    let e := Z.max e (-149) in
    let '(n, d) := scaled num den e in
    let m := round_even n d in
    if Z.log2 m + e <? 128 then Some (Float m e) else None.

(** [ss >> value] for a float: a sign, digits, a point, digits, an exponent. *)
Definition read_float (s : bytes) : option float :=
  let '(neg, t) := signed_digits s in
  let n1 := count_digits t in
  let '(frac, t2) := match drop n1 t with c :: u => if c =? 46 then (take (count_digits u) u, drop (count_digits u) u) else ([], c :: u)
                     | [] => ([], []) end in
  let man := take n1 t ++ frac in
  let exponent :=
    match t2 with
    | c :: u =>
        if negb (Nat.eqb (length man) 0) && ((c =? 101) || (c =? 69)) then
          let '(eneg, u) := match u with d :: v => if d =? 45 then (true, v) else if d =? 43 then (false, v) else (false, u)
                            | [] => (false, []) end in
          if Nat.eqb (count_digits u) 0 then None
          else Some (if eneg : bool then - parse_digits u 0 else parse_digits u 0)
        else Some 0
    | [] => Some 0
    end in
  if Nat.eqb (length man) 0 then None
  else
    x ← exponent;
    let x := x - Z.of_nat (length frac) in
    let m := parse_digits man 0 in
    f ← (if x <? 0 then round_float m (10 ^ (- x)) else round_float (m * 10 ^ x) 1);
    Some (if neg : bool then Float (- f_man f) (f_exp f) else f).

(** The comparison with an integer, and the conversion to uint16_t, which is undefined
    when the integral part does not fit. *)
Definition float_lt (f : float) (v : Z) : bool :=
  if 0 <=? f_exp f then f_man f * 2 ^ f_exp f <? v else f_man f <? v * 2 ^ (- f_exp f).
Definition float_trunc (f : float) : Z :=
  if 0 <=? f_exp f then f_man f * 2 ^ f_exp f else Z.quot (f_man f) (2 ^ (- f_exp f)).
Definition float_to_u16 (f : float) : outcome Z :=
  let t := float_trunc f in if (0 <=? t) && (t <=? 65535) then Ret t else Ub.

(** ** peripheral/platform.cc *)

Definition PLATFORM_FILE : bytes := lit "/etc/platform".
Definition COMMENT_CHAR : Z := 35.

Inductive BrunoPlatformTypes :=
  | BRUNO_GFMS100 | BRUNO_GFHD100 | BRUNO_GFRG200 | BRUNO_GFRG210 | BRUNO_GFRG250 | BRUNO_GFSC100 | BRUNO_GFHD200
  | BRUNO_GFLT110 | BRUNO_GFHD254 | BRUNO_GFLT300 | BRUNO_GFLT400 | BRUNO_GFCH100 | BRUNO_UNKNOWN.
#[export] Instance platform_types_eq_dec : EqDecision BrunoPlatformTypes.
Proof. solve_decision. Defined.

Record Platform := MkPlatform {
  name_ : bytes;
  type_ : BrunoPlatformTypes;
  has_hdd_ : bool;
  has_aux1_ : bool;
  has_fan_ : bool;
}.
Definition new_platform : Platform := MkPlatform (lit "Unknown") BRUNO_UNKNOWN false false false.

Definition kPlatformTable : list Platform := [
  MkPlatform (lit "GFMS100") BRUNO_GFMS100 true  false true;
  MkPlatform (lit "GFHD100") BRUNO_GFHD100 false false true;
  MkPlatform (lit "GFHD200") BRUNO_GFHD200 false false false;
  MkPlatform (lit "GFRG200") BRUNO_GFRG200 false false true;
  MkPlatform (lit "GFRG210") BRUNO_GFRG210 true  false true;
  MkPlatform (lit "GFRG250") BRUNO_GFRG250 true  true  true;
  MkPlatform (lit "GFSC100") BRUNO_GFSC100 true  false true;
  MkPlatform (lit "GFLT110") BRUNO_GFLT110 false false false;
  MkPlatform (lit "GFLT120") BRUNO_GFLT110 false false false;
  MkPlatform (lit "GFHD254") BRUNO_GFHD254 false true true;
  MkPlatform (lit "GFLT300") BRUNO_GFLT300 false false false;
  MkPlatform (lit "GFLT400") BRUNO_GFLT400 false false false;
  MkPlatform (lit "GFCH100") BRUNO_GFCH100 false false false;
  MkPlatform (lit "UNKNOWN PLATFORM") BRUNO_UNKNOWN false false false].

(** [result.compare(0, pattern->size(), *pattern) == 0] *)
Definition has_prefix (pattern result : bytes) : bool := bool_decide (take (length pattern) result = pattern).

(** The loop of [GetLine]: the line that ends it, or the last one read. *)
Fixpoint get_line_loop (pattern : option bytes) (result : bytes) (lines : list bytes) : bytes :=
  match lines with
  | [] => result
  | l :: ls =>
      match pattern with
      | None => l
      | Some p =>
          if negb (default NUL (head l) =? COMMENT_CHAR) && has_prefix p l then l else get_line_loop pattern l ls
      end
  end.
Definition GetLine (now : instant) (file : bytes) (pattern : option bytes) : bytes :=
  match in_files now !! file with Some c => get_line_loop pattern [] (split_lines c) | None => [] end.

Fixpoint find_platform (name : bytes) (table : list Platform) : option Platform :=
  match table with
  | [] => None
  | p :: table => if bool_decide (name = name_ p) then Some p else find_platform name table
  end.
Definition GetPlatformType (now : instant) (p : Platform) : Platform :=
  default p (find_platform (GetLine now PLATFORM_FILE None) kPlatformTable).

(** ** The parameters of the fan *)

Record FanControlParams := Params {
  temp_setpt : Z; temp_max : Z; temp_step : Z; duty_cycle_min : Z; duty_cycle_max : Z; pwm_step : Z; temp_overheat : Z;
}.

Definition kPwmDefaultStartup : Z := 50.
Definition kPwmMinValue : Z := 0.
Definition kFanSpeedNotSpinning : Z := 0.
Definition DUTY_CYCLE_PWM_MAX_VALUE : Z := 100.
Definition FAN_CONTROL_PARAMS_FILE : bytes := lit "/user/sysmgr/fan_control_params.tbl".

Definition kGFMS100FanCtrlSocDefaults := Params 90 100 2 25 100 1 120.
Definition kGFMS100FanCtrlHddDefaults := Params 56 60 2 25 100 1 120.
Definition kGFRG200FanCtrlSocDefaults := Params 82 92 2 30 100 1 105.
Definition kGFRG210FanCtrlSocDefaults := Params 86 94 2 30 100 1 105.
Definition kGFRG210FanCtrlHddDefaults := Params 56 60 2 30 100 1 105.
Definition kGFRG250FanCtrlSocDefaults := Params 76 88 3 30 100 2 105.
Definition kGFRG250FanCtrlHddDefaults := Params 55 60 2 30 100 1 105.
Definition kGFRG250FanCtrlAux1Defaults := Params 90 109 9 30 100 2 120.
Definition kGFSC100FanCtrlSocDefaults := Params 86 94 2 30 100 1 105.
Definition kGFSC100FanCtrlHddDefaults := Params 56 60 2 30 100 1 105.
Definition kGFHD100FanCtrlSocDefaults := Params 90 100 2 12 40 1 120.
Definition kGFHD200FanCtrlSocDefaults := Params 0 0 0 0 0 0 120.
Definition kGFHD254FanCtrlSocDefaults := Params 88 105 3 25 100 2 120.
Definition kGFHD254FanCtrlAux1Defaults := Params 94 110 3 25 100 2 120.
Definition kGFLT110FanCtrlSocDefaults := Params 0 0 0 0 0 0 97.
Definition kGFLT300FanCtrlSocDefaults := Params 0 0 0 0 0 0 97.
Definition kGFLT400FanCtrlSocDefaults := Params 0 0 0 0 0 0 97.
Definition kGFCH100FanCtrlSocDefaults := Params 0 0 0 0 0 0 125.

(** The index of a set of parameters: SOC, disk, second sensor. *)
Inductive FanControlParamsTypes := BRUNO_SOC | BRUNO_IS_HDD | BRUNO_AUX1.
#[export] Instance params_types_eq_dec : EqDecision FanControlParamsTypes.
Proof. solve_decision. Defined.

(** The array of parameters; an element that is not set holds indeterminate values. *)
Definition param_table : Type := FanControlParamsTypes → option FanControlParams.
Definition no_params : param_table := λ _, None.
Definition set_params (i : FanControlParamsTypes) (p : FanControlParams) (t : param_table) : param_table :=
  λ j, if decide (j = i) then Some p else t j.

(** The switch of [InitParams]. *)
Definition default_params (type : BrunoPlatformTypes) : param_table :=
  match type with
  | BRUNO_GFMS100 => set_params BRUNO_IS_HDD kGFMS100FanCtrlHddDefaults (set_params BRUNO_SOC kGFMS100FanCtrlSocDefaults no_params)
  | BRUNO_GFHD100 => set_params BRUNO_SOC kGFHD100FanCtrlSocDefaults no_params
  | BRUNO_GFHD200 => set_params BRUNO_SOC kGFHD200FanCtrlSocDefaults no_params
  | BRUNO_GFHD254 => set_params BRUNO_AUX1 kGFHD254FanCtrlAux1Defaults (set_params BRUNO_SOC kGFHD254FanCtrlSocDefaults no_params)
  | BRUNO_GFRG200 => set_params BRUNO_SOC kGFRG200FanCtrlSocDefaults no_params
  | BRUNO_GFRG210 => set_params BRUNO_IS_HDD kGFRG210FanCtrlHddDefaults (set_params BRUNO_SOC kGFRG210FanCtrlSocDefaults no_params)
  | BRUNO_GFRG250 =>
      set_params BRUNO_AUX1 kGFRG250FanCtrlAux1Defaults
        (set_params BRUNO_IS_HDD kGFRG250FanCtrlHddDefaults (set_params BRUNO_SOC kGFRG250FanCtrlSocDefaults no_params))
  | BRUNO_GFSC100 => set_params BRUNO_IS_HDD kGFSC100FanCtrlHddDefaults (set_params BRUNO_SOC kGFSC100FanCtrlSocDefaults no_params)
  | BRUNO_GFLT110 => set_params BRUNO_SOC kGFLT110FanCtrlSocDefaults no_params
  | BRUNO_GFLT300 => set_params BRUNO_SOC kGFLT300FanCtrlSocDefaults no_params
  | BRUNO_GFLT400 => set_params BRUNO_SOC kGFLT400FanCtrlSocDefaults no_params
  | BRUNO_GFCH100 => set_params BRUNO_SOC kGFCH100FanCtrlSocDefaults no_params
  | BRUNO_UNKNOWN => no_params
  end.

Definition suffix (i : FanControlParamsTypes) : bytes :=
  match i with BRUNO_SOC => lit "_SOC" | BRUNO_IS_HDD => lit "_HDD" | BRUNO_AUX1 => lit "_AUX1" end.

(** A line of the external table, applied to a set of parameters.  An element that is
    not set stays so: its [temp_overheat] is indeterminate still. *)
Definition dbgGetFanControlParamsFromParamsFile (now : instant) (p : Platform) (fc_idx : FanControlParamsTypes)
    (t : param_table) : bool * param_table :=
  let result := GetLine now FAN_CONTROL_PARAMS_FILE (Some (name_ p ++ suffix fc_idx)) in
  match words result with
  | _ :: t1 :: t2 :: t3 :: t4 :: t5 :: t6 :: _ =>
      let v s := fst (read_u16 s) in
      if v t2 <? v t1 then (false, t)
      else if v t5 <? v t4 then (false, t)
      else
        (true, match t fc_idx with
               | Some old => set_params fc_idx (Params (v t1) (v t2) (v t3) (v t4) (v t5) (v t6) (temp_overheat old)) t
               | None => t
               end)
  | _ => (false, t)
  end.

Definition dbgUpdateFanControlParams (now : instant) (p : Platform) (t : param_table) : param_table :=
  match in_files now !! FAN_CONTROL_PARAMS_FILE with
  | Some _ =>
      let t := snd (dbgGetFanControlParamsFromParamsFile now p BRUNO_SOC t) in
      if has_hdd_ p then snd (dbgGetFanControlParamsFromParamsFile now p BRUNO_IS_HDD t) else t
  | None => t
  end.

(** A set of parameters; reading one that is not set is undefined. *)
Definition get_params (t : param_table) (i : FanControlParamsTypes) : outcome FanControlParams :=
  match t i with Some p => Ret p | None => Ub end.

(** [InitParams]: the parameters; its loop reads those of the sensors there are. *)
Definition InitParams (now : instant) (p : Platform) : outcome param_table :=
  let t := dbgUpdateFanControlParams now p (default_params (type_ p)) in
  _ ← get_params t BRUNO_SOC;
  _ ← (if has_hdd_ p then fmap (λ _, tt) (get_params t BRUNO_IS_HDD) else Ret tt);
  _ ← (if has_aux1_ p then fmap (λ _, tt) (get_params t BRUNO_AUX1) else Ret tt);
  Ret t.

(** ** The speed of the fan *)

(** [__ComputeDutyCycle] for the current duty cycle [duty_cycle_pwm_]. *)
Definition compute_duty_cycle (duty_cycle_pwm_ temp fan_speed : Z) (params : FanControlParams) : Z :=
  if temp_max params <? temp then duty_cycle_max params
  else if temp_setpt params + temp_step params <? temp then
    if fan_speed =? kFanSpeedNotSpinning then duty_cycle_min params
    else if duty_cycle_pwm_ <? duty_cycle_max params then
      let c := u16 (duty_cycle_pwm_ + pwm_step params) in
      if duty_cycle_max params <? c then duty_cycle_max params else c
    else duty_cycle_pwm_
  else if temp <? temp_setpt params - temp_step params then
    if (fan_speed =? kFanSpeedNotSpinning) || (duty_cycle_pwm_ <? pwm_step params) then kPwmMinValue
    else u16 (duty_cycle_pwm_ - pwm_step params)
  else duty_cycle_pwm_.

Definition ComputeDutyCycle (p : Platform) (t : param_table) (duty soc_temp hdd_temp aux1_temp fan_speed : Z) : outcome Z :=
  soc ← get_params t BRUNO_SOC;
  let soc_compute := compute_duty_cycle duty soc_temp fan_speed soc in
  hdd_compute ← (if has_hdd_ p then hdd ← get_params t BRUNO_IS_HDD; Ret (compute_duty_cycle duty hdd_temp fan_speed hdd) else Ret 0);
  aux1_compute ← (if has_aux1_ p then aux1 ← get_params t BRUNO_AUX1; Ret (compute_duty_cycle duty aux1_temp fan_speed aux1) else Ret 0);
  Ret (Z.max (Z.max soc_compute hdd_compute) aux1_compute).

(** ** The daemon *)

Inductive StateType := OFF | VAR_SPEED | FULL_SPEED.

Record FanControl := Fan {
  state_ : StateType;
  duty_cycle_pwm_ : Z;
  pfan_ctrl_params_ : param_table;
}.
Record PeripheralMon := Mon {
  hdd_temp_interval_ : Z;
  hdd_temp_ : Z;
  overheating_ : Z;
  last_time_ : Z;
  next_time_hdd_temp_check_ : Z;
  gpio_mailbox_ready : bool;
}.
(** How far the outside has moved, what was done, and the two objects. *)
Record sysmgr := Sysmgr {
  tick : nat;
  out : list action;
  fan : FanControl;
  mon : PeripheralMon;
}.
Abbreviation G := (M sysmgr).
Definition with_fan f s := Sysmgr (tick s) (out s) f (mon s).
Definition with_mon m s := Sysmgr (tick s) (out s) (fan s) m.
Definition act a s := Sysmgr (tick s) (out s ++ [a]) (fan s) (mon s).
Definition pass s := Sysmgr (S (tick s)) (out s) (fan s) (mon s).

Definition period_ : Z := DUTY_CYCLE_PWM_MAX_VALUE - 1.

Section daemon.
Context `{!Outside} (platform_ : Platform).

Definition now : G instant := gets (λ s, outside (tick s)).
Definition sleep (seconds : Z) : G unit := modify (λ s, pass (act (Sleep seconds) s)).

(** *** peripheral/common.cc *)

Definition OVERHEATING_LED_FILE : bytes := lit "/tmp/leds/overheating".
Definition TR69_MSG_FILE : bytes := lit "/tmp/cwmp/sysmgr".
Definition OVERHEATING_LED_ON : bytes := lit "1 0 1 0 1 0".

(** [reboot] with its answer. *)
Definition Reboot (ret : Z) : G bool := modify (act Restart);; mret (negb (ret <? 0)).
(** The result of [system] is only logged. *)
Definition Poweroff : G unit := modify (act (System (lit "poweroff-with-message 'poweroff requested by sysmgr'"))).

(** A text written to a file that can be opened, and nothing when it cannot. *)
Definition put_file (path text : bytes) : G unit :=
  i ← now; if in_writable i path then modify (act (Write_file path text)) else mret tt.
Definition append_file (path text : bytes) : G unit :=
  i ← now; if in_writable i path then modify (act (Append_file path text)) else mret tt.

Definition SetLEDOverheat (message : bytes) : G unit :=
  put_file OVERHEATING_LED_FILE (OVERHEATING_LED_ON ++ [10]);;
  if bool_decide (message = []) then mret tt else append_file TR69_MSG_FILE (message ++ [10]).
Definition ClrLEDOverheat (message : bytes) : G unit :=
  modify (act (Unlink OVERHEATING_LED_FILE));;
  if bool_decide (message = []) then mret tt else append_file TR69_MSG_FILE (message ++ [10]).

Definition ConvertStringToFloat (value_str : bytes) : bool * float :=
  match read_float value_str with Some f => (true, f) | None => (false, float_zero) end.
Definition ConvertStringToUint16 (value_str : bytes) : bool * Z :=
  let '(v, ok) := read_u16 value_str in if ok then (true, v) else (false, 0).
Definition ConvertUint16ToString (value : Z) : bytes := dec value.

(** *** peripheral/mailbox.cc *)

Definition kMailboxFanPercentFile : bytes := lit "/tmp/gpio/fanpercent".
Definition kMailboxFanSpeedFile : bytes := lit "/tmp/gpio/fanspeed".
Definition kMailboxCpuTemperatureFile : bytes := lit "/tmp/gpio/cpu_temperature".
Definition kMailboxAux1TemperatureFile : bytes := lit "/tmp/gpio/aux1_temperature".
Definition kMailboxCpuVoltageFile : bytes := lit "/tmp/gpio/cpu_voltage".
Definition kMailboxReadyFile : bytes := lit "/tmp/gpio/ready".

Definition ReadValueString (i : instant) (in_file : bytes) : bool * bytes :=
  match in_files i !! in_file with Some c => (true, first_line c) | None => (false, lit "ERROR") end.

Definition ReadFanSpeed (i : instant) : bool * Z :=
  let '(rtn, value_str) := ReadValueString i kMailboxFanSpeedFile in
  if rtn then ConvertStringToUint16 value_str else (false, 0).
Definition ReadSocTemperature (i : instant) : bool * float :=
  let '(rtn, value_str) := ReadValueString i kMailboxCpuTemperatureFile in
  if rtn then ConvertStringToFloat value_str else (false, float_zero).
Definition ReadAux1Temperature (i : instant) : bool * float :=
  let '(rtn, value_str) := ReadValueString i kMailboxAux1TemperatureFile in
  if rtn then ConvertStringToFloat value_str else (false, float_zero).
Definition ReadSocVoltage (i : instant) : bool * bytes := ReadValueString i kMailboxCpuVoltageFile.
(** The duty cycle is left alone when the file cannot be opened. *)
Definition ReadFanDutyCycle (i : instant) (duty_cycle : Z) : bool * Z :=
  let '(rtn, value_str) := ReadValueString i kMailboxFanPercentFile in
  if rtn then ConvertStringToUint16 value_str else (false, duty_cycle).
Definition CheckIfMailBoxIsReady (i : instant) : bool := fst (ReadValueString i kMailboxReadyFile).

Definition WriteValueString (out_file value_str : bytes) : G bool :=
  let out_tmp_file := out_file ++ lit ".sysmgr_tmp" in
  i ← now;
  if in_writable i out_tmp_file then
    modify (act (Write_file out_tmp_file value_str));;
    modify (act (Rename out_tmp_file out_file));;
    mret true
  else mret false.
Definition WriteFanDutyCycle (duty_cycle : Z) : G bool :=
  WriteValueString kMailboxFanPercentFile (ConvertUint16ToString duty_cycle).

(** *** peripheral/fancontrol.cc *)

(** fgets with the array of 256 bytes: the pieces of the output; [room] is what is free
    in the array. *)
Fixpoint fgets_loop (room : nat) (s : bytes) : list bytes :=
  match s with
  | [] => []
  | c :: s =>
      if (c =? 10) || Nat.leb room 1 then [c] :: fgets_loop 255 s
      else match fgets_loop (pred room) s with p :: ps => (c :: p) :: ps | [] => [[c]] end
  end.
Fixpoint find_piece (pattern : bytes) (pieces : list bytes) : bytes :=
  match pieces with
  | [] => []
  | p :: ps => if has_prefix pattern p then p else find_piece pattern ps
  end.
(** A command takes time: the outside has moved when its output is there. *)
Definition ExecCmd (cmd : bytes) (pattern : option bytes) : G bytes :=
  modify (λ s, pass (act (System cmd) s));;
  i ← now;
  match in_command i with
  | None => mret (lit "ERROR")
  | Some output =>
      let pieces := fgets_loop 255 output in
      mret (match pattern with Some p => find_piece p pieces | None => concat pieces end)
  end.

Definition GetHddTemperature : G Z :=
  if has_hdd_ platform_ then
    result ← ExecCmd (lit "hdd-temperature /dev/sda") None;
    if bool_decide (result = lit "ERROR") || bool_decide (result = []) then mret 0
    else mret (fst (read_u16 result))
  else mret 0.

Definition DrivePwm (duty_cycle : Z) : G bool :=
  f ← gets fan;
  modify (with_fan (Fan (state_ f) duty_cycle (pfan_ctrl_params_ f)));;
  ok ← WriteFanDutyCycle duty_cycle;
  if negb ok then mret false
  else
    let st := if duty_cycle =? 0 then OFF else if duty_cycle =? period_ + 1 then FULL_SPEED else VAR_SPEED in
    modify (with_fan (Fan st duty_cycle (pfan_ctrl_params_ f)));;
    mret true.

Definition AdjustSpeed (soc_temp hdd_temp aux1_temp fan_speed : Z) : G bool :=
  f ← gets fan;
  new ← lift (ComputeDutyCycle platform_ (pfan_ctrl_params_ f) (duty_cycle_pwm_ f) soc_temp hdd_temp aux1_temp fan_speed);
  if negb (new =? duty_cycle_pwm_ f) then
    ret ← (if (fan_speed =? kFanSpeedNotSpinning) && (duty_cycle_pwm_ f <? new) then
             ret ← DrivePwm kPwmDefaultStartup;
             (if ret : bool then sleep 2 else mret tt);;
             mret ret
           else mret true);
    if negb ret then mret false else DrivePwm new
  else mret true.

Definition GetOverheatTemperature : G Z :=
  f ← gets fan; p ← lift (get_params (pfan_ctrl_params_ f) BRUNO_SOC); mret (temp_overheat p).

(** The loop of [Init] that waits for the mailbox. *)
Fixpoint wait_ready (loopno : nat) (ready : bool) : G bool :=
  match loopno with
  | S loopno =>
      if negb ready then sleep 2;; i ← now; wait_ready loopno (CheckIfMailBoxIsReady i) else mret ready
  | O => mret ready
  end.

(** [FanControl::Init] with the monitor's [gpio_mailbox_ready]; the result is its value. *)
Definition FanControl_Init (ready : bool) : G bool :=
  i ← now;
  t ← lift (InitParams i platform_);
  modify (λ s, with_fan (Fan (state_ (fan s)) (duty_cycle_pwm_ (fan s)) t) s);;
  ready ← wait_ready 4 ready;
  i ← now;
  f ← gets fan;
  let '(ok, duty) := ReadFanDutyCycle i (duty_cycle_pwm_ f) in
  soc ← lift (get_params t BRUNO_SOC);
  modify (with_fan (Fan (state_ f) (if ok : bool then duty else duty_cycle_min soc) t));;
  mret ready.

(** *** peripheral/peripheralmon.cc *)

Definition OVERHEATING_COUNT : Z := 3.

Definition with_overheating (n : Z) (m : PeripheralMon) : PeripheralMon :=
  Mon (hdd_temp_interval_ m) (hdd_temp_ m) n (last_time_ m) (next_time_hdd_temp_check_ m) (gpio_mailbox_ready m).
Definition with_hdd (temp next : Z) (m : PeripheralMon) : PeripheralMon :=
  Mon (hdd_temp_interval_ m) temp (overheating_ m) (last_time_ m) next (gpio_mailbox_ready m).
Definition with_ready (b : bool) (m : PeripheralMon) : PeripheralMon :=
  Mon (hdd_temp_interval_ m) (hdd_temp_ m) (overheating_ m) (last_time_ m) (next_time_hdd_temp_check_ m) b.
Definition with_last_time (t : Z) (m : PeripheralMon) : PeripheralMon :=
  Mon (hdd_temp_interval_ m) (hdd_temp_ m) (overheating_ m) t (next_time_hdd_temp_check_ m) (gpio_mailbox_ready m).
Definition on_mon (f : PeripheralMon → PeripheralMon) : G unit := modify (λ s, with_mon (f (mon s)) s).

Definition Overheating (soc_temperature : float) : G unit :=
  overheat_value ← GetOverheatTemperature;
  if float_lt soc_temperature overheat_value then
    on_mon (with_overheating 0);; ClrLEDOverheat []
  else
    on_mon (λ m, with_overheating (u32 (overheating_ m + 1)) m);;
    m ← gets mon;
    if OVERHEATING_COUNT <=? overheating_ m then
      ClrLEDOverheat [];; on_mon (with_overheating 0);; Poweroff
    else SetLEDOverheat (lit "SOC overheating detected " ++ dec (overheating_ m)).

(** Reading the disk's temperature when it is time. *)
Definition probe_hdd (t : Z) : G unit :=
  m ← gets mon;
  if has_hdd_ platform_ && TimeIsLaterOrEqual (next_time_hdd_temp_check_ m) t then
    temp ← GetHddTemperature;
    i ← now;
    on_mon (with_hdd temp (TimeAfter i (hdd_temp_interval_ m)))
  else mret tt.

(** What is done when the mailbox is ready. *)
Definition probe_ready (aux1_temperature : float) : G unit :=
  i ← now;
  let '(read_soc_temperature, soc_temperature) := ReadSocTemperature i in
  let fan_speed := if has_fan_ platform_ then snd (ReadFanSpeed i) else 0 in
  (if read_soc_temperature : bool then Overheating soc_temperature else mret tt);;
  if has_fan_ platform_ && read_soc_temperature then
    soc ← lift (float_to_u16 soc_temperature);
    aux1 ← lift (float_to_u16 aux1_temperature);
    m ← gets mon;
    AdjustSpeed soc (hdd_temp_ m) aux1 fan_speed;;
    mret tt
  else mret tt.

Definition Probe : G unit :=
  i ← now;
  let t := Time i in
  probe_hdd t;;
  i ← now;
  let aux1_temperature := if has_aux1_ platform_ then snd (ReadAux1Temperature i) else float_zero in
  m ← gets mon;
  (if gpio_mailbox_ready m then mret tt else on_mon (with_ready (CheckIfMailBoxIsReady i)));;
  m ← gets mon;
  (if gpio_mailbox_ready m then probe_ready aux1_temperature else mret tt);;
  on_mon (with_last_time t).

Definition PeripheralMon_Init (hdd_temp_interval : Z) : G unit :=
  i ← now;
  on_mon (λ m, Mon hdd_temp_interval (hdd_temp_ m) 0 (last_time_ m) (Time i) (gpio_mailbox_ready m));;
  m ← gets mon;
  ready ← FanControl_Init (gpio_mailbox_ready m);
  on_mon (with_ready ready);;
  Probe.

(** [n] rounds of the loop of [main]. *)
Fixpoint main_loop (n : nat) (interval : Z) : G unit :=
  match n with
  | O => mret tt
  | S n =>
      Probe;;
      modify (λ s, pass (act (Usleep (u32 (interval * 1000))) s));;
      main_loop n interval
  end.
End daemon.

(** The objects as their constructors leave them. *)
Definition new_sysmgr : sysmgr :=
  Sysmgr 0 [] (Fan OFF kPwmMinValue no_params) (Mon 300000 0 0 0 0 false).

(** [main] after its flags are read, with [n] rounds of its loop. *)
Definition main `{!Outside} (n : nat) (interval hdd_temp_interval : Z) : G unit :=
  i ← now;
  let platform := GetPlatformType i new_platform in
  modify (act (Stderr (lit "plat_type=" ++ name_ platform ++ [10])));;
  PeripheralMon_Init platform hdd_temp_interval;;
  main_loop platform n interval.
