(* ===== verification/SysmgrSpec.v ===== *)
(** * The system manager: what a probe does to the fan and to the box

    One probe as a function of what it reads, the daemon as a run of this function,
    and what follows for the fan and for a box that is too hot. *)

From stdpp Require Import gmap.
From S2P Require Import Prelude Sysmgr.
Open Scope Z_scope.

(** ** The controller *)

(** The sensors of a platform with their parameters and temperatures. *)
Definition sensors (p : Platform) (t : param_table) (soc hdd aux1 : Z) : list (option FanControlParams * Z) :=
  (t BRUNO_SOC, soc) :: (if has_hdd_ p then [(t BRUNO_IS_HDD, hdd)] else []) ++ (if has_aux1_ p then [(t BRUNO_AUX1, aux1)] else []).

(** The duty cycle is the largest that a sensor asks for. *)
Definition asked (duty speed : Z) (x : option FanControlParams * Z) : Z :=
  match x with (Some q, temp) => compute_duty_cycle duty temp speed q | (None, _) => 0 end.
Definition wanted (p : Platform) (t : param_table) (duty soc hdd aux1 speed : Z) : Z :=
  foldr Z.max 0 (asked duty speed <$> sensors p t soc hdd aux1).

(** What matters of the state: the duty cycle, the texts written for the fan, the count
    of hot probes, how often the box was switched off, whether the mailbox is ready and
    the disk's temperature. *)
Record view := View {
  v_duty : Z; v_writes : list bytes; v_over : Z; v_offs : nat; v_ready : bool; v_hdd : Z;
}.

Definition fan_tmp_file : bytes := kMailboxFanPercentFile ++ lit ".sysmgr_tmp".
Definition fan_write (a : action) : option bytes :=
  match a with Write_file path text => if bool_decide (path = fan_tmp_file) then Some text else None | _ => None end.
Definition power_off (a : action) : option unit :=
  match a with
  | System c => if bool_decide (c = lit "poweroff-with-message 'poweroff requested by sysmgr'") then Some tt else None
  | _ => None
  end.
Definition view_of (s : sysmgr) : view :=
  View (duty_cycle_pwm_ (fan s)) (omap fan_write (out s)) (overheating_ (mon s)) (length (omap power_off (out s)))
       (gpio_mailbox_ready (mon s)) (hdd_temp_ (mon s)).

(** A reading of the processor's temperature. *)
Definition soc_reading (i : instant) : option float :=
  match ReadSocTemperature i with (true, f) => Some f | _ => None end.
Definition fan_speed_of (p : Platform) (i : instant) : Z := if has_fan_ p then snd (ReadFanSpeed i) else 0.
Definition aux1_of (p : Platform) (i : instant) : Z :=
  if has_aux1_ p then float_trunc (snd (ReadAux1Temperature i)) else 0.

Definition set_ready_hdd (b : bool) (h : Z) (v : view) : view := View (v_duty v) (v_writes v) (v_over v) (v_offs v) b h.

(** The count of hot probes in a row; the third one switches the box off. *)
Definition heat (limit : Z) (f : float) (v : view) : view :=
  if float_lt f limit then View (v_duty v) (v_writes v) 0 (v_offs v) (v_ready v) (v_hdd v)
  else if OVERHEATING_COUNT <=? u32 (v_over v + 1) then View (v_duty v) (v_writes v) 0 (S (v_offs v)) (v_ready v) (v_hdd v)
  else View (v_duty v) (v_writes v) (u32 (v_over v + 1)) (v_offs v) (v_ready v) (v_hdd v).

(** The fan: a new duty cycle is written, after a start-up one when it stands still. *)
Definition steer (want speed : Z) (v : view) : view :=
  if want =? v_duty v then v
  else
    let kick := if (speed =? 0) && (v_duty v <? want) then [dec kPwmDefaultStartup] else [] in
    View want (v_writes v ++ kick ++ [dec want]) (v_over v) (v_offs v) (v_ready v) (v_hdd v).

Definition controller (p : Platform) (t : param_table) (i : instant) (h : Z) (v : view) : view :=
  let v := set_ready_hdd (v_ready v || CheckIfMailBoxIsReady i) h v in
  if v_ready v then
    match soc_reading i with
    | Some f =>
        let limit := match t BRUNO_SOC with Some q => temp_overheat q | None => 0 end in
        let v := heat limit f v in
        if has_fan_ p then
          let speed := fan_speed_of p i in
          steer (wanted p t (v_duty v) (float_trunc f) (v_hdd v) (aux1_of p i) speed) speed v
        else v
    | None => v
    end
  else v.

(** ** What holds of the outside *)

(** Parameters as 16-bit numbers with the limits in order. *)
Definition is_u16 (x : Z) : Prop := 0 ≤ x ≤ 65535.
Record sane (q : FanControlParams) : Prop := {
  sane_setpt : is_u16 (temp_setpt q);
  sane_max : is_u16 (temp_max q);
  sane_step : is_u16 (temp_step q);
  sane_dmin : is_u16 (duty_cycle_min q);
  sane_dmax : is_u16 (duty_cycle_max q);
  sane_pwm : is_u16 (pwm_step q);
  sane_temps : temp_setpt q ≤ temp_max q;
  sane_duties : duty_cycle_min q ≤ duty_cycle_max q;
}.

(** The sensors a platform has. *)
Definition has_sensor (p : Platform) (i : FanControlParamsTypes) : bool :=
  match i with BRUNO_SOC => true | BRUNO_IS_HDD => has_hdd_ p | BRUNO_AUX1 => has_aux1_ p end.

(** The parameters of the platform's sensors are set, and sane. *)
Definition configured (p : Platform) (t : param_table) : Prop :=
  ∀ i, has_sensor p i = true → ∃ q, t i = Some q ∧ sane q.

Definition fits_u16 (f : float) : Prop := 0 ≤ float_trunc f ≤ 65535.

(** The fan's file can be written, and the temperatures that can be read are not so low
    or high that their conversion is undefined. *)
Record sound_instant (p : Platform) (i : instant) : Prop := {
  si_writable : in_writable i fan_tmp_file = true;
  si_soc : ∀ f, soc_reading i = Some f → fits_u16 f;
  si_aux1 : has_aux1_ p = true → fits_u16 (snd (ReadAux1Temperature i));
}.

(** ** The steps of a probe *)

(** One step of a program, by the rule for its first operation. *)
Ltac run_step :=
  match goal with
  | |- runs (_ ≫= _) _ _ => apply runs_bind
  | |- runs (mret _) _ _ => apply runs_ret
  | |- runs (gets _) _ _ => apply runs_gets
  | |- runs now _ _ => apply runs_gets
  | |- runs (modify _) _ _ => apply runs_modify
  | |- runs (on_mon _) _ _ => apply runs_modify
  end.

Section probe.
Context `{!Outside} (p : Platform) (t : param_table).

Lemma float_to_u16_run f : fits_u16 f → float_to_u16 f = Ret (float_trunc f).
Proof.
  unfold fits_u16, float_to_u16. intros Hf.
  destruct (Z.leb_spec 0 (float_trunc f)), (Z.leb_spec (float_trunc f) 65535); [done|lia..].
Qed.

Lemma compute_range duty temp speed q : sane q → is_u16 duty →
  0 ≤ compute_duty_cycle duty temp speed q ≤ Z.max duty (duty_cycle_max q).
Proof.
  intros [] Hd. unfold is_u16, compute_duty_cycle, kPwmMinValue, u16 in *.
  assert (0 ≤ (duty + pwm_step q) mod 2 ^ 16) by (apply Z.mod_pos_bound; lia).
  repeat case_match; try lia.
  match goal with H : _ || _ = false |- _ => apply orb_false_elim in H as [_ Hp%Z.ltb_ge] end.
  rewrite Z.mod_small by lia. lia.
Qed.

Lemma wanted_run duty soc hdd aux1 speed : configured p t → is_u16 duty →
  ComputeDutyCycle p t duty soc hdd aux1 speed = Ret (wanted p t duty soc hdd aux1 speed).
Proof.
  intros Hc Hd. destruct (Hc BRUNO_SOC eq_refl) as (q1 & H1 & S1).
  pose proof (compute_range duty soc speed q1 S1 Hd).
  unfold ComputeDutyCycle, wanted, sensors, get_params. rewrite H1. cbn [mbind outcome_bind].
  pose proof (Hc BRUNO_IS_HDD) as H2. pose proof (Hc BRUNO_AUX1) as H3. cbn [has_sensor] in H2, H3.
  destruct (has_hdd_ p), (has_aux1_ p);
    repeat match goal with H : true = true → _ |- _ => destruct (H eq_refl) as (? & -> & ?); clear H end;
    repeat match goal with
    | H : sane ?q |- context [compute_duty_cycle duty ?tmp speed ?q] =>
        lazymatch goal with
        | _ : 0 ≤ compute_duty_cycle duty tmp speed q ≤ _ |- _ => fail
        | _ => pose proof (compute_range duty tmp speed q H Hd)
        end
    end; cbn; f_equal; lia.
Qed.

(** What a step leaves alone. *)
Lemma view_pass s : view_of (pass s) = view_of s.
Proof. done. Qed.
Lemma view_act a s : fan_write a = None → power_off a = None → view_of (act a s) = view_of s.
Proof.
  intros H1 H2. unfold view_of, act. cbn [out fan mon]. rewrite !omap_app. cbn. rewrite H1, H2. by rewrite !app_nil_r.
Qed.

(** The view after the fan was set to [duty] with some texts. *)
Definition fan_set (duty : Z) (texts : list bytes) (v : view) : view :=
  View duty (v_writes v ++ texts) (v_over v) (v_offs v) (v_ready v) (v_hdd v).

(** The objects that a step for the fan keeps. *)
Definition keeps_mon (s s' : sysmgr) : Prop := mon s' = mon s ∧ pfan_ctrl_params_ (fan s') = pfan_ctrl_params_ (fan s).

Lemma drive_runs d s : in_writable (outside (tick s)) fan_tmp_file = true →
  runs (DrivePwm d) (λ b s', b = true ∧ keeps_mon s s' ∧ view_of s' = fan_set d [dec d] (view_of s)) s.
Proof.
  intros Hw. unfold DrivePwm, WriteFanDutyCycle, WriteValueString. fold fan_tmp_file. repeat run_step.
  cbn [tick with_fan]. rewrite Hw. repeat run_step. cbn [negb]. repeat run_step.
  split; [done|]. split; [done|]. unfold view_of, fan_set. cbn. rewrite <-!(assoc_L (++)), !omap_app. cbn.
  by rewrite !app_nil_r.
Qed.

Lemma adjust_runs soc hdd aux1 speed s :
  (∀ k, sound_instant p (outside k)) → configured p t → pfan_ctrl_params_ (fan s) = t → is_u16 (v_duty (view_of s)) →
  runs (AdjustSpeed p soc hdd aux1 speed) (λ _ s', keeps_mon s s' ∧
    view_of s' = steer (wanted p t (v_duty (view_of s)) soc hdd aux1 speed) speed (view_of s)) s.
Proof.
  intros Ho Hc Ht Hd. unfold AdjustSpeed. run_step. run_step. run_step.
  eapply runs_lift; [rewrite Ht; by apply wanted_run|]. cbn [view_of v_duty] in *.
  set (want := wanted _ _ _ _ _ _ _). unfold steer, kFanSpeedNotSpinning. cbn [view_of v_duty].
  destruct (Z.eqb_spec want (duty_cycle_pwm_ (fan s))) as [He|Hne]; cbn [negb]; [by repeat run_step|].
  run_step. destruct ((speed =? 0) && (duty_cycle_pwm_ (fan s) <? want)).
  - run_step. eapply runs_mono; [apply drive_runs, Ho|]. cbv beta. intros b s1 (-> & [Hm1 Hp1] & Hv1).
    unfold sleep. repeat run_step. cbn [negb]. eapply runs_mono; [apply drive_runs, Ho|]. cbv beta.
    intros _ s2 (_ & [Hm2 Hp2] & Hv2). split; [by split; [rewrite Hm2|rewrite Hp2]|].
    rewrite Hv2, view_pass, view_act, Hv1 by done. unfold fan_set. cbn. by rewrite <-(assoc_L (++)).
  - run_step. cbn [negb]. eapply runs_mono; [apply drive_runs, Ho|]. cbv beta.
    intros _ s2 (_ & ? & Hv2). split; [done|]. by rewrite Hv2.
Qed.

(** A message for the LED and the TR-69 agent is nothing for the fan or the power. *)
Lemma put_runs path text s : path ≠ fan_tmp_file →
  runs (put_file path text) (λ _ s', mon s' = mon s ∧ fan s' = fan s ∧ view_of s' = view_of s) s.
Proof.
  intros Hp. unfold put_file. run_step. run_step. case_match; run_step; [|done].
  rewrite view_act; [done| |done]. cbn. by rewrite bool_decide_false.
Qed.
Lemma append_runs path text s :
  runs (append_file path text) (λ _ s', mon s' = mon s ∧ fan s' = fan s ∧ view_of s' = view_of s) s.
Proof. unfold append_file. run_step. run_step. by case_match; run_step; rewrite ?view_act. Qed.

Lemma led_runs message s :
  runs (SetLEDOverheat message) (λ _ s', mon s' = mon s ∧ fan s' = fan s ∧ view_of s' = view_of s) s.
Proof.
  unfold SetLEDOverheat. run_step. eapply runs_mono; [by apply put_runs|]. cbv beta. intros _ s1 (Hm & Hf & Hv).
  case_bool_decide; [by run_step|]. eapply runs_mono; [apply append_runs|]. cbv beta. intros _ s2 (-> & -> & ->). done.
Qed.

Lemma overheating_runs f q s : pfan_ctrl_params_ (fan s) BRUNO_SOC = Some q →
  runs (Overheating f) (λ _ s', fan s' = fan s ∧ view_of s' = heat (temp_overheat q) f (view_of s)) s.
Proof.
  intros Hq. unfold Overheating, GetOverheatTemperature, heat. run_step. repeat run_step.
  eapply runs_lift; [unfold get_params; by rewrite Hq|]. repeat run_step.
  destruct (float_lt f (temp_overheat q)).
  - unfold ClrLEDOverheat. repeat run_step. rewrite bool_decide_true by done. run_step. split; [done|]. by rewrite view_act.
  - repeat run_step. cbn [mon overheating_ with_mon with_overheating v_over view_of].
    destruct (Z.leb_spec OVERHEATING_COUNT (u32 (overheating_ (mon s) + 1))).
    + unfold ClrLEDOverheat, Poweroff. repeat run_step. rewrite bool_decide_true by done. repeat run_step. split; [done|].
      unfold view_of. cbn. rewrite !omap_app. cbn. rewrite !app_nil_r, length_app. cbn. by rewrite Nat.add_1_r.
    + eapply runs_mono; [apply led_runs|]. cbv beta. intros _ s' (Hm & -> & ->). done.
Qed.

(** What a reading of the disk's temperature may give. *)
Definition hdd_reading (i : instant) : Z :=
  let result := match in_command i with Some o => concat (fgets_loop 255 o) | None => lit "ERROR" end in
  if bool_decide (result = lit "ERROR") || bool_decide (result = []) then 0 else fst (read_u16 result).

Lemma get_hdd_runs s : has_hdd_ p = true →
  runs (GetHddTemperature p) (λ a s', fan s' = fan s ∧ view_of s' = view_of s ∧ ∃ k, a = hdd_reading (outside k)) s.
Proof.
  intros Hh. unfold GetHddTemperature. rewrite Hh. run_step. unfold ExecCmd. repeat run_step.
  cbn [tick pass act].
  assert (∀ o, o = match in_command (outside (S (tick s))) with Some o => concat (fgets_loop 255 o) | None => lit "ERROR" end →
    runs (if bool_decide (o = lit "ERROR") || bool_decide (o = []) then mret 0 else mret (fst (read_u16 o)))
      (λ a s', fan s' = fan s ∧ view_of s' = view_of s ∧ ∃ k, a = hdd_reading (outside k))
      (pass (act (System (lit "hdd-temperature /dev/sda")) s))) as Hfin.
  { intros o ->. unfold hdd_reading. case_match eqn:Hr; run_step; (split; [done|]);
      (split; [by rewrite view_pass, view_act|]); exists (S (tick s)); by rewrite Hr. }
  destruct (in_command (outside (S (tick s)))) as [o|]; run_step; by apply Hfin.
Qed.

Lemma probe_hdd_runs now0 s :
  runs (probe_hdd p now0) (λ _ s', fan s' = fan s ∧ ∃ h, view_of s' = set_ready_hdd (v_ready (view_of s)) h (view_of s) ∧
    (h = v_hdd (view_of s) ∨ ∃ k, h = hdd_reading (outside k))) s.
Proof.
  unfold probe_hdd. run_step. run_step.
  destruct (has_hdd_ p && _) eqn:Hh; [|run_step; split; [done|]; eexists; by split; [|left]].
  apply andb_prop in Hh as [Hh _]. run_step. eapply runs_mono; [by apply get_hdd_runs|]. cbv beta.
  intros h s1 (Hf & Hv & Hk). repeat run_step. split; [done|]. exists h. split; [|by right].
  unfold view_of in *. injection Hv as H1 H2 H3 H4 H5 H6. cbn. unfold set_ready_hdd. cbn. by rewrite H1, H2, H3, H4, H5.
Qed.

(** ** One probe *)

Lemma ready_runs i s :
  runs (if gpio_mailbox_ready (mon s) then mret tt else on_mon (with_ready (CheckIfMailBoxIsReady i)))
    (λ _ s', tick s' = tick s ∧ fan s' = fan s ∧
      view_of s' = set_ready_hdd (v_ready (view_of s) || CheckIfMailBoxIsReady i) (v_hdd (view_of s)) (view_of s)) s.
Proof.
  unfold view_of, set_ready_hdd. cbn. destruct (gpio_mailbox_ready (mon s)) eqn:Hr; run_step; cbn; by rewrite ?Hr.
Qed.

(** The part of the controller behind the check of the mailbox. *)
Definition controlled (i : instant) (v : view) : view :=
  match soc_reading i with
  | Some f =>
      let limit := match t BRUNO_SOC with Some q => temp_overheat q | None => 0 end in
      let v := heat limit f v in
      if has_fan_ p then
        let speed := fan_speed_of p i in
        steer (wanted p t (v_duty v) (float_trunc f) (v_hdd v) (aux1_of p i) speed) speed v
      else v
  | None => v
  end.

Lemma controller_eq i h v : controller p t i h v =
  let ready := v_ready v || CheckIfMailBoxIsReady i in
  if ready then controlled i (set_ready_hdd ready h v) else set_ready_hdd ready h v.
Proof. done. Qed.

Lemma heat_duty limit f v : v_duty (heat limit f v) = v_duty v ∧ v_hdd (heat limit f v) = v_hdd v.
Proof. unfold heat. by repeat case_match. Qed.

Lemma probe_ready_runs s :
  (∀ k, sound_instant p (outside k)) → configured p t → pfan_ctrl_params_ (fan s) = t → is_u16 (v_duty (view_of s)) →
  runs (probe_ready p (if has_aux1_ p then snd (ReadAux1Temperature (outside (tick s))) else float_zero))
    (λ _ s', pfan_ctrl_params_ (fan s') = t ∧ view_of s' = controlled (outside (tick s)) (view_of s)) s.
Proof.
  intros Ho Hc Ht Hd. destruct (Hc BRUNO_SOC eq_refl) as (q & Hq & _).
  unfold probe_ready, controlled, fan_speed_of. run_step. run_step.
  pose proof (si_soc _ _ (Ho (tick s))) as Hsoc. pose proof (si_aux1 _ _ (Ho (tick s))) as Haux. unfold soc_reading in *.
  destruct (ReadSocTemperature (outside (tick s))) as [[|] f];
    [|rewrite andb_false_r; run_step; apply runs_ret; by apply runs_ret].
  rewrite Hq. run_step. eapply runs_mono; [apply overheating_runs; rewrite Ht; exact Hq|]. cbv beta. intros _ s1 (Hf & Hv).
  rewrite andb_true_r. destruct (has_fan_ p) eqn:Hfan; [|run_step; by rewrite Hf].
  run_step. eapply runs_lift; [apply float_to_u16_run; auto|].
  run_step. apply (runs_lift _ (aux1_of p (outside (tick s)))).
  { unfold aux1_of. destruct (has_aux1_ p); [by apply float_to_u16_run, Haux|done]. }
  run_step. run_step. run_step. pose proof (heat_duty (temp_overheat q) f (view_of s)) as [Hhd Hhh].
  eapply runs_mono; [apply adjust_runs; [done|done|by rewrite Hf|by rewrite Hv, Hhd]|]. cbv beta.
  intros _ s2 ([_ Hp] & Hv2). run_step. split; [by rewrite Hp, Hf|]. rewrite Hv2.
  change (hdd_temp_ (mon s1)) with (v_hdd (view_of s1)). by rewrite Hv.
Qed.

Lemma probe_runs s :
  (∀ k, sound_instant p (outside k)) → configured p t → pfan_ctrl_params_ (fan s) = t → is_u16 (v_duty (view_of s)) →
  runs (Probe p) (λ _ s', pfan_ctrl_params_ (fan s') = t ∧
    ∃ k h, view_of s' = controller p t (outside k) h (view_of s) ∧
      (h = v_hdd (view_of s) ∨ ∃ j, h = hdd_reading (outside j))) s.
Proof.
  intros Ho Hc Ht Hd. unfold Probe. run_step. run_step. run_step.
  eapply runs_mono; [apply probe_hdd_runs|]. cbv beta. intros _ s1 (Hf1 & h & Hv1 & Hh).
  run_step. run_step. run_step. run_step. run_step.
  eapply runs_mono; [apply ready_runs|]. cbv beta. intros _ s2 (Htick & Hf2 & Hv2). rewrite Hv1 in Hv2.
  cbn [set_ready_hdd v_ready v_hdd v_duty v_writes v_over v_offs] in Hv2.
  run_step. run_step. run_step. rewrite <-Htick.
  assert (∀ s3, pfan_ctrl_params_ (fan s3) = t → view_of s3 = controller p t (outside (tick s2)) h (view_of s) →
    runs (on_mon (with_last_time (Time (outside (tick s))))) (λ _ s', pfan_ctrl_params_ (fan s') = t ∧
      ∃ k h, view_of s' = controller p t (outside k) h (view_of s) ∧
      (h = v_hdd (view_of s) ∨ ∃ j, h = hdd_reading (outside j))) s3) as Hfin.
  { intros s3 H1 H2. run_step. split; [done|]. exists (tick s2), h. by split. }
  assert (pfan_ctrl_params_ (fan s2) = t) as Ht2 by (by rewrite Hf2, Hf1).
  assert (gpio_mailbox_ready (mon s2) = v_ready (view_of s) || CheckIfMailBoxIsReady (outside (tick s2))) as Hr
    by (change (gpio_mailbox_ready (mon s2)) with (v_ready (view_of s2)); rewrite Hv2, <-Htick; done).
  rewrite Hr. rewrite <-Htick in Hv2. destruct (v_ready (view_of s) || _) eqn:Hready.
  - eapply runs_mono; [apply probe_ready_runs; [done|done|done|by rewrite Hv2]|]. cbv beta. intros _ s3 [H1 H2].
    apply Hfin; [done|]. by rewrite H2, Hv2, controller_eq, Hready.
  - run_step. apply Hfin; [done|]. by rewrite Hv2, controller_eq, Hready.
Qed.

(** ** Many probes *)

(** A probe reads some instant; the disk's temperature is the one it had or a new one. *)
Inductive daemon_run : nat → view → view → Prop :=
  | run_done v : daemon_run 0 v v
  | run_probe n k h v v' :
      (h = v_hdd v ∨ ∃ j, h = hdd_reading (outside j)) →
      daemon_run n (controller p t (outside k) h v) v' → daemon_run (S n) v v'.

Definition below (b : Z) (x : option FanControlParams * Z) : Prop := ∀ q, fst x = Some q → duty_cycle_max q ≤ b.

Lemma asked_range duty speed b x : is_u16 duty → (∀ q, fst x = Some q → sane q) → below b x → 0 ≤ asked duty speed x ≤ Z.max 0 (Z.max duty b).
Proof.
  destruct x as [[q|] temp]; unfold below; cbn; [|lia]. intros Hd Hs Hb.
  pose proof (compute_range duty temp speed q (Hs q eq_refl) Hd). specialize (Hb q eq_refl). lia.
Qed.

Lemma fold_max_range (l : list Z) b : 0 ≤ b → Forall (λ x, x ≤ b) l → 0 ≤ foldr Z.max 0 l ≤ b.
Proof. intros Hb. induction 1; cbn; lia. Qed.

Lemma sensors_Forall (P : option FanControlParams * Z → Prop) soc hdd aux1 :
  (∀ i temp, has_sensor p i = true → P (t i, temp)) → Forall P (sensors p t soc hdd aux1).
Proof.
  intros HP. unfold sensors. constructor; [by apply HP|]. apply Forall_app. split.
  - destruct (has_hdd_ p) eqn:E; constructor; [by apply HP|constructor].
  - destruct (has_aux1_ p) eqn:E; constructor; [by apply HP|constructor].
Qed.

(** No sensor asks for more than a bound on the duty cycles. *)
Definition duty_limit (b : Z) : Prop := ∀ i q, has_sensor p i = true → t i = Some q → duty_cycle_max q ≤ b.

Lemma wanted_range b duty soc hdd aux1 speed : configured p t → is_u16 duty → duty_limit b → duty ≤ b →
  0 ≤ wanted p t duty soc hdd aux1 speed ≤ b.
Proof.
  intros Hc Hd Hb Hdb. unfold wanted. apply fold_max_range; [unfold is_u16 in Hd; lia|].
  apply Forall_fmap, sensors_Forall. intros i temp Hi. destruct (Hc i Hi) as (q & Hq & Hs). cbn. rewrite Hq.
  pose proof (compute_range duty temp speed q Hs Hd). pose proof (Hb i q Hi Hq). lia.
Qed.

Lemma u16_limit : configured p t → duty_limit 65535.
Proof. intros Hc i q Hi Hq. destruct (Hc i Hi) as (q' & Hq' & []). unfold is_u16 in *. simplify_eq. lia. Qed.

(** What the controller does to the duty cycle: nothing, or what is wanted. *)
Lemma controller_duty i h v :
  v_duty (controller p t i h v) = v_duty v ∨
  ∃ soc speed, v_duty (controller p t i h v) = wanted p t (v_duty v) soc h (aux1_of p i) speed.
Proof.
  rewrite controller_eq. cbv zeta. destruct (_ || _); [|by left]. unfold controlled.
  destruct (soc_reading i) as [f|]; [|by left]. cbv zeta.
  match goal with |- context [heat ?l f ?v0] => destruct (heat_duty l f v0) as [H1 H2]; rewrite H1, H2 end.
  destruct (has_fan_ p); [|by left]. right. cbn [set_ready_hdd v_duty v_hdd]. exists (float_trunc f), (fan_speed_of p i).
  unfold steer. rewrite H1. cbn [set_ready_hdd v_duty]. destruct (Z.eqb_spec (wanted p t (v_duty v) (float_trunc f) h (aux1_of p i) (fan_speed_of p i)) (v_duty v)); [by rewrite H1|done].
Qed.

Lemma controller_u16 i h v : configured p t → is_u16 (v_duty v) → is_u16 (v_duty (controller p t i h v)).
Proof.
  intros Hc Hd. destruct (controller_duty i h v) as [->|(soc & speed & ->)]; [done|].
  apply (wanted_range 65535); [done|done|by apply u16_limit|unfold is_u16 in Hd; lia].
Qed.

Lemma loop_runs n interval s :
  (∀ k, sound_instant p (outside k)) → configured p t → pfan_ctrl_params_ (fan s) = t → is_u16 (v_duty (view_of s)) →
  runs (main_loop p n interval) (λ _ s', daemon_run n (view_of s) (view_of s')) s.
Proof.
  intros Ho Hc. revert s. induction n as [|n IH]; intros s Ht Hd; cbn [main_loop].
  - run_step. constructor.
  - run_step. eapply runs_mono; [by apply probe_runs|]. cbv beta. intros _ s1 (Ht1 & k & h & Hv & Hh).
    run_step. run_step. set (s2 := pass _). assert (view_of s2 = view_of s1) as Hv2 by (unfold s2; by rewrite view_pass, view_act).
    eapply runs_mono; [apply IH; [done|rewrite Hv2, Hv; by apply controller_u16]|]. cbv beta. intros _ s3 Hrun.
    rewrite Hv2, Hv in Hrun. by eapply run_probe.
Qed.
End probe.

(** ** The parameters *)

Lemma read_u16_range s : is_u16 (fst (read_u16 s)).
Proof.
  unfold read_u16, is_u16. destruct (signed_digits s) as [neg r]. destruct (Nat.eqb _ _); [done|].
  destruct (Z.ltb_spec 65535 (parse_digits r 0)); [done|]. cbn. unfold u16.
  match goal with |- 0 ≤ ?x mod _ ≤ _ => pose proof (Z.mod_pos_bound x (2 ^ 16)) end. lia.
Qed.

(** The parameters in the program, for the sensors of each platform. *)
Definition built_in (p : Platform) (q : FanControlParams) : Prop :=
  sane q ∧ duty_cycle_max q ≤ 100 ∧ (has_fan_ p = true → 1 ≤ pwm_step q ∧ temp_setpt q + temp_step q ≤ temp_max q).
Lemma defaults_all : Forall (λ p, type_ p ≠ BRUNO_UNKNOWN →
  ∀ i, has_sensor p i = true → ∃ q, default_params (type_ p) i = Some q ∧ built_in p q) kPlatformTable.
Proof.
  unfold kPlatformTable. repeat constructor; intros Hu [] Hs; cbn in Hu, Hs; try done; cbn; eexists; (split; [done|]);
    split_and!; first [constructor; unfold is_u16; cbn; lia|cbn; lia].
Qed.
Lemma defaults_set p : p ∈ kPlatformTable → type_ p ≠ BRUNO_UNKNOWN →
  ∀ i, has_sensor p i = true → ∃ q, default_params (type_ p) i = Some q ∧ built_in p q.
Proof. intros Hp. pose proof defaults_all as Hall. rewrite Forall_forall in Hall. by apply Hall. Qed.

Lemma table_line_configured now p i t : configured p t →
  configured p (snd (dbgGetFanControlParamsFromParamsFile now p i t)).
Proof.
  intros Hc. unfold dbgGetFanControlParamsFromParamsFile.
  destruct (words _) as [|w0 [|w1 [|w2 [|w3 [|w4 [|w5 [|w6 ws]]]]]]]; try done.
  destruct (Z.ltb_spec (fst (read_u16 w2)) (fst (read_u16 w1))); [done|].
  destruct (Z.ltb_spec (fst (read_u16 w5)) (fst (read_u16 w4))); [done|]. cbn [snd].
  destruct (t i) as [old|]; [|done]. intros j Hj. unfold set_params. case_decide; [|by apply Hc].
  eexists. split; [done|]. constructor; cbn; first [apply read_u16_range|lia].
Qed.

Lemma init_params_run p now : p ∈ kPlatformTable → type_ p ≠ BRUNO_UNKNOWN →
  let t := dbgUpdateFanControlParams now p (default_params (type_ p)) in
  InitParams now p = Ret t ∧ configured p t.
Proof.
  intros Hp Hu t. assert (configured p t) as Hc.
  { assert (configured p (default_params (type_ p))) as H0.
    { intros i Hi. destruct (defaults_set p Hp Hu i Hi) as (q & ? & ? & _). by exists q. }
    unfold t, dbgUpdateFanControlParams. destruct (in_files now !! _); [|done].
    destruct (has_hdd_ p); by repeat apply table_line_configured. }
  split; [|done]. unfold InitParams. fold t. unfold get_params.
  pose proof (Hc BRUNO_SOC) as H1. pose proof (Hc BRUNO_IS_HDD) as H2. pose proof (Hc BRUNO_AUX1) as H3.
  cbn [has_sensor] in *. destruct (H1 eq_refl) as (? & -> & _). cbn [mbind outcome_bind].
  destruct (has_hdd_ p); [destruct (H2 eq_refl) as (? & -> & _)|]; cbn [mbind outcome_bind fmap outcome_fmap];
    (destruct (has_aux1_ p); [destruct (H3 eq_refl) as (? & -> & _)|]; done).
Qed.

(** C35: On every platform that the program knows, whatever the external table holds, the
    parameters of each of its sensors are set before they are used; they are numbers of
    16 bits with the set point below the maximal temperature and the least duty cycle
    below the largest.  Without a table they are the built-in ones, where no duty cycle
    is above 100 and a platform with a fan speeds up before its maximal temperature. *)
Theorem parameters_sane p now : p ∈ kPlatformTable → type_ p ≠ BRUNO_UNKNOWN →
  ∃ t, InitParams now p = Ret t ∧ configured p t ∧
    (in_files now !! FAN_CONTROL_PARAMS_FILE = None →
     ∀ i, has_sensor p i = true → ∃ q, t i = Some q ∧ built_in p q).
Proof.
  intros Hp Hu. destruct (init_params_run p now Hp Hu) as [Hi Hc]. eexists. split; [exact Hi|]. split; [exact Hc|].
  intros Hno. unfold dbgUpdateFanControlParams. rewrite Hno. by apply defaults_set.
Qed.

(** ** The program *)

Section program.
Context `{!Outside} (p : Platform).

Lemma wait_ready_runs n b s :
  runs (wait_ready n b) (λ _ s', fan s' = fan s ∧ mon s' = mon s ∧ view_of s' = view_of s) s.
Proof.
  revert b s. induction n as [|n IH]; intros b s; cbn [wait_ready]; [by run_step|].
  destruct b; cbn [negb]; [by run_step|]. unfold sleep. repeat run_step.
  eapply runs_mono; [apply IH|]. cbv beta. intros _ s' (-> & -> & ->). split_and!; [done|done|].
  by rewrite view_pass, view_act.
Qed.

(** The duty cycle that the fan starts with. *)
Definition first_duty (q : FanControlParams) (d : Z) : Prop :=
  d = duty_cycle_min q ∨ ∃ k, ReadFanDutyCycle (outside k) kPwmMinValue = (true, d).

Lemma read_duty_range i d0 d : ReadFanDutyCycle i d0 = (true, d) → is_u16 d.
Proof.
  unfold ReadFanDutyCycle, ReadValueString, ConvertStringToUint16. destruct (in_files i !! _) as [c|]; [|done].
  pose proof (read_u16_range (first_line c)) as Hr. destruct (read_u16 (first_line c)) as [v [|]]; [|done].
  by intros [= <-].
Qed.

Lemma fan_init_runs t b s : InitParams (outside (tick s)) p = Ret t → configured p t → duty_cycle_pwm_ (fan s) = kPwmMinValue →
  runs (FanControl_Init p b) (λ _ s', pfan_ctrl_params_ (fan s') = t ∧ mon s' = mon s ∧
    (∃ q, t BRUNO_SOC = Some q ∧ first_duty q (duty_cycle_pwm_ (fan s'))) ∧
    view_of s' = fan_set (duty_cycle_pwm_ (fan s')) [] (view_of s)) s.
Proof.
  intros Ht Hc Hd0. destruct (Hc BRUNO_SOC eq_refl) as (q & Hq & _). unfold FanControl_Init. run_step. run_step. run_step.
  eapply runs_lift; [exact Ht|]. repeat run_step. eapply runs_mono; [apply wait_ready_runs|]. cbv beta.
  intros r s1 (Hf & Hm & Hv). run_step. run_step. run_step. run_step. rewrite Hf. cbn [fan with_fan duty_cycle_pwm_].
  destruct (ReadFanDutyCycle (outside (tick s1)) (duty_cycle_pwm_ (fan s))) as [ok d] eqn:Hread. rewrite Hd0 in Hread.
  run_step. eapply runs_lift; [unfold get_params; by rewrite Hq|]. repeat run_step. cbn [fan mon with_fan pfan_ctrl_params_ duty_cycle_pwm_].
  split; [done|]. split; [done|]. split.
  - exists q. split; [done|]. destruct ok; [right; by eexists|by left].
  - unfold view_of, fan_set in *. cbn in *. injection Hv as _ -> _ -> _ _. rewrite Hm. by rewrite app_nil_r.
Qed.
End program.

(** What a run of the program on platform [p] begins with. *)
Definition first_view (d : Z) (ready : bool) : view := View d [] 0 0 ready 0.

Lemma find_platform_in name table p : find_platform name table = Some p → p ∈ table.
Proof.
  induction table as [|q table IH]; cbn; [done|]. case_bool_decide; [intros [= <-]; set_solver|]. intros ?%IH. set_solver.
Qed.

(** What the run relies on: a platform that is known and a sound outside. *)
Definition known `{!Outside} (p : Platform) : Prop :=
  find_platform (GetLine (outside 0) PLATFORM_FILE None) kPlatformTable = Some p ∧ type_ p ≠ BRUNO_UNKNOWN.

Lemma main_runs `{!Outside} p n interval hdd_interval : known p → (∀ k, sound_instant p (outside k)) →
  let t := dbgUpdateFanControlParams (outside 0) p (default_params (type_ p)) in
  InitParams (outside 0) p = Ret t ∧ configured p t ∧
  runs (main n interval hdd_interval) (λ _ s', ∃ q d ready, t BRUNO_SOC = Some q ∧ first_duty q d ∧
    daemon_run p t (S n) (first_view d ready) (view_of s')) new_sysmgr.
Proof.
  intros [Hfind Hu] Ho t. pose proof (find_platform_in _ _ _ Hfind) as Hp.
  destruct (init_params_run p (outside 0) Hp Hu) as [Ht Hc]. fold t in Ht, Hc. split; [done|]. split; [done|].
  unfold main. apply runs_bind, runs_gets. cbn [tick new_sysmgr].
  assert (GetPlatformType (outside 0) new_platform = p) as -> by (unfold GetPlatformType; by rewrite Hfind).
  apply runs_bind, runs_modify, runs_bind. unfold PeripheralMon_Init.
  apply runs_bind, runs_gets, runs_bind, runs_modify, runs_bind, runs_gets, runs_bind.
  eapply runs_mono; [eapply fan_init_runs; [exact Ht|done|done]|]. cbv beta.
  intros r s1 (Ht1 & Hm1 & (q & Hq & Hfirst) & Hv1). apply runs_bind, runs_modify.
  set (s2 := with_mon _ s1). set (d := duty_cycle_pwm_ (fan s1)) in *.
  assert (view_of s2 = first_view d r) as Hv2.
  { change (view_of s2) with (set_ready_hdd r (v_hdd (view_of s1)) (view_of s1)). rewrite Hv1. reflexivity. }
  assert (is_u16 (v_duty (view_of s2))) as Hd2.
  { rewrite Hv2. cbn. destruct Hfirst as [->|[k Hk]]; [|by eapply read_duty_range].
    destruct (Hc BRUNO_SOC eq_refl) as (q' & Hq' & []). by simplify_eq. }
  eapply runs_mono; [by eapply (probe_runs p t s2)|]. cbv beta. intros _ s3 (Ht3 & k & h & Hv3 & Hh).
  eapply runs_mono; [eapply (loop_runs p t); [done|done|done|]|].
  - rewrite Hv3. by apply controller_u16.
  - cbv beta. intros _ s4 Hrun. exists q, d, r. split; [done|]. split; [done|]. rewrite <-Hv2.
    rewrite Hv3 in Hrun. by eapply run_probe.
Qed.


(** ** The fan *)

Section fan.
Context `{!Outside} (p : Platform) (t : param_table).

(** The texts that may be written. *)
Definition text_within (b : Z) (x : bytes) : Prop := ∃ d, x = dec d ∧ 0 ≤ d ≤ b.

Lemma steer_writes want speed v b : 50 ≤ b → 0 ≤ want ≤ b → Forall (text_within b) (v_writes v) →
  Forall (text_within b) (v_writes (steer want speed v)).
Proof.
  intros Hb Hw Hv. unfold steer. case_match; [done|]. cbn [v_writes]. rewrite !Forall_app. split_and!; [done| |].
  - case_match; repeat constructor. exists 50. by split; [|lia].
  - repeat constructor. by exists want.
Qed.

Lemma heat_writes limit f v : v_writes (heat limit f v) = v_writes v ∧ v_ready (heat limit f v) = v_ready v.
Proof. unfold heat. by repeat case_match. Qed.
Lemma steer_fields want speed v :
  v_duty (steer want speed v) = want ∧ v_over (steer want speed v) = v_over v ∧ v_offs (steer want speed v) = v_offs v ∧
  v_ready (steer want speed v) = v_ready v ∧ v_hdd (steer want speed v) = v_hdd v.
Proof. unfold steer. destruct (Z.eqb_spec want (v_duty v)); by split_and!. Qed.

(** The controller when the mailbox is ready and the temperature can be read. *)
Lemma controller_read i h v q f : t BRUNO_SOC = Some q → v_ready v = true → soc_reading i = Some f →
  controller p t i h v =
  let v := heat (temp_overheat q) f (set_ready_hdd true h v) in
  if has_fan_ p then steer (wanted p t (v_duty v) (float_trunc f) h (aux1_of p i) (fan_speed_of p i)) (fan_speed_of p i) v
  else v.
Proof.
  intros Hq Hr Hf. rewrite controller_eq. cbv zeta. rewrite Hr. cbn [orb]. unfold controlled. rewrite Hf, Hq. cbv zeta.
  destruct (heat_duty (temp_overheat q) f (set_ready_hdd true h v)) as [_ ->]. done.
Qed.

Lemma controller_limit b i h v : configured p t → duty_limit p t b → 50 ≤ b → is_u16 (v_duty v) → v_duty v ≤ b →
  Forall (text_within b) (v_writes v) →
  is_u16 (v_duty (controller p t i h v)) ∧ v_duty (controller p t i h v) ≤ b ∧
  Forall (text_within b) (v_writes (controller p t i h v)).
Proof.
  intros Hc Hb H50 Hd Hdb Hv. split; [by apply controller_u16|]. rewrite controller_eq. cbv zeta.
  destruct (_ || _); [|done]. unfold controlled. destruct (soc_reading i) as [f|]; [|done]. cbv zeta.
  match goal with |- context [heat ?l f ?v0] => set (v1 := heat l f v0);
    destruct (heat_duty l f v0) as [H1 H2]; destruct (heat_writes l f v0) as [H3 H4]; fold v1 in H1, H2, H3, H4 end.
  cbn [set_ready_hdd v_duty v_hdd v_writes] in *. destruct (has_fan_ p); [|by rewrite H1, H3].
  pose proof (wanted_range p t b (v_duty v1) (float_trunc f) (v_hdd v1) (aux1_of p i) (fan_speed_of p i) Hc) as Hw.
  rewrite H1 in Hw. specialize (Hw Hd Hb Hdb). rewrite H1. destruct (steer_fields (wanted p t (v_duty v) (float_trunc f) (v_hdd v1) (aux1_of p i) (fan_speed_of p i)) (fan_speed_of p i) v1) as [-> _].
  split; [lia|]. apply steer_writes; [done|lia|by rewrite H3].
Qed.

Lemma run_limit b n v v' : configured p t → duty_limit p t b → 50 ≤ b →
  daemon_run p t n v v' → is_u16 (v_duty v) → v_duty v ≤ b → Forall (text_within b) (v_writes v) →
  v_duty v' ≤ b ∧ Forall (text_within b) (v_writes v').
Proof.
  intros Hc Hb H50. induction 1 as [|n k h v v' _ _ IH]; [done|]. intros Hd Hdb Hv.
  destruct (controller_limit b (outside k) h v Hc Hb H50 Hd Hdb Hv) as (? & ? & ?). by apply IH.
Qed.
End fan.

(** The fan is never set beyond its scale.  Without an external table, and with a
    duty cycle of at most 100 in the fan's file when the program starts, whatever is
    read in however many rounds, each text written for the fan is a number from 0 to
    100. *)
Theorem fan_within_scale `{!Outside} p n interval hdd_interval : known p → (∀ k, sound_instant p (outside k)) →
  in_files (outside 0) !! FAN_CONTROL_PARAMS_FILE = None →
  (∀ k d, ReadFanDutyCycle (outside k) kPwmMinValue = (true, d) → d ≤ 100) →
  ∃ s', main n interval hdd_interval new_sysmgr = Ret (tt, s') ∧ duty_cycle_pwm_ (fan s') ≤ 100 ∧
    Forall (text_within 100) (omap fan_write (out s')).
Proof.
  intros Hk Ho Hno Hread. destruct (main_runs p n interval hdd_interval Hk Ho) as (_ & Hc & Hrun). destruct Hk as [Hfind Hu].
  set (t := dbgUpdateFanControlParams _ _ _) in *.
  assert (∀ i, has_sensor p i = true → ∃ q, t i = Some q ∧ built_in p q) as Hb.
  { unfold t, dbgUpdateFanControlParams. rewrite Hno. apply defaults_set; [by eapply find_platform_in|done]. }
  apply runs_Ret in Hrun as ([] & s' & Hrun & q & d & ready & Hq & Hd & Hdaemon). exists s'. split; [done|].
  destruct (Hb BRUNO_SOC eq_refl) as (q' & Hq' & [? ? ? ? ? ? ? ?] & ? & _). simplify_eq.
  change (v_duty (view_of s') ≤ 100 ∧ Forall (text_within 100) (v_writes (view_of s'))).
  apply (run_limit p t 100 (S n) (first_view d ready)); [done| |done|done| | |constructor].
  - intros i q0 Hi Hq0. destruct (Hb i Hi) as (q1 & ? & _ & ? & _). by simplify_eq.
  - destruct Hd as [->|[k Hk]]; [done|by eapply read_duty_range].
  - destruct Hd as [->|[k Hk]]; cbn; [lia|by eapply Hread].
Qed.

(** ** Hot and cold *)

Section temperature.
Context `{!Outside} (p : Platform) (t : param_table) (q : FanControlParams).
Hypothesis Hc : configured p t.
Hypothesis Hq : t BRUNO_SOC = Some q.
Hypothesis Ho : ∀ k, sound_instant p (outside k).

(** The mailbox is ready, and the processor's temperature is always read. *)
Definition reads (P : instant → float → Prop) : Prop := ∀ k, ∃ f, soc_reading (outside k) = Some f ∧ P (outside k) f.

Lemma controller_ready i h v f : v_ready v = true → soc_reading i = Some f → v_ready (controller p t i h v) = true.
Proof.
  intros Hr Hf. rewrite (controller_read p t i h v q f) by done. cbv zeta.
  destruct (heat_writes (temp_overheat q) f (set_ready_hdd true h v)) as [_ Hrd].
  destruct (has_fan_ p); [|done]. by destruct (steer_fields (wanted p t (v_duty (heat (temp_overheat q) f (set_ready_hdd true h v))) (float_trunc f) h
    (aux1_of p i) (fan_speed_of p i)) (fan_speed_of p i) (heat (temp_overheat q) f (set_ready_hdd true h v))) as (_ & _ & _ & -> & _).
Qed.

Lemma controller_wanted i h v f : has_fan_ p = true → v_ready v = true → soc_reading i = Some f →
  v_duty (controller p t i h v) = wanted p t (v_duty v) (float_trunc f) h (aux1_of p i) (fan_speed_of p i).
Proof.
  intros Hfan Hr Hf. rewrite (controller_read p t i h v q f) by done. cbv zeta. rewrite Hfan.
  destruct (heat_duty (temp_overheat q) f (set_ready_hdd true h v)) as [H1 _].
  match goal with |- v_duty (steer ?w ?sp ?v1) = _ => destruct (steer_fields w sp v1) as [-> _] end. by rewrite H1.
Qed.

Lemma asked_wanted duty soc hdd aux1 speed : asked duty speed (Some q, soc) ≤ wanted p t duty soc hdd aux1 speed.
Proof. unfold wanted, sensors. rewrite Hq. cbn [fmap list_fmap foldr]. apply Z.le_max_l. Qed.

(** A hot processor asks for more, until the largest duty cycle. *)
Lemma compute_hot duty temp speed : is_u16 duty → 1 ≤ pwm_step q → duty_cycle_max q + pwm_step q ≤ 65535 → speed ≠ 0 →
  temp_setpt q + temp_step q < temp → Z.min (duty_cycle_max q) (duty + 1) ≤ compute_duty_cycle duty temp speed q.
Proof.
  unfold is_u16. intros Hd H1 Hm Hs Ht. unfold compute_duty_cycle, kFanSpeedNotSpinning.
  destruct (Z.ltb_spec (temp_max q) temp); [lia|]. destruct (Z.ltb_spec (temp_setpt q + temp_step q) temp); [|lia].
  rewrite (proj2 (Z.eqb_neq _ _) Hs). destruct (Z.ltb_spec duty (duty_cycle_max q)); [|lia].
  unfold u16. rewrite Z.mod_small by lia. destruct (Z.ltb_spec (duty_cycle_max q) (duty + pwm_step q)); lia.
Qed.

Definition hot (i : instant) (f : float) : Prop :=
  temp_setpt q + temp_step q < float_trunc f ∧ fan_speed_of p i ≠ 0.

Lemma hot_run n v v' : has_fan_ p = true → 1 ≤ pwm_step q → duty_cycle_max q + pwm_step q ≤ 65535 → reads hot →
  daemon_run p t n v v' → v_ready v = true → is_u16 (v_duty v) → Z.min (duty_cycle_max q) (v_duty v + Z.of_nat n) ≤ v_duty v'.
Proof.
  intros Hfan H1 Hm Hhot. induction 1 as [v|n k h v v' _ _ IH]; intros Hr Hd; [lia|].
  destruct (Hhot k) as (f & Hf & Ht & Hs).
  specialize (IH (controller_ready _ h v f Hr Hf) (controller_u16 p t (outside k) h v Hc Hd)).
  rewrite (controller_wanted (outside k) h v f Hfan Hr Hf) in IH.
  pose proof (compute_hot (v_duty v) (float_trunc f) (fan_speed_of p (outside k)) Hd H1 Hm Hs Ht).
  pose proof (asked_wanted (v_duty v) (float_trunc f) h (aux1_of p (outside k)) (fan_speed_of p (outside k))) as Ha.
  cbn [asked] in Ha. lia.
Qed.

(** The last text written is the duty cycle. *)
Definition told (v0 v : view) : Prop :=
  v_duty v = v_duty v0 ∧ v_writes v = v_writes v0 ∨ last (v_writes v) = Some (dec (v_duty v)).
Lemma told_steer v0 want speed v : told v0 v → told v0 (steer want speed v).
Proof.
  intros Hv. unfold steer. case_match; [done|]. right. cbn [v_writes v_duty].
  by rewrite (assoc_L (++)), last_snoc.
Qed.
Lemma told_controller v0 i h v : told v0 v → told v0 (controller p t i h v).
Proof.
  intros Hv. rewrite controller_eq. cbv zeta. destruct (_ || _); [|done]. unfold controlled.
  destruct (soc_reading i) as [f|]; [|done]. cbv zeta.
  match goal with |- context [heat ?l f ?v0] => set (v1 := heat l f v0);
    destruct (heat_duty l f v0) as [H1 _]; destruct (heat_writes l f v0) as [H3 _]; fold v1 in H1, H3 end.
  assert (told v0 v1) as Hv1 by (unfold told; by rewrite H1, H3).
  destruct (has_fan_ p); [|done]. by apply told_steer.
Qed.
Lemma told_run v0 n v v' : daemon_run p t n v v' → told v0 v → told v0 v'.
Proof. induction 1; [done|]. intros. by apply IHdaemon_run, told_controller. Qed.

(** All sensors are cool: their temperatures are below the band where nothing changes. *)
Definition cool_sensor (i : FanControlParamsTypes) (temp : Z) : Prop :=
  ∀ q', t i = Some q' → temp < temp_setpt q' - temp_step q' ∧ 1 ≤ pwm_step q'.

Lemma compute_cool duty temp speed q' : is_u16 duty → sane q' → temp < temp_setpt q' - temp_step q' → 1 ≤ pwm_step q' →
  compute_duty_cycle duty temp speed q' ≤ Z.max 0 (duty - 1).
Proof.
  intros Hd [] Ht H1. unfold is_u16, compute_duty_cycle, kPwmMinValue, u16 in *.
  destruct (Z.ltb_spec (temp_max q') temp); [lia|]. destruct (Z.ltb_spec (temp_setpt q' + temp_step q') temp); [lia|].
  destruct (Z.ltb_spec temp (temp_setpt q' - temp_step q')); [|lia].
  destruct ((speed =? kFanSpeedNotSpinning) || (duty <? pwm_step q')) eqn:E; [lia|].
  apply orb_false_elim in E as [_ E%Z.ltb_ge]. rewrite Z.mod_small by lia. lia.
Qed.

Lemma wanted_cool duty soc hdd aux1 speed : is_u16 duty →
  cool_sensor BRUNO_SOC soc → (has_hdd_ p = true → cool_sensor BRUNO_IS_HDD hdd) → (has_aux1_ p = true → cool_sensor BRUNO_AUX1 aux1) →
  wanted p t duty soc hdd aux1 speed ≤ Z.max 0 (duty - 1).
Proof.
  intros Hd H1 H2 H3. unfold wanted. apply (fold_max_range _ (Z.max 0 (duty - 1))); [lia|]. apply Forall_fmap.
  assert (∀ i temp, has_sensor p i = true → cool_sensor i temp → asked duty speed (t i, temp) ≤ Z.max 0 (duty - 1)) as Ha.
  { intros i temp Hi Hcool. destruct (Hc i Hi) as (q' & Hq' & Hs). cbn. rewrite Hq'. destruct (Hcool q' Hq').
    by apply compute_cool. }
  unfold sensors. constructor; [by apply Ha|]. apply Forall_app. split.
  - destruct (has_hdd_ p) eqn:E; constructor; [|constructor]. by apply Ha; [|apply H2].
  - destruct (has_aux1_ p) eqn:E; constructor; [|constructor]. by apply Ha; [|apply H3].
Qed.

Definition cool (i : instant) (f : float) : Prop :=
  cool_sensor BRUNO_SOC (float_trunc f) ∧ (has_aux1_ p = true → cool_sensor BRUNO_AUX1 (aux1_of p i)).

Lemma cool_run n v v' : has_fan_ p = true → reads cool →
  (has_hdd_ p = true → ∀ k, cool_sensor BRUNO_IS_HDD (hdd_reading (outside k))) →
  daemon_run p t n v v' → v_ready v = true → is_u16 (v_duty v) → (has_hdd_ p = true → cool_sensor BRUNO_IS_HDD (v_hdd v)) →
  v_duty v' ≤ Z.max 0 (v_duty v - Z.of_nat n).
Proof.
  intros Hfan Hcool Hdisk. induction 1 as [v|n k h v v' Hh _ IH]; intros Hr Hd Hv; [lia|].
  destruct (Hcool k) as (f & Hf & H1 & H3).
  assert (has_hdd_ p = true → cool_sensor BRUNO_IS_HDD h) as H2 by (intros E; destruct Hh as [->|[j ->]]; auto).
  pose proof (wanted_cool (v_duty v) (float_trunc f) h (aux1_of p (outside k)) (fan_speed_of p (outside k)) Hd H1 H2 H3) as Hw.
  assert (v_hdd (controller p t (outside k) h v) = h) as Hvh.
  { rewrite (controller_read p t _ h v q f Hq Hr Hf). cbv zeta. rewrite Hfan.
    match goal with |- v_hdd (steer ?w ?sp ?v1) = _ => destruct (steer_fields w sp v1) as (_ & _ & _ & _ & ->) end.
    by destruct (heat_duty (temp_overheat q) f (set_ready_hdd true h v)) as [_ ->]. }
  specialize (IH (controller_ready _ h v f Hr Hf) (controller_u16 p t (outside k) h v Hc Hd)). rewrite Hvh in IH.
  specialize (IH H2). rewrite (controller_wanted (outside k) h v f Hfan Hr Hf) in IH. lia.
Qed.

(** The count of hot probes and the times the box was switched off. *)
Lemma controller_heat i h v f : v_ready v = true → soc_reading i = Some f →
  v_over (controller p t i h v) = v_over (heat (temp_overheat q) f v) ∧
  v_offs (controller p t i h v) = v_offs (heat (temp_overheat q) f v).
Proof.
  intros Hr Hf. rewrite (controller_read p t i h v q f) by done. cbv zeta.
  assert (v_over (heat (temp_overheat q) f (set_ready_hdd true h v)) = v_over (heat (temp_overheat q) f v) ∧
    v_offs (heat (temp_overheat q) f (set_ready_hdd true h v)) = v_offs (heat (temp_overheat q) f v)) as [H1 H2]
    by (unfold heat; cbn; by repeat case_match).
  destruct (has_fan_ p); [|done].
  match goal with |- v_over (steer ?w ?sp ?v1) = _ ∧ _ => destruct (steer_fields w sp v1) as (_ & -> & -> & _) end. done.
Qed.

Definition overheated (f : float) : Prop := float_lt f (temp_overheat q) = false.

Lemma overheated_run n v v' : reads (λ _ f, overheated f) → daemon_run p t n v v' → v_ready v = true → 0 ≤ v_over v < 3 →
  0 ≤ v_over v' < 3 ∧ 3 * Z.of_nat (v_offs v') + v_over v' = 3 * Z.of_nat (v_offs v) + v_over v + Z.of_nat n.
Proof.
  intros Hhot. induction 1 as [v|n k h v v' _ _ IH]; intros Hr Hov; [lia|].
  destruct (Hhot k) as (f & Hf & Ht). specialize (IH (controller_ready _ h v f Hr Hf)).
  destruct (controller_heat (outside k) h v f Hr Hf) as [H1 H2]. rewrite H1, H2 in IH.
  unfold heat, overheated, OVERHEATING_COUNT, u32 in *. rewrite Ht in IH. rewrite Z.mod_small in IH by lia.
  destruct (Z.leb_spec 3 (v_over v + 1)); cbn [v_over v_offs] in IH; lia.
Qed.

Lemma not_overheated_run n v v' : (∀ k f, soc_reading (outside k) = Some f → float_lt f (temp_overheat q) = true) →
  daemon_run p t n v v' → v_offs v' = v_offs v.
Proof.
  intros Hcool. induction 1 as [v|n k h v v' _ _ IH]; [done|]. rewrite IH. rewrite controller_eq. cbv zeta.
  destruct (_ || _); [|done]. unfold controlled. destruct (soc_reading (outside k)) as [f|] eqn:Hf; [|done].
  rewrite Hq. cbv zeta. specialize (Hcool k f Hf).
  assert (∀ v, v_offs (heat (temp_overheat q) f v) = v_offs v) as Ho2 by (intros w; unfold heat; by rewrite Hcool).
  destruct (has_fan_ p); [|by rewrite Ho2].
  match goal with |- v_offs (steer ?w ?sp ?v1) = _ => destruct (steer_fields w sp v1) as (_ & _ & -> & _) end. by rewrite Ho2.
Qed.

(** A box that stays warm gets the fan's full speed.  As long as the processor is
    above the band around its set point and the fan turns, each round raises the duty
    cycle; after as many rounds as it is below the largest one, it is at least that,
    and a duty cycle that changed is the last text written for the fan. *)
Theorem warm_fan_full n interval s :
  has_fan_ p = true → 1 ≤ pwm_step q → duty_cycle_max q + pwm_step q ≤ 65535 → pfan_ctrl_params_ (fan s) = t →
  gpio_mailbox_ready (mon s) = true → is_u16 (duty_cycle_pwm_ (fan s)) → reads hot →
  duty_cycle_max q ≤ duty_cycle_pwm_ (fan s) + Z.of_nat n →
  ∃ s', main_loop p n interval s = Ret (tt, s') ∧ duty_cycle_max q ≤ duty_cycle_pwm_ (fan s') ∧
    (duty_cycle_pwm_ (fan s') ≠ duty_cycle_pwm_ (fan s) →
     last (omap fan_write (out s')) = Some (dec (duty_cycle_pwm_ (fan s')))).
Proof.
  intros Hfan H1 Hm Ht Hr Hd Hhot Hn. pose proof (loop_runs p t n interval s Ho Hc Ht Hd) as Hrun.
  apply runs_Ret in Hrun as ([] & s' & Hrun & Hdaemon). exists s'. split; [done|]. split.
  - pose proof (hot_run n _ _ Hfan H1 Hm Hhot Hdaemon Hr Hd) as Hle.
    change (v_duty (view_of s')) with (duty_cycle_pwm_ (fan s')) in Hle.
    change (v_duty (view_of s)) with (duty_cycle_pwm_ (fan s)) in Hle. lia.
  - intros Hne. destruct (told_run (view_of s) n _ _ Hdaemon) as [[E _]|Hl]; [by left|done|done].
Qed.

(** A box that stays cool stops its fan.  As long as every sensor is below the band
    around its set point, each round lowers the duty cycle, and after as many rounds as
    the duty cycle it is 0. *)
Theorem cool_fan_stops n interval s :
  has_fan_ p = true → pfan_ctrl_params_ (fan s) = t → gpio_mailbox_ready (mon s) = true →
  is_u16 (duty_cycle_pwm_ (fan s)) → reads cool →
  (has_hdd_ p = true → cool_sensor BRUNO_IS_HDD (hdd_temp_ (mon s)) ∧ ∀ k, cool_sensor BRUNO_IS_HDD (hdd_reading (outside k))) →
  ∃ s', main_loop p n interval s = Ret (tt, s') ∧
    0 ≤ duty_cycle_pwm_ (fan s') ≤ Z.max 0 (duty_cycle_pwm_ (fan s) - Z.of_nat n).
Proof.
  intros Hfan Ht Hr Hd Hcool Hdisk. pose proof (loop_runs p t n interval s Ho Hc Ht Hd) as Hrun.
  apply runs_Ret in Hrun as ([] & s' & Hrun & Hdaemon). exists s'. split; [done|]. split.
  - assert (∀ m v v', daemon_run p t m v v' → is_u16 (v_duty v) → is_u16 (v_duty v')) as Hu.
    { induction 1; [done|]. intros. by apply IHdaemon_run, controller_u16. }
    by destruct (Hu _ _ _ Hdaemon Hd).
  - apply (cool_run n _ _ Hfan Hcool) in Hdaemon; [done|by intros E k; apply Hdisk|done|done|by intros E; apply Hdisk].
Qed.

End temperature.

(** ** What goes wrong *)

(** A fan that stands still is given the least duty cycle again and again, although the
    comment on the next branch says that it is raised until the fan turns. *)
Lemma standing_fan_stays q temp duty : temp_setpt q + temp_step q < temp → temp ≤ temp_max q →
  compute_duty_cycle duty temp 0 q = duty_cycle_min q.
Proof.
  intros H1 H2. unfold compute_duty_cycle.
  destruct (Z.ltb_spec (temp_max q) temp); [lia|]. by destruct (Z.ltb_spec (temp_setpt q + temp_step q) temp); [|lia].
Qed.

(** A duty cycle that could not be written counts as set: the same one is not written
    again by the next probe. *)
Lemma failed_write_is_forgotten `{!Outside} p t soc hdd aux1 speed s :
  configured p t → pfan_ctrl_params_ (fan s) = t → is_u16 (duty_cycle_pwm_ (fan s)) → speed ≠ 0 →
  in_writable (outside (tick s)) fan_tmp_file = false →
  wanted p t (duty_cycle_pwm_ (fan s)) soc hdd aux1 speed ≠ duty_cycle_pwm_ (fan s) →
  ∃ s', AdjustSpeed p soc hdd aux1 speed s = Ret (false, s') ∧ out s' = out s ∧
    duty_cycle_pwm_ (fan s') = wanted p t (duty_cycle_pwm_ (fan s)) soc hdd aux1 speed.
Proof.
  intros Hc Ht Hd Hs Hw Hne. unfold AdjustSpeed. rewrite (M_bind_eq _ _ s _ s eq_refl), Ht, wanted_run by done.
  rewrite M_bind_lift, (proj2 (Z.eqb_neq _ _) Hne). cbn [negb].
  unfold kFanSpeedNotSpinning. rewrite (proj2 (Z.eqb_neq _ _) Hs). cbn [andb].
  rewrite (M_bind_eq _ _ s true s eq_refl). cbn [negb]. unfold DrivePwm, WriteFanDutyCycle, WriteValueString.
  fold fan_tmp_file. unfold mbind, M_bind, modify, now, gets. cbn [tick with_fan]. rewrite Hw. by eexists.
Qed.

(** When no line of a file begins with the pattern, GetLine answers the last one, unless
    the file ends with a line feed. *)
Lemma get_line_last :
  GetLine (Instant {[ FAN_CONTROL_PARAMS_FILE := lit "GFMS100_SOC 57 60 2 25 100 2" ]} 0 None (λ _, false))
    FAN_CONTROL_PARAMS_FILE (Some (lit "GFRG250_SOC")) = lit "GFMS100_SOC 57 60 2 25 100 2".
Proof. by vm_compute. Qed.

(** On a platform that is not known the parameters are read before they are set. *)
Lemma unknown_platform_undefined now : in_files now !! FAN_CONTROL_PARAMS_FILE = None → InitParams now new_platform = Ub.
Proof. intros Hno. unfold InitParams, dbgUpdateFanControlParams. by rewrite Hno. Qed.

(** A temperature below zero has no conversion. *)
Lemma frost_undefined : ∃ f, read_float (lit "-5.00") = Some f ∧ float_to_u16 f = Ub.
Proof. eexists. split; vm_compute; reflexivity. Qed.

(** ** A box *)

Definition sound_check (p : Platform) (i : instant) : bool :=
  let fits f := (0 <=? float_trunc f) && (float_trunc f <=? 65535) in
  in_writable i fan_tmp_file && match soc_reading i with Some f => fits f | None => true end &&
  (negb (has_aux1_ p) || fits (snd (ReadAux1Temperature i))).
Lemma sound_check_ok p i : sound_check p i = true → sound_instant p i.
Proof.
  unfold sound_check. intros [[H1 H2]%andb_prop H3]%andb_prop. split; [done| |].
  - intros f Hf. rewrite Hf in H2. unfold fits_u16. lia.
  - intros Ha. rewrite Ha in H3. unfold fits_u16. cbn in H3. lia.
Qed.

Definition demo_platform : Platform := MkPlatform (lit "GFRG250") BRUNO_GFRG250 true true true.
(** The box at a temperature of the processor; the fan turns. *)
Definition demo_instant (soc : bytes) : instant :=
  Instant {[ PLATFORM_FILE := lit "GFRG250" ++ [10]; kMailboxCpuTemperatureFile := soc ++ [10];
             kMailboxAux1TemperatureFile := lit "60.00" ++ [10]; kMailboxFanSpeedFile := lit "1200" ++ [10];
             kMailboxFanPercentFile := lit "40" ++ [10]; kMailboxReadyFile := lit "1" ++ [10] ]}
    5000 (Some (lit "41" ++ [10])) (λ _, true).
Definition demo_daemon : sysmgr :=
  Sysmgr 0 [] (Fan VAR_SPEED 40 (default_params BRUNO_GFRG250)) (Mon 300000 41 0 0 0 true).

Lemma demo_configured : configured demo_platform (default_params BRUNO_GFRG250).
Proof. intros [] _; eexists; (split; [done|]); constructor; unfold is_u16; cbn; lia. Qed.

Lemma parameters_sane_witness :
  ∃ t, InitParams (demo_instant (lit "84.50")) demo_platform = Ret t ∧ configured demo_platform t ∧
    (in_files (demo_instant (lit "84.50")) !! FAN_CONTROL_PARAMS_FILE = None →
     ∀ i, has_sensor demo_platform i = true → ∃ q, t i = Some q ∧ built_in demo_platform q).
Proof.
  apply (parameters_sane demo_platform (demo_instant (lit "84.50"))); [|done].
  apply (find_platform_in (lit "GFRG250")). by vm_compute.
Defined.


Lemma fan_within_scale_witness :
  ∃ s', @main (λ _, demo_instant (lit "84.50")) 3 5000 300000 new_sysmgr = Ret (tt, s') ∧ duty_cycle_pwm_ (fan s') ≤ 100 ∧
    Forall (text_within 100) (omap fan_write (out s')).
Proof.
  apply (@fan_within_scale (λ _, demo_instant (lit "84.50")) demo_platform 3 5000 300000).
  - split; [by vm_compute|done].
  - intros k. apply sound_check_ok. by vm_compute.
  - by vm_compute.
  - intros k d Hr. vm_compute in Hr. injection Hr as <-. lia.
Defined.

Lemma warm_fan_full_witness :
  ∃ s', @main_loop (λ _, demo_instant (lit "84.50")) demo_platform 60 5000 demo_daemon = Ret (tt, s') ∧
    100 ≤ duty_cycle_pwm_ (fan s') ∧
    (duty_cycle_pwm_ (fan s') ≠ 40 → last (omap fan_write (out s')) = Some (dec (duty_cycle_pwm_ (fan s')))).
Proof.
  apply (@warm_fan_full (λ _, demo_instant (lit "84.50")) demo_platform (default_params BRUNO_GFRG250) kGFRG250FanCtrlSocDefaults
    demo_configured eq_refl) with (n := 60%nat) (interval := 5000) (s := demo_daemon).
  - intros k. apply sound_check_ok. by vm_compute.
  - reflexivity.
  - done.
  - done.
  - reflexivity.
  - reflexivity.
  - done.
  - intros k. eexists. split; [vm_compute; reflexivity|]. by split; vm_compute.
  - done.
Defined.

Lemma cool_fan_stops_witness :
  ∃ s', @main_loop (λ _, demo_instant (lit "50.25")) demo_platform 40 5000 demo_daemon = Ret (tt, s') ∧
    0 ≤ duty_cycle_pwm_ (fan s') ≤ Z.max 0 (40 - Z.of_nat 40).
Proof.
  apply (@cool_fan_stops (λ _, demo_instant (lit "50.25")) demo_platform (default_params BRUNO_GFRG250) kGFRG250FanCtrlSocDefaults
    demo_configured eq_refl) with (n := 40%nat) (interval := 5000) (s := demo_daemon).
  - intros k. apply sound_check_ok. by vm_compute.
  - reflexivity.
  - reflexivity.
  - reflexivity.
  - done.
  - intros k. eexists. split; [vm_compute; reflexivity|]. split; [|intros _]; intros q' [= <-]; by vm_compute.
  - intros _. split; [|intros k]; intros q' [= <-]; by vm_compute.
Defined.

