(* ===== verification/TaxSignature.v ===== *)
(** * WiFi signatures: taxonomy/tax_signature.c

    The probe and association requests of a capture are turned into texts that are
    characteristic of the device: the numbers of their information elements in order,
    and some of their fields. *)

From S2P Require Import Prelude.
Open Scope Z_scope.

Definition ASSOC_REQ : Z := 0.
Definition PROBE_REQ : Z := 4.
Definition MAX_EXTCAP : Z := 254.
Definition WPS_NAME_LEN : Z := 32.

(** A text as snprintf leaves it in an array of [size] bytes. *)
Definition printed (size : Z) (t : bytes) : bytes := take (Z.to_nat (size - 1)) t.
(** The conversions %02hx, %04hx, %08x of a value. *)
Definition hex_pad (n : nat) (v : Z) : bytes := pad n 48 (hex_digits 8 v []).

(** *** get_wps_name *)

Definition no_mischief (s : Z) : Z :=
  if ((97 <=? s) && (s <=? 122)) || ((65 <=? s) && (s <=? 90)) || ((48 <=? s) && (s <=? 57)) then s else 95.
(** [no_mischief_strncpy(dst, src, n)] from index [i], for a source inside the packet. *)
Fixpoint no_mischief_loop (n : nat) (dst pkt : bytes) (i src : Z) : outcome bytes :=
  match n with
  | O => Ret dst
  | S n =>
      s ← buf_get pkt (src + i);
      dst ← buf_set dst i (no_mischief s);
      no_mischief_loop n dst pkt (i + 1) src
  end.
Definition no_mischief_strncpy (dst pkt : bytes) (src n : Z) : outcome bytes := no_mischief_loop (Z.to_nat n) dst pkt 0 src.

(** The loop over the parts of the WPS element, at [data] in the packet; the number of
    characters and the array. *)
Fixpoint get_wps_name (fuel : nat) (name : bytes) (name_len : Z) (pkt : bytes) (data data_len : Z) : outcome (Z * bytes) :=
  match fuel with
  | O => OutOfFuel
  | S fuel =>
      if 4 <=? data_len then
        d0 ← buf_get pkt data; d1 ← buf_get pkt (data + 1);
        d2 ← buf_get pkt (data + 2); d3 ← buf_get pkt (data + 3);
        let id := u16 (Z.lor (Z.shiftl d0 8) d1) in
        let elen := u16 (Z.lor (Z.shiftl d2 8) d3) in
        let data := data + 4 in
        let data_len := data_len - 4 in
        if data_len <? elen then Ret (0, name)
        else if id =? 0x1023 then
          let n := if elen <? name_len then elen else name_len in
          name ← no_mischief_strncpy name pkt data n;
          Ret (n, name)
        else get_wps_name fuel name name_len pkt (data + elen) (data_len - elen)
      else Ret (0, name)
  end.

(** *** ie_to_string *)

(** The arrays of the function, as the strings in them. *)
Record sig_parts := Parts {
  htcap : bytes; htagg : bytes; htmcs : bytes; vhtcap : bytes; vhtrxmcs : bytes; vhttxmcs : bytes;
  txpow : bytes; extcap : bytes; wps : bytes;
}.
Definition no_parts : sig_parts := Parts [] [] [] [] [] [] [] [] [].
Definition set_htcap x s := Parts x (htagg s) (htmcs s) (vhtcap s) (vhtrxmcs s) (vhttxmcs s) (txpow s) (extcap s) (wps s).
Definition set_htagg x s := Parts (htcap s) x (htmcs s) (vhtcap s) (vhtrxmcs s) (vhttxmcs s) (txpow s) (extcap s) (wps s).
Definition set_htmcs x s := Parts (htcap s) (htagg s) x (vhtcap s) (vhtrxmcs s) (vhttxmcs s) (txpow s) (extcap s) (wps s).
Definition set_vhtcap x s := Parts (htcap s) (htagg s) (htmcs s) x (vhtrxmcs s) (vhttxmcs s) (txpow s) (extcap s) (wps s).
Definition set_vhtrxmcs x s := Parts (htcap s) (htagg s) (htmcs s) (vhtcap s) x (vhttxmcs s) (txpow s) (extcap s) (wps s).
Definition set_vhttxmcs x s := Parts (htcap s) (htagg s) (htmcs s) (vhtcap s) (vhtrxmcs s) x (txpow s) (extcap s) (wps s).
Definition set_txpow x s := Parts (htcap s) (htagg s) (htmcs s) (vhtcap s) (vhtrxmcs s) (vhttxmcs s) x (extcap s) (wps s).
Definition set_extcap x s := Parts (htcap s) (htagg s) (htmcs s) (vhtcap s) (vhtrxmcs s) (vhttxmcs s) (txpow s) x (wps s).
Definition set_wps x s := Parts (htcap s) (htagg s) (htmcs s) (vhtcap s) (vhtrxmcs s) (vhttxmcs s) (txpow s) (extcap s) x.

(** Little-endian values in the packet. *)
Definition get_le16 (pkt : bytes) (i : Z) : outcome Z :=
  a ← buf_get pkt i; b ← buf_get pkt (i + 1); Ret (a + 256 * b).
Definition get_le32 (pkt : bytes) (i : Z) : outcome Z :=
  a ← get_le16 pkt i; b ← get_le16 pkt (i + 2); Ret (a + 65536 * b).

Definition extcap_size : Z := 8 + 2 * MAX_EXTCAP + 1.
(** The loop that prints the bytes behind ",extcap:" at [p]. *)
Fixpoint extcap_loop (n : nat) (arr pkt : bytes) (p ie : Z) : outcome bytes :=
  match n with
  | O => Ret arr
  | S n =>
      t ← cstr arr;
      let lim := s32 (extcap_size - strlen t) in
      b ← buf_get pkt ie;
      '(len, arr) ← snprintf_at arr p lim (hex02 b);
      extcap_loop n arr pkt (p + len) (ie + 1)
  end.
Definition print_extcap (pkt : bytes) (ie elen : Z) : outcome bytes :=
  let len := if elen <? MAX_EXTCAP then elen else MAX_EXTCAP in
  let arr := replicate (Z.to_nat extcap_size) 0 in
  '(p, arr) ← snprintf_at arr 0 extcap_size (lit ",extcap:");
  arr ← extcap_loop (Z.to_nat len) arr pkt p ie;
  cstr arr.

(** A part that is set from a value when a condition holds. *)
Definition when_set (c : bool) (m : outcome (sig_parts → sig_parts)) (s : sig_parts) : outcome sig_parts :=
  if c then f ← m; Ret (f s) else Ret s.

(** The element with [elen] bytes at [ie]: the text of its tag (without the separator)
    and the parts it sets. *)
Definition vendor_element (pkt : bytes) (id elen ie : Z) (s : sig_parts) : outcome (bytes * sig_parts) :=
  i0 ← buf_get pkt ie; i1 ← buf_get pkt (ie + 1); i2 ← buf_get pkt (ie + 2); i3 ← buf_get pkt (ie + 3);
  let is_MSFT := (i0 =? 0x00) && (i1 =? 0x50) && (i2 =? 0xf2) in
  s ← (if is_MSFT && (i3 =? 0x04) then
         let model_name := replicate (Z.to_nat (WPS_NAME_LEN + 1)) 0 in
         '(n, model_name) ← get_wps_name (S (Z.to_nat elen)) model_name WPS_NAME_LEN pkt (ie + 4) (elen - 4);
         if negb (n =? 0) then m ← cstr model_name; Ret (set_wps (printed 38 (lit ",wps:" ++ m)) s) else Ret s
       else Ret s);
  Ret (dec id ++ lit "(" ++ hex02 i0 ++ hex02 i1 ++ hex02 i2 ++ lit "," ++ dec i3 ++ lit ")", s).

Definition plain_element (pkt : bytes) (id elen ie : Z) (s : sig_parts) : outcome (bytes * sig_parts) :=
  s ← when_set ((id =? 45) && (2 <=? elen)) (v ← get_le16 pkt ie; Ret (set_htcap (printed 12 (lit ",htcap:" ++ hex_pad 4 v)))) s;
  s ← when_set ((id =? 45) && (3 <=? elen)) (v ← buf_get pkt (ie + 2); Ret (set_htagg (printed 10 (lit ",htagg:" ++ hex_pad 2 v)))) s;
  s ← when_set ((id =? 45) && (7 <=? elen)) (v ← get_le32 pkt (ie + 3); Ret (set_htmcs (printed 16 (lit ",htmcs:" ++ hex_pad 8 (u16 v))))) s;
  s ← when_set ((id =? 191) && (4 <=? elen)) (v ← get_le32 pkt ie; Ret (set_vhtcap (printed 17 (lit ",vhtcap:" ++ hex_pad 8 v)))) s;
  s ← when_set ((id =? 191) && (8 <=? elen)) (v ← get_le32 pkt (ie + 4); Ret (set_vhtrxmcs (printed 19 (lit ",vhtrxmcs:" ++ hex_pad 8 v)))) s;
  s ← when_set ((id =? 191) && (12 <=? elen)) (v ← get_le32 pkt (ie + 8); Ret (set_vhttxmcs (printed 19 (lit ",vhttxmcs:" ++ hex_pad 8 v)))) s;
  s ← when_set (id =? 127) (t ← print_extcap pkt ie elen; Ret (set_extcap t)) s;
  s ← when_set ((id =? 33) && (elen =? 2)) (v ← get_le16 pkt ie; Ret (set_txpow (printed 12 (lit ",txpow:" ++ hex_pad 4 v)))) s;
  Ret (dec id, s).

(** [strncat(fstr, src, flen)] in an array of [fstr_len] bytes. *)
Definition strncat (fstr_len : Z) (fstr src : bytes) (flen : Z) : outcome bytes :=
  let fstr := fstr ++ take (Z.to_nat flen) src in
  if strlen fstr <? fstr_len then Ret fstr else Ub.
(** ... and the room that is left then. *)
Definition append (fstr_len : Z) (x : bytes * Z) (src : bytes) : outcome (bytes * Z) :=
  let '(fstr, flen) := x in
  fstr ← strncat fstr_len fstr src flen;
  Ret (fstr, fstr_len - strlen fstr - 1).

(** The loop over the elements. *)
Fixpoint ie_loop (fuel : nat) (fstr_len : Z) (x : bytes * Z) (num : Z) (pkt : bytes) (ie ie_len : Z) (s : sig_parts)
    : outcome (bytes * Z * sig_parts) :=
  match fuel with
  | O => OutOfFuel
  | S fuel =>
      if 2 <=? ie_len then
        let sep := if num =? 0 then [] else lit "," in
        id ← buf_get pkt ie;
        elen ← buf_get pkt (ie + 1);
        let ie := ie + 2 in
        let ie_len := ie_len - 2 in
        if ie_len <? elen then Ret (x, s)
        else
          '(tag, s) ← (if (id =? 221) && (4 <=? elen) then vendor_element pkt id elen ie s else plain_element pkt id elen ie s);
          let tagbuf := printed 32 (sep ++ tag) in
          x ← append fstr_len x tagbuf;
          ie_loop fuel fstr_len x (num + 1) pkt (ie + elen) (ie_len - elen) s
      else Ret (x, s)
  end.

(** [if (strlen(part)) { strncat(...) }] for the parts in order. *)
Fixpoint append_parts (fstr_len : Z) (x : bytes * Z) (parts : list bytes) : outcome (bytes * Z) :=
  match parts with
  | [] => Ret x
  | t :: parts =>
      x ← (if negb (strlen t =? 0) then append fstr_len x t else Ret x);
      append_parts fstr_len x parts
  end.
Definition parts_list (s : sig_parts) : list bytes :=
  [htcap s; htagg s; htmcs s; vhtcap s; vhtrxmcs s; vhttxmcs s; txpow s; extcap s; wps s].

(** [ie_to_string(fstr, fstr_len, ie, ie_len)]: the string in [fstr]. *)
Definition ie_to_string (fstr_len : Z) (pkt : bytes) (ie ie_len : Z) : outcome bytes :=
  '(x, s) ← ie_loop (S (Z.to_nat ie_len)) fstr_len ([], fstr_len - 1) 0 pkt ie ie_len no_parts;
  '(fstr, _) ← append_parts fstr_len x (parts_list s);
  Ret fstr.

(** *** main *)

Record capture := Capture {
  mac : option bytes;        (* None: the array is not set *)
  probe_sig : bytes;
  assoc_sig : bytes;
}.
Definition SIG_LEN : Z := 4096.

(** A packet, with the width of size_t. *)
Definition do_packet `{!CPlatform} (pkt : bytes) (c : capture) : outcome capture :=
  it_len ← get_le16 pkt 2;
  let mlme := it_len in
  fc ← get_le16 pkt mlme;
  let type := Z.land (Z.shiftr fc 2) 3 in
  let subtype := Z.land (Z.shiftr fc 4) 15 in
  let caplen := Z.of_nat (length pkt) in
  c ← (if (type =? 0) && (subtype =? ASSOC_REQ) then
         sig ← ie_to_string SIG_LEN pkt (mlme + 28) (ulong (caplen - 28 - it_len - 4));
         Ret (Capture (mac c) (probe_sig c) sig)
       else Ret c);
  if (type =? 0) && (subtype =? PROBE_REQ) then
    a ← buf_get pkt (mlme + 10); b ← buf_get pkt (mlme + 11); c2 ← buf_get pkt (mlme + 12);
    d ← buf_get pkt (mlme + 13); e ← buf_get pkt (mlme + 14); f ← buf_get pkt (mlme + 15);
    sig ← ie_to_string SIG_LEN pkt (mlme + 24) (ulong (caplen - 24 - it_len - 4));
    Ret (Capture (Some (hex02 a ++ lit ":" ++ hex02 b ++ lit ":" ++ hex02 c2 ++ lit ":" ++
                        hex02 d ++ lit ":" ++ hex02 e ++ lit ":" ++ hex02 f)) sig (assoc_sig c))
  else Ret c.
Fixpoint packet_loop `{!CPlatform} (pkts : list bytes) (c : capture) : outcome capture :=
  match pkts with [] => Ret c | pkt :: pkts => c ← do_packet pkt c; packet_loop pkts c end.

(** What was printed on stdout and on stderr, and the status. *)
Record exited := Exited { on_stdout : bytes; on_stderr : bytes; status : Z }.
Definition usage (progname : bytes) : exited := Exited [] (lit "usage: " ++ progname ++ lit " -f pcap" ++ [10]) 1.

Inductive tax_opt := Opt_f (optarg : bytes) | Opt_other.
Fixpoint filename_of (opts : list tax_opt) (filename : option bytes) : option (option bytes) :=
  match opts with
  | [] => Some filename
  | Opt_f f :: opts => filename_of opts (Some f)
  | Opt_other :: _ => None
  end.

(** [pcap_packets name] is what the file gives: nothing when it cannot be opened. *)
Definition main `{!CPlatform} (pcap_packets : bytes → option (list bytes)) (progname : bytes) (opts : list tax_opt) : outcome exited :=
  match filename_of opts None with
  | None | Some None => Ret (usage progname)
  | Some (Some filename) =>
      match pcap_packets filename with
      | None => Ret (Exited [] (lit "Cannot open pcap file") 1)
      | Some pkts =>
          c ← packet_loop pkts (Capture None [] []);
          match mac c with
          | None => Ub
          | Some m =>
              let ok := negb (strlen (probe_sig c) =? 0) && negb (strlen (assoc_sig c) =? 0) && negb (strlen m =? 0) in
              Ret (Exited (m ++ lit " wifi4|probe:" ++ probe_sig c ++ lit "|assoc:" ++ assoc_sig c ++ [10]) []
                     (if ok then 0 else 1))
          end
      end
  end.
