(* ===== verification/TaxSpec.v ===== *)
(** * WiFi signatures: what ie_to_string computes

    The information elements of a frame, the signature as a text of them, and that the
    function prints its beginning without leaving the frame or its arrays. *)

From S2P Require Import Prelude LogUploader TaxSignature.
Open Scope Z_scope.

(** ** The specification *)

(** Elements: a number, a length and that many bytes; the rest that is no element is
    left out. *)
Fixpoint elements (fuel : nat) (l : bytes) : list (Z * bytes) :=
  match fuel with
  | O => []
  | S fuel =>
      match l with
      | id :: n :: l =>
          if strlen l <? n then [] else (id, take (Z.to_nat n) l) :: elements fuel (drop (Z.to_nat n) l)
      | _ => []
      end
  end.

(** The attributes of a WPS element, with two bytes for number and length, in the order
    of the network; the model's name. *)
Definition be16 (d : bytes) (k : nat) : Z := 256 * nth k d 0 + nth (S k) d 0.
Fixpoint model_name (fuel : nat) (l : bytes) : bytes :=
  match fuel with
  | O => []
  | S fuel =>
      if (length l <? 4)%nat then []
      else
        let d := drop 4 l in
        let n := be16 l 2 in
        if strlen d <? n then []
        else if be16 l 0 =? 0x1023 then no_mischief <$> take (Z.to_nat (Z.min n WPS_NAME_LEN)) d
        else model_name fuel (drop (Z.to_nat n) d)
  end.

Definition le16 (d : bytes) (k : nat) : Z := nth k d 0 + 256 * nth (S k) d 0.
Definition le32 (d : bytes) (k : nat) : Z := le16 d k + 65536 * le16 d (2 + k).

(** The tag of an element, and the parts it sets. *)
Definition is_vendor (id : Z) (d : bytes) : bool := (id =? 221) && (4 <=? strlen d).
Definition tag (x : Z * bytes) : bytes :=
  let '(id, d) := x in
  if is_vendor id d then
    dec id ++ lit "(" ++ hex02 (nth 0 d 0) ++ hex02 (nth 1 d 0) ++ hex02 (nth 2 d 0) ++ lit "," ++ dec (nth 3 d 0) ++ lit ")"
  else dec id.
Definition vendor_parts (d : bytes) (s : sig_parts) : sig_parts :=
  let m := model_name (S (length d)) (drop 4 d) in
  if (nth 0 d 0 =? 0x00) && (nth 1 d 0 =? 0x50) && (nth 2 d 0 =? 0xf2) && (nth 3 d 0 =? 0x04) && negb (strlen m =? 0)
  then set_wps (lit ",wps:" ++ m) s else s.
Definition plain_parts (id : Z) (d : bytes) (s : sig_parts) : sig_parts :=
  let n := strlen d in
  let s := if (id =? 45) && (2 <=? n) then set_htcap (lit ",htcap:" ++ hex_pad 4 (le16 d 0)) s else s in
  let s := if (id =? 45) && (3 <=? n) then set_htagg (lit ",htagg:" ++ hex_pad 2 (nth 2 d 0)) s else s in
  let s := if (id =? 45) && (7 <=? n) then set_htmcs (lit ",htmcs:" ++ hex_pad 8 (u16 (le32 d 3))) s else s in
  let s := if (id =? 191) && (4 <=? n) then set_vhtcap (lit ",vhtcap:" ++ hex_pad 8 (le32 d 0)) s else s in
  let s := if (id =? 191) && (8 <=? n) then set_vhtrxmcs (lit ",vhtrxmcs:" ++ hex_pad 8 (le32 d 4)) s else s in
  let s := if (id =? 191) && (12 <=? n) then set_vhttxmcs (lit ",vhttxmcs:" ++ hex_pad 8 (le32 d 8)) s else s in
  let s := if id =? 127 then set_extcap (lit ",extcap:" ++ flat_map hex02 (take (Z.to_nat MAX_EXTCAP) d)) s else s in
  if (id =? 33) && (n =? 2) then set_txpow (lit ",txpow:" ++ hex_pad 4 (le16 d 0)) s else s.
Definition element_parts (s : sig_parts) (x : Z * bytes) : sig_parts :=
  let '(id, d) := x in if is_vendor id d then vendor_parts d s else plain_parts id d s.

(** The tags with commas between them, then the parts. *)
Definition tags (es : list (Z * bytes)) : bytes :=
  match tag <$> es with [] => [] | t :: ts => t ++ flat_map (cons 44) ts end.
Definition signature (ies : bytes) : bytes :=
  let es := elements (S (length ies)) ies in
  tags es ++ concat (parts_list (foldl element_parts no_parts es)).

(** ** Reading the frame *)

(** The bytes [l] are at [off] in the packet. *)
Definition at_off (pkt : bytes) (off : Z) (l : bytes) : Prop :=
  ∃ pre post, pkt = pre ++ l ++ post ∧ off = strlen pre.

Lemma at_get pkt off l k : at_off pkt off l → 0 ≤ k < strlen l → buf_get pkt (off + k) = Ret (nth (Z.to_nat k) l 0).
Proof.
  unfold strlen. intros (pre & post & -> & ->) Hk. unfold strlen. rewrite buf_get_nth by (rewrite !length_app; lia).
  rewrite app_nth2 by lia. rewrite app_nth1 by lia. do 2 f_equal. lia.
Qed.
Lemma at_get0 pkt off l : at_off pkt off l → 0 < strlen l → buf_get pkt off = Ret (nth 0 l 0).
Proof. intros Hl Hn. pose proof (at_get pkt off l 0 Hl) as H. rewrite Z.add_0_r in H. apply H. lia. Qed.

Lemma at_drop pkt off l k : at_off pkt off l → 0 ≤ k ≤ strlen l → at_off pkt (off + k) (drop (Z.to_nat k) l).
Proof.
  unfold strlen. intros (pre & post & -> & ->) Hk. exists (pre ++ take (Z.to_nat k) l), post. split.
  - rewrite <-(assoc_L (++)). f_equal. rewrite (assoc_L (++)). by rewrite take_drop.
  - unfold strlen. rewrite length_app, length_take. lia.
Qed.
Lemma at_take pkt off l n : at_off pkt off l → at_off pkt off (take n l).
Proof.
  intros (pre & post & -> & ->). exists pre, (drop n l ++ post). split; [|done]. by rewrite (assoc_L (++)) with (x := take n l), take_drop.
Qed.

(** ** Lengths of printed values *)

Lemma hex_digits_length fuel k n acc : (0 < k ≤ fuel)%nat → 0 ≤ n < 16 ^ Z.of_nat k →
  (length (hex_digits fuel n acc) ≤ k + length acc)%nat.
Proof.
  revert k n acc. induction fuel as [|fuel IH]; intros k n acc Hk Hn; [lia|]. cbn [hex_digits].
  destruct (Z.ltb_spec n 16); [cbn [length]; lia|]. destruct k as [|[|k]]; [lia|simpl in Hn; lia|].
  etrans; [apply (IH (S k)); [lia|]|cbn [length]; lia].
  rewrite Nat2Z.inj_succ, Z.pow_succ_r in Hn by lia. split; [apply Z.div_pos; lia|apply Z.div_lt_upper_bound; lia].
Qed.
Lemma hex_pad_length n v : (0 < n ≤ 8)%nat → 0 ≤ v < 16 ^ Z.of_nat n → length (hex_pad n v) = n.
Proof.
  intros Hn Hv. unfold hex_pad, pad. rewrite length_app, length_replicate.
  pose proof (hex_digits_length 8 n v [] Hn Hv). cbn [length] in *. lia.
Qed.
Lemma printed_id size t : strlen t < size → printed size t = t.
Proof. unfold strlen, printed. intros. apply take_ge. lia. Qed.

Lemma hex02_nonul b : is_byte b → nonul (hex02 b) ∧ length (hex02 b) = 2%nat.
Proof.
  intros (x & y & -> & Hx & Hy & _)%hex02_byte. split; [|done].
  assert (∀ c, isxdigit c = true → c ≠ NUL) as Hc by (intros c H ->; discriminate H). constructor; [auto|]. constructor; [auto|constructor].
Qed.

Lemma lor_be16 a b : is_byte a → is_byte b → u16 (Z.lor (Z.shiftl a 8) b) = 256 * a + b.
Proof.
  unfold is_byte. intros Ha Hb. assert (Z.land (Z.shiftl a 8) b = 0) as Hland.
  { apply Z.bits_inj'. intros n Hn. rewrite Z.land_spec, Z.bits_0. destruct (Z.ltb_spec n 8).
    - by rewrite Z.shiftl_spec_low by lia.
    - rewrite (testbit_above 8 b n) by lia. apply andb_false_r. }
  pose proof (Z.add_lor_land (Z.shiftl a 8) b) as H. rewrite Hland, Z.shiftl_mul_pow2 in H by lia.
  unfold u16. rewrite Z.shiftl_mul_pow2 by lia. rewrite Z.add_0_r in H. rewrite H. rewrite Z.mod_small; lia.
Qed.

Lemma nth_byte l k : all_bytes l → is_byte (nth k l 0).
Proof.
  intros Hl. destruct (decide (k < length l)%nat).
  - apply (proj1 (List.Forall_nth is_byte l)); [done|lia].
  - rewrite nth_overflow by lia. unfold is_byte. lia.
Qed.
Lemma all_bytes_take n l : all_bytes l → all_bytes (take n l).
Proof. apply Forall_take. Qed.
Lemma all_bytes_drop n l : all_bytes l → all_bytes (drop n l).
Proof. apply Forall_drop. Qed.
#[local] Hint Resolve nth_byte all_bytes_take all_bytes_drop : c_db.

Lemma be16_bytes l k : all_bytes l → u16 (Z.lor (Z.shiftl (nth k l 0) 8) (nth (S k) l 0)) = be16 l k.
Proof. intros Hl. apply lor_be16; by apply nth_byte. Qed.
Lemma be16_range l k : all_bytes l → 0 ≤ be16 l k < 65536.
Proof. intros Hl. unfold be16. pose proof (nth_byte l k Hl). pose proof (nth_byte l (S k) Hl). unfold is_byte in *. lia. Qed.

(** ** The model's name *)

Lemma at_next pkt off x l : at_off pkt off (x :: l) → at_off pkt (off + 1) l.
Proof. intros H. apply (at_drop pkt off (x :: l) 1) in H; [done|unfold strlen; cbn [length]; lia]. Qed.

Lemma no_mischief_run l : ∀ t rest pkt src, at_off pkt (src + strlen t) l → (length l ≤ length rest)%nat →
  no_mischief_loop (length l) (t ++ rest) pkt (strlen t) src = Ret (t ++ (no_mischief <$> l) ++ drop (length l) rest).
Proof.
  induction l as [|x l IH]; intros t rest pkt src Hl Hr; cbn [no_mischief_loop length] in *; [by rewrite drop_0|].
  destruct rest as [|r rest]; cbn [length] in Hr; [lia|].
  rewrite (at_get0 _ _ _ Hl) by (unfold strlen; cbn [length]; lia). cbn [mbind outcome_bind nth].
  rewrite buf_set_app by done. cbn [mbind outcome_bind].
  specialize (IH (t ++ [no_mischief x]) rest pkt src). unfold strlen in *. rewrite length_app, <-!(assoc_L (++)) in IH.
  rewrite Nat2Z.inj_add in IH. cbn [length app Z.of_nat] in IH. change (Z.of_nat 1) with 1 in IH. apply IH; [|lia].
  apply at_next in Hl. by rewrite Z.add_assoc.
Qed.
Lemma no_mischief_nonul l : nonul (no_mischief <$> l).
Proof.
  apply Forall_fmap, Forall_true. intros x. unfold no_mischief, NUL. cbn.
  repeat match goal with |- context[?a <=? ?b] => destruct (Z.leb_spec a b) end; cbn; lia.
Qed.

Lemma model_name_spec fuel : ∀ l, nonul (model_name fuel l) ∧ (length (model_name fuel l) ≤ 32)%nat.
Proof.
  induction fuel as [|fuel IH]; intros l; [split; [constructor|cbn; lia]|]. cbn [model_name].
  repeat case_match; try (split; [constructor|cbn; lia]); [|apply IH].
  split; [apply no_mischief_nonul|]. rewrite length_fmap, length_take. unfold WPS_NAME_LEN. lia.
Qed.

Lemma get_wps_name_run fuel : ∀ pkt data l, at_off pkt data l → all_bytes l → (length l < fuel)%nat →
  get_wps_name fuel (replicate 33 0) WPS_NAME_LEN pkt data (strlen l) =
    Ret (strlen (model_name fuel l), model_name fuel l ++ replicate (33 - length (model_name fuel l)) 0).
Proof.
  induction fuel as [|fuel IH]; intros pkt data l Hl Hb Hf; [lia|]. cbn [get_wps_name model_name].
  destruct (Z.leb_spec 4 (strlen l)) as [H4|H4]; destruct (Nat.ltb_spec (length l) 4) as [H4'|H4'];
    try (unfold strlen in H4; lia); [|done].
  rewrite (at_get0 _ _ _ Hl), (at_get _ _ _ 1 Hl), (at_get _ _ _ 2 Hl), (at_get _ _ _ 3 Hl) by lia.
  cbn [mbind outcome_bind]. change (Z.to_nat 1) with 1%nat. change (Z.to_nat 2) with 2%nat. change (Z.to_nat 3) with 3%nat.
  rewrite !be16_bytes by done. pose proof (be16_range l 2 Hb) as Hn.
  assert (strlen l - 4 = strlen (drop 4 l)) as -> by (unfold strlen; rewrite length_drop; lia).
  pose proof (at_drop _ _ _ 4 Hl ltac:(lia)) as Hd. change (Z.to_nat 4) with 4%nat in Hd.
  destruct (Z.ltb_spec (strlen (drop 4 l)) (be16 l 2)); [done|]. destruct (be16 l 0 =? 4131).
  - assert ((if be16 l 2 <? WPS_NAME_LEN then be16 l 2 else WPS_NAME_LEN) = Z.min (be16 l 2) WPS_NAME_LEN) as ->
      by (destruct (Z.ltb_spec (be16 l 2) WPS_NAME_LEN); lia).
    set (m := take _ _). assert (Z.to_nat (Z.min (be16 l 2) WPS_NAME_LEN) = length m) as Hm
      by (unfold m, strlen, WPS_NAME_LEN in *; rewrite length_take; lia).
    unfold no_mischief_strncpy. rewrite Hm.
    rewrite (no_mischief_run m [] (replicate 33 0) : ∀ pkt src, _ → _ → no_mischief_loop (length m) (replicate 33 0) pkt 0 src = _).
    + cbn [mbind outcome_bind app]. rewrite drop_replicate. unfold strlen. rewrite length_fmap, <-Hm.
      do 2 f_equal. unfold WPS_NAME_LEN. lia.
    + change (strlen []) with 0. rewrite Z.add_0_r. by apply at_take.
    + rewrite length_replicate. unfold WPS_NAME_LEN in Hm. lia.
  - assert (strlen (drop 4 l) - be16 l 2 = strlen (drop (Z.to_nat (be16 l 2)) (drop 4 l))) as ->
      by (unfold strlen in *; rewrite !length_drop in *; lia).
    apply IH; [apply at_drop; [done|lia]|by do 2 apply all_bytes_drop|unfold strlen in *; rewrite !length_drop in *; lia].
Qed.

(** ** The extended capabilities *)

Lemma extcap_loop_run pkt l : ∀ done_t rest ie, at_off pkt ie l → all_bytes l → nonul done_t →
  strlen (done_t ++ NUL :: rest) = extcap_size → strlen done_t + 2 * strlen l < extcap_size →
  ∃ rest', extcap_loop (length l) (done_t ++ NUL :: rest) pkt (strlen done_t) ie =
    Ret (done_t ++ flat_map hex02 l ++ NUL :: rest') ∧ nonul (done_t ++ flat_map hex02 l).
Proof.
  induction l as [|x l IH]; intros done_t rest ie Hl Hb Hd Hsize Hfit; cbn [extcap_loop length flat_map].
  { exists rest. split; [done|by rewrite app_nil_r]. }
  inversion_clear Hb as [|? ? Hx Hb']. destruct (hex02_nonul x Hx) as [Hh Hh2].
  rewrite cstr_app by done. cbn [mbind outcome_bind].
  rewrite (at_get0 _ _ _ Hl) by (unfold strlen; cbn [length]; lia). cbn [mbind outcome_bind nth].
  unfold strlen in Hfit. cbn [length] in Hfit. change extcap_size with 517 in *.
  rewrite s32_id by (unfold strlen; lia).
  destruct (snprintf_at_run (done_t ++ NUL :: rest) (strlen done_t) (517 - strlen done_t) (hex02 x)) as (rest' & Hr & Hlen);
    [unfold strlen in *; lia..|].
  rewrite Hr. cbn [mbind outcome_bind]. unfold strlen in Hlen, Hsize |- *. rewrite Nat2Z.id, take_app_length in Hlen |- *.
  rewrite (take_ge (hex02 x)) in Hlen |- * by (rewrite Hh2; lia).
  assert (Z.of_nat (length done_t) + Z.of_nat (length (hex02 x)) = strlen (done_t ++ hex02 x)) as ->
    by (unfold strlen; rewrite length_app; lia).
  rewrite (assoc_L (++)) in Hlen |- *. destruct (IH (done_t ++ hex02 x) rest' (ie + 1)) as (rest2 & -> & Hn).
  - by apply at_next in Hl.
  - done.
  - by apply nonul_app.
  - unfold strlen. by rewrite Hlen.
  - unfold strlen. rewrite length_app, Hh2. lia.
  - exists rest2. rewrite <-!(assoc_L (++)) in *. done.
Qed.

Lemma print_extcap_run pkt ie l : at_off pkt ie l → all_bytes l →
  print_extcap pkt ie (strlen l) = Ret (lit ",extcap:" ++ flat_map hex02 (take (Z.to_nat MAX_EXTCAP) l)).
Proof.
  intros Hl Hb. unfold print_extcap. set (d := take (Z.to_nat MAX_EXTCAP) l).
  assert (Z.to_nat (if strlen l <? MAX_EXTCAP then strlen l else MAX_EXTCAP) = length d) as ->.
  { unfold d, strlen. rewrite length_take. destruct (Z.ltb_spec (Z.of_nat (length l)) MAX_EXTCAP); lia. }
  destruct (snprintf_at_run (replicate (Z.to_nat extcap_size) 0) 0 extcap_size (lit ",extcap:")) as (rest & Hr & Hlen); [done..|].
  rewrite Hr. cbn [mbind outcome_bind]. change (take (Z.to_nat 0) _) with (@nil Z) in *. rewrite app_nil_l in *.
  rewrite (take_ge (lit ",extcap:")) in * by (change (length (lit ",extcap:")) with 8%nat; change extcap_size with 517; lia).
  change (Z.of_nat (length (lit ",extcap:"))) with (strlen (lit ",extcap:")).
  destruct (extcap_loop_run pkt d (lit ",extcap:") rest ie) as (rest' & -> & Hn).
  - by apply at_take.
  - by apply all_bytes_take.
  - eauto with nonul_db.
  - unfold strlen. by rewrite Hlen.
  - assert (length d ≤ 254)%nat by (unfold d, MAX_EXTCAP; rewrite length_take; lia).
    change (strlen (lit ",extcap:")) with 8. change extcap_size with 517. unfold strlen. lia.
  - cbn [mbind outcome_bind]. rewrite (assoc_L (++)). by apply cstr_app.
Qed.

(** ** The elements *)

Lemma when_set_run c m f s : (c = true → m = Ret f) → when_set c m s = Ret (if c then f s else s).
Proof. unfold when_set. destruct c; [|done]. by intros ->. Qed.

Lemma get_le16_run pkt ie l k : at_off pkt ie l → 0 ≤ k → k + 1 < strlen l → get_le16 pkt (ie + k) = Ret (le16 l (Z.to_nat k)).
Proof.
  intros Hl Hk Hn. unfold get_le16. rewrite <-Z.add_assoc, !(at_get _ _ _ _ Hl) by lia. cbn [mbind outcome_bind].
  unfold le16. do 4 f_equal. lia.
Qed.
Lemma get_le32_run pkt ie l k : at_off pkt ie l → 0 ≤ k → k + 3 < strlen l → get_le32 pkt (ie + k) = Ret (le32 l (Z.to_nat k)).
Proof.
  intros Hl Hk Hn. unfold get_le32. rewrite <-Z.add_assoc, !(get_le16_run _ _ _ _ Hl) by lia. cbn [mbind outcome_bind].
  unfold le32. do 4 f_equal. lia.
Qed.
Lemma le16_range l k : all_bytes l → 0 ≤ le16 l k < 65536.
Proof. intros Hl. unfold le16. pose proof (nth_byte l k Hl). pose proof (nth_byte l (S k) Hl). unfold is_byte in *. lia. Qed.
Lemma le32_range l k : all_bytes l → 0 ≤ le32 l k < 2 ^ 32.
Proof. intros Hl. unfold le32. pose proof (le16_range l k Hl). pose proof (le16_range l (2 + k) Hl). lia. Qed.

(** A part with a field of hexadecimal digits fits its array. *)
Lemma printed_part size t n v : (0 < n ≤ 8)%nat → 0 ≤ v < 16 ^ Z.of_nat n → strlen t + Z.of_nat n < size →
  printed size (t ++ hex_pad n v) = t ++ hex_pad n v.
Proof. intros Hn Hv Hs. apply printed_id. unfold strlen in *. rewrite length_app, hex_pad_length by done. lia. Qed.

(** A field read from the frame and printed into its part. *)
Lemma when_field c (get : outcome Z) v size t n (set : bytes → sig_parts → sig_parts) s :
  (0 < n ≤ 8)%nat → strlen t + Z.of_nat n < size →
  (c = true → get = Ret v ∧ 0 ≤ v < 16 ^ Z.of_nat n) →
  when_set c (v ← get; Ret (set (printed size (t ++ hex_pad n v)))) s = Ret (if c then set (t ++ hex_pad n v) s else s).
Proof.
  intros Hn Hs Hv. apply when_set_run. intros Hc. destruct (Hv Hc) as [-> Hr]. cbn [mbind outcome_bind].
  by rewrite printed_part.
Qed.

Lemma plain_element_run pkt id ie d s : at_off pkt ie d → all_bytes d →
  plain_element pkt id (strlen d) ie s = Ret (dec id, plain_parts id d s).
Proof.
  intros Hl Hb. pose proof (get_le16_run pkt ie d 0 Hl) as H16. pose proof (get_le32_run pkt ie d 0 Hl) as H32.
  rewrite Z.add_0_r in H16, H32. unfold plain_element.
  rewrite (when_field _ _ (le16 d 0)); [cbn [mbind outcome_bind]|lia|reflexivity|intros [_ H]%andb_prop].
  2: { apply Z.leb_le in H. rewrite H16 by lia. split; [done|by apply le16_range]. }
  rewrite (when_field _ _ (nth 2 d 0)); [cbn [mbind outcome_bind]|lia|reflexivity|intros [_ H]%andb_prop].
  2: { apply Z.leb_le in H. rewrite (at_get _ _ _ _ Hl) by lia. split; [done|by apply nth_byte]. }
  rewrite (when_set_run _ _ (set_htmcs (lit ",htmcs:" ++ hex_pad 8 (u16 (le32 d 3)))));
    [cbn [mbind outcome_bind]|intros [_ H]%andb_prop].
  2: { apply Z.leb_le in H. rewrite (get_le32_run _ _ _ _ Hl) by lia. cbn [mbind outcome_bind].
       rewrite printed_part; [done|lia| |reflexivity].
       change (Z.to_nat 3) with 3%nat. pose proof (Z.mod_pos_bound (le32 d 3) (2 ^ 16)). change (16 ^ Z.of_nat 8) with 4294967296. unfold u16. lia. }
  rewrite (when_field _ _ (le32 d 0)); [cbn [mbind outcome_bind]|lia|reflexivity|intros [_ H]%andb_prop].
  2: { apply Z.leb_le in H. rewrite H32 by lia. split; [done|by apply le32_range]. }
  rewrite (when_field _ _ (le32 d 4)); [cbn [mbind outcome_bind]|lia|reflexivity|intros [_ H]%andb_prop].
  2: { apply Z.leb_le in H. rewrite (get_le32_run _ _ _ _ Hl) by lia. split; [done|by apply le32_range]. }
  rewrite (when_field _ _ (le32 d 8)); [cbn [mbind outcome_bind]|lia|reflexivity|intros [_ H]%andb_prop].
  2: { apply Z.leb_le in H. rewrite (get_le32_run _ _ _ _ Hl) by lia. split; [done|by apply le32_range]. }
  rewrite (when_set_run _ _ (set_extcap (lit ",extcap:" ++ flat_map hex02 (take (Z.to_nat MAX_EXTCAP) d))));
    [cbn [mbind outcome_bind]|intros _].
  2: by rewrite print_extcap_run.
  rewrite (when_field _ _ (le16 d 0)); [done|lia|reflexivity|intros [_ H]%andb_prop].
  apply Z.eqb_eq in H. rewrite H16 by lia. split; [done|by apply le16_range].
Qed.

Lemma vendor_element_run pkt id ie d s : at_off pkt ie d → all_bytes d → 4 ≤ strlen d → id = 221 →
  vendor_element pkt id (strlen d) ie s = Ret (tag (id, d), vendor_parts d s).
Proof.
  intros Hl Hb H4 ->. unfold vendor_element, tag, vendor_parts, is_vendor.
  destruct (Z.leb_spec 4 (strlen d)); [cbn [Z.eqb Pos.eqb andb]|lia].
  rewrite (at_get0 _ _ _ Hl), (at_get _ _ _ 1 Hl), (at_get _ _ _ 2 Hl), (at_get _ _ _ 3 Hl) by lia.
  cbn [mbind outcome_bind]. change (Z.to_nat 1) with 1%nat. change (Z.to_nat 2) with 2%nat. change (Z.to_nat 3) with 3%nat.
  set (c := _ && (_ =? 4)). destruct c; [|done]. cbn [andb].
  assert (strlen d - 4 = strlen (drop 4 d)) as -> by (unfold strlen in *; rewrite length_drop; lia).
  change (Z.to_nat (WPS_NAME_LEN + 1)) with 33%nat. set (fuel := S (length d)).
  replace (S (Z.to_nat (strlen d))) with fuel by (unfold fuel, strlen; by rewrite Nat2Z.id).
  rewrite get_wps_name_run.
  - destruct (model_name_spec fuel (drop 4 d)) as [Hn Hm]. set (m := model_name fuel (drop 4 d)) in *.
    cbn [mbind outcome_bind]. destruct (Z.eqb_spec (strlen m) 0); cbn [negb mbind outcome_bind]; [done|].
    replace (33 - length m)%nat with (S (32 - length m)) by lia. cbn [replicate]. rewrite cstr_app by done.
    cbn [mbind outcome_bind]. rewrite printed_id; [done|]. unfold strlen. rewrite length_app. change (length (lit ",wps:")) with 5%nat. lia.
  - apply (at_drop pkt ie d 4); [done|lia].
  - by apply all_bytes_drop.
  - rewrite length_drop. unfold fuel. lia.
Qed.

Lemma tag_short x : is_byte x.1 → all_bytes x.2 → (length (tag x) < 30)%nat.
Proof.
  destruct x as [id d]. cbn [fst snd]. intros Hid Hd. unfold is_byte in Hid. pose proof (dec_length id 3).
  pose proof (nth_byte d 3 Hd) as H3. unfold is_byte in H3. pose proof (dec_length (nth 3 d 0) 3) as H3'.
  unfold tag. destruct (is_vendor id d); [|lia]. rewrite !length_app.
  rewrite !(λ k, proj2 (hex02_nonul (nth k d 0) (nth_byte d k Hd))). change (length (lit _)) with 1%nat. lia.
Qed.

(** ** The text *)

(** The string and the room left once the text [t] was appended to the empty string in an
    array of [size] bytes. *)
Definition shown (size : Z) (t : bytes) : bytes * Z :=
  let s := take (Z.to_nat (size - 1)) t in (s, size - strlen s - 1).
Lemma append_run size t src : 1 ≤ size → append size (shown size t) src = Ret (shown size (t ++ src)).
Proof.
  intros Hs. unfold append, shown, strncat.
  assert (take (Z.to_nat (size - 1)) t ++ take (Z.to_nat (size - strlen (take (Z.to_nat (size - 1)) t) - 1)) src =
          take (Z.to_nat (size - 1)) (t ++ src)) as ->.
  { rewrite take_app. f_equal. unfold strlen. rewrite length_take. f_equal. lia. }
  destruct (Z.ltb_spec (strlen (take (Z.to_nat (size - 1)) (t ++ src))) size) as [|H]; [done|].
  unfold strlen in H. rewrite length_take in H. lia.
Qed.

(** The tags, with a comma before each but the first of the signature. *)
Fixpoint tags_from (num : Z) (es : list (Z * bytes)) : bytes :=
  match es with [] => [] | x :: es => ((if num =? 0 then [] else lit ",") ++ tag x) ++ tags_from (num + 1) es end.
Lemma tags_from_pos es num : 0 < num → tags_from num es = flat_map (cons 44) (tag <$> es).
Proof.
  revert num. induction es as [|x es IH]; intros num Hn; [done|]. cbn [tags_from fmap list_fmap flat_map].
  destruct (Z.eqb_spec num 0); [lia|]. rewrite IH by lia. done.
Qed.
Lemma tags_from_0 es : tags_from 0 es = tags es.
Proof. destruct es as [|x es]; [done|]. unfold tags. cbn [tags_from fmap list_fmap Z.eqb app]. by rewrite tags_from_pos. Qed.

Lemma element_run pkt id ie d s : at_off pkt ie d → all_bytes d →
  (if (id =? 221) && (4 <=? strlen d) then vendor_element pkt id (strlen d) ie s else plain_element pkt id (strlen d) ie s) =
  Ret (tag (id, d), element_parts s (id, d)).
Proof.
  intros Hl Hb. unfold element_parts. fold (is_vendor id d). destruct (is_vendor id d) eqn:Hv.
  - unfold is_vendor in Hv. apply andb_prop in Hv as [Hid%Z.eqb_eq Hn%Z.leb_le]. by apply vendor_element_run.
  - rewrite plain_element_run by done. unfold tag. by rewrite Hv.
Qed.

Lemma ie_loop_run fuel : ∀ size t num pkt ie l s, 1 ≤ size → 0 ≤ num → at_off pkt ie l → all_bytes l → (length l < fuel)%nat →
  ie_loop fuel size (shown size t) num pkt ie (strlen l) s =
    Ret (shown size (t ++ tags_from num (elements fuel l)), foldl element_parts s (elements fuel l)).
Proof.
  induction fuel as [|fuel IH]; intros size t num pkt ie l s Hsize Hnum Hl Hb Hf; [lia|]. cbn [ie_loop elements].
  destruct l as [|id [|n l]]; [by rewrite app_nil_r|by rewrite app_nil_r|].
  assert ((2 <=? strlen (id :: n :: l)) = true) as -> by (apply Z.leb_le; unfold strlen; cbn [length]; lia).
  rewrite (at_get0 _ _ _ Hl), (at_get _ _ _ 1 Hl) by (unfold strlen; cbn [length]; lia).
  cbn [mbind outcome_bind]. change (nth 0 (id :: n :: l) 0) with id. change (nth (Z.to_nat 1) (id :: n :: l) 0) with n.
  assert (strlen (id :: n :: l) - 2 = strlen l) as -> by (unfold strlen; cbn [length]; lia).
  apply at_next, at_next in Hl. rewrite <-Z.add_assoc in Hl. change (1 + 1) with 2 in Hl.
  inversion_clear Hb as [|? ? Hid Hb']. inversion_clear Hb' as [|? ? Hn Hb]. unfold is_byte in Hn. cbn [length] in Hf.
  destruct (Z.ltb_spec (strlen l) n); [by rewrite app_nil_r|].
  set (d := take (Z.to_nat n) l). assert (n = strlen d) as Hd by (unfold d, strlen in *; rewrite length_take; lia).
  pose proof (element_run pkt id (ie + 2) d s (at_take _ _ _ _ Hl) (all_bytes_take _ _ Hb)) as He.
  rewrite <-Hd in He. rewrite He.
  cbn [mbind outcome_bind]. set (sep := if num =? 0 then _ else _).
  rewrite (printed_id 32).
  2: { pose proof (tag_short (id, d) Hid (all_bytes_take _ _ Hb)). unfold strlen. rewrite length_app.
       assert (length sep ≤ 1)%nat by (unfold sep; destruct (num =? 0); apply Nat.leb_le; reflexivity).
       cbn [fst snd] in *. lia. }
  rewrite append_run by done. cbn [mbind outcome_bind].
  assert (strlen l - n = strlen (drop (Z.to_nat n) l)) as -> by (unfold strlen in *; rewrite length_drop; lia).
  rewrite IH; [|done|lia|apply at_drop; [done|lia]|by apply all_bytes_drop|rewrite length_drop; lia].
  cbn [tags_from foldl]. by rewrite <-!(assoc_L (++)).
Qed.

Lemma append_parts_run size parts : ∀ t, 1 ≤ size →
  append_parts size (shown size t) parts = Ret (shown size (t ++ concat parts)).
Proof.
  induction parts as [|p parts IH]; intros t Hs; cbn [append_parts concat]; [by rewrite app_nil_r|].
  rewrite (assoc_L (++)). destruct (Z.eqb_spec (strlen p) 0) as [H0|]; cbn [negb].
  - cbn [mbind outcome_bind]. destruct p; [|unfold strlen in H0; cbn [length] in H0; lia]. rewrite app_nil_r. by apply IH.
  - rewrite append_run by done. cbn [mbind outcome_bind]. by apply IH.
Qed.

Lemma ie_to_string_run size pkt ie ies :
  1 ≤ size → at_off pkt ie ies → all_bytes ies →
  ie_to_string size pkt ie (strlen ies) = Ret (take (Z.to_nat (size - 1)) (signature ies)).
Proof.
  intros Hs Hl Hb. unfold ie_to_string, signature.
  assert (([], size - 1) = shown size []) as ->.
  { unfold shown. rewrite take_nil. unfold strlen. cbn. do 2 f_equal. lia. }
  replace (S (Z.to_nat (strlen ies))) with (S (length ies)) by (unfold strlen; by rewrite Nat2Z.id).
  rewrite ie_loop_run by (done || lia). cbn [mbind outcome_bind].
  rewrite append_parts_run by done. cbn [mbind outcome_bind app]. rewrite tags_from_0. done.
Qed.

(** ** The characters of a signature *)

(** Letters, digits, '_' and the separators. *)
Definition sig_char (c : Z) : bool := (no_mischief c =? c) || bool_decide (c ∈ [40; 41; 44; 58]).
Definition clean (t : bytes) : Prop := Forall (λ c, sig_char c = true) t.

Lemma clean_app a b : clean a → clean b → clean (a ++ b).
Proof. apply Forall_app_2. Qed.
Lemma clean_nil : clean [].
Proof. constructor. Qed.
Lemma sig_char_digit c : 48 ≤ c ≤ 57 → sig_char c = true.
Proof.
  intros Hc. unfold sig_char, no_mischief. destruct (Z.leb_spec 48 c), (Z.leb_spec c 57); try lia.
  rewrite !orb_true_r, Z.eqb_refl. done.
Qed.
Lemma sig_char_letter c : 97 ≤ c ≤ 122 → sig_char c = true.
Proof.
  intros Hc. unfold sig_char, no_mischief. destruct (Z.leb_spec 97 c), (Z.leb_spec c 122); try lia.
  cbn [andb orb]. by rewrite Z.eqb_refl.
Qed.
Lemma clean_dec n : 0 ≤ n → clean (dec n).
Proof.
  intros Hn. destruct (dec_digits n Hn) as (_ & Hd & _). eapply Forall_impl; [exact Hd|]. intros c Hc. by apply sig_char_digit.
Qed.
Lemma clean_hex_digits fuel : ∀ n acc, clean acc → clean (hex_digits fuel n acc).
Proof.
  induction fuel as [|fuel IH]; intros n acc Hacc; [done|]. cbn [hex_digits]. pose proof (Z.mod_pos_bound n 16) as Hd.
  assert (clean ((if n mod 16 <? 10 then 48 + n mod 16 else 87 + n mod 16) :: acc)) as Hc.
  { constructor; [|done]. destruct (Z.ltb_spec (n mod 16) 10); [apply sig_char_digit|apply sig_char_letter]; lia. }
  destruct (n <? 16); [done|by apply IH].
Qed.
Lemma clean_hex_pad n v : clean (hex_pad n v).
Proof. apply clean_app; [by apply Forall_replicate|apply clean_hex_digits, clean_nil]. Qed.
Lemma clean_hex02 v : clean (hex02 v).
Proof. apply (clean_hex_pad 2 (u32 v)). Qed.
Lemma clean_no_mischief l : clean (no_mischief <$> l).
Proof.
  apply Forall_fmap, Forall_true. intros c. cbn. unfold sig_char. apply orb_true_intro. left. apply Z.eqb_eq.
  unfold no_mischief at 2 3. destruct (_ || _) eqn:Hc; [|done]. unfold no_mischief. by rewrite Hc.
Qed.
Lemma clean_model_name fuel : ∀ l, clean (model_name fuel l).
Proof.
  induction fuel as [|fuel IH]; intros l; [apply clean_nil|]. cbn [model_name].
  repeat case_match; try apply clean_nil; [apply clean_no_mischief|apply IH].
Qed.

Create HintDb clean_db.
#[local] Hint Resolve clean_app clean_nil clean_hex_pad clean_hex02 clean_model_name nth_byte : clean_db.
#[local] Hint Extern 1 (clean (lit _)) => by apply (bool_decide_unpack _); vm_compute : clean_db.
#[local] Hint Extern 2 (clean (dec _)) => apply clean_dec : clean_db.

Lemma clean_flat_map {A} (f : A → bytes) l : (∀ x, clean (f x)) → clean (flat_map f l).
Proof. intros Hf. induction l; [apply clean_nil|by apply clean_app]. Qed.
Lemma clean_concat ls : Forall clean ls → clean (concat ls).
Proof. induction 1; [apply clean_nil|by apply clean_app]. Qed.

Definition element_ok (x : Z * bytes) : Prop := is_byte x.1 ∧ all_bytes x.2.
Lemma elements_ok fuel : ∀ l, all_bytes l → Forall element_ok (elements fuel l).
Proof.
  induction fuel as [|fuel IH]; intros l Hl; [constructor|]. cbn [elements].
  destruct l as [|id [|n l]]; [constructor..|]. destruct (strlen l <? n); [constructor|].
  apply Forall_cons in Hl as [Hid [_ Hl]%Forall_cons].
  constructor; [split; [done|by apply all_bytes_take]|by apply IH, all_bytes_drop].
Qed.
Lemma clean_tag x : element_ok x → clean (tag x).
Proof.
  destruct x as [id d]. intros [[Hid _] Hd]. cbn [fst snd] in *. unfold tag.
  assert (0 ≤ nth 3 d 0) by (by apply nth_byte). destruct (is_vendor id d); eauto 12 with clean_db.
Qed.

Definition clean_parts (s : sig_parts) : Prop := Forall clean (parts_list s).
Definition setter_ok (set : bytes → sig_parts → sig_parts) : Prop :=
  ∀ t s, clean t → clean_parts s → clean_parts (set t s).
Ltac setter_tac := intros t s Ht Hs; unfold clean_parts, parts_list in *; cbn; rewrite !Forall_cons in *; tauto.
Lemma setters_ok : setter_ok set_htcap ∧ setter_ok set_htagg ∧ setter_ok set_htmcs ∧ setter_ok set_vhtcap ∧ setter_ok set_vhtrxmcs ∧
  setter_ok set_vhttxmcs ∧ setter_ok set_txpow ∧ setter_ok set_extcap ∧ setter_ok set_wps.
Proof. split_and!; setter_tac. Qed.
Lemma clean_when set (c : bool) t s : setter_ok set → clean t → clean_parts s → clean_parts (if c then set t s else s).
Proof. intros Hset Ht Hs. destruct c; [by apply Hset|done]. Qed.
Lemma clean_element s x : clean_parts s → clean_parts (element_parts s x).
Proof.
  assert (∀ n d, clean (lit ",extcap:" ++ flat_map hex02 (take n d))) as Hext
    by (intros; apply clean_app; [auto with clean_db|apply clean_flat_map, clean_hex02]).
  pose proof setters_ok as (? & ? & ? & ? & ? & ? & ? & ? & ?).
  destruct x as [id d]. intros Hs. unfold element_parts, vendor_parts, plain_parts.
  destruct (is_vendor id d); repeat (apply clean_when; [done|by auto with clean_db|]); done.
Qed.

Lemma signature_clean l : all_bytes l → clean (signature l).
Proof.
  intros Hl. unfold signature. pose proof (elements_ok (S (length l)) l Hl) as He. set (es := elements _ l) in *.
  apply clean_app.
  - rewrite <-tags_from_0. generalize 0. induction He as [|x es Hx _ IH]; intros num; [apply clean_nil|]. cbn [tags_from].
    apply clean_app; [|by apply IH]. apply clean_app; [case_match; auto with clean_db|by apply clean_tag].
  - apply clean_concat. assert (clean_parts no_parts) as H0 by (repeat constructor).
    clear He. revert H0. generalize no_parts. induction es as [|x es IH]; intros s Hs; [done|]. apply IH, clean_element, Hs.
Qed.

(** C36: [ie_to_string] of the bytes of a packet's information elements, whatever they are, returns
    the first characters of their signature, as many as its array has room for with a
    terminator: it reads nothing outside the elements and writes nothing outside its
    arrays.  However hostile the sender, they are letters, digits, underscores and the four
    separators. *)
Theorem ie_to_string_prints size pkt ie ies :
  1 ≤ size → at_off pkt ie ies → all_bytes ies →
  ∃ s, ie_to_string size pkt ie (strlen ies) = Ret s ∧ s = take (Z.to_nat (size - 1)) (signature ies) ∧
       strlen s < size ∧ Forall (λ c, sig_char c = true) s.
Proof.
  intros Hs Hl Hb. eexists. split; [by apply ie_to_string_run|]. split_and!; [done| |].
  - unfold strlen. rewrite length_take. lia.
  - by apply Forall_take, signature_clean.
Qed.

(** ** The program *)

(** A frame of a capture: the radiotap header, the management header, the elements and the
    checksum. *)
Record frame := Frame { radio : bytes; header : bytes; ies : bytes; fcs : bytes }.
Definition frame_bytes (f : frame) : bytes := radio f ++ header f ++ ies f ++ fcs f.

(** The type and the subtype in the frame control field. *)
Definition is_mgmt (f : frame) (subtype : Z) : bool :=
  let fc := le16 (header f) 0 in
  (Z.land (Z.shiftr fc 2) 3 =? 0) && (Z.land (Z.shiftr fc 4) 15 =? subtype).
Definition frame_ok (f : frame) : Prop :=
  all_bytes (frame_bytes f) ∧ (length (fcs f) = 4)%nat ∧ 4 ≤ strlen (radio f) ∧ le16 (radio f) 2 = strlen (radio f) ∧
  strlen (frame_bytes f) < 2 ^ 31 ∧
  length (header f) = (if is_mgmt f ASSOC_REQ then 28 else 24)%nat.

(** The sender's address as it is printed, and what a frame gives. *)
Definition mac_text (f : frame) : bytes :=
  let h k := hex02 (nth k (header f) 0) in
  h 10%nat ++ lit ":" ++ h 11%nat ++ lit ":" ++ h 12%nat ++ lit ":" ++ h 13%nat ++ lit ":" ++ h 14%nat ++ lit ":" ++ h 15%nat.
Definition shown_signature (f : frame) : bytes := take 4095 (signature (ies f)).
Definition see (c : capture) (f : frame) : capture :=
  if is_mgmt f ASSOC_REQ then Capture (mac c) (probe_sig c) (shown_signature f)
  else if is_mgmt f PROBE_REQ then Capture (Some (mac_text f)) (shown_signature f) (assoc_sig c)
  else c.

Lemma frame_parts f : at_off (frame_bytes f) 0 (radio f) ∧ at_off (frame_bytes f) (strlen (radio f)) (header f) ∧
  at_off (frame_bytes f) (strlen (radio f) + strlen (header f)) (ies f).
Proof.
  unfold frame_bytes, strlen. split_and!.
  - by exists [], (header f ++ ies f ++ fcs f).
  - by exists (radio f), (ies f ++ fcs f).
  - exists (radio f ++ header f), (fcs f). rewrite <-(assoc_L (++)). split; [done|]. unfold strlen. rewrite length_app. lia.
Qed.

Section packets.
Context `{!CPlatform}.

Lemma do_packet_sees f c : frame_ok f → do_packet (frame_bytes f) c = Ret (see c f).
Proof.
  intros (Hb & Hfcs & Hr4 & Hlen & Hmax & Hh). destruct (frame_parts f) as (Hr & Hhd & Hi).
  assert (all_bytes (ies f)) as Hbi.
  { unfold frame_bytes in Hb. apply Forall_app in Hb as [_ [_ [Hb _]%Forall_app]%Forall_app]. done. }
  assert (Z.of_nat (length (frame_bytes f)) = strlen (radio f) + strlen (header f) + strlen (ies f) + 4) as Hcap.
  { unfold frame_bytes, strlen. rewrite !length_app, Hfcs. lia. }
  unfold do_packet. rewrite (get_le16_run _ _ _ 2 Hr : _ → _ → get_le16 _ 2 = _) by lia. cbn [mbind outcome_bind].
  change (Z.to_nat 2) with 2%nat. rewrite Hlen, Hcap.
  assert (24 ≤ strlen (header f)) as Hh24 by (unfold strlen; rewrite Hh; case_match; lia).
  pose proof (get_le16_run _ _ _ 0 Hhd) as H0. rewrite Z.add_0_r in H0. rewrite H0 by lia. clear H0. cbn [mbind outcome_bind].
  change (Z.to_nat 0) with 0%nat. unfold see, is_mgmt in *. destruct (_ =? 0) eqn:Ht; cbn [andb] in *; [|done].
  assert (∀ k, ulong (strlen (radio f) + k + strlen (ies f) + 4 - k - strlen (radio f) - 4) = strlen (ies f)) as Hul.
  { intros k. rewrite ulong_id; [lia|]. unfold strlen in *. lia. }
  set (sub := Z.land (Z.shiftr _ 4) 15) in *. destruct (sub =? ASSOC_REQ) eqn:Hsub.
  - assert (strlen (header f) = 28) as Hs by (unfold strlen; rewrite Hh; done). rewrite Hs in *.
    apply Z.eqb_eq in Hsub. rewrite Hul, (ie_to_string_run SIG_LEN) by done. cbn [mbind outcome_bind]. by rewrite Hsub.
  - cbn [mbind outcome_bind]. assert (strlen (header f) = 24) as Hs by (unfold strlen; rewrite Hh; done). rewrite Hs in *.
    destruct (sub =? PROBE_REQ); [|done].
    rewrite (at_get _ _ _ 10 Hhd), (at_get _ _ _ 11 Hhd), (at_get _ _ _ 12 Hhd), (at_get _ _ _ 13 Hhd),
      (at_get _ _ _ 14 Hhd), (at_get _ _ _ 15 Hhd) by lia. cbn [mbind outcome_bind].
    rewrite Hul, (ie_to_string_run SIG_LEN) by done. done.
Qed.

Lemma packet_loop_sees fs : ∀ c, Forall frame_ok fs → packet_loop (frame_bytes <$> fs) c = Ret (foldl see c fs).
Proof.
  induction fs as [|f fs IH]; intros c Hfs; [done|]. apply Forall_cons in Hfs as [Hf Hfs].
  cbn [packet_loop fmap list_fmap foldl]. rewrite do_packet_sees by done. cbn [mbind outcome_bind]. by apply IH.
Qed.
End packets.

(** What the program prints of a capture that it opens. *)
Definition report (c : capture) (m : bytes) : exited :=
  Exited (m ++ lit " wifi4|probe:" ++ probe_sig c ++ lit "|assoc:" ++ assoc_sig c ++ [10]) []
    (if negb (strlen (probe_sig c) =? 0) && negb (strlen (assoc_sig c) =? 0) && negb (strlen m =? 0) then 0 else 1).

Definition is_probe (f : frame) : bool := is_mgmt f PROBE_REQ.
Definition is_assoc (f : frame) : bool := is_mgmt f ASSOC_REQ.
(** The last frame of a kind. *)
Definition last_of (p : frame → bool) (fs : list frame) : option frame := last (filter (λ f, p f = true) fs).

Lemma last_of_snoc p fs f : last_of p (fs ++ [f]) = if p f then Some f else last_of p fs.
Proof.
  unfold last_of. rewrite filter_app. destruct (decide (p f = true)) as [Hp|Hp].
  - rewrite filter_cons_True, filter_nil, last_snoc by done. by rewrite Hp.
  - rewrite filter_cons_False, filter_nil, app_nil_r by done. apply not_true_is_false in Hp. by rewrite Hp.
Qed.
Lemma probe_not_assoc f : is_assoc f = true → is_probe f = false.
Proof.
  unfold is_assoc, is_probe, is_mgmt. intros [Ht Hs%Z.eqb_eq]%andb_prop. rewrite Ht, Hs. done.
Qed.

Lemma seen fs : foldl see (Capture None [] []) fs =
  Capture (mac_text <$> last_of is_probe fs) (from_option shown_signature [] (last_of is_probe fs))
    (from_option shown_signature [] (last_of is_assoc fs)).
Proof.
  induction fs as [|f fs IH] using rev_ind; [done|]. rewrite foldl_snoc, IH, !last_of_snoc. unfold see. cbn [mac probe_sig assoc_sig].
  fold (is_assoc f) (is_probe f). destruct (is_assoc f) eqn:Ha; [by rewrite (probe_not_assoc f Ha)|]. by destruct (is_probe f).
Qed.

Section program.
Context `{!CPlatform} (pcap_packets : bytes → option (list bytes)).

Lemma main_run progname name fs : pcap_packets name = Some (frame_bytes <$> fs) → Forall frame_ok fs →
  main pcap_packets progname [Opt_f name] =
    match last_of is_probe fs with
    | Some f => Ret (report (foldl see (Capture None [] []) fs) (mac_text f))
    | None => Ub
    end.
Proof.
  intros Hp Hfs. unfold main. cbn [filename_of]. rewrite Hp, packet_loop_sees by done. cbn [mbind outcome_bind].
  rewrite seen. cbn [mac]. by destruct (last_of is_probe fs).
Qed.

(** Of a capture of whole frames the program prints one line: the sender of the last probe
    request, the signature of that request and the signature of the last association
    request, whatever other frames are between them; it ends with 0 exactly when both
    signatures are not empty. *)
Theorem capture_signature progname name fs f :
  pcap_packets name = Some (frame_bytes <$> fs) → Forall frame_ok fs → last_of is_probe fs = Some f →
  let assoc := from_option shown_signature [] (last_of is_assoc fs) in
  main pcap_packets progname [Opt_f name] =
    Ret (Exited (mac_text f ++ lit " wifi4|probe:" ++ shown_signature f ++ lit "|assoc:" ++ assoc ++ [10]) []
           (if decide (shown_signature f = [] ∨ assoc = []) then 1 else 0)).
Proof.
  intros Hp Hfs Hf assoc. rewrite (main_run progname name fs) by done. rewrite seen, Hf. unfold report. cbn [probe_sig assoc_sig from_option].
  fold assoc. do 2 f_equal.
  assert ((strlen (mac_text f) =? 0) = false) as -> by (apply Z.eqb_neq; unfold mac_text, strlen; rewrite !length_app; change (length (lit ":")) with 1%nat; lia).
  cbn [negb]. rewrite andb_true_r.
  assert (∀ l : bytes, negb (strlen l =? 0) = bool_decide (l ≠ [])) as Hne by (by intros []).
  rewrite !Hne. repeat case_bool_decide; case_decide; cbn; naive_solver.
Qed.

(** Without a probe request the array of the sender's address is printed before it was set. *)
Lemma no_probe_reads_mac progname name fs :
  pcap_packets name = Some (frame_bytes <$> fs) → Forall frame_ok fs → last_of is_probe fs = None →
  main pcap_packets progname [Opt_f name] = Ub.
Proof. intros Hp Hfs Hf. rewrite (main_run progname name fs) by done. by rewrite Hf. Qed.

(** A probe request of a capture without checksums and elements: the length of the
    elements wraps, and the loop reads behind the packet. *)
Lemma truncated_probe_overruns rad hdr c : let f := Frame rad hdr [] [] in
  all_bytes (frame_bytes f) → 4 ≤ strlen rad → le16 rad 2 = strlen rad → length hdr = 24%nat → is_probe f = true →
  do_packet (frame_bytes f) c = Ub.
Proof.
  intros f Hb Hr4 Hlen Hh Hp. destruct (frame_parts f) as (Hr & Hhd & _). change (radio f) with rad in *. change (header f) with hdr in *.
  assert (Z.of_nat (length (frame_bytes f)) = strlen rad + 24) as Hcap.
  { unfold f, frame_bytes, strlen. cbn [radio header ies fcs app]. rewrite app_nil_r, length_app, Hh. lia. }
  unfold do_packet. rewrite (get_le16_run _ _ _ 2 Hr : _ → _ → get_le16 _ 2 = _) by lia. cbn [mbind outcome_bind].
  change (Z.to_nat 2) with 2%nat. rewrite Hlen, Hcap. assert (strlen hdr = 24) as Hs by (unfold strlen; by rewrite Hh).
  pose proof (get_le16_run _ _ _ 0 Hhd) as H0. rewrite Z.add_0_r in H0. rewrite H0 by lia. clear H0. cbn [mbind outcome_bind].
  change (Z.to_nat 0) with 0%nat. unfold is_probe, is_mgmt in Hp. cbn [header f] in Hp.
  apply andb_prop in Hp as [-> ->%Z.eqb_eq]. change (PROBE_REQ =? ASSOC_REQ) with false. change (PROBE_REQ =? PROBE_REQ) with true.
  cbn [andb mbind outcome_bind].
  rewrite (at_get _ _ _ 10 Hhd), (at_get _ _ _ 11 Hhd), (at_get _ _ _ 12 Hhd), (at_get _ _ _ 13 Hhd),
    (at_get _ _ _ 14 Hhd), (at_get _ _ _ 15 Hhd) by lia. cbn [mbind outcome_bind].
  replace (strlen rad + 24 - 24 - strlen rad - 4) with (-4) by lia. unfold ie_to_string. cbn [ie_loop].
  assert (2 ≤ ulong (-4)) as H2.
  { unfold ulong. pose proof ulong_bits_ge. pose proof (Z.pow_le_mono_r 2 32 ulong_bits).
    rewrite <-(Z_mod_plus_full (-4) 1), Z.mod_small; lia. }
  assert (buf_get (frame_bytes f) (strlen rad + 24) = Ub) as Hub.
  { unfold buf_get. rewrite decide_True by (unfold strlen; lia). by rewrite lookup_ge_None_2 by lia. }
  destruct (Z.leb_spec 2 (ulong (-4))); [|lia]. by rewrite Hub.
Qed.
End program.

(** Only the low half of the four MCS bytes is printed. *)
Lemma mcs_high_half_lost d d' s : 7 ≤ strlen d → 7 ≤ strlen d' → le16 d 3 = le16 d' 3 →
  htmcs (plain_parts 45 d s) = htmcs (plain_parts 45 d' s).
Proof.
  intros H7 H7' H. assert (∀ e, u16 (le32 e 3) = u16 (le16 e 3)) as Hu.
  { intros e. unfold u16, le32. change 65536 with (2 ^ 16). rewrite Z.mul_comm. apply Z_mod_plus_full. }
  unfold plain_parts. rewrite !Hu, H. destruct (Z.leb_spec 7 (strlen d)), (Z.leb_spec 7 (strlen d')); [|lia..].
  change (45 =? 191) with false. change (45 =? 127) with false. change (45 =? 33) with false. reflexivity.
Qed.

(** ** A telephone *)

Definition sample_ies : bytes :=
  [0; 3; 97; 98; 99; 1; 4; 2; 4; 11; 22; 45; 26; 0x2c; 0x01; 0x03; 0xff] ++ replicate 22 0 ++
  [221; 15; 0x00; 0x50; 0xf2; 0x04; 0x10; 0x23; 0; 7] ++ lit "Nexus 7".
Definition sample_radio : bytes := [0; 0; 8; 0; 0; 0; 0; 0].
Definition sample_probe : frame :=
  Frame sample_radio ([0x40; 0; 0; 0] ++ replicate 6 255 ++ [2; 0; 0; 0xab; 0xcd; 0xef] ++ replicate 8 0) sample_ies [1; 2; 3; 4].
Definition sample_beacon : frame := Frame sample_radio ([0x80; 0] ++ replicate 22 0) [0; 0] [1; 2; 3; 4].
Definition sample_assoc : frame := Frame sample_radio (replicate 28 0) [0; 0; 33; 2; 8; 20] [1; 2; 3; 4].

Example sample_signature :
  signature sample_ies = lit "0,1,45,221(0050f2,4),htcap:012c,htagg:03,htmcs:000000ff,wps:Nexus_7".
Proof. vm_compute. reflexivity. Qed.

Lemma ie_to_string_prints_witness :
  ∃ s, ie_to_string 16 (frame_bytes sample_probe) 32 (strlen sample_ies) = Ret s ∧ s = take 15 (signature sample_ies) ∧
       strlen s < 16 ∧ Forall (λ c, sig_char c = true) s.
Proof.
  apply (ie_to_string_prints 16 (frame_bytes sample_probe) 32 sample_ies).
  - discriminate.
  - exists (take 32 (frame_bytes sample_probe)), [1; 2; 3; 4]. split; reflexivity.
  - apply (bool_decide_unpack _). vm_compute. exact I.
Defined.

Lemma frame_ok_dec_sample : Forall frame_ok [sample_probe; sample_beacon; sample_assoc].
Proof. repeat constructor; done || (apply (bool_decide_unpack _); vm_compute; exact I). Qed.

Lemma capture_signature_witness :
  @main lp64 (λ _, Some (frame_bytes <$> [sample_probe; sample_beacon; sample_assoc])) (lit "tax_signature") [Opt_f (lit "x.pcap")] =
    Ret (Exited (lit "02:00:00:ab:cd:ef wifi4|probe:0,1,45,221(0050f2,4),htcap:012c,htagg:03,htmcs:000000ff,wps:Nexus_7|assoc:0,33,txpow:1408" ++ [10]) [] 0).
Proof.
  rewrite (@capture_signature lp64 (λ _, Some (frame_bytes <$> [sample_probe; sample_beacon; sample_assoc]))
    (lit "tax_signature") (lit "x.pcap") [sample_probe; sample_beacon; sample_assoc] sample_probe).
  - vm_compute. reflexivity.
  - reflexivity.
  - exact frame_ok_dec_sample.
  - vm_compute. reflexivity.
Defined.
