(* ===== verification/AnonPcap.v ===== *)
(** * Anonymous captures: taxonomy/anonymize_pcap.c

    A capture of WiFi frames is rewritten without the names of networks and without the
    part of the addresses that tells the devices of one maker apart. *)

From S2P Require Import Prelude TaxSignature.
Open Scope Z_scope.

Definition PROBE_RESP : Z := 5.
Definition BEACON : Z := 8.

(** The test stops at the first byte that differs. *)
Fixpoint all_ff (n : nat) (pkt : bytes) (mac : Z) : outcome bool :=
  match n with
  | O => Ret true
  | S n => b ← buf_get pkt mac; if b =? 0xff then all_ff n pkt (mac + 1) else Ret false
  end.
Definition is_broadcast_mac (pkt : bytes) (mac : Z) : outcome bool := all_ff 6 pkt mac.

(** [for (i = 0; i < elen; ++i) ie[i] = 'X';] from [i] on. *)
Fixpoint write_x (n : nat) (pkt : bytes) (ie i : Z) : outcome bytes :=
  match n with
  | O => Ret pkt
  | S n => pkt ← buf_set pkt (ie + i) 88; write_x n pkt ie (i + 1)
  end.
Fixpoint rewrite_ssid (fuel : nat) (pkt : bytes) (ie ie_len : Z) : outcome bytes :=
  match fuel with
  | O => OutOfFuel
  | S fuel =>
      if 2 <=? ie_len then
        id ← buf_get pkt ie;
        elen ← buf_get pkt (ie + 1);
        let ie := ie + 2 in
        let ie_len := ie_len - 2 in
        if ie_len <? elen then Ret pkt
        else
          pkt ← (if (id =? 0) && (0 <? elen) then write_x (Z.to_nat elen) pkt ie 0 else Ret pkt);
          rewrite_ssid fuel pkt (ie + elen) (ie_len - elen)
      else Ret pkt
  end.

(** [mac[3] = mac[4] = mac[5] = 0] *)
Definition clear_device (pkt : bytes) (mac : Z) : outcome bytes :=
  pkt ← buf_set pkt (mac + 5) 0; pkt ← buf_set pkt (mac + 4) 0; buf_set pkt (mac + 3) 0.
Definition clear_unless_broadcast (pkt : bytes) (mac : Z) : outcome bytes :=
  b ← is_broadcast_mac pkt mac; if negb b then clear_device pkt mac else Ret pkt.

Section program.
Context `{!CPlatform}.

(** The elements begin [off] bytes behind the management header's start. *)
Definition rewrite_at (pkt : bytes) (mlme off it_len : Z) : outcome bytes :=
  let ie_len := ulong (Z.of_nat (length pkt) - off - it_len - 4) in
  rewrite_ssid (S (Z.to_nat ie_len)) pkt (mlme + off) ie_len.
Definition rewrite_names (pkt : bytes) (mlme it_len type subtype : Z) : outcome bytes :=
  pkt ← (if (type =? 0) && (subtype =? ASSOC_REQ) then rewrite_at pkt mlme 28 it_len else Ret pkt);
  pkt ← (if (type =? 0) && (subtype =? PROBE_REQ) then rewrite_at pkt mlme 24 it_len else Ret pkt);
  pkt ← (if (type =? 0) && (subtype =? PROBE_RESP) then rewrite_at pkt mlme 36 it_len else Ret pkt);
  if (type =? 0) && (subtype =? BEACON) then rewrite_at pkt mlme 36 it_len else Ret pkt.
Definition anonymize_packet (pkt : bytes) : outcome bytes :=
  it_len ← get_le16 pkt 2;
  let mlme := it_len in
  fc ← get_le16 pkt mlme;
  let type := Z.land (Z.shiftr fc 2) 3 in
  let subtype := Z.land (Z.shiftr fc 4) 15 in
  pkt ← rewrite_names pkt mlme it_len type subtype;
  pkt ← clear_device pkt (mlme + 10);
  pkt ← clear_unless_broadcast pkt (mlme + 4);
  clear_unless_broadcast pkt (mlme + 16).
Fixpoint anonymize (pkts : list bytes) : outcome (list bytes) :=
  match pkts with
  | [] => Ret []
  | pkt :: pkts => pkt ← anonymize_packet pkt; rest ← anonymize pkts; Ret (pkt :: rest)
  end.

(** The output's name, in an array of PATH_MAX bytes. *)
Definition PATH_MAX : Z := 4096.
Definition outfile (filename : bytes) : bytes := printed PATH_MAX (filename ++ lit ".anon").

(** What the system answers: whether the two files open, the limit and the filter are set,
    the packets of the capture, whether its link is a radio's and the output can be
    written, the sizes of both files at the end, and the answer of rename. *)
Record outside := {
  in_opens : bool; out_opens : bool; limits_set : bool; seccomp_set : bool;
  packets : option (list bytes); is_radio : bool; dump_opens : bool; sizes : option (Z * Z); renamed : bool;
}.
(** The status; the file that was opened for writing; the packets written to it, if any
    could be; the renaming, if it was done. *)
Record result := Result {
  exit_status : Z; opened : option bytes; dumped : option (list bytes); moved : option (bytes * bytes);
}.
(** The options are read as in tax_signature.c. *)
Definition main (opts : list tax_opt) (o : outside) : outcome result :=
  match filename_of opts None with
  | None | Some None => Ret (Result 1 None None None)
  | Some (Some filename) =>
      if negb (in_opens o) then Ret (Result 1 None None None)
      else
      let out := outfile filename in
      if negb (out_opens o) then Ret (Result 1 None None None)
      else if negb (limits_set o) then Ret (Result 1 (Some out) None None)
      else if negb (seccomp_set o) then Ret (Result 1 (Some out) None None)
      else match packets o with
      | None => Ret (Result 1 (Some out) None None)
      | Some pkts =>
          if negb (is_radio o) then Ret (Result 1 (Some out) None None)
          else if negb (dump_opens o) then Ret (Result 1 (Some out) None None)
          else
            pkts ← anonymize pkts;
            match sizes o with
            | None => Ret (Result 1 (Some out) (Some pkts) None)
            | Some (in_size, out_size) =>
                if negb (in_size =? out_size) then Ret (Result 1 (Some out) (Some pkts) None)
                else if negb (renamed o) then Ret (Result 1 (Some out) (Some pkts) None)
                else Ret (Result 0 (Some out) (Some pkts) (Some (out, filename)))
            end
      end
  end.
End program.
