(* ===== verification/AnonPcapSpec.v ===== *)
(** * Anonymous captures: what is left of the frames

    The packets that the program writes, what can no longer be told from them, and that the
    signatures of the stations can still be taken from them. *)

From S2P Require Import Prelude TaxSignature TaxSpec AnonPcap.
Open Scope Z_scope.

(** ** What is left of a frame *)

(** The elements, with the names of networks written over. *)
Fixpoint hide (fuel : nat) (l : bytes) : bytes :=
  match fuel with
  | O => l
  | S fuel =>
      match l with
      | id :: n :: l' =>
          if strlen l' <? n then l
          else id :: n :: (if id =? 0 then replicate (Z.to_nat n) 88 else take (Z.to_nat n) l') ++ hide fuel (drop (Z.to_nat n) l')
      | _ => l
      end
  end.
Definition hidden (l : bytes) : bytes := hide (S (length l)) l.
Lemma length_hide fuel : ∀ l, length (hide fuel l) = length l.
Proof.
  induction fuel as [|fuel IH]; intros l; [done|]. cbn [hide]. destruct l as [|id [|n l]]; [done..|].
  destruct (Z.ltb_spec (strlen l) n) as [|Hn]; [done|]. cbn [length]. rewrite length_app, IH, length_drop. unfold strlen in Hn.
  destruct (id =? 0); rewrite ?length_replicate, ?length_take; lia.
Qed.

Lemma buf_set_pos r l k i v : (k < length l)%nat → i = strlen r + Z.of_nat k → buf_set (r ++ l) i v = Ret (r ++ <[k := v]> l).
Proof.
  unfold strlen. intros Hk ->. rewrite buf_set_in_range by (rewrite length_app; lia). f_equal.
  rewrite insert_app_r_alt by lia. do 2 f_equal. lia.
Qed.
Lemma write_x_run n : ∀ r l1 l2 ie, ie = strlen r → (n ≤ length l2)%nat →
  write_x n (r ++ l1 ++ l2) ie (strlen l1) = Ret (r ++ l1 ++ replicate n 88 ++ drop n l2).
Proof.
  induction n as [|n IH]; intros r l1 l2 ie -> Hn; [by rewrite drop_0|]. destruct l2 as [|x l2]; cbn [length] in Hn; [lia|]. cbn [write_x].
  rewrite (assoc_L (++)), (buf_set_pos (r ++ l1) (x :: l2) 0) by (cbn [length]; unfold strlen; rewrite ?length_app; lia).
  cbn [mbind outcome_bind]. specialize (IH r (l1 ++ [88]) l2 (strlen r) eq_refl). unfold strlen in *.
  rewrite length_app, Nat2Z.inj_add in IH. change (Z.of_nat (length [88])) with 1 in IH. rewrite <-!(assoc_L (++)) in *. apply IH. lia.
Qed.
Lemma rewrite_ssid_run fuel : ∀ r l post ie, ie = strlen r → all_bytes l → (length l < fuel)%nat →
  rewrite_ssid fuel (r ++ l ++ post) ie (strlen l) = Ret (r ++ hide fuel l ++ post).
Proof.
  induction fuel as [|fuel IH]; intros r l post ie -> Hb Hf; [lia|]. cbn [rewrite_ssid hide]. destruct l as [|id [|n l]]; [done..|].
  assert ((2 <=? strlen (id :: n :: l)) = true) as -> by (apply Z.leb_le; unfold strlen; cbn [length]; lia).
  assert (at_off (r ++ (id :: n :: l) ++ post) (strlen r) (id :: n :: l)) as Hat by (by exists r, post).
  rewrite (at_get0 _ _ _ Hat), (at_get _ _ _ 1 Hat) by (unfold strlen; cbn [length]; lia). cbn [mbind outcome_bind].
  change (nth 0 (id :: n :: l) 0) with id. change (nth (Z.to_nat 1) (id :: n :: l) 0) with n.
  assert (strlen (id :: n :: l) - 2 = strlen l) as -> by (unfold strlen; cbn [length]; lia).
  apply Forall_cons in Hb as [_ [Hn Hb]%Forall_cons]. unfold is_byte in Hn. cbn [length] in Hf.
  destruct (Z.ltb_spec (strlen l) n) as [|Hle]; [done|]. unfold strlen in Hle.
  set (r2 := r ++ [id; n]). assert (strlen r + 2 = strlen r2) as -> by (unfold r2, strlen; rewrite length_app; cbn [length]; lia).
  assert (strlen l - n = strlen (drop (Z.to_nat n) l)) as -> by (unfold strlen; rewrite length_drop; lia).
  assert (∀ c, length c = Z.to_nat n → rewrite_ssid fuel (r2 ++ c ++ drop (Z.to_nat n) l ++ post) (strlen r2 + n) (strlen (drop (Z.to_nat n) l)) =
    Ret (r ++ (id :: n :: c ++ hide fuel (drop (Z.to_nat n) l)) ++ post)) as Hrest.
  { intros c Hc. rewrite (assoc_L (++)), (IH (r2 ++ c)).
    - unfold r2. rewrite <-!(assoc_L (++)). cbn [app]. by rewrite <-!(assoc_L (++)).
    - unfold strlen. rewrite length_app, Hc. lia.
    - by apply Forall_drop.
    - rewrite length_drop. lia. }
  assert (r ++ (id :: n :: l) ++ post = r2 ++ l ++ post) as -> by (unfold r2; by rewrite <-(assoc_L (++))).
  destruct (Z.eqb_spec id 0) as [->|]; cbn [andb].
  - destruct (Z.ltb_spec 0 n).
    + pose proof (write_x_run (Z.to_nat n) r2 [] (l ++ post) (strlen r2) eq_refl) as Hw. change (strlen []) with 0 in Hw. cbn [app] in Hw.
      rewrite Hw by (rewrite length_app; lia). cbn [mbind outcome_bind]. rewrite drop_app_le by lia. apply Hrest. apply length_replicate.
    + assert (n = 0) as -> by lia. cbn [mbind outcome_bind]. exact (Hrest [] eq_refl).
  - cbn [mbind outcome_bind]. specialize (Hrest (take (Z.to_nat n) l)). rewrite (assoc_L (++) (take _ l)), take_drop in Hrest.
    apply Hrest. rewrite length_take. lia.
Qed.

(** A frame: the radiotap header, the 24 bytes of the management header, the fixed fields and
    the elements of its kind, and the checksum. *)
Record wifi_frame := Wifi { rtap : bytes; hdr : bytes; fixed : bytes; elems : bytes; check : bytes }.
Definition wifi_bytes (f : wifi_frame) : bytes := rtap f ++ hdr f ++ fixed f ++ elems f ++ check f.

(** How many bytes of fixed fields come before the elements, in the kinds that have names. *)
Definition fixed_len (h : bytes) : option nat :=
  let fc := le16 h 0 in
  let subtype := Z.land (Z.shiftr fc 4) 15 in
  if negb (Z.land (Z.shiftr fc 2) 3 =? 0) then None
  else if subtype =? ASSOC_REQ then Some 4%nat
  else if subtype =? PROBE_REQ then Some 0%nat
  else if (subtype =? PROBE_RESP) || (subtype =? BEACON) then Some 12%nat
  else None.
Definition has_names (h : bytes) : bool := match fixed_len h with Some _ => true | None => false end.
Record wifi_ok (f : wifi_frame) : Prop := {
  wf_bytes : all_bytes (wifi_bytes f);
  wf_rtap : 4 ≤ strlen (rtap f) ∧ le16 (rtap f) 2 = strlen (rtap f);
  wf_hdr : length (hdr f) = 24%nat;
  wf_fixed : ∀ n, fixed_len (hdr f) = Some n → length (fixed f) = n;
  wf_check : length (check f) = 4%nat;
  wf_size : strlen (wifi_bytes f) < 2 ^ 31;
}.

(** The address that is left: all of the broadcast address, else the maker's part. *)
Definition hide_device (a : bytes) : bytes := take 3 a ++ [0; 0; 0].
Definition broadcast (a : bytes) : bool := forallb (Z.eqb 0xff) a.
Definition hide_addr (a : bytes) : bytes := if broadcast a then a else hide_device a.
Definition addr_at (k : nat) (h : bytes) : bytes := take 6 (drop k h).
Definition hide_hdr (h : bytes) : bytes :=
  take 4 h ++ hide_addr (addr_at 4 h) ++ hide_device (addr_at 10 h) ++ hide_addr (addr_at 16 h) ++ drop 22 h.
Definition hide_names (f : wifi_frame) : wifi_frame :=
  Wifi (rtap f) (hdr f) (fixed f) (if has_names (hdr f) then hidden (elems f) else elems f) (check f).
Definition hide_frame (f : wifi_frame) : wifi_frame :=
  let f := hide_names f in Wifi (rtap f) (hide_hdr (hdr f)) (fixed f) (elems f) (check f).

(** *** The addresses *)

Definition zero3 (k : nat) (l : bytes) : bytes := <[(k + 3)%nat := 0]> (<[(k + 4)%nat := 0]> (<[(k + 5)%nat := 0]> l)).
Lemma length_zero3 k l : length (zero3 k l) = length l.
Proof. unfold zero3. by rewrite !length_insert. Qed.
Lemma clear_device_run r l k i : (k + 5 < length l)%nat → i = strlen r + Z.of_nat k → clear_device (r ++ l) i = Ret (r ++ zero3 k l).
Proof.
  intros Hk ->. unfold clear_device. rewrite (buf_set_pos r l (k + 5)) by lia. cbn [mbind outcome_bind].
  rewrite (buf_set_pos r _ (k + 4)) by (rewrite ?length_insert; lia). cbn [mbind outcome_bind].
  by rewrite (buf_set_pos r _ (k + 3)) by (rewrite ?length_insert; lia).
Qed.
Lemma all_ff_run n : ∀ r l k i, (k + n ≤ length l)%nat → i = strlen r + Z.of_nat k → all_ff n (r ++ l) i = Ret (broadcast (take n (drop k l))).
Proof.
  induction n as [|n IH]; intros r l k i Hk ->; [done|]. cbn [all_ff].
  destruct (lookup_lt_is_Some_2 l k ltac:(lia)) as [b Hb]. rewrite (drop_S l b k Hb). cbn [take broadcast forallb].
  assert (at_off (r ++ l) (strlen r) l) as Hat by (exists r, []; by rewrite app_nil_r).
  rewrite (at_get _ _ _ _ Hat) by (unfold strlen; lia). cbn [mbind outcome_bind]. rewrite Nat2Z.id.
  assert (nth k l 0 = b) as -> by (by apply nth_lookup_Some). rewrite Z.eqb_sym. destruct (255 =? b); [|done]. cbn [andb].
  apply (IH r l (S k)); lia.
Qed.
Lemma clear_unless_run r l k i : (k + 6 ≤ length l)%nat → i = strlen r + Z.of_nat k →
  clear_unless_broadcast (r ++ l) i = Ret (r ++ if broadcast (addr_at k l) then l else zero3 k l).
Proof.
  intros Hk ->. unfold clear_unless_broadcast, is_broadcast_mac. rewrite (all_ff_run 6 r l k) by lia. cbn [mbind outcome_bind].
  unfold addr_at. destruct (broadcast _); cbn [negb]; [done|]. by rewrite (clear_device_run r l k) by lia.
Qed.

(** The three addresses of a header. *)
Definition clear_addrs (h : bytes) : bytes :=
  let h := zero3 10 h in
  let h := if broadcast (addr_at 4 h) then h else zero3 4 h in
  if broadcast (addr_at 16 h) then h else zero3 16 h.
Ltac header_cases h :=
  do 24 (destruct h as [|? h]; [discriminate|]); destruct h; [|discriminate]; cbv -[broadcast Z.eqb];
  repeat match goal with
  | |- context [broadcast ?l] => lazymatch l with context [broadcast _] => fail | _ => destruct (broadcast l); cbv -[broadcast Z.eqb] end
  end; reflexivity.
Lemma clear_addrs_hides h : length h = 24%nat → clear_addrs h = hide_hdr h.
Proof. intros Hh. header_cases h. Qed.
Lemma clear_addrs_app h rest : length h = 24%nat → clear_addrs (h ++ rest) = clear_addrs h ++ rest.
Proof. intros Hh. header_cases h. Qed.

(** *** A packet *)

Section packets.
Context `{!CPlatform}.

Lemma rewrite_at_run f off : wifi_ok f → off = 24 + strlen (fixed f) →
  rewrite_at (wifi_bytes f) (strlen (rtap f)) off (strlen (rtap f)) =
  Ret (wifi_bytes (Wifi (rtap f) (hdr f) (fixed f) (hidden (elems f)) (check f))).
Proof.
  intros [Hb Hr Hh _ Hc Hs] ->. unfold rewrite_at.
  assert (Z.of_nat (length (wifi_bytes f)) = strlen (rtap f) + 24 + strlen (fixed f) + strlen (elems f) + 4) as Hlen.
  { unfold wifi_bytes, strlen. rewrite !length_app, Hh, Hc. lia. }
  unfold strlen in Hs at 1. rewrite Hlen in *. rewrite ulong_id by (unfold strlen in *; lia).
  replace (_ - strlen (rtap f) - 4) with (strlen (elems f)) by lia. unfold wifi_bytes. cbn [rtap hdr fixed elems check].
  assert (all_bytes (elems f)) as He by (unfold wifi_bytes in Hb; rewrite !Forall_app in Hb; by apply Hb).
  pose proof (rewrite_ssid_run (S (length (elems f))) (rtap f ++ hdr f ++ fixed f) (elems f) (check f) _ eq_refl He ltac:(lia)) as Hrun.
  rewrite <-!(assoc_L (++)) in Hrun. unfold hidden. rewrite <-Hrun. unfold strlen. rewrite !length_app, Hh, Nat2Z.id. f_equal. lia.
Qed.

(** A frame has the elements of one kind at most. *)
Lemma names_run f : wifi_ok f →
  let fc := le16 (hdr f) 0 in
  let type := Z.land (Z.shiftr fc 2) 3 in
  let subtype := Z.land (Z.shiftr fc 4) 15 in
  let m := strlen (rtap f) in
  rewrite_names (wifi_bytes f) m m type subtype = Ret (wifi_bytes (hide_names f)).
Proof.
  intros Hok fc type subtype m. unfold rewrite_names, hide_names, has_names. pose proof (wf_fixed f Hok) as Hfix. unfold fixed_len in *.
  fold fc type subtype in Hfix |- *. destruct (type =? 0); cbn [andb negb] in *; [|done].
  assert (∀ n off, off = 24 + Z.of_nat n → (if subtype =? ASSOC_REQ then Some 4%nat else if subtype =? PROBE_REQ then Some 0%nat
       else if (subtype =? PROBE_RESP) || (subtype =? BEACON) then Some 12%nat else None) = Some n →
    rewrite_at (wifi_bytes f) m off m = Ret (wifi_bytes (Wifi (rtap f) (hdr f) (fixed f) (hidden (elems f)) (check f)))) as Hrun.
  { intros n off -> Hn. apply rewrite_at_run; [done|]. unfold strlen. by rewrite (Hfix n Hn). }
  destruct (Z.eqb_spec subtype ASSOC_REQ) as [->|]; [by rewrite (Hrun 4%nat 28)|]. cbn [mbind outcome_bind].
  destruct (Z.eqb_spec subtype PROBE_REQ) as [->|]; [by rewrite (Hrun 0%nat 24)|]. cbn [mbind outcome_bind].
  destruct (Z.eqb_spec subtype PROBE_RESP) as [->|]; [by rewrite (Hrun 12%nat 36)|]. cbn [mbind outcome_bind orb].
  destruct (Z.eqb_spec subtype BEACON); [by rewrite (Hrun 12%nat 36)|done].
Qed.

Lemma anonymize_packet_run f : wifi_ok f → anonymize_packet (wifi_bytes f) = Ret (wifi_bytes (hide_frame f)).
Proof.
  intros Hok. destruct (wf_rtap f Hok) as [H4 Hlen]. pose proof (wf_hdr f Hok) as Hh.
  assert (at_off (wifi_bytes f) 0 (rtap f)) as Hr by (by exists [], (hdr f ++ fixed f ++ elems f ++ check f)).
  assert (at_off (wifi_bytes f) (strlen (rtap f)) (hdr f)) as Hhd by (by exists (rtap f), (fixed f ++ elems f ++ check f)).
  unfold anonymize_packet. rewrite (get_le16_run _ _ _ 2 Hr : _ → _ → get_le16 _ 2 = _) by lia. cbn [mbind outcome_bind].
  change (Z.to_nat 2) with 2%nat. rewrite Hlen.
  pose proof (get_le16_run _ _ _ 0 Hhd) as H0. rewrite Z.add_0_r in H0. rewrite H0 by (unfold strlen; lia). clear H0.
  cbn [mbind outcome_bind]. change (Z.to_nat 0) with 0%nat.
  rewrite (names_run f Hok : rewrite_names _ _ _ _ _ = _). cbn [mbind outcome_bind]. unfold wifi_bytes, hide_frame.
  change (rtap (hide_names f)) with (rtap f). change (hdr (hide_names f)) with (hdr f). cbn [rtap hdr fixed elems check].
  set (rest := fixed _ ++ elems _ ++ check _).
  rewrite (clear_device_run _ (hdr f ++ rest) 10) by (rewrite ?length_app; lia). cbn [mbind outcome_bind].
  rewrite (clear_unless_run _ _ 4) by (rewrite ?length_zero3, ?length_app; lia). cbn [mbind outcome_bind].
  rewrite (clear_unless_run _ _ 16) by (try case_match; rewrite ?length_zero3, ?length_app; lia).
  rewrite <-clear_addrs_hides, <-(clear_addrs_app (hdr f) rest) by done. done.
Qed.
Lemma anonymize_packets_run fs : Forall wifi_ok fs → anonymize (wifi_bytes <$> fs) = Ret ((wifi_bytes ∘ hide_frame) <$> fs).
Proof.
  induction 1 as [|f fs Hf _ IH]; [done|]. cbn [fmap list_fmap anonymize]. rewrite anonymize_packet_run by done.
  cbn [mbind outcome_bind]. fold (@fmap list _) in *. by rewrite IH.
Qed.
End packets.

(** ** What cannot be told apart *)

(** Elements that differ in the characters of names only. *)
Inductive same_names : relation bytes :=
  | same_end l : same_names l l
  | same_name n a b l l' : strlen a = n → strlen b = n → same_names l l' → same_names (0 :: n :: a ++ l) (0 :: n :: b ++ l')
  | same_element id n a l l' : strlen a = n → same_names l l' → same_names (id :: n :: a ++ l) (id :: n :: a ++ l').
(** Addresses of devices of one maker. *)
Definition same_maker (a b : bytes) : Prop := a = b ∨ (broadcast a = false ∧ broadcast b = false ∧ take 3 a = take 3 b).
Record alike (f g : wifi_frame) : Prop := {
  alike_rtap : rtap f = rtap g;
  alike_start : take 4 (hdr f) = take 4 (hdr g);
  alike_da : same_maker (addr_at 4 (hdr f)) (addr_at 4 (hdr g));
  alike_sa : take 3 (addr_at 10 (hdr f)) = take 3 (addr_at 10 (hdr g));
  alike_bssid : same_maker (addr_at 16 (hdr f)) (addr_at 16 (hdr g));
  alike_seq : drop 22 (hdr f) = drop 22 (hdr g);
  alike_fixed : fixed f = fixed g;
  alike_elems : if has_names (hdr f) then same_names (elems f) (elems g) else elems f = elems g;
  alike_check : check f = check g;
}.

Lemma same_names_length l l' : same_names l l' → length l = length l'.
Proof. induction 1; unfold strlen in *; cbn [length]; rewrite ?length_app; lia. Qed.
Lemma hide_element fuel id n a l : strlen a = n →
  hide (S fuel) (id :: n :: a ++ l) = id :: n :: (if id =? 0 then replicate (length a) 88 else a) ++ hide fuel l.
Proof.
  intros <-. cbn [hide]. assert ((strlen (a ++ l) <? strlen a) = false) as -> by (apply Z.ltb_ge; unfold strlen; rewrite length_app; lia).
  unfold strlen. by rewrite Nat2Z.id, take_app_length, drop_app_length.
Qed.
Lemma hide_same_names l l' : same_names l l' → ∀ fuel, (length l < fuel)%nat → hide fuel l = hide fuel l'.
Proof.
  induction 1 as [|n a b l l' Ha Hb _ IH|id n a l l' Ha _ IH]; [done|intros [|fuel] Hf; [lia|]..]; cbn [length] in Hf; rewrite length_app in Hf.
  - rewrite (hide_element _ _ n a l Ha), (hide_element _ _ n b l' Hb), (IH fuel) by lia. unfold strlen in *.
    by replace (length b) with (length a) by lia.
  - by rewrite !(hide_element _ _ n a _ Ha), (IH fuel) by lia.
Qed.
Lemma hidden_same_names l l' : same_names l l' → hidden l = hidden l'.
Proof. intros H. unfold hidden. rewrite <-(same_names_length _ _ H). apply hide_same_names; [done|lia]. Qed.
Lemma hide_addr_same a b : same_maker a b → hide_addr a = hide_addr b.
Proof. intros [->|(Ha & Hb & H)]; [done|]. unfold hide_addr, hide_device. by rewrite Ha, Hb, H. Qed.
Lemma has_names_start h : has_names h = has_names (take 4 h).
Proof. by destruct h as [|a [|b h]]. Qed.
Lemma hide_frame_alike f g : alike f g → hide_frame f = hide_frame g.
Proof.
  intros [Hr Hs Hd Ha Hb Hq Hf He Hc]. unfold hide_frame, hide_names. cbn [rtap hdr fixed elems check].
  assert (has_names (hdr g) = has_names (hdr f)) as -> by (by rewrite has_names_start, <-Hs, <-has_names_start).
  rewrite Hr, Hf, Hc. f_equal.
  - unfold hide_hdr. rewrite Hs, Hq, (hide_addr_same _ _ Hd), (hide_addr_same _ _ Hb). unfold hide_device. by rewrite Ha.
  - destruct (has_names _); [by apply hidden_same_names|done].
Qed.

Lemma length_hide_hdr h : length h = 24%nat → length (hide_hdr h) = 24%nat.
Proof.
  intros Hh. rewrite <-clear_addrs_hides by done. unfold clear_addrs. repeat case_match; by rewrite ?length_zero3.
Qed.
Lemma length_hide_frame f : wifi_ok f → length (wifi_bytes (hide_frame f)) = length (wifi_bytes f).
Proof.
  intros Hok. pose proof (wf_hdr f Hok) as Hh. unfold wifi_bytes, hide_frame. cbn [rtap hdr fixed elems check hide_names].
  rewrite !length_app, length_hide_hdr, Hh by done. case_match; unfold hidden; rewrite ?length_hide; done.
Qed.

(** ** The program *)

Definition with_packets (pkts : option (list bytes)) (o : outside) : outside :=
  {| in_opens := in_opens o; out_opens := out_opens o; limits_set := limits_set o; seccomp_set := seccomp_set o;
     packets := pkts; is_radio := is_radio o; dump_opens := dump_opens o; sizes := sizes o; renamed := renamed o |}.

Section program.
Context `{!CPlatform}.

(** What the program does with the packets it may write. *)
Definition finish (name : bytes) (o : outside) (pkts : list bytes) : result :=
  let out := outfile name in
  if negb (in_opens o && out_opens o) then Result 1 None None None
  else if negb (limits_set o && seccomp_set o && is_radio o && dump_opens o) then Result 1 (Some out) None None
  else if renamed o && from_option (λ x, x.1 =? x.2) false (sizes o) then Result 0 (Some out) (Some pkts) (Some (out, name))
  else Result 1 (Some out) (Some pkts) None.
Lemma anonymize_main name o fs : packets o = Some (wifi_bytes <$> fs) → Forall wifi_ok fs →
  main [Opt_f name] o = Ret (finish name o ((wifi_bytes ∘ hide_frame) <$> fs)).
Proof.
  intros Hp Hfs. unfold main, finish. cbn [filename_of]. destruct (in_opens o); [|done]. destruct (out_opens o); [|done].
  destruct (limits_set o); [|done]. destruct (seccomp_set o); [|done]. rewrite Hp. destruct (is_radio o); [|done].
  destruct (dump_opens o); [|done]. cbn [negb andb]. rewrite anonymize_packets_run by done. cbn [mbind outcome_bind].
  destruct (sizes o) as [[i j]|]; [|by destruct (renamed o)]. cbn. destruct (i =? j), (renamed o); done.
Qed.
Lemma finish_cases name o pkts : let r := finish name o pkts in
  (exit_status r = 0 ↔ is_Some (moved r)) ∧ (∀ x, moved r = Some x → x = (outfile name, name) ∧ is_Some (dumped r)) ∧
  (∀ x, opened r = Some x → x = outfile name) ∧
  (∀ x, dumped r = Some x → seccomp_set o = true ∧ is_radio o = true ∧ x = pkts).
Proof.
  cbv zeta. unfold finish, is_Some. destruct (in_opens o && _); cbn [negb]; [|naive_solver].
  destruct (limits_set o && _ && _ && _) eqn:E; cbn [negb]; [|naive_solver]. rewrite !andb_true_iff in E.
  destruct (renamed o && _); naive_solver.
Qed.
Lemma outfile_other name : strlen name < PATH_MAX - 5 → outfile name ≠ name.
Proof.
  intros Hn He. apply (f_equal length) in He. unfold outfile in He. rewrite printed_id, length_app in He.
  - change (length (lit ".anon")) with 5%nat in He. lia.
  - unfold strlen in *. rewrite length_app. change (length (lit ".anon")) with 5%nat. lia.
Qed.

(** C27: Of a capture of whole frames the program takes away what it is meant to: what it writes
    is the same for any two captures that differ in the characters of networks' names and
    in the device parts of addresses only (a broadcast address is no device's); every
    packet keeps its length.  Nothing is written without the filter on system calls.  The
    program ends with 0 exactly when it has put its output in place of the capture, and
    until then it writes to another file, if the name leaves room for the suffix. *)
Theorem anonymize_hides name o fs gs :
  packets o = Some (wifi_bytes <$> fs) → Forall wifi_ok fs → Forall wifi_ok gs → Forall2 alike fs gs →
  ∃ r, main [Opt_f name] o = Ret r ∧ main [Opt_f name] (with_packets (Some (wifi_bytes <$> gs)) o) = Ret r ∧
    (∀ out, dumped r = Some out → seccomp_set o = true ∧ Forall2 (λ p f, length p = length (wifi_bytes f)) out fs) ∧
    (exit_status r = 0 ↔ is_Some (moved r)) ∧
    (∀ x, moved r = Some x → x = (outfile name, name) ∧ is_Some (dumped r)) ∧
    (strlen name < PATH_MAX - 5 → opened r ≠ Some name).
Proof.
  intros Hp Hfs Hgs Ha. eexists. split; [by apply anonymize_main|].
  destruct (finish_cases name o ((wifi_bytes ∘ hide_frame) <$> fs)) as (H1 & H2 & H3 & H4). split_and!; [| |done..|].
  - rewrite (anonymize_main name (with_packets _ o) gs) by done. do 2 f_equal. clear -Ha.
    induction Ha as [|f g fs gs Hfg _ IH]; [done|]. cbn [fmap list_fmap]. f_equal; [|exact IH].
    unfold compose. by rewrite (hide_frame_alike f g Hfg).
  - intros out Hout. destruct (H4 out Hout) as (Hs & _ & ->). split; [done|].
    apply Forall2_fmap_l, Forall_Forall2_diag. eapply Forall_impl; [exact Hfs|]. apply length_hide_frame.
  - intros Hn Hx. symmetry in Hx. by eapply outfile_other, eq_sym, H3.
Qed.

(** A name of the longest kind that a file can have leaves no room for the suffix: the
    capture itself is opened for writing, that is, emptied. *)
Lemma long_name_emptied name : strlen name = PATH_MAX - 1 → outfile name = name.
Proof. intros Hn. unfold outfile, printed. rewrite <-Hn. unfold strlen. by rewrite Nat2Z.id, take_app_length. Qed.

(** An acknowledgement has one address only: the others are written behind its end. *)
Lemma short_frame_overruns rad ack : all_bytes (rad ++ ack) → 4 ≤ strlen rad → le16 rad 2 = strlen rad →
  (2 ≤ length ack ≤ 15)%nat → Z.land (Z.shiftr (le16 ack 0) 2) 3 = 1 → anonymize_packet (rad ++ ack) = Ub.
Proof.
  intros Hb H4 Hlen Ha Ht.
  assert (at_off (rad ++ ack) 0 rad) as Hr by (by exists [], ack).
  assert (at_off (rad ++ ack) (strlen rad) ack) as Hk by (by exists rad, []; rewrite app_nil_r).
  unfold anonymize_packet. rewrite (get_le16_run _ _ _ 2 Hr : _ → _ → get_le16 _ 2 = _) by lia. cbn [mbind outcome_bind].
  change (Z.to_nat 2) with 2%nat. rewrite Hlen.
  pose proof (get_le16_run _ _ _ 0 Hk) as H0. rewrite Z.add_0_r in H0. rewrite H0 by (unfold strlen; lia). clear H0.
  cbn [mbind outcome_bind]. change (Z.to_nat 0) with 0%nat. rewrite Ht. unfold rewrite_names. change (1 =? 0) with false.
  cbn [andb mbind outcome_bind]. unfold clear_device, buf_set. unfold strlen. rewrite decide_False; [done|].
  rewrite length_app. lia.
Qed.
End program.

(** ** The signatures *)

(** The frame as tax_signature.c takes it apart: an association request has its fixed
    fields in the header. *)
Definition as_frame (f : wifi_frame) : frame :=
  if is_assoc (Frame (rtap f) (hdr f) [] []) then Frame (rtap f) (hdr f ++ fixed f) (elems f) (check f)
  else Frame (rtap f) (hdr f) (fixed f ++ elems f) (check f).
(** The sender's address without the device. *)
Definition maker_text (f : frame) : bytes :=
  let h k := hex02 (nth k (header f) 0) in h 10%nat ++ lit ":" ++ h 11%nat ++ lit ":" ++ h 12%nat ++ lit ":00:00:00".

Lemma as_frame_bytes f : frame_bytes (as_frame f) = wifi_bytes f.
Proof. unfold as_frame, frame_bytes, wifi_bytes. case_match; cbn [radio header ies fcs]; by rewrite <-?(assoc_L (++)). Qed.
Lemma le16_app h l : (2 ≤ length h)%nat → le16 (h ++ l) 0 = le16 h 0.
Proof. intros. unfold le16. by rewrite !app_nth1 by lia. Qed.
Lemma as_frame_kind f s : wifi_ok f → is_mgmt (as_frame f) s = is_mgmt (Frame (rtap f) (hdr f) [] []) s.
Proof.
  intros Hok. pose proof (wf_hdr f Hok). unfold as_frame. case_match; [|done]. unfold is_mgmt. cbn [header]. by rewrite le16_app by lia.
Qed.
Lemma assoc_fixed f : wifi_ok f → is_assoc (Frame (rtap f) (hdr f) [] []) = true → length (fixed f) = 4%nat ∧ has_names (hdr f) = true.
Proof.
  unfold is_assoc, is_mgmt. cbn [header]. intros Hok [Ht Hs]%andb_prop. pose proof (wf_fixed f Hok) as Hf.
  unfold has_names. unfold fixed_len in *. rewrite Ht, Hs in *. cbn [negb] in *. by split; [apply Hf|].
Qed.
Lemma probe_fixed f : wifi_ok f → is_probe (Frame (rtap f) (hdr f) [] []) = true → fixed f = [] ∧ has_names (hdr f) = true.
Proof.
  unfold is_probe, is_mgmt. cbn [header]. intros Hok [Ht Hs]%andb_prop. pose proof (wf_fixed f Hok) as Hf.
  unfold has_names. unfold fixed_len in *. apply Z.eqb_eq in Hs. rewrite Ht, Hs in *. cbn in *. split; [|done].
  by apply nil_length_inv, Hf.
Qed.
Lemma as_frame_ok f : wifi_ok f → frame_ok (as_frame f).
Proof.
  intros Hok. pose proof Hok as [Hb [Hr Hl] Hh _ Hc Hs]. unfold frame_ok. rewrite as_frame_bytes, as_frame_kind by done.
  fold (is_assoc (Frame (rtap f) (hdr f) [] [])). pose proof (assoc_fixed f Hok) as Ha.
  unfold as_frame. destruct (is_assoc _); cbn [radio header fcs]; split_and!; try done.
  rewrite length_app, Hh. destruct Ha as [-> _]; done.
Qed.
Lemma hide_bytes fuel : ∀ l, all_bytes l → all_bytes (hide fuel l).
Proof.
  induction fuel as [|fuel IH]; intros l Hl; [done|]. cbn [hide]. destruct l as [|id [|n l]]; [done..|].
  destruct (strlen l <? n); [done|]. apply Forall_cons in Hl as [Hid [Hn Hl]%Forall_cons]. do 2 (constructor; [done|]).
  apply Forall_app. split; [|by apply IH, Forall_drop]. destruct (id =? 0); [|by apply Forall_take]. apply Forall_replicate. unfold is_byte. lia.
Qed.
Lemma hide_hdr_bytes h : all_bytes h → all_bytes (hide_hdr h).
Proof.
  intros Hh. assert (all_bytes [0; 0; 0]) as H0 by (by repeat constructor). unfold hide_hdr, hide_addr, hide_device, addr_at.
  destruct (broadcast (take 6 (drop 4 h))), (broadcast (take 6 (drop 16 h))); rewrite !Forall_app; split_and!; auto using Forall_take, Forall_drop.
Qed.
Lemma hide_hdr_start h : length h = 24%nat → le16 (hide_hdr h) 0 = le16 h 0.
Proof. intros Hh. do 24 (destruct h as [|? h]; [discriminate|]). by destruct h. Qed.
Lemma fixed_len_hide h : length h = 24%nat → fixed_len (hide_hdr h) = fixed_len h.
Proof. intros Hh. unfold fixed_len. by rewrite hide_hdr_start. Qed.
Lemma hide_frame_ok f : wifi_ok f → wifi_ok (hide_frame f).
Proof.
  intros Hok. pose proof (length_hide_frame f Hok) as Hlen. destruct Hok as [Hb Hr Hh Hf Hc Hs]. split; [|done| | |done|].
  - unfold wifi_bytes, hide_frame, hidden in *. cbn [rtap hdr fixed elems check hide_names] in *. rewrite !Forall_app in *.
    destruct Hb as (? & ? & ? & ? & ?). split_and!; [done|by apply hide_hdr_bytes|done| |done]. destruct (has_names _); [by apply hide_bytes|done].
  - by apply length_hide_hdr.
  - intros n. cbn [hdr hide_frame fixed hide_names]. rewrite fixed_len_hide by done. apply Hf.
  - unfold strlen. by rewrite Hlen.
Qed.
Lemma hide_kind f s : length (hdr f) = 24%nat →
  is_mgmt (Frame (rtap f) (hdr (hide_frame f)) [] []) s = is_mgmt (Frame (rtap f) (hdr f) [] []) s.
Proof. intros Hh. unfold is_mgmt. cbn [header hdr hide_frame hide_names]. by rewrite hide_hdr_start. Qed.

(** The names are not part of a signature. *)
Definition same_sig (x y : Z * bytes) : Prop := x = y ∨ (x.1 = 0 ∧ y.1 = 0).
Lemma elements_hide fuel : ∀ l, Forall2 same_sig (elements fuel l) (elements fuel (hide fuel l)).
Proof.
  induction fuel as [|fuel IH]; intros l; [constructor|]. cbn [hide]. destruct l as [|id [|n l]]; [constructor..|].
  destruct (strlen l <? n) eqn:E; [apply Forall2_same_length_lookup_2; [done|]; intros; simplify_eq; by left|].
  set (c := if id =? 0 then _ else _). assert (length c = Z.to_nat n) as Hc.
  { apply Z.ltb_ge in E. unfold strlen in E. unfold c. case_match; [apply length_replicate|]. rewrite length_take. lia. }
  assert (strlen (c ++ hide fuel (drop (Z.to_nat n) l)) = strlen l) as Hl.
  { apply Z.ltb_ge in E. unfold strlen in *. rewrite length_app, length_hide, length_drop. lia. }
  cbn [elements app]. rewrite Hl, E. rewrite (take_app_length' c), (drop_app_length' c) by done. constructor; [|apply IH].
  unfold c, same_sig. destruct (Z.eqb_spec id 0); [right|left]; done.
Qed.
Lemma same_sig_signs x y : same_sig x y → tag x = tag y ∧ ∀ s, element_parts s x = element_parts s y.
Proof. destruct x as [i d], y as [j e]. intros [[= <- <-]|[H1 H2]]; [done|]. cbn in H1, H2. by subst. Qed.
Lemma signature_hidden l : signature (hidden l) = signature l.
Proof.
  unfold signature, hidden. rewrite length_hide. set (es := elements _ l). set (es' := elements _ (hide _ l)).
  assert (Forall2 same_sig es es') as H by apply elements_hide.
  assert (tag <$> es = tag <$> es') as Ht.
  { apply list_eq_Forall2, Forall2_fmap_2. eapply Forall2_impl; [exact H|]. intros x y Hxy. apply (same_sig_signs x y Hxy). }
  assert (∀ s, foldl element_parts s es = foldl element_parts s es') as Hp.
  { clear Ht. induction H as [|x y es es' Hxy _ IH]; [done|]. intros s. cbn [foldl]. by rewrite (proj2 (same_sig_signs x y Hxy)), IH. }
  unfold tags. by rewrite Ht, Hp.
Qed.

Lemma last_of_both {A} p (g1 g2 : A → frame) l : (∀ x, x ∈ l → p (g1 x) = p (g2 x)) →
  ∃ z, last_of p (g1 <$> l) = g1 <$> z ∧ last_of p (g2 <$> l) = g2 <$> z ∧ ∀ x, z = Some x → x ∈ l ∧ p (g1 x) = true.
Proof.
  induction l as [|x l IH] using rev_ind; intros Hp; [by exists None|]. rewrite !fmap_app. cbn [fmap list_fmap]. rewrite !last_of_snoc.
  destruct IH as (z & H1 & H2 & Hz); [set_solver|]. rewrite <-(Hp x) by set_solver. destruct (p (g1 x)) eqn:E.
  - exists (Some x). split_and!; [done..|]. intros ? [= <-]. set_solver.
  - exists z. split_and!; [done..|]. intros y Hy. destruct (Hz y Hy). set_solver.
Qed.
Lemma as_frame_hidden f s : wifi_ok f → is_mgmt (as_frame (hide_frame f)) s = is_mgmt (as_frame f) s.
Proof.
  intros Hok. rewrite !as_frame_kind by auto using hide_frame_ok. change (rtap (hide_frame f)) with (rtap f).
  apply hide_kind, Hok.
Qed.
Lemma shown_hidden f : wifi_ok f → is_assoc (as_frame f) = true ∨ is_probe (as_frame f) = true →
  shown_signature (as_frame (hide_frame f)) = shown_signature (as_frame f).
Proof.
  intros Hok Hk. pose proof Hok as [_ _ Hh _ _ _]. unfold shown_signature. f_equal.
  unfold is_assoc, is_probe in Hk. rewrite !(as_frame_kind f) in Hk by done. fold (is_assoc (Frame (rtap f) (hdr f) [] [])) in Hk.
  pose proof (hide_kind f ASSOC_REQ Hh) as Ha. fold (is_assoc (Frame (rtap f) (hdr f) [] [])) in Ha.
  unfold as_frame. change (rtap (hide_frame f)) with (rtap f). unfold is_assoc at 1. rewrite Ha.
  assert (has_names (hdr f) = true → signature (elems (hide_frame f)) = signature (elems f)) as Hs.
  { cbn [elems hide_frame hide_names]. intros ->. apply signature_hidden. }
  destruct (is_assoc _) eqn:E; cbn [ies].
  - apply Hs. by apply assoc_fixed.
  - destruct Hk as [|Hk]; [done|]. destruct (probe_fixed f Hok Hk) as [Hf Hn].
    change (fixed (hide_frame f)) with (fixed f). rewrite Hf. by apply Hs.
Qed.
Lemma mac_hidden f : wifi_ok f → mac_text (as_frame (hide_frame f)) = maker_text (as_frame f).
Proof.
  intros Hok. pose proof (wf_hdr f Hok) as Hh. unfold mac_text, maker_text.
  assert (∀ g k, wifi_ok g → (k < 24)%nat → nth k (header (as_frame g)) 0 = nth k (hdr g) 0) as Hn.
  { intros g k Hg Hk. unfold as_frame. case_match; [|done]. cbn [header]. rewrite app_nth1; [done|]. by rewrite (wf_hdr g Hg). }
  rewrite !Hn by (auto using hide_frame_ok || lia). clear Hn. cbn [hdr hide_frame hide_names]. generalize (hdr f) Hh. clear.
  intros h Hh. rewrite <-clear_addrs_hides by done.
  assert ((λ k, nth k (clear_addrs h) 0) <$> [10; 11; 12; 13; 14; 15]%nat = [nth 10 h 0; nth 11 h 0; nth 12 h 0; 0; 0; 0]) as Hk
    by header_cases h.
  cbn [fmap list_fmap] in Hk. injection Hk as -> -> -> -> -> ->. reflexivity.
Qed.

(** The last frame of a kind, with and without its names. *)
Lemma last_hidden k fs : (k = ASSOC_REQ ∨ k = PROBE_REQ) → Forall wifi_ok fs → let p := λ f, is_mgmt f k in
  ∃ z, last_of p (as_frame <$> fs) = as_frame <$> z ∧ last_of p (as_frame <$> (hide_frame <$> fs)) = (as_frame ∘ hide_frame) <$> z ∧
    (shown_signature ∘ as_frame ∘ hide_frame) <$> z = (shown_signature ∘ as_frame) <$> z ∧
    (mac_text ∘ as_frame ∘ hide_frame) <$> z = (maker_text ∘ as_frame) <$> z.
Proof.
  intros Hk Hfs p. rewrite Forall_forall in Hfs.
  destruct (last_of_both p as_frame (as_frame ∘ hide_frame) fs) as (z & H1 & H2 & Hz).
  { intros f Hf. symmetry. by apply as_frame_hidden, Hfs. }
  exists z. rewrite <-list_fmap_compose. split_and!; [done..| |]; (destruct z as [f|]; [|done]); destruct (Hz f eq_refl) as [Hf Hp];
    cbn [fmap option_fmap option_map]; unfold compose; f_equal.
  - apply shown_hidden; [by apply Hfs|]. unfold is_assoc, is_probe. destruct Hk; subst k; auto.
  - by apply mac_hidden, Hfs.
Qed.

Section signatures.
Context `{!CPlatform} (pcap_packets : bytes → option (list bytes)).

Lemma tax_run progname name fs f : pcap_packets name = Some (wifi_bytes <$> fs) → Forall wifi_ok fs →
  last_of is_probe (as_frame <$> fs) = Some f →
  let sig := shown_signature f in
  let assoc := from_option id [] (shown_signature <$> last_of is_assoc (as_frame <$> fs)) in
  TaxSignature.main pcap_packets progname [Opt_f name] =
    Ret (Exited (mac_text f ++ lit " wifi4|probe:" ++ sig ++ lit "|assoc:" ++ assoc ++ [10]) []
           (if negb (strlen sig =? 0) && negb (strlen assoc =? 0) then 0 else 1)).
Proof.
  intros Hp Hfs Hf. rewrite (main_run pcap_packets progname name (as_frame <$> fs)), Hf.
  - assert ((strlen (mac_text f) =? 0) = false) as Hm
      by (apply Z.eqb_neq; unfold mac_text, strlen; rewrite !length_app; change (length (lit ":")) with 1%nat; lia).
    rewrite seen, Hf. unfold report. cbn [probe_sig assoc_sig from_option]. rewrite Hm. cbn [negb]. rewrite andb_true_r.
    by destruct (last_of is_assoc _).
  - rewrite Hp. f_equal. rewrite <-list_fmap_compose. apply list_fmap_ext. intros. symmetry. apply as_frame_bytes.
  - rewrite Forall_fmap. eapply Forall_impl; [exact Hfs|]. apply as_frame_ok.
Qed.

(** C38: Anonymous captures do for what they are kept for: of the packets that the program writes
    tax_signature prints the same line as of the capture that it read, signatures and
    status, only that the device's half of the sender's address reads 00:00:00. *)
Theorem signatures_survive progname name anon fs out f :
  pcap_packets name = Some (wifi_bytes <$> fs) → Forall wifi_ok fs →
  anonymize (wifi_bytes <$> fs) = Ret out → pcap_packets anon = Some out →
  last_of is_probe (as_frame <$> fs) = Some f →
  ∃ line st, TaxSignature.main pcap_packets progname [Opt_f name] = Ret (Exited (mac_text f ++ line) [] st) ∧
             TaxSignature.main pcap_packets progname [Opt_f anon] = Ret (Exited (maker_text f ++ line) [] st).
Proof.
  intros Hp Hfs Hout Ha Hl. rewrite anonymize_packets_run, list_fmap_compose in Hout by done. injection Hout as <-.
  assert (Forall wifi_ok (hide_frame <$> fs)) as Hfs' by (rewrite Forall_fmap; eapply Forall_impl; [exact Hfs|]; apply hide_frame_ok).
  destruct (last_hidden PROBE_REQ fs (or_intror eq_refl) Hfs) as (z & H1 & H2 & Hsig & Hmac).
  destruct (last_hidden ASSOC_REQ fs (or_introl eq_refl) Hfs) as (w & H3 & H4 & Hsig' & _).
  rewrite (H1 : last_of is_probe _ = _) in Hl. destruct z as [g|]; [|done]. injection Hl as <-.
  injection Hsig as Hsig. injection Hmac as Hmac. unfold compose in Hsig, Hmac.
  do 2 eexists. rewrite (tax_run progname name fs _ Hp Hfs H1), (tax_run progname anon _ _ Ha Hfs' H2).
  cbv zeta. unfold is_assoc. rewrite H3, H4, <-!option_fmap_compose. unfold compose in *.
  rewrite Hsig, Hmac, Hsig'. done.
Qed.
End signatures.

(** ** Two houses *)

Definition sample_beacon_of (ssid : bytes) (dev : Z) : wifi_frame :=
  Wifi sample_radio ([0x80; 0; 0; 0] ++ replicate 6 255 ++ [2; 0; 7; dev; 1; 2] ++ [2; 0; 7; dev; 1; 3] ++ [0; 0])
    (replicate 12 0) ([0; 4] ++ ssid ++ [1; 1; 12]) [1; 2; 3; 4].
Definition sample_request : wifi_frame :=
  Wifi sample_radio ([0x40; 0; 0; 0] ++ replicate 6 255 ++ [2; 0; 7; 0xab; 0xcd; 0xef] ++ replicate 8 0) [] sample_ies [1; 2; 3; 4].
Definition sample_outside (pkts : list bytes) : outside :=
  {| in_opens := true; out_opens := true; limits_set := true; seccomp_set := true; packets := Some pkts;
     is_radio := true; dump_opens := true; sizes := Some (500, 500); renamed := true |}.
Lemma wifi_ok_intro f : bool_decide (all_bytes (wifi_bytes f)) = true →
  (4 <=? strlen (rtap f)) && (le16 (rtap f) 2 =? strlen (rtap f)) && (length (hdr f) =? 24)%nat &&
  from_option (λ n, length (fixed f) =? n)%nat true (fixed_len (hdr f)) && (length (check f) =? 4)%nat && (strlen (wifi_bytes f) <? 2 ^ 31) = true →
  wifi_ok f.
Proof.
  intros Hb%bool_decide_eq_true. rewrite !andb_true_iff, !Nat.eqb_eq, Z.leb_le, Z.eqb_eq, Z.ltb_lt. intros (((((H4 & Hr) & Hh) & Hf) & Hc) & Hs).
  split; try done. intros n Hn. rewrite Hn in Hf. by apply Nat.eqb_eq.
Qed.
Lemma sample_frames_ok : wifi_ok sample_request ∧ wifi_ok (sample_beacon_of (lit "home") 8) ∧ wifi_ok (sample_beacon_of (lit "work") 9).
Proof. split_and!; apply wifi_ok_intro; vm_compute; reflexivity. Qed.

Definition sample_out : list bytes := (wifi_bytes ∘ hide_frame) <$> [sample_request; sample_beacon_of (lit "home") 8].
Example sample_anonymized : anonymize (H := lp64) (wifi_bytes <$> [sample_request; sample_beacon_of (lit "home") 8]) = Ret sample_out.
Proof. vm_compute. reflexivity. Qed.
Example sample_name_hidden :
  elems (hide_frame (sample_beacon_of (lit "home") 8)) = [0; 4] ++ lit "XXXX" ++ [1; 1; 12].
Proof. vm_compute. reflexivity. Qed.

Lemma anonymize_hides_witness : let fs := [sample_request; sample_beacon_of (lit "home") 8] in
  let gs := [sample_request; sample_beacon_of (lit "work") 9] in
  let o := sample_outside (wifi_bytes <$> fs) in
  ∃ r, main (H := lp64) [Opt_f (lit "a.pcap")] o = Ret r ∧ main (H := lp64) [Opt_f (lit "a.pcap")] (with_packets (Some (wifi_bytes <$> gs)) o) = Ret r ∧
    (∀ out, dumped r = Some out → seccomp_set o = true ∧ Forall2 (λ p f, length p = length (wifi_bytes f)) out fs) ∧
    (exit_status r = 0 ↔ is_Some (moved r)) ∧
    (∀ x, moved r = Some x → x = (outfile (lit "a.pcap"), lit "a.pcap") ∧ is_Some (dumped r)) ∧
    (strlen (lit "a.pcap") < PATH_MAX - 5 → opened r ≠ Some (lit "a.pcap")).
Proof.
  intros fs gs o. destruct sample_frames_ok as (H1 & H2 & H3). apply (anonymize_hides (H := lp64) (lit "a.pcap") o fs gs).
  - reflexivity.
  - constructor; [exact H1|constructor; [exact H2|constructor]].
  - constructor; [exact H1|constructor; [exact H3|constructor]].
  - constructor; [split; try reflexivity; first [by left|exact (same_end _)]|]. constructor; [|constructor]. split; try reflexivity.
    + by left.
    + right. split_and!; reflexivity.
    + exact (same_name 4 (lit "home") (lit "work") [1; 1; 12] [1; 1; 12] eq_refl eq_refl (same_end _)).
Defined.
Lemma signatures_survive_witness : let fs := [sample_request; sample_beacon_of (lit "home") 8] in
  let pcap name := if bool_decide (name = lit "a.pcap") then Some (wifi_bytes <$> fs) else Some sample_out in
  ∃ line st, TaxSignature.main (H := lp64) pcap (lit "tax") [Opt_f (lit "a.pcap")] = Ret (Exited (mac_text (as_frame sample_request) ++ line) [] st) ∧
             TaxSignature.main (H := lp64) pcap (lit "tax") [Opt_f (lit "b.pcap")] = Ret (Exited (maker_text (as_frame sample_request) ++ line) [] st).
Proof.
  intros fs pcap. destruct sample_frames_ok as (H1 & H2 & H3).
  apply (signatures_survive (H := lp64) pcap (lit "tax") (lit "a.pcap") (lit "b.pcap") fs sample_out (as_frame sample_request)).
  - reflexivity.
  - constructor; [exact H1|constructor; [exact H2|constructor]].
  - exact sample_anonymized.
  - reflexivity.
  - vm_compute. reflexivity.
Defined.
