(* ===== verification/Isoping.v ===== *)
(** * Isochronous ping: cmds/isoping.cc and isoping.h

    Two programs send packets to each other at fixed times, and work out from the times
    of arrival how long each direction takes and what it loses.  A server gives a client
    a session when it returns a cookie: a hash of its address, its rate and a secret.

    The words of a packet are given by their values in network order ([ntohl] of the
    memory), except in the part that a handshake shares with the list of receipts, which
    is a list of bytes.  The queue of sessions is a list of entries with the time each had
    when it was put in; comparing an entry whose session is gone, or whose time has been
    changed since, is undefined. *)

From S2P Require Import Prelude.
Open Scope Z_scope.

(** The order of the bytes in a word of the machine. *)
Class HostOrder := { big_endian : bool }.
Definition net_bytes (n : nat) (v : Z) : bytes := rev (le_split n v).
Definition net_word (l : bytes) : Z := le_combine (rev l).
Section host_words.
Context `{!HostOrder}.
Definition host_bytes (n : nat) (v : Z) : bytes := if big_endian then net_bytes n v else le_split n v.
Definition host_word (l : bytes) : Z := if big_endian then net_word l else le_combine l.
(** A word of the machine, read as one of the network. *)
Definition ntohl (v : Z) : Z := net_word (host_bytes 4 v).
End host_words.

(** ** Constants *)

Definition COOKIE_SIZE : Z := 32.
Definition COOKIE_SECRET_SIZE : Z := 16.
Definition PACKET_TYPE_ACK : Z := 0.
Definition PACKET_TYPE_HANDSHAKE : Z := 1.
Definition MAGIC : Z := 0x424c4950.
Definition USEC_PER_CYCLE : Z := 10 * 1000 * 1000.
Definition handshake_timeout_usec : Z := 1000000.
Definition ACKS : Z := 64.
Definition ECONNREFUSED : Z := 111.
Definition EINVAL : Z := 22.
Definition EINTR : Z := 4.
Definition AF_INET : Z := 2.
Definition AF_INET6 : Z := 10.

Definition DIFF (x y : Z) : Z := s32 (x - y).
Definition DIFF64 (x y : Z) : Z := s64 (x - y).

(** ** Packets *)

(** [data]: the 512 bytes of the union. *)
Record Packet := {
  magic : Z; p_id : Z; p_txtime : Z; p_clockdiff : Z; p_usec_per_pkt : Z; p_num_lost : Z;
  packet_type : Z; first_ack : Z; data : bytes;
}.
Definition zero_packet : Packet := Build_Packet 0 0 0 0 0 0 0 0 (replicate 512 0).
Definition with_type_data t d (p : Packet) : Packet :=
  Build_Packet (magic p) (p_id p) (p_txtime p) (p_clockdiff p) (p_usec_per_pkt p) (p_num_lost p) t (first_ack p) d.
Definition with_data d (p : Packet) : Packet := with_type_data (packet_type p) d p.

(** The receipts in the union. *)
Definition slice (off n : Z) (l : bytes) : bytes := take (Z.to_nat n) (drop (Z.to_nat off) l).
Definition splice (off : Z) (l d : bytes) : bytes := take (Z.to_nat off) d ++ l ++ drop (Z.to_nat off + length l) d.
Definition ack_id (p : Packet) (i : Z) : Z := net_word (slice (8 * i) 4 (data p)).
Definition ack_rxtime (p : Packet) (i : Z) : Z := net_word (slice (8 * i + 4) 4 (data p)).
Definition set_ack (i id rxtime : Z) (p : Packet) : Packet :=
  with_data (splice (8 * i) (net_bytes 4 id ++ net_bytes 4 rxtime) (data p)) p.
Definition clear_acks (p : Packet) : Packet := with_data (replicate 512 0) p.

(** The handshake in the union. *)
Section handshake_data.
Context `{!HostOrder}.
Definition hs_cookie_epoch (p : Packet) : Z := host_word (slice 4 4 (data p)).
Definition hs_cookie (p : Packet) : bytes := slice 8 COOKIE_SIZE (data p).
Definition set_hs_cookie_epoch (v : Z) (p : Packet) : Packet := with_data (splice 4 (host_bytes 4 v) (data p)) p.
Definition set_hs_cookie (c : bytes) (p : Packet) : Packet := with_data (splice 8 c (data p)) p.
End handshake_data.

(** ** Addresses *)

Record sockaddr := { ss_family : Z; sin_port : Z; sin_flow : bytes; sin_addr : bytes; sin_scope : bytes }.
(** The bytes of an address: sockaddr_in has no flow and no scope, and eight bytes of padding. *)
Definition sa_bytes `{!HostOrder} (a : sockaddr) : bytes :=
  host_bytes 2 (ss_family a) ++ net_bytes 2 (sin_port a) ++ sin_flow a ++ sin_addr a ++ sin_scope a.

Fixpoint memcmp (a b : bytes) : Z :=
  match a, b with
  | x :: a, y :: b => if x =? y then memcmp a b else x - y
  | _, _ => 0
  end.
Definition CompareSockaddr (lhs rhs : sockaddr) : bool :=
  if negb (ss_family lhs =? ss_family rhs) then ss_family lhs <? ss_family rhs
  else if ss_family lhs =? AF_INET then
    let c := u32 (net_word (sin_addr lhs) - net_word (sin_addr rhs)) in
    if c =? 0 then sin_port lhs <? sin_port rhs else c <? 0
  else
    let c := memcmp (sin_addr lhs) (sin_addr rhs) in
    if c =? 0 then sin_port lhs <? sin_port rhs else c <? 0.
(** The keys that a map with this order takes for one. *)
Definition same_key (a b : sockaddr) : bool := negb (CompareSockaddr a b) && negb (CompareSockaddr b a).

(** ** Sessions *)

Inductive handshake := NEW_SESSION | HANDSHAKE_REQUESTED | COOKIE_GENERATED | ESTABLISHED.

Record latency := { lat : Z; lat_min : Z; lat_max : Z; lat_count : Z; lat_sum : Z; lat_var_sum : Z }.
Definition no_latency : latency := Build_latency 0 0x7fffffff 0 0 0 0.
Definition count_latency (v : Z) (l : latency) : latency :=
  Build_latency v (if v <? lat_min l then v else lat_min l) (if lat_max l <? v then v else lat_max l)
    (s64 (lat_count l + 1)) (s64 (lat_sum l + v)) (s64 (lat_var_sum l + v * v)).

(** What is known of the other side's clock, and of its packets. *)
Record clocks := { start_rtxtime : Z; start_rxtime : Z; min_cycle_rxdiff : Z; next_cycle : Z }.
Record receipt := { next_rx_id : Z; num_lost : Z; last_rxtime : Z }.

(** [rx]: None before the first packet.  [last_ackinfo]: the number in the text, in
    microseconds; None for the empty text. *)
Record Session := {
  usec_per_pkt : Z; usec_per_print : Z; remoteaddr : sockaddr;
  handshake_state : handshake; handshake_retry_count : Z;
  next_tx_id : Z; next_rxack_id : Z; next_send : Z; next_txack_index : Z;
  tx : Packet; rx : option Packet; last_ackinfo : option Z; last_print : Z;
  clk : clocks; rcv : receipt; lat_tx : latency; lat_rx : latency;
}.

(** Assignments to one member. *)
Definition set_usec_per_pkt x (s : Session) : Session :=
  Build_Session x (usec_per_print s) (remoteaddr s) (handshake_state s) (handshake_retry_count s) (next_tx_id s) (next_rxack_id s) (next_send s) (next_txack_index s) (tx s) (rx s) (last_ackinfo s) (last_print s) (clk s) (rcv s) (lat_tx s) (lat_rx s).
Definition set_handshake_state x (s : Session) : Session :=
  Build_Session (usec_per_pkt s) (usec_per_print s) (remoteaddr s) x (handshake_retry_count s) (next_tx_id s) (next_rxack_id s) (next_send s) (next_txack_index s) (tx s) (rx s) (last_ackinfo s) (last_print s) (clk s) (rcv s) (lat_tx s) (lat_rx s).
Definition set_handshake_retry_count x (s : Session) : Session :=
  Build_Session (usec_per_pkt s) (usec_per_print s) (remoteaddr s) (handshake_state s) x (next_tx_id s) (next_rxack_id s) (next_send s) (next_txack_index s) (tx s) (rx s) (last_ackinfo s) (last_print s) (clk s) (rcv s) (lat_tx s) (lat_rx s).
Definition set_next_tx_id x (s : Session) : Session :=
  Build_Session (usec_per_pkt s) (usec_per_print s) (remoteaddr s) (handshake_state s) (handshake_retry_count s) x (next_rxack_id s) (next_send s) (next_txack_index s) (tx s) (rx s) (last_ackinfo s) (last_print s) (clk s) (rcv s) (lat_tx s) (lat_rx s).
Definition set_next_rxack_id x (s : Session) : Session :=
  Build_Session (usec_per_pkt s) (usec_per_print s) (remoteaddr s) (handshake_state s) (handshake_retry_count s) (next_tx_id s) x (next_send s) (next_txack_index s) (tx s) (rx s) (last_ackinfo s) (last_print s) (clk s) (rcv s) (lat_tx s) (lat_rx s).
Definition set_next_send x (s : Session) : Session :=
  Build_Session (usec_per_pkt s) (usec_per_print s) (remoteaddr s) (handshake_state s) (handshake_retry_count s) (next_tx_id s) (next_rxack_id s) x (next_txack_index s) (tx s) (rx s) (last_ackinfo s) (last_print s) (clk s) (rcv s) (lat_tx s) (lat_rx s).
Definition set_next_txack_index x (s : Session) : Session :=
  Build_Session (usec_per_pkt s) (usec_per_print s) (remoteaddr s) (handshake_state s) (handshake_retry_count s) (next_tx_id s) (next_rxack_id s) (next_send s) x (tx s) (rx s) (last_ackinfo s) (last_print s) (clk s) (rcv s) (lat_tx s) (lat_rx s).
Definition set_tx x (s : Session) : Session :=
  Build_Session (usec_per_pkt s) (usec_per_print s) (remoteaddr s) (handshake_state s) (handshake_retry_count s) (next_tx_id s) (next_rxack_id s) (next_send s) (next_txack_index s) x (rx s) (last_ackinfo s) (last_print s) (clk s) (rcv s) (lat_tx s) (lat_rx s).
Definition set_rx x (s : Session) : Session :=
  Build_Session (usec_per_pkt s) (usec_per_print s) (remoteaddr s) (handshake_state s) (handshake_retry_count s) (next_tx_id s) (next_rxack_id s) (next_send s) (next_txack_index s) (tx s) x (last_ackinfo s) (last_print s) (clk s) (rcv s) (lat_tx s) (lat_rx s).
Definition set_last_ackinfo x (s : Session) : Session :=
  Build_Session (usec_per_pkt s) (usec_per_print s) (remoteaddr s) (handshake_state s) (handshake_retry_count s) (next_tx_id s) (next_rxack_id s) (next_send s) (next_txack_index s) (tx s) (rx s) x (last_print s) (clk s) (rcv s) (lat_tx s) (lat_rx s).
Definition set_last_print x (s : Session) : Session :=
  Build_Session (usec_per_pkt s) (usec_per_print s) (remoteaddr s) (handshake_state s) (handshake_retry_count s) (next_tx_id s) (next_rxack_id s) (next_send s) (next_txack_index s) (tx s) (rx s) (last_ackinfo s) x (clk s) (rcv s) (lat_tx s) (lat_rx s).
Definition set_clk x (s : Session) : Session :=
  Build_Session (usec_per_pkt s) (usec_per_print s) (remoteaddr s) (handshake_state s) (handshake_retry_count s) (next_tx_id s) (next_rxack_id s) (next_send s) (next_txack_index s) (tx s) (rx s) (last_ackinfo s) (last_print s) x (rcv s) (lat_tx s) (lat_rx s).
Definition set_rcv x (s : Session) : Session :=
  Build_Session (usec_per_pkt s) (usec_per_print s) (remoteaddr s) (handshake_state s) (handshake_retry_count s) (next_tx_id s) (next_rxack_id s) (next_send s) (next_txack_index s) (tx s) (rx s) (last_ackinfo s) (last_print s) (clk s) x (lat_tx s) (lat_rx s).
Definition set_lat_tx x (s : Session) : Session :=
  Build_Session (usec_per_pkt s) (usec_per_print s) (remoteaddr s) (handshake_state s) (handshake_retry_count s) (next_tx_id s) (next_rxack_id s) (next_send s) (next_txack_index s) (tx s) (rx s) (last_ackinfo s) (last_print s) (clk s) (rcv s) x (lat_rx s).
Definition set_lat_rx x (s : Session) : Session :=
  Build_Session (usec_per_pkt s) (usec_per_print s) (remoteaddr s) (handshake_state s) (handshake_retry_count s) (next_tx_id s) (next_rxack_id s) (next_send s) (next_txack_index s) (tx s) (rx s) (last_ackinfo s) (last_print s) (clk s) (rcv s) (lat_tx s) x.

(** The flags: 1e6 / packets_per_sec and 1e6 / prints_per_sec in microseconds (0 without
    -f), as the conversions to integers give them. *)
Class Flags := { quiet : bool; want_timestamps : bool; flag_usec_per_pkt : Z; flag_usec_per_print : Z }.

Definition new_session `{!Flags} (first_send usec : Z) (raddr : sockaddr) : Session := {|
  usec_per_pkt := s32 usec; usec_per_print := flag_usec_per_print; remoteaddr := raddr;
  handshake_state := NEW_SESSION; handshake_retry_count := 0;
  next_tx_id := 1; next_rxack_id := 0; next_send := first_send; next_txack_index := 0;
  tx := zero_packet; rx := None; last_ackinfo := None; last_print := u32 (first_send - usec);
  clk := Build_clocks 0 0 0 0; rcv := Build_receipt 0 0 0; lat_tx := no_latency; lat_rx := no_latency;
|}.

(** ** The packets of a session *)

Definition prepare_tx_packet (s : Session) : Session :=
  let t := tx s in
  let c := clk s in
  let type := match handshake_state s with ESTABLISHED => PACKET_TYPE_ACK | _ => PACKET_TYPE_HANDSHAKE end in
  let t := {| magic := MAGIC; p_id := next_tx_id s; p_txtime := u32 (next_send s);
              p_clockdiff := if start_rtxtime c =? 0 then 0 else u32 (start_rxtime c - start_rtxtime c);
              p_usec_per_pkt := u32 (usec_per_pkt s); p_num_lost := num_lost (rcv s);
              packet_type := type; first_ack := u8 (next_txack_index s); data := data t |} in
  set_tx t (set_next_tx_id (u32 (next_tx_id s + 1)) s).

(** What a packet's time means: when its packet [id] was due. *)
Definition ids_time (s : Session) (id : Z) : Z := u32 (id * usec_per_pkt s).

(** *** handle_ack_packet, in its steps *)

(** The first packet of the other side fixes its clock. *)
Definition ack_start (now id txtime : Z) (s : Session) : Session :=
  if next_rx_id (rcv s) =? 0 then
    set_clk (Build_clocks (u32 (txtime - ids_time s id)) (u64 (now - ids_time s id)) 0 (u32 (now + USEC_PER_CYCLE)))
      (set_rcv (Build_receipt id (num_lost (rcv s)) (last_rxtime (rcv s))) s)
  else s.
(** Packets that were missed. *)
Definition ack_losses (id : Z) (s : Session) : Session :=
  let r := rcv s in
  let tmpdiff := DIFF id (next_rx_id r) in
  if 0 <? tmpdiff then
    set_rcv (Build_receipt (u32 (next_rx_id r + (tmpdiff + 1))) (u32 (num_lost r + tmpdiff)) (last_rxtime r)) s
  else if tmpdiff =? 0 then set_rcv (Build_receipt (u32 (next_rx_id r + 1)) (num_lost r) (last_rxtime r)) s
  else s.
(** How much later than predicted the packet came. *)
Definition rx_delay (rxtime id : Z) (s : Session) : Z := s32 (DIFF64 rxtime (start_rxtime (clk s) + ids_time s id)).
Definition set_start_rxtime (t : Z) (s : Session) : Session :=
  let c := clk s in set_clk (Build_clocks (start_rtxtime c) (u64 t) (min_cycle_rxdiff c) (next_cycle c)) s.
Definition ack_drift (rxtime id : Z) (s : Session) : Session :=
  if rx_delay rxtime id s <? -20 then set_start_rxtime (rxtime - ids_time s id) s else s.

(** What a line on stdout shows, in microseconds. *)
Inductive line :=
  | Rx_line (ackinfo : option Z) (rx_us min_us tx_lost tx_count rx_lost rx_count : Z) (stamp : option Z)
  | Ack_line (ackinfo : Z) (stamp : option Z).

Definition our_clockdiff (s : Session) : Z := DIFF (start_rxtime (clk s)) (start_rtxtime (clk s)).
Definition ack_rtt (rx : Packet) (s : Session) : Z := s32 (our_clockdiff s + p_clockdiff rx).
Definition ack_offset (rx : Packet) (s : Session) : Z := DIFF (our_clockdiff s) (Z.quot (ack_rtt rx s) 2).

Definition ack_statistics (now rxdiff rtt : Z) (rx : Packet) (s : Session) : Session :=
  if p_clockdiff rx =? 0 then set_last_print (u32 (now - usec_per_print s + 1)) s
  else set_lat_rx (count_latency (s32 (rxdiff + Z.quot rtt 2)) (lat_rx s)) s.

Section acks.
Context `{!Flags}.
Definition stamp_of (t : Z) : option Z := if want_timestamps then Some t else None.

Definition ack_print (now rxdiff rtt : Z) (rx : Packet) (s : Session) : Session * list line :=
  if negb quiet && (usec_per_print s <=? DIFF now (last_print s)) then
    (set_last_print (u32 now) (set_last_ackinfo None s),
     [Rx_line (last_ackinfo s) (s32 (rxdiff + Z.quot rtt 2)) (Z.quot rtt 2) (p_num_lost rx) (next_tx_id s - 1)
        (num_lost (rcv s)) (next_rx_id (rcv s) - 1) (stamp_of now)])
  else (s, []).

Definition ack_cycle (now rxdiff : Z) (s : Session) : Session :=
  let c := clk s in
  let m := if rxdiff <? min_cycle_rxdiff c then rxdiff else min_cycle_rxdiff c in
  if 0 <=? DIFF now (next_cycle c) then
    set_clk (Build_clocks (start_rtxtime c) (if 0 <? m then u64 (start_rxtime c + m) else start_rxtime c)
               0x7fffffff (u32 (next_cycle c + USEC_PER_CYCLE))) s
  else set_clk (Build_clocks (start_rtxtime c) (start_rxtime c) m (next_cycle c)) s.

(** The packet is put into the ring of receipts. *)
Definition ack_schedule (rxtime id : Z) (s : Session) : outcome Session :=
  let i := next_txack_index s in
  if (0 <=? i) && (i <? ACKS) then
    Ret (set_next_txack_index ((i + 1) mod ACKS) (set_tx (set_ack i id (u32 rxtime) (tx s)) s))
  else Ub.

(** One receipt of the other side. *)
Definition ack_seen (offset ackid rrxtime : Z) (s : Session) : Session * list line :=
  if 0 <=? DIFF ackid (next_rxack_id s) then
    let start_txtime := u32 (next_send s - ids_time s (next_tx_id s)) in
    let txtime := u32 (start_txtime + ids_time s ackid) in
    let rxtime := u32 (rrxtime + offset) in
    let txdiff := DIFF rxtime txtime in
    let '(s, out) :=
      match last_ackinfo s with
      | Some i => if negb quiet && (usec_per_print s <=? 0)
                  then (set_last_ackinfo None s, [Ack_line i (stamp_of rxtime)]) else (s, [])
      | None => (s, [])
      end in
    let s := match last_ackinfo s with Some _ => s | None => set_last_ackinfo (Some txdiff) s end in
    (set_lat_tx (count_latency txdiff (lat_tx s)) (set_next_rxack_id (u32 (ackid + 1)) s), out)
  else (s, []).
(** The receipts from number [i] on; [n] are left. *)
Fixpoint ack_scan (n : nat) (i : Z) (offset : Z) (rx : Packet) (s : Session) : Session * list line :=
  match n with
  | O => (s, [])
  | S n =>
      let acki := u32 (first_ack rx + i) mod ACKS in
      let ackid := ack_id rx acki in
      let '(s, out) := if ackid =? 0 then (s, []) else ack_seen offset ackid (ack_rxtime rx acki) s in
      let '(s, out') := ack_scan n (i + 1) offset rx s in
      (s, out ++ out')
  end.

Definition handle_ack_packet (now : Z) (s : Session) : outcome (Session * list line) :=
  match rx s with
  | None => Ub
  | Some rx =>
      if packet_type rx =? PACKET_TYPE_ACK then
        let txtime := p_txtime rx in
        let rxtime := now in
        let id := p_id rx in
        let s := ack_start now id txtime s in
        let s := ack_losses id s in
        let s := ack_drift rxtime id s in
        let rxdiff := rx_delay rxtime id s in
        let rtt := ack_rtt rx s in
        let offset := ack_offset rx s in
        let s := ack_statistics now rxdiff rtt rx s in
        let '(s, out) := ack_print now rxdiff rtt rx s in
        let s := ack_cycle now rxdiff s in
        s ← ack_schedule rxtime id s;
        let '(s, out') := ack_scan (Z.to_nat ACKS) 0 offset rx s in
        let r := rcv s in
        Ret (set_rcv (Build_receipt (next_rx_id r) (num_lost r) (u32 rxtime)) s, out ++ out')
      else Ub
  end.
End acks.

(** ** All sessions *)

(** The map: its elements in order, each with the number of its node, which an iterator
    holds.  The queue: iterators with the time of the session when it was put in. *)
Record Sessions := {
  session_map : list (nat * (sockaddr * Session)); next_node : nat;
  next_sends : list (nat * Z);
  cookie_epoch : Z; last_secret_update_time : Z; cookie_secret : bytes;
  prev_cookie : option (Z * bytes);       (* epoch and secret; None: not set *)
  rng_count : nat;
}.
Definition with_map m n (st : Sessions) : Sessions :=
  Build_Sessions m n (next_sends st) (cookie_epoch st) (last_secret_update_time st) (cookie_secret st) (prev_cookie st) (rng_count st).
Definition with_sends q (st : Sessions) : Sessions :=
  Build_Sessions (session_map st) (next_node st) q (cookie_epoch st) (last_secret_update_time st) (cookie_secret st) (prev_cookie st) (rng_count st).
Definition with_update_time t (st : Sessions) : Sessions :=
  Build_Sessions (session_map st) (next_node st) (next_sends st) (cookie_epoch st) t (cookie_secret st) (prev_cookie st) (rng_count st).

(** *** The map *)

Definition node_of (st : Sessions) (n : nat) : option (sockaddr * Session) :=
  snd <$> List.find (λ e, Nat.eqb e.1 n) (session_map st).
Definition map_find (a : sockaddr) (st : Sessions) : option (nat * (sockaddr * Session)) :=
  List.find (λ e, same_key e.2.1 a) (session_map st).
Fixpoint map_put (e : nat * (sockaddr * Session)) (m : list (nat * (sockaddr * Session))) :=
  match m with
  | [] => [e]
  | x :: m => if CompareSockaddr e.2.1 x.2.1 then e :: x :: m else x :: map_put e m
  end.
Definition map_erase (a : sockaddr) (st : Sessions) : Sessions :=
  with_map (List.filter (λ e, negb (same_key e.2.1 a)) (session_map st)) (next_node st) st.
Definition map_update (n : nat) (s : Session) (st : Sessions) : Sessions :=
  with_map ((λ e, if Nat.eqb e.1 n then (e.1, (e.2.1, s)) else e) <$> session_map st) (next_node st) st.

(** *** The queue *)

(** Which of the earliest entries of a queue is its top. *)
Class Heap := { heap_top : list (nat * Z) → nat }.
Class HeapLaws `{!Heap} := {
  heap_top_first : ∀ q, q ≠ [] → ∃ e, q !! heap_top q = Some e ∧ ∀ e', e' ∈ q → e.2 ≤ e'.2;
}.
(** An entry can be compared: its session is there, with the time it had. *)
Definition entry_ok (st : Sessions) (e : nat * Z) : bool :=
  match node_of st e.1 with Some x => next_send x.2 =? e.2 | None => false end.
Definition heap_ok (st : Sessions) : bool := forallb (entry_ok st) (next_sends st).

Section sessions.
Context `{!Heap}.
Definition top (st : Sessions) : outcome (nat * Session) :=
  if heap_ok st then
    match next_sends st !! heap_top (next_sends st) with
    | Some e => match node_of st e.1 with Some x => Ret (e.1, x.2) | None => Ub end
    | None => Ub
    end
  else Ub.
Definition pop (st : Sessions) : outcome Sessions :=
  if heap_ok st && negb (Nat.eqb (length (next_sends st)) 0) then Ret (with_sends (delete (heap_top (next_sends st)) (next_sends st)) st) else Ub.
Definition push (n : nat) (st : Sessions) : outcome Sessions :=
  match node_of st n with
  | Some x =>
      let st' := with_sends (next_sends st ++ [(n, next_send x.2)]) st in
      if heap_ok st' then Ret st' else Ub
  | None => Ub
  end.
Definition next_send_time (st : Sessions) : outcome Z :=
  match next_sends st with [] => Ret 0 | _ => '(_, s) ← top st; Ret (next_send s) end.

Context `{!Flags}.
(** The session's node: a new one, or the one its address has already. *)
Definition NewSession (first_send usec : Z) (addr : sockaddr) (st : Sessions) : outcome (nat * Sessions) :=
  let '(n, st) :=
    match map_find addr st with
    | Some (n, _) => (n, st)
    | None => let n := next_node st in
              (n, with_map (map_put (n, (addr, new_session first_send usec addr)) (session_map st)) (S n) st)
    end in
  st ← push n st; Ret (n, st).
End sessions.

(** *** Cookies *)

(** OpenSSL: whether the digest can be set up, and the digest of a text. *)
Class Digest := { digest_init : bool; sha256 : bytes → bytes }.
Class DigestLaws `{!Digest} := { digest_init_ok : digest_init = true; sha256_length : ∀ m, strlen (sha256 m) = COOKIE_SIZE }.
(** The generator's numbers, as the eight bytes each is in memory. *)
Class Rng := { rng_bytes : nat → bytes }.

Section cookies.
Context `{!HostOrder, !Digest, !Rng}.

Definition NewRandomCookieSecret (st : Sessions) : Sessions :=
  let k := rng_count st in
  Build_Sessions (session_map st) (next_node st) (next_sends st) (cookie_epoch st) (last_secret_update_time st)
    (rng_bytes k ++ rng_bytes (S k)) (prev_cookie st) (S (S k)).
Definition Sessions_init : Sessions := NewRandomCookieSecret (Build_Sessions [] 0 [] 0 0 [] None 0).
Definition RotateCookieSecrets (new_epoch : Z) (st : Sessions) : Sessions :=
  NewRandomCookieSecret
    (Build_Sessions (session_map st) (next_node st) (next_sends st) new_epoch (last_secret_update_time st)
       (cookie_secret st) (Some (cookie_epoch st, cookie_secret st)) (rng_count st)).
(** [unix_time]: what time() gives. *)
Definition MaybeRotateCookieSecrets (now unix_time : Z) (is_server : bool) (st : Sessions) : Sessions :=
  if is_server && (1000000 <? u64 (now - last_secret_update_time st)) then
    let new_epoch := u32 (Z.shiftr unix_time 6) in
    let st := if negb (new_epoch =? cookie_epoch st) then RotateCookieSecrets new_epoch st else st in
    with_update_time (u32 now) st
  else st.

Definition cookie_text (secret : bytes) (p : Packet) (addr : sockaddr) : bytes :=
  secret ++ net_bytes 4 (p_usec_per_pkt p) ++ sa_bytes addr.
(** The answer, and the packet with what was put into it. *)
Definition CalculateCookieWithSecret (p : Packet) (addr : sockaddr) (secret : bytes) (st : Sessions) : bool * Packet :=
  if negb (packet_type p =? PACKET_TYPE_HANDSHAKE) then (false, p)
  else if negb digest_init then (false, p)
  else
    let c := sha256 (cookie_text secret p addr) in
    let p := set_hs_cookie c p in
    if negb (strlen c =? COOKIE_SIZE) then (false, p)
    else (true, set_hs_cookie_epoch (cookie_epoch st) p).
Definition CalculateCookie (p : Packet) (addr : sockaddr) (st : Sessions) : bool * Packet :=
  CalculateCookieWithSecret p addr (cookie_secret st) st.
(** The packet [golden] has only its type and rate set: its cookie is not, when the digest
    could not be set up.  The epoch of the secret before the present one is not set until
    there was one. *)
Definition ValidateCookie (p : Packet) (addr : sockaddr) (st : Sessions) : outcome bool :=
  match prev_cookie st with
  | None => Ub
  | Some (prev_epoch, prev_secret) =>
      let epoch := hs_cookie_epoch p in
      if negb (epoch =? cookie_epoch st) && negb (epoch =? prev_epoch) then Ret false
      else
        let secret := if epoch =? prev_epoch then prev_secret else cookie_secret st in
        let golden := Build_Packet 0 0 0 0 (p_usec_per_pkt p) 0 PACKET_TYPE_HANDSHAKE 0 (replicate 512 0) in
        if digest_init then
          let golden := (CalculateCookieWithSecret golden addr secret st).2 in
          Ret (memcmp (hs_cookie golden) (hs_cookie p) =? 0)
        else Ub
  end.
End cookies.

(** ** Sending and receiving *)

(** The sessions, what was sent ([None]: on the connected socket) and what was printed. *)
Record world := { sessions : Sessions; sent : list (option sockaddr * Packet); printed : list line }.
Abbreviation W := (M world).
Definition on_sessions (f : Sessions → Sessions) : W unit :=
  modify (λ w, Build_world (f (sessions w)) (sent w) (printed w)).
Definition put_sessions (st : Sessions) : W unit := on_sessions (λ _, st).
Definition transmit (to : option sockaddr) (p : Packet) : W unit :=
  modify (λ w, Build_world (sessions w) (sent w ++ [(to, p)]) (printed w)).
Definition print_lines (l : list line) : W unit := modify (λ w, Build_world (sessions w) (sent w) (printed w ++ l)).

(** errno after the n-th packet that is sent, when it could not be. *)
Class Sends := { send_errno : nat → option Z }.

Section packets.
Context `{!HostOrder, !Heap, !Flags, !Digest, !Rng, !Sends}.

Definition prepare_handshake_reply_packet (rx : Packet) (now : Z) : Packet := {|
  magic := MAGIC; p_id := p_id rx; p_txtime := ntohl (u32 now);
  p_clockdiff := u32 (u32 now - p_txtime rx);
  p_usec_per_pkt := Z.max (p_usec_per_pkt rx) flag_usec_per_pkt;
  p_num_lost := 0; packet_type := PACKET_TYPE_HANDSHAKE; first_ack := 0; data := replicate 512 0;
|}.
Definition send_initial_handshake_reply (rx : Packet) (addr : sockaddr) (now : Z) : W unit :=
  st ← gets sessions;
  transmit (Some addr) (CalculateCookie (prepare_handshake_reply_packet rx now) addr st).2.

(** A packet of [s] on its way, and the time of the next. *)
Definition send_packet (is_server : bool) (s : Session) : W (Z * Session) :=
  n ← gets (λ w, length (sent w));
  transmit (if is_server then Some (remoteaddr s) else None) (tx s);;
  if negb is_server && bool_decide (send_errno n = Some ECONNREFUSED) then mret (2, s)
  else if is_server || match handshake_state s with ESTABLISHED | COOKIE_GENERATED => true | _ => false end then
    mret (0, set_next_send (u64 (next_send s + usec_per_pkt s)) s)
  else
    let s := match handshake_state s with
             | NEW_SESSION => set_handshake_retry_count 0 (set_handshake_state HANDSHAKE_REQUESTED s)
             | _ => set_handshake_retry_count (s32 (handshake_retry_count s + 1)) s
             end in
    let timeout := u32 (handshake_timeout_usec * 2 ^ Z.min 10 (handshake_retry_count s)) in
    mret (0, set_next_tx_id (u32 (next_tx_id s - 1)) (set_next_send (u64 (next_send s + timeout)) s)).

(** The loop of [send_waiting_packets]. *)
Fixpoint send_waiting_packets (fuel : nat) (now : Z) (is_server : bool) : W Z :=
  match fuel with
  | O => lift OutOfFuel
  | S fuel =>
      st ← gets sessions;
      if Nat.eqb (length (next_sends st)) 0 then mret 0
      else
        '(n, s) ← lift (top st);
        if 0 <=? DIFF64 now (next_send s) then
          st ← lift (pop st);
          put_sessions st;;
          let s := prepare_tx_packet s in
          on_sessions (map_update n s);;
          '(err, s) ← send_packet is_server s;
          on_sessions (map_update n s);;
          if negb (err =? 0) then mret err
          else
            (if is_server && (60 * 1000 * 1000 <? DIFF now (last_rxtime (rcv s))) then on_sessions (map_erase (remoteaddr s))
             else st ← gets sessions; st ← lift (push n st); put_sessions st);;
            send_waiting_packets fuel now is_server
        else mret 0
  end.

(** [handle_ack_packet] on the session in node [n]. *)
Definition ack_packet_at (n : nat) (now : Z) (s : Session) : W unit :=
  '(s, out) ← lift (handle_ack_packet now s);
  on_sessions (map_update n s);;
  print_lines out.

Definition handle_new_client_handshake_packet (p : Packet) (addr : sockaddr) (now : Z) : W unit :=
  if hs_cookie_epoch p =? 0 then
    on_sessions (map_erase addr);;
    send_initial_handshake_reply p addr now
  else
    st ← gets sessions;
    valid ← lift (ValidateCookie p addr st);
    if negb valid then mret tt
    else
      '(n, st) ← lift (NewSession (u64 (now + 10 * 1000)) (p_usec_per_pkt p) addr st);
      put_sessions st;;
      match node_of st n with
      | None => stuck
      | Some (_, s) =>
          let s := set_handshake_state ESTABLISHED s in
          let s := set_rx (Some (clear_acks (with_type_data PACKET_TYPE_ACK (data p) p))) s in
          ack_packet_at n now s
      end.

Definition handle_server_handshake_packet (p : Packet) (now : Z) : W unit :=
  st ← gets sessions;
  match session_map st, next_sends st with
  | [(n, (_, s))], [_] =>
      st ← lift (pop st);
      let s := set_next_tx_id 1 s in
      let s := set_rcv (Build_receipt 0 (num_lost (rcv s)) (last_rxtime (rcv s))) s in
      let t := with_type_data PACKET_TYPE_HANDSHAKE (data (tx s)) (tx s) in
      let t := set_hs_cookie_epoch (hs_cookie_epoch p) t in
      let s := set_tx (set_hs_cookie (hs_cookie p) t) s in
      let s := set_usec_per_pkt (s32 (p_usec_per_pkt p)) s in
      let s := set_handshake_state COOKIE_GENERATED s in
      let s := set_next_send now s in
      st ← lift (push n (map_update n s st));
      put_sessions st
  | _, _ => stuck          (* an assertion fails *)
  end.

Definition handle_packet (node : option (nat * Session)) (p : Packet) (addr : sockaddr) (now : Z) (is_server : bool) : W unit :=
  if packet_type p =? PACKET_TYPE_HANDSHAKE then
    if is_server then handle_new_client_handshake_packet p addr now else handle_server_handshake_packet p now
  else if packet_type p =? PACKET_TYPE_ACK then
    match node with
    | Some (n, s) =>
        let s := set_rx (Some p) s in
        let s := match handshake_state s with
                 | COOKIE_GENERATED =>
                     if is_server then s
                     else set_handshake_state ESTABLISHED (set_tx (clear_acks (tx s)) s)
                 | _ => s
                 end in
        ack_packet_at n now s
    | None => stuck        (* an assertion fails *)
    end
  else mret tt.

(** What recvfrom gives: an error, or the number of bytes and the sender. *)
Inductive received := Recv_err (errno : Z) | Recv (got : Z) (p : Packet) (from : sockaddr).
Definition SIZEOF_PACKET : Z := 540.

Definition read_incoming_packet (r : received) (now : Z) (is_server : bool) : W Z :=
  match r with
  | Recv_err e => mret e
  | Recv got p from =>
      if negb (got =? SIZEOF_PACKET) || negb (magic p =? MAGIC) then mret EINVAL
      else if negb ((packet_type p =? PACKET_TYPE_HANDSHAKE) || (packet_type p =? PACKET_TYPE_ACK)) then mret EINVAL
      else
        st ← gets sessions;
        if is_server then
          match map_find from st with
          | Some (n, (_, s)) => handle_packet (Some (n, s)) p from now is_server;; mret 0
          | None =>
              if negb (packet_type p =? PACKET_TYPE_HANDSHAKE) then send_initial_handshake_reply p from now;; mret (-1)
              else handle_packet None p from now is_server;; mret 0
          end
        else
          match session_map st with
          | [] => mret EINVAL
          | (n, (_, s)) :: _ => handle_packet (Some (n, s)) p from now is_server;; mret 0
          end
  end.

(** ** The main loop *)

(** What happens in a round: the clock before and after select(), its answer, time(), what
    there is to read, and whether the program is to stop before the round. *)
Record round := Round { time1 : Z; nfds : Z; select_errno : Z; time2 : Z; unix_time : Z; recvd : received; die : bool }.

(** [Some v]: the program ends with [v], but for the final statistics with [Some 0]. *)
Definition main_round (fuel : nat) (is_server : bool) (i : round) : W (option Z) :=
  if die i then mret (Some 0)
  else
    st ← gets sessions;
    _ ← lift (next_send_time st);
    let now := time2 i in
    if (nfds i <? 0) && negb (select_errno i =? EINTR) then mret (Some 1)
    else
      on_sessions (MaybeRotateCookieSecrets now (unix_time i) is_server);;
      err ← send_waiting_packets fuel now is_server;
      if negb (err =? 0) then mret (Some err)
      else if 0 <? nfds i then
        err ← read_incoming_packet (recvd i) now is_server;
        if negb is_server && (err =? ECONNREFUSED) then mret (Some 2) else mret None
      else mret None.
Fixpoint main_loop (fuel : nat) (is_server : bool) (l : list round) : W (option Z) :=
  match l with
  | [] => mret None
  | i :: l => r ← main_round fuel is_server i; match r with Some _ => mret r | None => main_loop fuel is_server l end
  end.

(** The program on its socket: without a server's address it is the server. *)
Definition isoping_main (fuel : nat) (server : option sockaddr) (start : Z) (l : list round) : W (option Z) :=
  match server with
  | None => main_loop fuel true l
  | Some addr =>
      st ← gets sessions;
      '(_, st) ← lift (NewSession start flag_usec_per_pkt addr st);
      put_sessions st;;
      main_loop fuel false l
  end.
End packets.
