(* ===== verification/IsopingSession.v ===== *)
(** * Isochronous ping: what a session works out

    The packets that were missed, the receipts that are sent back and counted, and the
    delays: the steps of handle_ack_packet against what they are for. *)

From Stdlib Require Import Sorting.Sorted.
From S2P Require Import Prelude Isoping.
Open Scope Z_scope.

(** ** The steps, and what they leave alone *)

(** The members that no received packet changes. *)
Definition fixed (s : Session) :=
  (usec_per_pkt s, usec_per_print s, remoteaddr s, handshake_state s, handshake_retry_count s, next_tx_id s, next_send s, rx s).
Definition ring (s : Session) := (tx s, next_txack_index s).
(** What the receipts change. *)
Definition counted (s : Session) := (next_rxack_id s, lat_tx s).

Ltac step_tac f := intros; unfold f, set_start_rxtime; repeat (case_match; simplify_eq/=); done.

Section steps.
Context `{!Flags}.
Implicit Types s : Session.

Lemma ack_start_keeps now id t s : fixed (ack_start now id t s) = fixed s ∧ ring (ack_start now id t s) = ring s ∧
  counted (ack_start now id t s) = counted s.
Proof. step_tac ack_start. Qed.
Lemma ack_losses_keeps id s : fixed (ack_losses id s) = fixed s ∧ ring (ack_losses id s) = ring s ∧
  counted (ack_losses id s) = counted s ∧ clk (ack_losses id s) = clk s.
Proof. step_tac ack_losses. Qed.
Lemma ack_drift_keeps now id s : fixed (ack_drift now id s) = fixed s ∧ ring (ack_drift now id s) = ring s ∧
  counted (ack_drift now id s) = counted s ∧ rcv (ack_drift now id s) = rcv s.
Proof. step_tac ack_drift. Qed.
Lemma ack_statistics_keeps now d t p s : fixed (ack_statistics now d t p s) = fixed s ∧ ring (ack_statistics now d t p s) = ring s ∧
  counted (ack_statistics now d t p s) = counted s ∧ rcv (ack_statistics now d t p s) = rcv s ∧ clk (ack_statistics now d t p s) = clk s.
Proof. step_tac ack_statistics. Qed.
Lemma ack_print_keeps now d t p s s' out : ack_print now d t p s = (s', out) →
  fixed s' = fixed s ∧ ring s' = ring s ∧ counted s' = counted s ∧ rcv s' = rcv s ∧ clk s' = clk s ∧ lat_rx s' = lat_rx s.
Proof. unfold ack_print. intros. by case_match; simplify_eq/=. Qed.
Lemma ack_cycle_keeps now d s : fixed (ack_cycle now d s) = fixed s ∧ ring (ack_cycle now d s) = ring s ∧
  counted (ack_cycle now d s) = counted s ∧ rcv (ack_cycle now d s) = rcv s ∧ lat_rx (ack_cycle now d s) = lat_rx s.
Proof. step_tac ack_cycle. Qed.

Lemma ack_seen_keeps o a t s s' out : ack_seen o a t s = (s', out) →
  fixed s' = fixed s ∧ ring s' = ring s ∧ rcv s' = rcv s ∧ clk s' = clk s ∧ lat_rx s' = lat_rx s.
Proof. unfold ack_seen. intros. repeat (case_match; simplify_eq/=); done. Qed.
Lemma ack_scan_keeps n : ∀ i o p s s' out, ack_scan n i o p s = (s', out) →
  fixed s' = fixed s ∧ ring s' = ring s ∧ rcv s' = rcv s ∧ clk s' = clk s ∧ lat_rx s' = lat_rx s.
Proof.
  induction n as [|n IH]; intros i o p s s' out; cbn [ack_scan]; [by intros [= <- <-]|].
  set (acki := _ mod ACKS). destruct (if ack_id p acki =? 0 then _ else _) as [s1 out1] eqn:E1.
  destruct (ack_scan n (i + 1) o p s1) as [s2 out2] eqn:E2. intros [= <- <-]. apply IH in E2 as (-> & -> & -> & -> & ->).
  destruct (ack_id p acki =? 0); [by injection E1 as <- <-|by apply ack_seen_keeps in E1].
Qed.
End steps.

(** ** Losses *)

(** The receipts of a session after a packet. *)
Definition receive (id : Z) (r : Z * Z) : Z * Z :=
  let '(next, lost) := r in
  let next := if next =? 0 then id else next in
  let d := DIFF id next in
  if 0 <? d then (u32 (next + (d + 1)), u32 (lost + d)) else if d =? 0 then (u32 (next + 1), lost) else (next, lost).
Definition received_so_far (s : Session) : Z * Z := (next_rx_id (rcv s), num_lost (rcv s)).

Section run.
Context `{!Flags}.

(** The whole handler, for a packet of acknowledgements. *)
Lemma handle_ack_run now s p : rx s = Some p → packet_type p = PACKET_TYPE_ACK → 0 ≤ next_txack_index s < ACKS →
  ∃ s' out,
    handle_ack_packet now s = Ret (s', out) ∧ fixed s' = fixed s ∧
    received_so_far s' = receive (p_id p) (received_so_far s) ∧
    last_rxtime (rcv s') = u32 now ∧
    ring s' = (set_ack (next_txack_index s) (p_id p) (u32 now) (tx s), (next_txack_index s + 1) mod ACKS) ∧
    ∃ o s1, counted s1 = counted s ∧ counted s' = counted (ack_scan (Z.to_nat ACKS) 0 o p s1).1.
Proof.
  intros Hrx Hty Hi. unfold handle_ack_packet. rewrite Hrx, Hty. change (PACKET_TYPE_ACK =? PACKET_TYPE_ACK) with true. cbv zeta.
  set (id := p_id p). destruct (ack_start_keeps now id (p_txtime p) s) as (F1 & R1 & C1). set (s1 := ack_start now id (p_txtime p) s) in *.
  destruct (ack_losses_keeps id s1) as (F2 & R2 & C2 & _). set (s2 := ack_losses id s1) in *.
  assert (received_so_far s2 = receive id (received_so_far s)) as Hr.
  { unfold s2, ack_losses, s1, ack_start, received_so_far, receive. destruct (next_rx_id (rcv s) =? 0) eqn:E0; cbn [rcv set_rcv set_clk next_rx_id num_lost];
      repeat (case_match; simplify_eq/=); done. }
  destruct (ack_drift_keeps now id s2) as (F3 & R3 & C3 & V3). set (s3 := ack_drift now id s2) in *.
  set (d := rx_delay now id s3). set (t := ack_rtt p s3).
  destruct (ack_statistics_keeps now d t p s3) as (F4 & R4 & C4 & V4 & _). set (s4 := ack_statistics now d t p s3) in *.
  destruct (ack_print now d t p s4) as [s5 out] eqn:E5. apply ack_print_keeps in E5 as (F5 & R5 & C5 & V5 & _ & _).
  destruct (ack_cycle_keeps now d s5) as (F6 & R6 & C6 & V6 & _). set (s6 := ack_cycle now d s5) in *.
  assert (fixed s6 = fixed s ∧ ring s6 = ring s ∧ rcv s6 = rcv s2 ∧ counted s6 = counted s) as (F & R & V & C) by (split_and!; congruence).
  unfold ring in R. injection R as Rt Ri. unfold ack_schedule. rewrite Ri.
  destruct (Z.leb_spec 0 (next_txack_index s)), (Z.ltb_spec (next_txack_index s) ACKS); try lia. cbn [andb mbind outcome_bind].
  set (s6' := set_next_txack_index _ _). destruct (ack_scan _ _ _ _ s6') as [s7 out'] eqn:E7. pose proof E7 as Hscan.
  apply ack_scan_keeps in E7 as (F7 & R7 & V7 & _ & _). unfold s6' in F7, R7, V7.
  eexists _, _. split; [done|]. unfold fixed, ring, received_so_far in *. cbn [usec_per_pkt usec_per_print remoteaddr handshake_state
    handshake_retry_count next_tx_id next_send rx tx next_txack_index rcv set_rcv set_tx set_next_txack_index next_rx_id num_lost last_rxtime] in *.
  rewrite V7, V. rewrite Rt in R7. split_and!; [congruence|exact Hr|done|exact R7|].
  exists (ack_offset p s3), s6'. split; [exact C|]. by rewrite Hscan.
Qed.
End run.

(** The packets that a session gets, with the times of their arrival. *)
Section packets.
Context `{!Flags}.
Fixpoint handle_acks (l : list (Z * Packet)) (s : Session) : outcome Session :=
  match l with
  | [] => Ret s
  | (now, p) :: l => '(s, _) ← handle_ack_packet now (set_rx (Some p) s); handle_acks l s
  end.

(** The numbers that were larger than all before them, when the largest was [m]. *)
Fixpoint records (m : Z) (ids : list Z) : nat :=
  match ids with [] => 0 | id :: ids => if m <? id then S (records id ids) else records m ids end.
Lemma records_ascending ids : ∀ m, StronglySorted Z.lt (m :: ids) → records m ids = length ids.
Proof.
  induction ids as [|id ids IH]; intros m Hs; [done|]. cbn [records length]. apply StronglySorted_inv in Hs as [Hs Hm].
  apply Forall_cons in Hm as [Hm _]. destruct (Z.ltb_spec m id); [|lia]. f_equal. by apply IH.
Qed.

Lemma DIFF_small x y : - 2 ^ 31 ≤ x - y < 2 ^ 31 → DIFF x y = x - y.
Proof. intros. unfold DIFF. by apply s32_id. Qed.
Lemma u32_small x : 0 ≤ x < 2 ^ 32 → u32 x = x.
Proof. intros. unfold u32. by apply Z.mod_small. Qed.

Lemma receive_step id m lost : 1 ≤ id < 2 ^ 31 → 1 ≤ m < 2 ^ 31 → 0 ≤ lost < 2 ^ 31 →
  receive id (m + 1, lost) = if m <? id then (id + 1, lost + (id - m - 1)) else (m + 1, lost).
Proof.
  intros Hid Hm Hl. unfold receive. destruct (Z.eqb_spec (m + 1) 0); [lia|]. rewrite DIFF_small by lia.
  destruct (Z.ltb_spec m id).
  - destruct (Z.ltb_spec 0 (id - (m + 1))); [rewrite !u32_small by lia; f_equal; lia|].
    destruct (Z.eqb_spec (id - (m + 1)) 0); [|lia]. rewrite u32_small by lia. f_equal; lia.
  - destruct (Z.ltb_spec 0 (id - (m + 1))); [lia|]. destruct (Z.eqb_spec (id - (m + 1)) 0); [lia|done].
Qed.
Lemma foldl_receive ids : ∀ first m k, Forall (λ id, 1 ≤ id < 2 ^ 31) ids → 1 ≤ first ≤ m → m < 2 ^ 31 → 0 ≤ k ≤ m + 1 - first →
  foldl (flip receive) (m + 1, m + 1 - first - k) ids =
    let l := foldl Z.max m ids in (l + 1, l + 1 - first - (k + Z.of_nat (records m ids))).
Proof.
  induction ids as [|id ids IH]; intros first m k Hids Hm Hmax Hk; cbn [foldl records]; [f_equal; cbn; lia|].
  apply Forall_cons in Hids as [Hid Hids]. unfold flip at 2. rewrite receive_step by lia. destruct (Z.ltb_spec m id).
  - replace (m + 1 - first - k + (id - m - 1)) with (id + 1 - first - (k + 1)) by lia.
    rewrite IH by (done || lia). rewrite Z.max_r by lia. cbn. f_equal. lia.
  - rewrite IH by (done || lia). rewrite Z.max_l by lia. done.
Qed.

Lemma handle_acks_run l : ∀ s, 0 ≤ next_txack_index s < ACKS → Forall (λ x, packet_type x.2 = PACKET_TYPE_ACK) l →
  ∃ s', handle_acks l s = Ret s' ∧ received_so_far s' = foldl (flip receive) (received_so_far s) ((λ x, p_id x.2) <$> l).
Proof.
  induction l as [|[now p] l IH]; intros s Hi Hl; cbn [handle_acks]; [by exists s|].
  apply Forall_cons in Hl as [Hp Hl].
  destruct (handle_ack_run now (set_rx (Some p) s) p) as (s' & out & -> & _ & Hr & _ & Hring & _); [done..|].
  cbn [mbind outcome_bind]. unfold ring in Hring. injection Hring as _ Hix.
  destruct (IH s') as (s2 & -> & Hr2); [|done|].
  - rewrite Hix. apply Z.mod_pos_bound. done.
  - exists s2. split; [done|]. rewrite Hr2, Hr. done.
Qed.

(** What is reported as lost is what did not come in its place: of the packets that a new
    session receives, in whatever order they come and however often, the number of lost
    packets is the number of those between the first and the highest, less those that came
    ahead of all before them.  When they come in order that is the number of packets
    that did not come. *)
Theorem losses_counted s now p l :
  received_so_far s = (0, 0) → 0 ≤ next_txack_index s < ACKS →
  Forall (λ x, packet_type x.2 = PACKET_TYPE_ACK ∧ 1 ≤ p_id x.2 < 2 ^ 31) ((now, p) :: l) →
  let ids := (λ x, p_id x.2) <$> l in
  let last := foldl Z.max (p_id p) ids in
  ∃ s', handle_acks ((now, p) :: l) s = Ret s' ∧ next_rx_id (rcv s') = last + 1 ∧
    num_lost (rcv s') = last + 1 - p_id p - Z.of_nat (S (records (p_id p) ids)) ∧
    (StronglySorted Z.lt (p_id p :: ids) → num_lost (rcv s') = (last + 1 - p_id p) - Z.of_nat (length ((now, p) :: l))).
Proof.
  intros Hs Hi Hl ids last. destruct (handle_acks_run ((now, p) :: l) s Hi) as (s' & -> & Hr).
  { eapply Forall_impl; [exact Hl|]. by intros ? []. }
  exists s'. split; [done|]. rewrite Hs in Hr. cbn [fmap list_fmap foldl snd] in Hr. fold ids in Hr.
  apply Forall_cons in Hl as [[_ Hp] Hl]. cbn [snd] in Hp.
  assert (flip receive (0, 0) (p_id p) = (p_id p + 1, p_id p + 1 - p_id p - 1)) as H0.
  { unfold flip, receive. cbn [Z.eqb]. rewrite DIFF_small by lia. rewrite Z.sub_diag. cbn. rewrite u32_small by lia. f_equal. lia. }
  rewrite H0, foldl_receive in Hr by (lia || (apply Forall_fmap; eapply Forall_impl; [exact Hl|by intros ? []])).
  unfold received_so_far in Hr. cbv zeta in Hr. injection Hr as Hn Hlost. fold last in Hn, Hlost. split_and!; [done|lia|].
  intros Hsort. rewrite Hlost, (records_ascending ids) by done. unfold ids. rewrite length_fmap. cbn [length]. lia.
Qed.
End packets.

(** ** The ring of receipts *)

Lemma lookup_slice off n l k : slice off n l !! k = if decide (k < Z.to_nat n)%nat then l !! (Z.to_nat off + k)%nat else None.
Proof.
  unfold slice. case_decide; [by rewrite lookup_take_lt, lookup_drop by done|by rewrite lookup_take_ge by lia].
Qed.
Lemma lookup_splice off l d k : (Z.to_nat off + length l ≤ length d)%nat →
  splice off l d !! k = if decide (Z.to_nat off ≤ k < Z.to_nat off + length l)%nat then l !! (k - Z.to_nat off)%nat else d !! k.
Proof.
  intros Hd. unfold splice. destruct (decide (k < Z.to_nat off)%nat).
  - rewrite decide_False by lia. rewrite lookup_app_l by (rewrite length_take; lia). by rewrite lookup_take_lt.
  - rewrite lookup_app_r by (rewrite length_take; lia). rewrite length_take, Nat.min_l by lia. case_decide.
    + by rewrite lookup_app_l by lia.
    + rewrite lookup_app_r by lia. rewrite lookup_drop. f_equal. lia.
Qed.
Lemma length_splice off l d : (Z.to_nat off + length l ≤ length d)%nat → length (splice off l d) = length d.
Proof. intros Hd. unfold splice. rewrite !length_app, length_take, length_drop. lia. Qed.

Lemma length_net_bytes n v : length (net_bytes n v) = n.
Proof. unfold net_bytes. by rewrite length_rev, length_le_split. Qed.
Lemma net_word_bytes n v : 0 ≤ v < 256 ^ Z.of_nat n → net_word (net_bytes n v) = v.
Proof. intros Hv. unfold net_word, net_bytes. rewrite rev_involutive. by apply le_combine_split. Qed.

Lemma slice_splice off n off' l d : (Z.to_nat off' + length l ≤ length d)%nat →
  (Z.to_nat off + Z.to_nat n ≤ Z.to_nat off')%nat ∨ (Z.to_nat off' + length l ≤ Z.to_nat off)%nat →
  slice off n (splice off' l d) = slice off n d.
Proof.
  intros Hd Ho. apply list_eq. intros k. rewrite !lookup_slice. case_decide; [|done].
  rewrite lookup_splice by done. by rewrite decide_False by lia.
Qed.
Lemma slice_splice_in off n off' l d : (Z.to_nat off' + length l ≤ length d)%nat → 0 ≤ off → 0 ≤ off' →
  off' ≤ off → off + n ≤ off' + Z.of_nat (length l) →
  slice off n (splice off' l d) = slice (off - off') n l.
Proof.
  intros Hd H0 H0' Ho Hn. apply list_eq. intros k. rewrite !lookup_slice. case_decide; [|done].
  rewrite lookup_splice by done. rewrite decide_True by lia. f_equal. lia.
Qed.

Definition slot (p : Packet) (i : Z) : Z * Z := (ack_id p i, ack_rxtime p i).
Lemma slot_set_ack i id t p j : length (data p) = 512%nat → 0 ≤ i < ACKS → 0 ≤ j < ACKS → 0 ≤ id < 2 ^ 32 → 0 ≤ t < 2 ^ 32 →
  slot (set_ack i id t p) j = if decide (j = i) then (id, t) else slot p j.
Proof.
  unfold ACKS. intros Hd Hi Hj Hid Ht. unfold slot, ack_id, ack_rxtime, set_ack, with_data, with_type_data. cbn [data].
  assert (length (net_bytes 4 id ++ net_bytes 4 t) = 8%nat) as Hlen by (by rewrite length_app, !length_net_bytes).
  case_decide as Hji.
  - subst j. rewrite !slice_splice_in by lia. rewrite Z.sub_diag. replace (8 * i + 4 - 8 * i) with 4 by lia.
    unfold slice. change (Z.to_nat 0) with 0%nat. change (Z.to_nat 4) with 4%nat. rewrite drop_0.
    rewrite take_app_length' by (by rewrite length_net_bytes). rewrite drop_app_length' by (by rewrite length_net_bytes).
    rewrite take_ge by (by rewrite length_net_bytes). by rewrite !net_word_bytes.
  - rewrite !slice_splice by lia. done.
Qed.
Lemma slot_clear p j : slot (clear_acks p) j = (0, 0).
Proof.
  unfold slot, ack_id, ack_rxtime, clear_acks, with_data, with_type_data. cbn [data]. unfold slice. rewrite !drop_replicate, !take_replicate.
  assert (∀ k, net_word (replicate k 0) = 0) as H; [|by rewrite !H].
  intros k. unfold net_word. assert (Forall (λ b, b = 0) (rev (replicate k 0))) as Hz by (apply Forall_rev, Forall_replicate; done).
  induction Hz as [|b l -> _ IH]; [done|]. cbn [le_combine]. by rewrite IH.
Qed.

(** The last 64 receipts, oldest first, with empty ones before the first. *)
Definition window (h : list (Z * Z)) : list (Z * Z) := drop (length h) (replicate 64 (0, 0) ++ h).
Lemma length_window h : length (window h) = 64%nat.
Proof. unfold window. rewrite length_drop, length_app, length_replicate. lia. Qed.
Lemma window_snoc h e : window (h ++ [e]) = drop 1 (window h) ++ [e].
Proof.
  unfold window. rewrite drop_drop, length_app, (assoc_L (++)). cbn [length]. rewrite drop_app_le; [done|].
  rewrite length_app, length_replicate. lia.
Qed.

(** The ring of the packet [p], whose next slot is [i], holds the receipts [h]. *)
Definition ring_holds (h : list (Z * Z)) (r : Packet * Z) : Prop :=
  length (data r.1) = 512%nat ∧ 0 ≤ r.2 < ACKS ∧
  ∀ j, (j < 64)%nat → window h !! j = Some (slot r.1 ((r.2 + Z.of_nat j) mod ACKS)).

Lemma ring_holds_nil p i : length (data p) = 512%nat → 0 ≤ i < ACKS → (∀ j, slot p j = (0, 0)) → ring_holds [] (p, i).
Proof.
  intros Hp Hi Hs. split; [done|split; [done|]]. intros j Hj. rewrite Hs. unfold window. cbn [length]. rewrite drop_0, app_nil_r.
  by apply lookup_replicate.
Qed.
Lemma ring_holds_add h p i id t : ring_holds h (p, i) → 0 ≤ id < 2 ^ 32 → 0 ≤ t < 2 ^ 32 →
  ring_holds (h ++ [(id, t)]) (set_ack i id t p, (i + 1) mod ACKS).
Proof.
  intros (Hp & Hi & Hw) Hid Ht. cbn [fst snd] in *. split; [|split]; cbn [fst snd].
  - unfold set_ack, with_data, with_type_data. cbn [data]. unfold ACKS in Hi.
    rewrite length_splice; [done|]. rewrite length_app, !length_net_bytes, Hp. lia.
  - by apply Z.mod_pos_bound.
  - intros j Hj. rewrite Zplus_mod_idemp_l, window_snoc. rewrite slot_set_ack by (done || by apply Z.mod_pos_bound). case_decide as Hji.
    + assert (j = 63)%nat as ->.
      { unfold ACKS in *. pose proof (Z.div_mod (i + 1 + Z.of_nat j) 64). pose proof (Z.mod_pos_bound (i + 1 + Z.of_nat j) 64). lia. }
      rewrite lookup_app_r by (rewrite length_drop, length_window; lia). by rewrite length_drop, length_window.
    + rewrite lookup_app_l. 2:{ rewrite length_drop, length_window. destruct (decide (j = 63)%nat) as [->|]; [|lia].
        exfalso. apply Hji. unfold ACKS in *. replace (i + 1 + Z.of_nat 63) with (i + 1 * 64) by lia. rewrite Z_mod_plus_full. by apply Z.mod_small. }
      rewrite lookup_drop, Hw; [do 3 f_equal; lia|]. destruct (decide (j = 63)%nat) as [->|]; [|lia].
      exfalso. apply Hji. unfold ACKS in *. replace (i + 1 + Z.of_nat 63) with (i + 1 * 64) by lia. rewrite Z_mod_plus_full. by apply Z.mod_small.
Qed.

(** ** Receipts are counted once *)

Section receipts.
Context `{!Flags}.

Fixpoint seen_all (o : Z) (l : list (Z * Z)) (s : Session) : Session * list line :=
  match l with
  | [] => (s, [])
  | (id, t) :: l =>
      let '(s, out) := if id =? 0 then (s, []) else ack_seen o id t s in
      let '(s, out') := seen_all o l s in
      (s, out ++ out')
  end.

Lemma ack_scan_slots n : ∀ i o p s, 0 ≤ i → 0 ≤ first_ack p < ACKS → i + Z.of_nat n ≤ ACKS →
  ack_scan n i o p s = seen_all o ((λ j, slot p ((first_ack p + (i + Z.of_nat j)) mod ACKS)) <$> seq 0 n) s.
Proof.
  unfold ACKS. induction n as [|n IH]; intros i o p s Hi Hf Hn; [done|]. cbn [ack_scan seq fmap list_fmap seen_all].
  rewrite u32_small by lia. rewrite Z.add_0_r. fold ACKS. unfold slot at 1. set (a := (first_ack p + i) mod ACKS).
  destruct (if ack_id p a =? 0 then _ else _) as [s1 out1]. rewrite IH by (unfold ACKS; lia).
  rewrite <-fmap_S_seq, <-list_fmap_compose. erewrite (list_fmap_ext _ _ (seq 0 n)); [done|].
  intros j x _. unfold compose, ACKS. do 2 f_equal. lia.
Qed.

Lemma ack_scan_window h p i o s : ring_holds h (p, i) → first_ack p = i → ack_scan (Z.to_nat ACKS) 0 o p s = seen_all o (window h) s.
Proof.
  intros (_ & Hi & Hw) Hf. cbn [fst snd] in *. rewrite ack_scan_slots by (rewrite ?Hf; unfold ACKS in *; lia). f_equal.
  apply list_eq. intros j. destruct (decide (j < 64)%nat) as [Hj|Hj].
  - rewrite Hw by done. rewrite list_lookup_fmap, lookup_seq_lt by done. cbn. rewrite Hf. do 3 f_equal.
  - rewrite !lookup_ge_None_2; [done|rewrite length_window; lia|rewrite length_fmap, length_seq; unfold ACKS; lia].
Qed.

Lemma seen_all_app o l1 : ∀ l2 s, (seen_all o (l1 ++ l2) s).1 = (seen_all o l2 (seen_all o l1 s).1).1.
Proof.
  induction l1 as [|[id t] l1 IH]; intros l2 s; [done|]. cbn [app seen_all].
  destruct (if id =? 0 then _ else _) as [s1 out1]. specialize (IH l2 s1).
  destruct (seen_all o (l1 ++ l2) s1), (seen_all o l1 s1) as [s2 ?]. cbn [fst] in *. by destruct (seen_all o l2 s2).
Qed.
(** Receipts that are empty or were seen before. *)
Lemma seen_all_old o l : ∀ s, 0 ≤ next_rxack_id s ≤ 2 ^ 31 → Forall (λ e, 0 ≤ e.1 ∧ (e.1 = 0 ∨ e.1 < next_rxack_id s)) l →
  (seen_all o l s).1 = s.
Proof.
  induction l as [|[id t] l IH]; intros s Hs Hl; [done|]. apply Forall_cons in Hl as [[H0 Hid] Hl]. cbn [fst] in *. cbn [seen_all].
  specialize (IH s Hs Hl). destruct (Z.eqb_spec id 0) as [->|Hne]; [by destruct (seen_all o l s)|]. destruct Hid as [|Hid]; [done|].
  unfold ack_seen. rewrite DIFF_small by lia. destruct (Z.leb_spec 0 (id - next_rxack_id s)); [lia|]. by destruct (seen_all o l s).
Qed.

(** Numbers of packets, in the order they were sent. *)
Definition ascending (l : list (Z * Z)) : Prop := StronglySorted Z.lt l.*1 ∧ Forall (λ e, 1 ≤ e.1 < 2 ^ 31) l.

Lemma count_s64 n : 0 ≤ n < 2 ^ 62 → s64 (n + 1) = n + 1.
Proof. intros. apply s64_id. lia. Qed.
Lemma seen_all_new o l : ∀ s, 0 ≤ next_rxack_id s ≤ 2 ^ 31 → ascending l → Forall (λ e, next_rxack_id s ≤ e.1) l →
  0 ≤ lat_count (lat_tx s) → lat_count (lat_tx s) + Z.of_nat (length l) < 2 ^ 62 →
  let s' := (seen_all o l s).1 in
  lat_count (lat_tx s') = lat_count (lat_tx s) + Z.of_nat (length l) ∧
  next_rxack_id s' = from_option (λ e, e.1 + 1) (next_rxack_id s) (last l).
Proof.
  induction l as [|[id t] l IH]; intros s Hs [Hsort Hr] Hge Hc Hmax; [cbn; split; [lia|done]|].
  apply Forall_cons in Hr as [Hid Hr]. apply Forall_cons in Hge as [Hge _]. apply StronglySorted_inv in Hsort as [Hsort Hlt].
  cbn [fst length] in *. cbn [seen_all]. destruct (Z.eqb_spec id 0); [lia|].
  destruct (ack_seen o id t s) as [s1 out1] eqn:E1.
  assert (next_rxack_id s1 = id + 1 ∧ lat_count (lat_tx s1) = lat_count (lat_tx s) + 1) as [Hn1 Hc1].
  { revert E1. unfold ack_seen. rewrite DIFF_small by lia. destruct (Z.leb_spec 0 (id - next_rxack_id s)); [|lia].
    intros E1. repeat case_match; simplify_eq/=; rewrite u32_small, count_s64 by lia; done. }
  specialize (IH s1). destruct (seen_all o l s1) as [s2 out2]. cbn [fst] in *. rewrite Hn1, Hc1 in IH.
  destruct IH as [-> ->]; [lia|done| |lia|lia|].
  - change (Forall (Z.lt id) (fst <$> l)) in Hlt. rewrite Forall_fmap in Hlt. eapply Forall_impl; [exact Hlt|]. cbn. lia.
  - split; [lia|]. destruct l as [|e l]; [done|]. rewrite last_cons_cons. by destruct (last (e :: l)) eqn:E; [|apply last_None in E].
Qed.

Lemma sorted_last l z : StronglySorted Z.lt (l ++ [z]) → Forall (λ x, x < z) l.
Proof.
  induction l as [|x l IH]; [constructor|]. cbn. intros [Hs Hx]%StronglySorted_inv. apply Forall_app in Hx as [_ [Hx _]%Forall_cons].
  constructor; [done|by apply IH].
Qed.
(** One packet with its 64 receipts, when no more than 64 are new. *)
Lemma window_counted h n o s :
  ascending h → (n ≤ length h)%nat → (length h - n ≤ 64)%nat → 0 ≤ next_rxack_id s ≤ 2 ^ 31 →
  Forall (λ e, e.1 < next_rxack_id s) (take n h) → Forall (λ e, next_rxack_id s ≤ e.1) (drop n h) →
  0 ≤ lat_count (lat_tx s) → lat_count (lat_tx s) + Z.of_nat (length h - n) < 2 ^ 62 →
  let s' := (seen_all o (window h) s).1 in
  lat_count (lat_tx s') = lat_count (lat_tx s) + Z.of_nat (length h - n) ∧
  0 ≤ next_rxack_id s' ≤ 2 ^ 31 ∧ Forall (λ e, e.1 < next_rxack_id s') h ∧
  (∀ z, next_rxack_id s ≤ z → Forall (λ e, e.1 < z) h → next_rxack_id s' ≤ z).
Proof.
  intros [Hsort Hr] Hn H64 Hs Hold Hnew Hc Hmax.
  assert (window h = drop (length h) (replicate 64 (0, 0) ++ take n h) ++ drop n h) as Hw.
  { unfold window. rewrite <-(take_drop n h) at 2. rewrite (assoc_L (++)), drop_app_le; [done|].
    rewrite length_app, length_replicate, length_take. lia. }
  assert (ascending (drop n h)) as Hd.
  { split; [|by apply Forall_drop]. rewrite fmap_drop. clear -Hsort. generalize dependent n. induction Hsort; intros [|n]; cbn; try constructor; auto. }
  cbv zeta. rewrite Hw, seen_all_app.
  rewrite (seen_all_old o (drop (length h) _) s Hs).
  2: { apply Forall_drop, Forall_app. split; [apply Forall_replicate; cbn; lia|].
       apply Forall_and. split; [apply Forall_take; eapply Forall_impl; [exact Hr|cbn; lia]|].
       eapply Forall_impl; [exact Hold|cbn; lia]. }
  destruct (seen_all_new o (drop n h) s Hs Hd Hnew Hc) as [-> ->]; [rewrite length_drop; lia|]. rewrite length_drop.
  split; [done|]. destruct (last (drop n h)) as [e|] eqn:El; cbn [from_option].
  - assert (1 ≤ e.1 < 2 ^ 31) as He.
    { destruct Hd as [_ Hd]. apply last_Some in El as [l' El]. rewrite El in Hd. by apply Forall_app in Hd as [_ [He _]%Forall_cons]. }
    apply last_Some in El as [l' El]. rewrite El in Hd, Hnew. apply Forall_app in Hnew as [_ [Hne _]%Forall_cons].
    split; [lia|]. split.
    2: { intros z _ Hz. rewrite <-(take_drop n h), El in Hz. apply Forall_app in Hz as [_ [_ [Hz _]%Forall_cons]%Forall_app]. lia. }
    cut (Forall (λ x, x.1 < e.1 + 1) (take n h ++ l' ++ [e])); [by rewrite <-El, take_drop|].
    apply Forall_app; split; [eapply Forall_impl; [exact Hold|cbn; lia]|]. destruct Hd as [Hd _].
    rewrite fmap_app in Hd. apply sorted_last in Hd. change (Forall (λ z, z < e.1) (fst <$> l')) in Hd. rewrite Forall_fmap in Hd.
    apply Forall_app; split; [eapply Forall_impl; [exact Hd|cbn; lia]|repeat constructor; lia].
  - apply last_None in El. split; [done|]. split; [|done]. pose proof (take_drop n h) as Hh. rewrite El, app_nil_r in Hh. by rewrite <-Hh.
Qed.
End receipts.

(** ** Two sides *)

Section exchange.
Context `{!Flags}.

(** What [send_packet] does to a session that is established. *)
Definition sends (b : Session) : Session :=
  let b := prepare_tx_packet b in set_next_send (u64 (next_send b + usec_per_pkt b)) b.
(** The side [b] gets a packet of [a]; [b] sends a packet that [a] gets; [b] sends one that is lost. *)
Inductive event := Heard (now : Z) (p : Packet) | Told (now : Z) | Told_lost.
Fixpoint exchange (l : list event) (a b : Session) : outcome (Session * Session) :=
  match l with
  | [] => Ret (a, b)
  | Heard now p :: l => '(b, _) ← handle_ack_packet now (set_rx (Some p) b); exchange l a b
  | Told now :: l => let b := sends b in '(a, _) ← handle_ack_packet now (set_rx (Some (tx b)) a); exchange l a b
  | Told_lost :: l => exchange l a (sends b)
  end.

(** No more than 64 packets come between two packets that get through; [k]: since the last. *)
Fixpoint gaps_ok (k : nat) (l : list event) : Prop :=
  match l with
  | [] => True
  | Heard _ _ :: l => gaps_ok (S k) l
  | Told _ :: l => (k ≤ 64)%nat ∧ gaps_ok 0 l
  | Told_lost :: l => gaps_ok k l
  end.
Fixpoint heard (l : list event) : list (Z * Z) :=
  match l with [] => [] | Heard now p :: l => (p_id p, u32 now) :: heard l | _ :: l => heard l end.
(** How many packets [a] knows of at the end. *)
Fixpoint told (k : nat) (l : list event) : nat :=
  match l with [] => 0 | Heard _ _ :: l => told (S k) l | Told _ :: l => k + told 0 l | Told_lost :: l => told k l end.

(** [a] has counted all but the last [k] of the receipts [h] that [b] holds. *)
Definition in_step (h : list (Z * Z)) (k : nat) (a b : Session) : Prop :=
  ring_holds h (ring b) ∧ handshake_state b = ESTABLISHED ∧ 0 ≤ next_txack_index a < ACKS ∧ (k ≤ length h)%nat ∧
  0 ≤ next_rxack_id a ≤ 2 ^ 31 ∧ Forall (λ e, e.1 < next_rxack_id a) (take (length h - k) h) ∧
  Forall (λ e, next_rxack_id a ≤ e.1) (drop (length h - k) h) ∧ 0 ≤ lat_count (lat_tx a).

Lemma heard_step h k a b now p : in_step h k a b → packet_type p = PACKET_TYPE_ACK → ascending (h ++ [(p_id p, u32 now)]) →
  next_rxack_id a ≤ p_id p →
  ∃ b' out, handle_ack_packet now (set_rx (Some p) b) = Ret (b', out) ∧ in_step (h ++ [(p_id p, u32 now)]) (S k) a b'.
Proof.
  intros (Hring & Hst & Hia & Hk & Hn & Hold & Hnew & Hc) Hp [Hsort Hr] Hge. pose proof Hring as (_ & Hib & _).
  destruct (handle_ack_run now (set_rx (Some p) b) p) as (b' & out & -> & Hfix & _ & _ & Hring' & _); [done..|].
  exists b', out. split; [done|]. unfold in_step. rewrite Hring'. unfold fixed in Hfix. injection Hfix as _ _ _ Hst' _ _ _ _. rewrite Hst'.
  apply Forall_app in Hr as [_ [Hid _]%Forall_cons]. cbn [fst] in Hid.
  split; [apply ring_holds_add; [done|lia|apply Z.mod_pos_bound; lia]|]. rewrite length_app. cbn [length].
  replace (length h + 1 - S k)%nat with (length h - k)%nat by lia. rewrite take_app_le, drop_app_le by lia.
  split_and!; try done; try lia. apply Forall_app. split; [done|]. by repeat constructor.
Qed.
Lemma told_step h k a b now : in_step h k a b → ascending h → (k ≤ 64)%nat → lat_count (lat_tx a) + Z.of_nat k < 2 ^ 62 →
  ∃ a' out, handle_ack_packet now (set_rx (Some (tx (sends b))) a) = Ret (a', out) ∧ in_step h 0 a' (sends b) ∧
    lat_count (lat_tx a') = lat_count (lat_tx a) + Z.of_nat k ∧
    ∀ z, next_rxack_id a ≤ z → Forall (λ e, e.1 < z) h → next_rxack_id a' ≤ z.
Proof.
  intros (Hring & Hst & Hia & Hk & Hn & Hold & Hnew & Hc) Hh H64 Hmax. pose proof Hring as (Hd & Hib & Hw).
  assert (packet_type (tx (sends b)) = PACKET_TYPE_ACK) as Hty by (unfold sends, prepare_tx_packet; cbn; by rewrite Hst).
  destruct (handle_ack_run now (set_rx (Some (tx (sends b))) a) (tx (sends b))) as (a' & out & -> & _ & _ & _ & Hring' & o & s1 & C1 & C2); [done..|].
  exists a', out. split; [done|]. assert (ring_holds h (ring (sends b))) as Hring2 by exact Hring.
  assert (first_ack (tx (sends b)) = next_txack_index b) as Hfirst.
  { cbn. unfold u8. apply Z.mod_small. cbn [fst snd ring] in Hib. unfold ACKS in Hib. lia. }
  rewrite (ack_scan_window h _ (next_txack_index b)) in C2 by (exact Hring || exact Hfirst).
  unfold counted in C1, C2. injection C1 as Cn Cl. injection C2 as Cn' Cl'.
  assert (next_rxack_id s1 = next_rxack_id a) as En by exact Cn. assert (lat_tx s1 = lat_tx a) as El by exact Cl.
  destruct (window_counted h (length h - k) o s1) as (Hcount & Hn' & Hall & Hz); rewrite ?En, ?El; try done; try lia.
  assert (lat_count (lat_tx a') = lat_count (lat_tx a) + Z.of_nat k) as Hca.
  { rewrite Cl', Hcount, El. f_equal. lia. }
  rewrite <-Cn', En in Hz. split; [|done]. unfold in_step. rewrite Nat.sub_0_r, take_ge, drop_ge, Cn' by lia.
  unfold ring in Hring'. injection Hring' as _ Hi'. pose proof (Z.mod_pos_bound (next_txack_index a + 1) ACKS ltac:(done)).
  split_and!; try done; lia.
Qed.

(** The packets that [b] hears are new and in order, after the receipts [h]. *)
Fixpoint packets_ok (l : list event) : Prop :=
  match l with [] => True | Heard _ p :: l => packet_type p = PACKET_TYPE_ACK ∧ packets_ok l | _ :: l => packets_ok l end.
Lemma ascending_app h l : ascending (h ++ l) → ascending h.
Proof.
  intros [Hs [Hr _]%Forall_app]. split; [|done]. rewrite fmap_app in Hs.
  clear Hr. induction (h.*1) as [|x h' IH]; [constructor|]. apply StronglySorted_inv in Hs as [Hs [Hx _]%Forall_app]. constructor; auto.
Qed.
Lemma sorted_before (h l : list (Z * Z)) e : StronglySorted Z.lt (h.*1 ++ l.*1) → e ∈ l → Forall (λ x : Z * Z, x.1 < e.1) h.
Proof.
  induction h as [|x h IH]; intros Hs He; [constructor|]. apply StronglySorted_inv in Hs as [Hs Hx]. constructor; [|by apply IH].
  apply Forall_app in Hx as [_ Hx]. rewrite Forall_forall in Hx. apply Hx. by apply list_elem_of_fmap_2.
Qed.
Lemma exchange_run l : ∀ h k a b, in_step h k a b → ascending (h ++ heard l) → packets_ok l → gaps_ok k l →
  Forall (λ e, next_rxack_id a ≤ e.1) (heard l) → lat_count (lat_tx a) + Z.of_nat (k + length (heard l)) < 2 ^ 62 →
  ∃ a' b', exchange l a b = Ret (a', b') ∧ lat_count (lat_tx a') = lat_count (lat_tx a) + Z.of_nat (told k l).
Proof.
  induction l as [|[now p|now|] l IH]; intros h k a b Hs Hasc Hp Hg Hn Hmax; cbn [exchange told heard packets_ok gaps_ok] in *.
  - exists a, b. split; [done|]. cbn. lia.
  - destruct Hp as [Hty Hp]. apply Forall_cons in Hn as [Hid Hn]. cbn [fst length] in *.
    assert (h ++ (p_id p, u32 now) :: heard l = (h ++ [(p_id p, u32 now)]) ++ heard l) as Hh by by rewrite <-(assoc_L (++)).
    rewrite Hh in Hasc. destruct (heard_step h k a b now p Hs Hty (ascending_app _ _ Hasc) Hid) as (b' & out & -> & Hs').
    cbn [mbind outcome_bind]. apply (IH _ _ _ _ Hs' Hasc Hp Hg Hn). lia.
  - destruct Hg as [H64 Hg]. destruct (told_step h k a b now Hs (ascending_app _ _ Hasc) H64) as (a' & out & -> & Hs' & Hc & Hz); [lia|].
    cbn [mbind outcome_bind]. pose proof Hs as (_ & _ & _ & Hk & _).
    destruct (IH _ _ _ _ Hs' Hasc Hp Hg) as (a2 & b2 & -> & Hc2).
    + apply Forall_forall. intros e He. apply Hz.
      * rewrite Forall_forall in Hn. by apply Hn.
      * destruct Hasc as [Hsort _]. rewrite fmap_app in Hsort. by apply (sorted_before _ _ _ Hsort).
    + rewrite Hc. lia.
    + exists a2, b2. split; [done|]. lia.
  - by apply (IH h k a (sends b)).
Qed.

Definition ring_empty (b : Session) : Prop := ring_holds [] (ring b).
Lemma new_ring_empty first usec addr : ring_empty (new_session first usec addr).
Proof. apply ring_holds_nil; [done|done|apply (slot_clear zero_packet)]. Qed.

Lemma told_snoc l now : ∀ k, told k (l ++ [Told now]) = (k + length (heard l))%nat.
Proof. induction l as [|[] l IH]; intros k; cbn; rewrite ?IH; cbn; lia. Qed.
Lemma heard_snoc l now : heard (l ++ [Told now]) = heard l.
Proof. induction l as [|[] l IH]; cbn; by rewrite ?IH. Qed.

End exchange.

(** ** Delays *)

Section clock.
Context `{!Flags}.
(** What the prediction of times is made of. *)
Definition timing (s : Session) := (usec_per_pkt s, start_rtxtime (clk s), start_rxtime (clk s), next_cycle (clk s)).
Lemma timing_delay now id s s' : timing s = timing s' → rx_delay now id s = rx_delay now id s'.
Proof. unfold timing, rx_delay, ids_time. intros [= -> _ -> _]. done. Qed.
Lemma timing_rtt p s s' : timing s = timing s' → ack_rtt p s = ack_rtt p s'.
Proof. unfold timing, ack_rtt, our_clockdiff. intros [= _ -> -> _]. done. Qed.

(** A packet within the cycle, that does not come too early, leaves the prediction as it is. *)
Lemma handle_ack_clock now s p s' out :
  rx s = Some p → packet_type p = PACKET_TYPE_ACK → 0 ≤ next_txack_index s < ACKS →
  let s1 := ack_start now (p_id p) (p_txtime p) s in
  -20 ≤ rx_delay now (p_id p) s1 → DIFF now (next_cycle (clk s1)) < 0 →
  handle_ack_packet now s = Ret (s', out) →
  timing s' = timing s1 ∧
  lat_rx s' = if p_clockdiff p =? 0 then lat_rx s
              else count_latency (s32 (rx_delay now (p_id p) s1 + Z.quot (ack_rtt p s1) 2)) (lat_rx s).
Proof.
  intros Hrx Hty Hi s1 Hd Hcyc. unfold handle_ack_packet. rewrite Hrx, Hty. change (PACKET_TYPE_ACK =? PACKET_TYPE_ACK) with true. cbv zeta.
  set (id := p_id p) in *. assert (lat_rx s1 = lat_rx s) as L1 by (unfold s1, ack_start; by case_match). fold s1.
  destruct (ack_start_keeps now id (p_txtime p) s) as (_ & R1 & _). fold s1 in R1.
  assert (timing (ack_losses id s1) = timing s1 ∧ lat_rx (ack_losses id s1) = lat_rx s1 ∧ ring (ack_losses id s1) = ring s1) as (T2 & L2 & R2)
    by (unfold ack_losses; repeat (case_match; simplify_eq/=); done).
  set (s2 := ack_losses id s1) in *.
  assert (ack_drift now id s2 = s2) as ->.
  { unfold ack_drift. rewrite (timing_delay _ _ _ _ T2). destruct (Z.ltb_spec (rx_delay now id s1) (-20)); [lia|done]. }
  rewrite (timing_delay _ _ _ _ T2), (timing_rtt _ _ _ T2). set (d := rx_delay now id s1) in *. set (t := ack_rtt p s1).
  assert (timing (ack_statistics now d t p s2) = timing s2 ∧ ring (ack_statistics now d t p s2) = ring s2) as [T3 R3]
    by (unfold ack_statistics; by case_match).
  assert (lat_rx (ack_statistics now d t p s2) = if p_clockdiff p =? 0 then lat_rx s2 else count_latency (s32 (d + Z.quot t 2)) (lat_rx s2)) as L3
    by (unfold ack_statistics; by case_match).
  set (s3 := ack_statistics now d t p s2) in *.
  destruct (ack_print now d t p s3) as [s4 out4] eqn:E4. apply ack_print_keeps in E4 as (F4 & R4 & _ & _ & K4 & L4).
  assert (timing s4 = timing s3) as T4 by (unfold timing, fixed in *; congruence).
  assert (timing (ack_cycle now d s4) = timing s4 ∧ lat_rx (ack_cycle now d s4) = lat_rx s4 ∧ ring (ack_cycle now d s4) = ring s4) as (T5 & L5 & R5).
  { unfold ack_cycle. assert (next_cycle (clk s4) = next_cycle (clk s1)) as Hn by (unfold timing in *; congruence).
    rewrite <-Hn in Hcyc. destruct (Z.leb_spec 0 (DIFF now (next_cycle (clk s4)))); [lia|done]. }
  set (s5 := ack_cycle now d s4) in *. assert (next_txack_index s5 = next_txack_index s) as Hi5 by (unfold ring in *; congruence).
  unfold ack_schedule. rewrite Hi5. destruct (Z.leb_spec 0 (next_txack_index s)), (Z.ltb_spec (next_txack_index s) ACKS); try lia.
  cbn [andb mbind outcome_bind]. set (s6 := set_next_txack_index _ _). destruct (ack_scan _ _ _ _ s6) as [s7 out7] eqn:E7.
  apply ack_scan_keeps in E7 as (F7 & _ & _ & K7 & L7). intros [= <- <-].
  assert (timing s6 = timing s5 ∧ lat_rx s6 = lat_rx s5) as [T6 L6] by done.
  assert (timing s7 = timing s6) as T7 by (unfold timing, fixed in *; congruence).
  split; [unfold timing in *; cbn [usec_per_pkt clk set_rcv]; congruence|]. cbn [lat_rx set_rcv]. rewrite L7, L6, L5, L4, L3, L2, L1. done.
Qed.
End clock.

Lemma s32_eq x y : s32 x = s32 y ↔ x mod 2 ^ 32 = y mod 2 ^ 32.
Proof.
  unfold s32. split; intros H.
  - assert ((x + 2 ^ 31) mod 2 ^ 32 = (y + 2 ^ 31) mod 2 ^ 32) as H' by lia.
    replace x with (x + 2 ^ 31 - 2 ^ 31) by lia. replace y with (y + 2 ^ 31 - 2 ^ 31) by lia.
    rewrite (Zminus_mod (x + _)), (Zminus_mod (y + _)). by rewrite H'.
  - rewrite (Zplus_mod x), (Zplus_mod y). by rewrite H.
Qed.
Lemma mod_64_32 x : (x mod 2 ^ 64) mod 2 ^ 32 = x mod 2 ^ 32.
Proof. apply Z.mod_mod_divide. by exists (2 ^ 32). Qed.
Lemma s64_mod x : s64 x mod 2 ^ 32 = x mod 2 ^ 32.
Proof.
  unfold s64. rewrite Zminus_mod, mod_64_32. change ((2 ^ 63) mod 2 ^ 32) with 0. rewrite Z.sub_0_r, Zmod_mod.
  rewrite Zplus_mod. change ((2 ^ 63) mod 2 ^ 32) with 0. by rewrite Z.add_0_r, Zmod_mod.
Qed.

Section delays.
Context `{!Flags}.
(** The other side sends the packet [id] at [t0 + id * usec] by its clock, which is [off]
    behind ours; [d] is the delay of its fastest packet. *)
Variables t0 off e0 : Z.
Definition sent_at (s : Session) (id : Z) : Z := t0 + off + id * usec_per_pkt s.
Definition calibrated (d0 : Z) (s : Session) : Prop :=
  start_rtxtime (clk s) = u32 t0 ∧ start_rxtime (clk s) mod 2 ^ 32 = (t0 + off + d0) mod 2 ^ 32 ∧ 0 < next_rx_id (rcv s) < 2 ^ 31 + 1.

Lemma rx_delay_calibrated d0 d id now s : calibrated d0 s → now = sent_at s id + d → - 2 ^ 31 ≤ d - d0 < 2 ^ 31 →
  rx_delay now id s = d - d0.
Proof.
  intros (_ & Hst & _) -> Hd. unfold rx_delay, DIFF64. rewrite <-(s32_id (d - d0)) by done. apply s32_eq. rewrite s64_mod.
  unfold sent_at, ids_time, u32. rewrite Zminus_mod, (Zplus_mod (start_rxtime _)), Hst, Zmod_mod, <-Zplus_mod, <-Zminus_mod. f_equal. lia.
Qed.
Lemma s32_mod x : s32 x mod 2 ^ 32 = x mod 2 ^ 32.
Proof. apply s32_eq. unfold s32. rewrite Z.sub_add, Zmod_mod. done. Qed.
Lemma ack_rtt_calibrated d0 p s : calibrated d0 s → p_clockdiff p = u32 (e0 - off) → - 2 ^ 31 ≤ d0 + e0 < 2 ^ 31 →
  ack_rtt p s = d0 + e0.
Proof.
  intros (Hr & Hst & _) Hp Hd. unfold ack_rtt, our_clockdiff, DIFF. rewrite Hp, Hr, <-(s32_id (d0 + e0)) by done. apply s32_eq.
  unfold u32. rewrite Zplus_mod, s32_mod, Zmod_mod, <-Zplus_mod.
  rewrite Zplus_mod, Zminus_mod, Hst, Zmod_mod, <-Zminus_mod, <-Zplus_mod. f_equal. lia.
Qed.

Lemma receive_range id next lost : 1 ≤ id < 2 ^ 31 → 0 < next < 2 ^ 31 + 1 → 0 < (receive id (next, lost)).1 < 2 ^ 31 + 1.
Proof.
  intros Hid Hn. unfold receive. destruct (Z.eqb_spec next 0); [lia|]. rewrite DIFF_small by lia.
  destruct (Z.ltb_spec 0 (id - next)); [|destruct (Z.eqb_spec (id - next) 0)]; cbn [fst]; rewrite ?u32_small by lia; lia.
Qed.

(** A packet that comes within the cycle, and not before the fastest. *)
Lemma calibrated_step d0 d now p s :
  calibrated d0 s → 0 ≤ next_txack_index s < ACKS → packet_type p = PACKET_TYPE_ACK → 1 ≤ p_id p < 2 ^ 31 →
  p_clockdiff p = u32 (e0 - off) → p_clockdiff p ≠ 0 → now = sent_at s (p_id p) + d →
  DIFF now (next_cycle (clk s)) < 0 → -20 ≤ d - d0 < 2 ^ 30 → 0 ≤ d0 + e0 < 2 ^ 30 →
  ∃ s' out, handle_ack_packet now (set_rx (Some p) s) = Ret (s', out) ∧ calibrated d0 s' ∧ next_cycle (clk s') = next_cycle (clk s) ∧
    0 ≤ next_txack_index s' < ACKS ∧ usec_per_pkt s' = usec_per_pkt s ∧
    lat_rx s' = count_latency (d - d0 + Z.quot (d0 + e0) 2) (lat_rx s).
Proof.
  intros Hc Hi Hty Hid Hcd Hcd0 Hnow Hcyc Hd Hr.
  destruct (handle_ack_run now (set_rx (Some p) s) p) as (s' & out & Hrun & Hfix & Hrec & _ & Hring & _); [done..|].
  unfold fixed in Hfix. injection Hfix as Hu _ _ _ _ _ _ _. unfold ring in Hring. injection Hring as _ Hix.
  pose proof Hc as (Hrt & Hrx & Hnext). assert (ack_start now (p_id p) (p_txtime p) (set_rx (Some p) s) = set_rx (Some p) s) as Hst.
  { unfold ack_start. change (rcv (set_rx _ s)) with (rcv s). destruct (Z.eqb_spec (next_rx_id (rcv s)) 0); [lia|done]. }
  assert (rx_delay now (p_id p) (set_rx (Some p) s) = d - d0) as Hdel by (apply (rx_delay_calibrated d0 d); [done|done|lia]).
  destruct (handle_ack_clock now (set_rx (Some p) s) p s' out) as [Ht Hl]; rewrite ?Hst, ?Hdel; try done; try lia.
  rewrite Hst in Ht, Hl. rewrite Hdel, (ack_rtt_calibrated d0) in Hl by (done || lia).
  destruct (Z.eqb_spec (p_clockdiff p) 0); [done|]. rewrite s32_id in Hl by (pose proof (Z.quot_pos (d0 + e0) 2); pose proof (Z.quot_le_upper_bound (d0 + e0) 2 (2 ^ 30)); lia).
  unfold timing in Ht. injection Ht as Htu Ht1 Ht2 Ht3. exists s', out. split; [done|]. pose proof (Z.mod_pos_bound (next_txack_index s + 1) ACKS ltac:(done)).
  change (next_txack_index (set_rx (Some p) s)) with (next_txack_index s) in Hix. split_and!; try done; try lia.
  unfold calibrated. rewrite Ht1, Ht2. pose proof (receive_range (p_id p) (next_rx_id (rcv s)) (num_lost (rcv s)) Hid Hnext) as Hrange.
  change (receive _ _) with (receive (p_id p) (received_so_far (set_rx (Some p) s))) in Hrange. rewrite <-Hrec in Hrange. done.
Qed.

Lemma u32_mod x : u32 x mod 2 ^ 32 = x mod 2 ^ 32.
Proof. apply Zmod_mod. Qed.

(** The first packet: the session is calibrated by it. *)
Lemma calibrated_first d0 now p s :
  next_rx_id (rcv s) = 0 → 0 ≤ next_txack_index s < ACKS → packet_type p = PACKET_TYPE_ACK → 1 ≤ p_id p < 2 ^ 31 →
  p_txtime p = u32 (t0 + p_id p * usec_per_pkt s) → p_clockdiff p = 0 → now = sent_at s (p_id p) + d0 →
  ∃ s' out, handle_ack_packet now (set_rx (Some p) s) = Ret (s', out) ∧ calibrated d0 s' ∧
    next_cycle (clk s') = u32 (now + USEC_PER_CYCLE) ∧
    0 ≤ next_txack_index s' < ACKS ∧ usec_per_pkt s' = usec_per_pkt s ∧ lat_rx s' = lat_rx s.
Proof.
  intros Hn0 Hi Hty Hid Htx Hcd Hnow.
  destruct (handle_ack_run now (set_rx (Some p) s) p) as (s' & out & Hrun & Hfix & Hrec & _ & Hring & _); [done..|].
  unfold fixed in Hfix. injection Hfix as Hu _ _ _ _ _ _ _. unfold ring in Hring. injection Hring as _ Hix.
  set (s1 := ack_start now (p_id p) (p_txtime p) (set_rx (Some p) s)).
  assert (timing s1 = (usec_per_pkt s, u32 t0, u64 (now - u32 (p_id p * usec_per_pkt s)), u32 (now + USEC_PER_CYCLE))) as Ht1.
  { unfold s1, ack_start. change (rcv (set_rx _ s)) with (rcv s). rewrite Hn0. cbn [Z.eqb]. unfold timing. cbn [usec_per_pkt clk set_clk set_rcv start_rtxtime start_rxtime next_cycle].
    change (ids_time (set_rx (Some p) s) (p_id p)) with (u32 (p_id p * usec_per_pkt s)). f_equal; f_equal; f_equal.
    rewrite Htx. unfold u32. rewrite <-Zminus_mod. f_equal. lia. }
  assert (start_rxtime (clk s1) mod 2 ^ 32 = (t0 + off + d0) mod 2 ^ 32) as Hst.
  { unfold timing in Ht1. injection Ht1 as _ _ -> _. unfold u64. rewrite mod_64_32, Zminus_mod, u32_mod, <-Zminus_mod. f_equal.
    unfold sent_at in Hnow. lia. }
  assert (rx_delay now (p_id p) s1 = 0) as Hdel.
  { unfold rx_delay, DIFF64. rewrite <-(s32_id 0) by done. apply s32_eq. rewrite s64_mod, Zminus_mod, (Zplus_mod (start_rxtime _)), Hst.
    unfold timing in Ht1. injection Ht1 as Hu1 _ _ _. unfold ids_time. rewrite Hu1, u32_mod, <-Zplus_mod, <-Zminus_mod. f_equal. unfold sent_at in Hnow. lia. }
  destruct (handle_ack_clock now (set_rx (Some p) s) p s' out) as [Ht Hl]; fold s1; rewrite ?Hdel; try done; try lia.
  { unfold timing in Ht1. injection Ht1 as _ _ _ ->. unfold DIFF. unfold u32.
    assert (s32 (now - (now + USEC_PER_CYCLE) mod 2 ^ 32) = s32 (- USEC_PER_CYCLE)) as ->; [|by vm_compute].
    apply s32_eq. rewrite Zminus_mod, Zmod_mod, <-Zminus_mod. f_equal. lia. }
  fold s1 in Ht. rewrite Ht1 in Ht. rewrite Hcd in Hl. cbn [Z.eqb] in Hl.
  unfold timing in Ht. injection Ht as Hu' Hr' Hs' Hc'. exists s', out. split; [done|].
  pose proof (Z.mod_pos_bound (next_txack_index s + 1) ACKS ltac:(done)).
  change (next_txack_index (set_rx (Some p) s)) with (next_txack_index s) in Hix. split_and!; try done; try lia.
  unfold calibrated. rewrite Hr', Hs'. unfold timing in Ht1. injection Ht1 as _ _ Hs1 _. rewrite <-Hs1. split_and!; [done|done| |].
  all: unfold received_so_far, receive in Hrec; change (rcv (set_rx _ s)) with (rcv s) in Hrec; rewrite Hn0 in Hrec; cbn [Z.eqb] in Hrec;
    rewrite DIFF_small, Z.sub_diag in Hrec by lia; cbn in Hrec; injection Hrec as -> _; rewrite u32_small; lia.
Qed.

(** Packets with their delays, at the times they come. *)
Definition timed (usec : Z) (l : list (Packet * Z)) : list (Z * Packet) :=
  (λ x, (t0 + off + p_id x.1 * usec + x.2, x.1)) <$> l.
Definition latency_of (d0 d : Z) : Z := d - d0 + Z.quot (d0 + e0) 2.
Definition in_cycle (s : Session) (d0 cycle : Z) (x : Packet * Z) : Prop :=
  let now := sent_at s (p_id x.1) + x.2 in
  packet_type x.1 = PACKET_TYPE_ACK ∧ 1 ≤ p_id x.1 < 2 ^ 31 ∧ p_clockdiff x.1 = u32 (e0 - off) ∧ p_clockdiff x.1 ≠ 0 ∧
  -20 ≤ x.2 - d0 < 2 ^ 30 ∧ cycle - 2 ^ 31 ≤ now < cycle.

Lemma DIFF_before now cycle : cycle - 2 ^ 31 ≤ now < cycle → DIFF now (u32 cycle) < 0.
Proof.
  intros Hc. assert (DIFF now (u32 cycle) = now - cycle) as ->; [|lia]. unfold DIFF. rewrite <-(s32_id (now - cycle)) by lia.
  apply s32_eq. rewrite Zminus_mod, u32_mod, <-Zminus_mod. done.
Qed.
Lemma delays_run d0 cycle l : 0 ≤ d0 + e0 < 2 ^ 30 → ∀ s, calibrated d0 s → 0 ≤ next_txack_index s < ACKS → next_cycle (clk s) = u32 cycle →
  Forall (in_cycle s d0 cycle) l →
  ∃ s', handle_acks (timed (usec_per_pkt s) l) s = Ret s' ∧ lat_rx s' = foldl (λ acc x, count_latency (latency_of d0 x.2) acc) (lat_rx s) l.
Proof.
  intros Hr. induction l as [|[p d] l IH]; intros s Hc Hi Hcyc Hl; [by exists s|].
  apply Forall_cons in Hl as [(Hty & Hid & Hcd & Hcd0 & Hd & Hnow) Hl]. cbn [fst snd] in *. cbn [timed fmap list_fmap handle_acks foldl fst snd].
  destruct (calibrated_step d0 d (sent_at s (p_id p) + d) p s) as (s1 & out & Hrun & Hc1 & Hcyc1 & Hi1 & Hu1 & Hl1); try done.
  { rewrite Hcyc. by apply DIFF_before. }
  unfold sent_at in Hrun. rewrite Hrun. cbn [mbind outcome_bind]. fold (timed (usec_per_pkt s) l). rewrite <-Hu1.
  destruct (IH s1 Hc1 Hi1) as (s' & -> & Hl'); [congruence| |].
  - eapply Forall_impl; [exact Hl|]. unfold in_cycle, sent_at. by rewrite Hu1.
  - exists s'. split; [done|]. by rewrite Hl', Hl1.
Qed.

(** The delay of one direction is measured although the clocks are not set alike: of the
    packets that come in the ten seconds after the first, each counts with its own
    delay less the first packet's, and half of the fastest round trip; when the fastest packets of
    both directions take as long, that is exactly the time it was under way, whatever
    the offset of the two clocks, and although both are kept in 32 bits. *)
Theorem delays_measured s p0 d0 l :
  next_rx_id (rcv s) = 0 → 0 ≤ next_txack_index s < ACKS → packet_type p0 = PACKET_TYPE_ACK → 1 ≤ p_id p0 < 2 ^ 31 →
  p_txtime p0 = u32 (t0 + p_id p0 * usec_per_pkt s) → p_clockdiff p0 = 0 → 0 ≤ d0 + e0 < 2 ^ 30 →
  Forall (in_cycle s d0 (sent_at s (p_id p0) + d0 + USEC_PER_CYCLE)) l →
  ∃ s', handle_acks (timed (usec_per_pkt s) ((p0, d0) :: l)) s = Ret s' ∧
    lat_rx s' = foldl (λ acc x, count_latency (latency_of d0 x.2) acc) (lat_rx s) l ∧
    (e0 = d0 → lat_rx s' = foldl (λ acc x, count_latency x.2 acc) (lat_rx s) l).
Proof.
  intros Hn Hi Hty Hid Htx Hcd Hr Hl.
  destruct (calibrated_first d0 (sent_at s (p_id p0) + d0) p0 s) as (s1 & out & Hrun & Hc1 & Hcyc & Hi1 & Hu & Hl1); try done.
  destruct (delays_run d0 _ l Hr s1 Hc1 Hi1 Hcyc) as (s' & Hrun' & Hl').
  { eapply Forall_impl; [exact Hl|]. unfold in_cycle, sent_at. by rewrite Hu. }
  exists s'. cbn [timed fmap list_fmap handle_acks fst snd]. unfold sent_at in Hrun. rewrite Hrun. cbn [mbind outcome_bind].
  fold (timed (usec_per_pkt s) l). rewrite <-Hu. rewrite Hl1 in Hl'. split_and!; [done|done|]. intros He. rewrite Hl'.
  assert (∀ d, latency_of d0 d = d) as Hlat; [|clear -Hlat; generalize (lat_rx s); induction l as [|x l IH]; intros acc; cbn; rewrite ?Hlat; auto].
  intros d. unfold latency_of. rewrite He. replace (d0 + d0) with (d0 * 2) by lia. rewrite Z.quot_mul by lia. lia.
Qed.
End delays.

(** ** Examples *)

Definition sample_flags : Flags := {| quiet := false; want_timestamps := false; flag_usec_per_pkt := 100; flag_usec_per_print := 0 |}.
Definition sample_addr : sockaddr := {| ss_family := AF_INET6; sin_port := 4948; sin_flow := [0; 0; 0; 0]; sin_addr := replicate 15 0 ++ [1]; sin_scope := [0; 0; 0; 0] |}.
Definition sample_ack (id txtime clockdiff : Z) : Packet := Build_Packet MAGIC id txtime clockdiff 100 0 PACKET_TYPE_ACK 0 (replicate 512 0).
Definition sample_session : Session := @new_session sample_flags 0 100 sample_addr.

(** Packets 5, 7, 6 and 9 come: 6 came late, and 8 did not come. *)
Lemma losses_counted_witness :
  ∃ s', @handle_acks sample_flags ((1000, sample_ack 5 0 0) :: [(1200, sample_ack 7 0 0); (1210, sample_ack 6 0 0); (1400, sample_ack 9 0 0)]) sample_session = Ret s' ∧
    next_rx_id (rcv s') = 10 ∧ num_lost (rcv s') = 2.
Proof.
  destruct (@losses_counted sample_flags sample_session 1000 (sample_ack 5 0 0) [(1200, sample_ack 7 0 0); (1210, sample_ack 6 0 0); (1400, sample_ack 9 0 0)])
    as (s' & H1 & H2 & H3 & _).
  - reflexivity.
  - split; [discriminate|reflexivity].
  - repeat constructor; discriminate.
  - exists s'. split; [exact H1|]. split; [rewrite H2; reflexivity|rewrite H3; reflexivity].
Defined.


(** The other clock is 5 behind; the fastest packets take 7 each way, the second takes 9. *)
Lemma delays_measured_witness :
  ∃ s', @handle_acks sample_flags (timed 1000 5 100 [(sample_ack 1 1100 0, 7); (sample_ack 2 1200 2, 9)]) sample_session = Ret s' ∧
    lat_sum (lat_rx s') = 9.
Proof.
  destruct (@delays_measured sample_flags 1000 5 7 sample_session (sample_ack 1 1100 0) 7 [(sample_ack 2 1200 2, 9)]) as (s' & H1 & _ & H2).
  - reflexivity.
  - split; [discriminate|reflexivity].
  - reflexivity.
  - split; [discriminate|reflexivity].
  - reflexivity.
  - reflexivity.
  - split; [discriminate|reflexivity].
  - constructor; [|constructor]. repeat split; discriminate.
  - exists s'. split; [exact H1|]. rewrite H2; reflexivity.
Defined.
