(* ===== verification/IsopingServer.v ===== *)
(** * Isochronous ping: the server's sessions

    The map of sessions and the queue of times; that only a client that returned its
    cookie has a session, that packets are sent when they are due, and what breaks the
    queue. *)

From S2P Require Import Prelude Isoping IsopingSession.
Open Scope Z_scope.

(** ** The map and the queue *)

Abbreviation node := (nat * (sockaddr * Session))%type.

Lemma CompareSockaddr_irrefl a : CompareSockaddr a a = false.
Proof.
  unfold CompareSockaddr. rewrite Z.eqb_refl. cbn [negb]. destruct (ss_family a =? AF_INET).
  - rewrite Z.sub_diag. cbn. apply Z.ltb_irrefl.
  - assert (memcmp (sin_addr a) (sin_addr a) = 0) as ->; [|cbn; apply Z.ltb_irrefl].
    induction (sin_addr a) as [|x l IH]; [done|]. cbn [memcmp]. by rewrite Z.eqb_refl.
Qed.
Lemma same_key_refl a : same_key a a = true.
Proof. unfold same_key. by rewrite CompareSockaddr_irrefl. Qed.
Lemma same_key_sym a b : same_key a b = same_key b a.
Proof. unfold same_key. apply andb_comm. Qed.

(** What holds of the session of an entry. *)
Record session_ok (limit : Z) (x : sockaddr * Session) : Prop := {
  so_addr : remoteaddr x.2 = x.1;
  so_rate : 0 < usec_per_pkt x.2 < 2 ^ 31;
  so_ring : 0 ≤ next_txack_index x.2 < ACKS;
  so_time : 0 ≤ next_send x.2 < limit;
}.
Definition keys_differ (m : list node) : Prop :=
  ∀ x y, x ∈ m → y ∈ m → x.1 ≠ y.1 → same_key x.2.1 y.2.1 = false.
(** The queue has one entry for each session. *)
Record sessions_ok (limit : Z) (st : Sessions) : Prop := {
  ok_ids : NoDup (session_map st).*1;
  ok_next : Forall (λ e : node, (e.1 < next_node st)%nat) (session_map st);
  ok_keys : keys_differ (session_map st);
  ok_each : Forall (λ e : node, session_ok limit e.2) (session_map st);
  ok_queue : (next_sends st).*1 ≡ₚ (session_map st).*1;
  ok_heap : heap_ok st = true;
}.

Lemma node_of_elem st n x : NoDup (session_map st).*1 → node_of st n = Some x ↔ (n, x) ∈ session_map st.
Proof.
  unfold node_of. intros Hnd. split.
  - intros (e & Hf & ->)%fmap_Some. apply List.find_some in Hf as [Hin Hn%Nat.eqb_eq]. destruct e as [n' x]. cbn in *. subst. by apply list_elem_of_In.
  - induction (session_map st) as [|[n' x'] m IH]; [by intros ?%not_elem_of_nil|]. cbn [List.find fst]. apply NoDup_cons in Hnd as [Hni Hnd].
    intros [[= -> ->]|Hin]%elem_of_cons; [by rewrite Nat.eqb_refl|]. destruct (Nat.eqb_spec n' n) as [->|]; [|by apply IH].
    exfalso. apply Hni. apply list_elem_of_fmap. by exists (n, x).
Qed.
Lemma node_of_update st n s k : node_of (map_update n s st) k =
  (λ x, if Nat.eqb k n then (x.1, s) else x) <$> node_of st k.
Proof.
  unfold node_of, map_update, with_map. cbn [session_map]. induction (session_map st) as [|[n' x'] m IH]; [done|].
  cbn [fmap list_fmap List.find fst snd]. destruct (Nat.eqb_spec n' n) as [->|Hne]; cbn [fst].
  - destruct (Nat.eqb_spec n k) as [->|]; [cbn; by rewrite Nat.eqb_refl|exact IH].
  - destruct (Nat.eqb_spec n' k) as [->|]; [cbn; destruct (Nat.eqb_spec k n); [lia|done]|exact IH].
Qed.
Lemma update_ids st n s : (session_map (map_update n s st)).*1 = (session_map st).*1.
Proof.
  cbn [session_map map_update with_map]. rewrite <-list_fmap_compose. apply list_fmap_ext. intros i e _. cbn. by destruct (Nat.eqb e.1 n).
Qed.
Lemma heap_ok_spec st : heap_ok st = true ↔ ∀ e, e ∈ next_sends st → ∃ x, node_of st e.1 = Some x ∧ next_send x.2 = e.2.
Proof.
  unfold heap_ok. rewrite forallb_forall. split; intros H e He.
  - specialize (H e). rewrite <-list_elem_of_In in H. specialize (H He). unfold entry_ok in H. destruct (node_of st e.1) as [x|]; [|done].
    exists x. by apply Z.eqb_eq in H.
  - apply list_elem_of_In in He. destruct (H e He) as (x & Hx & Hk). unfold entry_ok. rewrite Hx. by apply Z.eqb_eq.
Qed.

Section queue.
Context {hp : Heap} {hl : HeapLaws}.
Implicit Types st : Sessions.

(** The top of the queue: the session with the earliest time. *)
Lemma top_run limit st : sessions_ok limit st → next_sends st ≠ [] →
  ∃ n a s i, top st = Ret (n, s) ∧ (n, (a, s)) ∈ session_map st ∧ heap_top (next_sends st) = i ∧
    next_sends st !! i = Some (n, next_send s) ∧ ∀ e, e ∈ session_map st → next_send s ≤ next_send e.2.2.
Proof.
  intros [Hids _ _ _ Hq Hheap] Hne. destruct (heap_top_first (next_sends st) Hne) as ([n k] & Hi & Hmin).
  pose proof (proj1 (heap_ok_spec st) Hheap) as Hspec.
  destruct (Hspec (n, k)) as ([a s] & Hn & Hk); [by eapply list_elem_of_lookup_2|]. cbn in Hn, Hk. subst k.
  exists n, a, s, (heap_top (next_sends st)). unfold top. rewrite Hheap, Hi. cbn [fst snd]. rewrite Hn. split_and!; [done|by apply node_of_elem|done|done|].
  intros [n' [a' s']] He. cbn. assert (n' ∈ (session_map st).*1) as Hin by (apply list_elem_of_fmap; by exists (n', (a', s'))).
  rewrite <-Hq in Hin. apply list_elem_of_fmap in Hin as ([n2 k'] & -> & Hin). cbn in He. specialize (Hmin _ Hin). cbn in Hmin.
  destruct (Hspec _ Hin) as (x & Hx & Hk'). cbn in Hx, Hk'. apply (node_of_elem st n2 (a', s') Hids) in He. rewrite He in Hx. injection Hx as <-. cbn in Hk'. lia.
Qed.

(** The queue without an entry that stands for the node [n]. *)
Lemma queue_without limit st i n k : sessions_ok limit st → next_sends st !! i = Some (n, k) →
  n :: (delete i (next_sends st)).*1 ≡ₚ (session_map st).*1 ∧ n ∉ (delete i (next_sends st)).*1.
Proof.
  intros [Hids _ _ _ Hq _] Hi. apply delete_Permutation in Hi as Hp.
  assert (n :: (delete i (next_sends st)).*1 ≡ₚ (session_map st).*1) as Hperm.
  { rewrite <-Hq. by rewrite Hp at 2. }
  split; [done|]. rewrite <-Hperm in Hids. by apply NoDup_cons in Hids as [].
Qed.

Definition updated (n : nat) (s : Session) (m : list node) : list node := (λ e, if Nat.eqb e.1 n then (e.1, (e.2.1, s)) else e) <$> m.
Lemma updated_updated n s s' m : updated n s' (updated n s m) = updated n s' m.
Proof.
  unfold updated. rewrite <-list_fmap_compose. apply list_fmap_ext. intros _ e _. unfold compose. destruct (Nat.eqb e.1 n) eqn:E; cbn; by rewrite ?E.
Qed.
Lemma map_update_update n s s' st : map_update n s' (map_update n s st) = map_update n s' st.
Proof. unfold map_update, with_map. cbn. f_equal. apply updated_updated. Qed.

Lemma elem_of_updated n s m e : e ∈ updated n s m → ∃ x, (e.1, x) ∈ m ∧ x.1 = e.2.1.
Proof.
  intros ([k x] & -> & He)%list_elem_of_fmap. cbn. exists x. by destruct (Nat.eqb k n).
Qed.
Lemma updated_keys n s m : keys_differ m → keys_differ (updated n s m).
Proof.
  intros Hm x y (x' & Hx & <-)%elem_of_updated (y' & Hy & <-)%elem_of_updated Hne. by apply (Hm (x.1, x') (y.1, y')).
Qed.
Lemma updated_ok limit n a s m : NoDup m.*1 → (n, (a, s)) ∈ m → Forall (λ e : node, session_ok limit e.2) m →
  ∀ s', session_ok limit (a, s') → Forall (λ e : node, session_ok limit e.2) (updated n s' m).
Proof.
  intros Hnd Hin Hm s' Hs'. apply Forall_fmap, Forall_forall. intros [n' x] He. cbn. destruct (Nat.eqb_spec n' n) as [->|]; cbn.
  - assert (x = (a, s)) as ->; [|done].
    apply list_elem_of_lookup in He as [i Hi], Hin as [j Hj].
    assert (i = j) as ->; [|congruence]. eapply (NoDup_lookup m.*1); [done| |]; rewrite list_lookup_fmap; [by rewrite Hi|by rewrite Hj].
  - rewrite Forall_forall in Hm. by apply (Hm (n', x)).
Qed.

(** All but the map and the queue. *)
Definition cookies st := (next_node st, cookie_epoch st, last_secret_update_time st, cookie_secret st, prev_cookie st, rng_count st).

(** The session [n] of the top is changed and put back. *)
Lemma requeue limit st n a s s' : sessions_ok limit st → (n, (a, s)) ∈ session_map st →
  next_sends st !! heap_top (next_sends st) = Some (n, next_send s) → session_ok limit (a, s') →
  ∃ st', (st1 ← pop st; push n (map_update n s' st1)) = Ret st' ∧ sessions_ok limit st' ∧
    session_map st' = updated n s' (session_map st) ∧ cookies st' = cookies st.
Proof.
  intros Hok Hin Hi Hs'. pose proof (queue_without limit st _ n _ Hok Hi) as [Hq Hni]. destruct Hok as [Hids Hnext Hkeys Heach _ Hheap].
  set (q := delete (heap_top (next_sends st)) (next_sends st)) in *. unfold pop. rewrite Hheap.
  destruct (Nat.eqb_spec (length (next_sends st)) 0) as [H0|]; [apply lookup_lt_Some in Hi; lia|]. cbn [andb negb mbind outcome_bind]. fold q.
  set (st1 := map_update n s' (with_sends q st)). assert (node_of st1 n = Some (a, s')) as Hn.
  { unfold st1. rewrite node_of_update. change (node_of (with_sends q st) n) with (node_of st n). rewrite (proj2 (node_of_elem st n (a, s) Hids) Hin). cbn. by rewrite Nat.eqb_refl. }
  unfold push. rewrite Hn. cbn [fst snd]. set (st2 := with_sends _ st1). assert (heap_ok st2 = true) as Hheap2.
  { apply heap_ok_spec. intros [k t] [He|He]%elem_of_app.
    - change (next_sends st1) with q in He. assert (k ≠ n) as Hne by (intros ->; apply Hni, list_elem_of_fmap; by exists (n, t)).
      cbn [fst snd]. change (node_of st2 k) with (node_of st1 k). unfold st1. rewrite node_of_update. destruct (Nat.eqb_spec k n); [done|].
      pose proof (proj1 (heap_ok_spec st) Hheap (k, t)) as (x & Hx & Ht).
      { unfold q in He. apply list_elem_of_In. apply list_elem_of_In in He. clear -He. revert He. generalize (heap_top (next_sends st)).
        induction (next_sends st) as [|e l IH]; intros [|i]; cbn; auto. intros [|]; eauto. }
      exists x. change (node_of (with_sends q st) k) with (node_of st k). cbn [fst snd] in Hx, Ht. by rewrite Hx.
    - apply list_elem_of_singleton in He as [= -> ->]. exists (a, s'). split; [exact Hn|done]. }
  rewrite Hheap2. exists st2. split; [done|]. split; [|done]. split; try done.
  - change (session_map st2) with (session_map (map_update n s' (with_sends q st))). rewrite update_ids. done.
  - apply Forall_fmap. eapply Forall_impl; [exact Hnext|]. intros e He. cbn. by destruct (Nat.eqb e.1 n).
  - by apply updated_keys.
  - by apply (updated_ok limit n a s).
  - change (next_sends st2) with (q ++ [(n, next_send s')]). rewrite fmap_app. change ([(n, next_send s')].*1) with [n].
    change (session_map st2) with (session_map (map_update n s' (with_sends q st))). rewrite update_ids. change (session_map (with_sends q st)) with (session_map st). rewrite <-Hq.
    by rewrite Permutation_app_comm.
Qed.

(** A part of the map, with the part of the queue that belongs to it. *)
Lemma sessions_ok_part limit st m q : sessions_ok limit st → m.*1 ≡ₚ q.*1 → NoDup m.*1 →
  (∀ e, e ∈ m → e ∈ session_map st) → (∀ e, e ∈ q → e ∈ next_sends st) →
  sessions_ok limit (with_sends q (with_map m (next_node st) st)).
Proof.
  intros [Hids Hnext Hkeys Heach Hq Hheap] Hmq Hnd Hm Hqs. rewrite Forall_forall in Hnext, Heach. split; cbn [session_map next_sends next_node with_sends with_map].
  - done.
  - apply Forall_forall. auto.
  - intros x y Hx Hy. apply Hkeys; auto.
  - apply Forall_forall. auto.
  - done.
  - apply heap_ok_spec. intros e He. cbn [next_sends with_sends] in He. destruct (proj1 (heap_ok_spec st) Hheap e (Hqs e He)) as (x & Hx & Ht).
    exists x. split; [|done]. apply (node_of_elem st _ _ Hids) in Hx.
    assert (e.1 ∈ m.*1) as ([k y] & Hk & Hy)%list_elem_of_fmap by (rewrite Hmq; apply list_elem_of_fmap; by exists e).
    cbn in Hk. apply node_of_elem; [done|]. cbn [session_map with_sends with_map]. rewrite Hk in *. assert (x = y) as ->; [|done].
    apply (node_of_elem st _ _ Hids) in Hx. apply Hm, (node_of_elem st _ _ Hids) in Hy. congruence.
Qed.

Lemma erase_one n a s m : keys_differ m → NoDup m.*1 → (n, (a, s)) ∈ m →
  ∃ m1 m2, m = m1 ++ (n, (a, s)) :: m2 ∧ List.filter (λ e, negb (same_key e.2.1 a)) m = m1 ++ m2.
Proof.
  intros Hk Hnd (m1 & m2 & ->)%list_elem_of_split. exists m1, m2. split; [done|].
  assert (∀ l, (∀ e, e ∈ l → e ∈ m1 ++ (n, (a, s)) :: m2 ∧ e.1 ≠ n) → List.filter (λ e, negb (same_key e.2.1 a)) l = l) as Hall.
  { intros l Hl. induction l as [|e l IH]; [done|]. cbn. destruct (Hl e) as [Hin Hne]; [by left|].
    assert (same_key e.2.1 a = false) as -> by (apply (Hk e (n, (a, s))); [done|set_solver|done]).
    cbn. f_equal. apply IH. intros e' He'. apply Hl. by right. }
  rewrite fmap_app, fmap_cons in Hnd. cbn [fst] in Hnd. apply NoDup_app in Hnd as (_ & Hd1 & [Hd2 _]%NoDup_cons).
  rewrite List.filter_app. cbn. rewrite same_key_refl. cbn. rewrite (Hall m1), (Hall m2); [done| |].
  - intros e He. split; [set_solver|]. intros <-. apply Hd2. apply list_elem_of_fmap. by exists e.
  - intros e He. split; [set_solver|]. intros <-. apply (Hd1 e.1); [apply list_elem_of_fmap; by exists e|]. by left.
Qed.

(** The session of the top is changed and then deleted. *)
Lemma evict limit st n a s s' : sessions_ok limit st → (n, (a, s)) ∈ session_map st →
  next_sends st !! heap_top (next_sends st) = Some (n, next_send s) → remoteaddr s' = a →
  ∃ st1, pop st = Ret st1 ∧
    let st' := map_erase (remoteaddr s') (map_update n s' st1) in
    sessions_ok limit st' ∧ cookies st' = cookies st ∧ ∃ m1 m2, session_map st = m1 ++ (n, (a, s)) :: m2 ∧ session_map st' = m1 ++ m2.
Proof.
  intros Hok Hin Hi Ha. pose proof (queue_without limit st _ n _ Hok Hi) as [Hq Hni]. pose proof Hok as [Hids Hnext Hkeys Heach _ Hheap].
  set (q := delete (heap_top (next_sends st)) (next_sends st)) in *. exists (with_sends q st).
  split. { unfold pop. rewrite Hheap. destruct (Nat.eqb_spec (length (next_sends st)) 0) as [He|]; [apply lookup_lt_Some in Hi; lia|done]. }
  cbv zeta. rewrite Ha. assert (List.filter (λ e, negb (same_key e.2.1 a)) (updated n s' (session_map st)) = List.filter (λ e, negb (same_key e.2.1 a)) (session_map st)) as Hf.
  { clear -Hids Hin. assert (∀ l, (∀ e, e ∈ l → e ∈ session_map st) → List.filter (λ e : node, negb (same_key e.2.1 a)) (updated n s' l) = List.filter (λ e, negb (same_key e.2.1 a)) l) as Hl; [|by apply Hl].
    intros l. induction l as [|[k [b t]] l IH]; intros Hl; [done|].
    change (updated n s' ((k, (b, t)) :: l)) with ((if Nat.eqb k n then (k, (b, s')) else (k, (b, t))) :: updated n s' l).
    cbn [List.filter]. rewrite IH by (intros e He; apply Hl; by right). destruct (Nat.eqb_spec k n) as [->|]; cbn [fst snd]; [|done].
    assert ((b, t) = (a, s)) as [= -> ->].
    { pose proof (Hl (n, (b, t)) ltac:(by left)) as Hin'. apply (node_of_elem st _ _ Hids) in Hin, Hin'. congruence. }
    rewrite same_key_refl. done. }
  destruct (erase_one n a s (session_map st) Hkeys Hids Hin) as (m1 & m2 & Hm & Hfm).
  assert (map_erase a (map_update n s' (with_sends q st)) = with_sends q (with_map (m1 ++ m2) (next_node st) st)) as ->.
  { unfold map_erase, map_update, with_map, with_sends. cbn. f_equal. fold (updated n s' (session_map st)). by rewrite Hf, Hfm. }
  split; [|split; [done|by exists m1, m2]].
  rewrite Hm in Hids, Hq. rewrite fmap_app, fmap_cons in Hids, Hq. cbn [fst] in Hids, Hq. rewrite <-Permutation_middle in Hids, Hq. apply Permutation_cons_inv in Hq.
  apply NoDup_cons in Hids as [_ Hids]. apply (sessions_ok_part limit st); [done|by rewrite fmap_app|by rewrite fmap_app|rewrite Hm; set_solver|].
  intros e He. unfold q in He. clear -He. revert He. generalize (heap_top (next_sends st)). induction (next_sends st) as [|x l IH]; intros [|i]; cbn; [set_solver..|].
  intros [->|He]%elem_of_cons; [by left|right; by apply (IH i)].
Qed.
End queue.

(** ** Sending *)

Section sending.
Context {hp : Heap} {hl : HeapLaws} `{!HostOrder, !Flags, !Digest, !Rng, !Sends}.

Definition with_sessions (st : Sessions) (w : world) : world := Build_world st (sent w) (printed w).
(** One packet of the session [s] in node [n], taken from the queue [st1]. *)
Definition after_send (n : nat) (s : Session) (st1 : Sessions) (w : world) : world :=
  Build_world (map_update n (sends s) st1) (sent w ++ [(Some (remoteaddr s), tx (sends s))]) (printed w).
Definition silent (now : Z) (s : Session) : bool := 60 * 1000 * 1000 <? DIFF now (last_rxtime (rcv s)).

Lemma send_step fuel now w n s st1 : next_sends (sessions w) ≠ [] → top (sessions w) = Ret (n, s) → pop (sessions w) = Ret st1 →
  0 ≤ DIFF64 now (next_send s) →
  send_waiting_packets (S fuel) now true w =
    let w1 := after_send n s st1 w in
    if silent now s then send_waiting_packets fuel now true (with_sessions (map_erase (remoteaddr (sends s)) (sessions w1)) w1)
    else (st2 ← lift (push n (sessions w1)); put_sessions st2;; send_waiting_packets fuel now true) w1.
Proof.
  intros Hne Htop Hpop Hd. cbn [send_waiting_packets]. rewrite M_bind_unfold. cbn [gets].
  destruct (Nat.eqb_spec (length (next_sends (sessions w))) 0) as [Hl|_]; [by destruct (next_sends (sessions w))|].
  rewrite Htop, M_bind_lift. destruct (Z.leb_spec 0 (DIFF64 now (next_send s))); [|lia]. rewrite Hpop, M_bind_lift.
  cbv zeta. unfold silent, after_send, with_sessions. cbn [sessions sent printed].
  rewrite <-(map_update_update n (prepare_tx_packet s) (sends s) st1). unfold send_packet, put_sessions, on_sessions, transmit, modify, gets, lift, mret, M_ret, mbind, M_bind.
  cbn -[prepare_tx_packet map_update map_erase set_next_send push DIFF Z.mul].
  change (rcv (set_next_send _ (prepare_tx_packet s))) with (rcv s). destruct (_ <? DIFF now (last_rxtime (rcv s))); [reflexivity|].
  unfold sends. destruct (push n _); reflexivity.
Qed.

Lemma send_done fuel now w : next_sends (sessions w) = [] → send_waiting_packets (S fuel) now true w = Ret (0, w).
Proof. intros Hq. cbn [send_waiting_packets]. rewrite M_bind_unfold. cbn [gets]. rewrite Hq. done. Qed.
Lemma send_wait fuel now w n s : next_sends (sessions w) ≠ [] → top (sessions w) = Ret (n, s) → DIFF64 now (next_send s) < 0 →
  send_waiting_packets (S fuel) now true w = Ret (0, w).
Proof.
  intros Hne Htop Hd. cbn [send_waiting_packets]. rewrite M_bind_unfold. cbn [gets].
  destruct (Nat.eqb_spec (length (next_sends (sessions w))) 0) as [Hl|_]; [by destruct (next_sends (sessions w))|].
  rewrite Htop, M_bind_lift. destruct (Z.leb_spec 0 (DIFF64 now (next_send s))); [lia|done].
Qed.

(** How many packets of a session are due. *)
Definition due (now : Z) (s : Session) : Z := if next_send s <=? now then (now - next_send s) / usec_per_pkt s + 1 else 0.
Fixpoint total_due (now : Z) (m : list node) : Z := match m with [] => 0 | e :: m => due now e.2.2 + total_due now m end.

Lemma total_due_app now m1 m2 : total_due now (m1 ++ m2) = total_due now m1 + total_due now m2.
Proof. induction m1 as [|e m1 IH]; cbn; lia. Qed.
Lemma due_nonneg now s : 0 < usec_per_pkt s → 0 ≤ due now s.
Proof. intros Hu. unfold due. destruct (Z.leb_spec (next_send s) now); [|lia]. pose proof (Z.div_pos (now - next_send s) (usec_per_pkt s)). lia. Qed.
Lemma total_due_nonneg limit now m : Forall (λ e : node, session_ok limit e.2) m → 0 ≤ total_due now m.
Proof. induction 1 as [|e m He _ IH]; cbn; [lia|]. pose proof (due_nonneg now e.2.2) as Hd. destruct He as [_ [Hu _] _ _]. lia. Qed.
Lemma total_due_0 limit now m : Forall (λ e : node, session_ok limit e.2) m → (∀ e, e ∈ m → now < next_send e.2.2) → total_due now m = 0.
Proof.
  intros Hm Hl. induction Hm as [|e m He _ IH]; [done|]. cbn. rewrite IH by (intros e' He'; apply Hl; by right).
  unfold due. destruct (Z.leb_spec (next_send e.2.2) now); [|lia]. pose proof (Hl e ltac:(by left)). lia.
Qed.
Lemma updated_split n s' m1 e m2 : NoDup (m1 ++ e :: m2).*1 → e.1 = n →
  updated n s' (m1 ++ e :: m2) = m1 ++ (n, (e.2.1, s')) :: m2.
Proof.
  intros Hnd <-. rewrite fmap_app, fmap_cons in Hnd. apply NoDup_app in Hnd as (_ & Hd1 & [Hd2 _]%NoDup_cons).
  assert (∀ l, (∀ x, x ∈ l → x.1 ≠ e.1) → updated e.1 s' l = l) as Hl.
  { intros l Hl. unfold updated. rewrite <-(list_fmap_id l) at 2. apply list_fmap_ext. intros i x Hx. cbn.
    destruct (Nat.eqb_spec x.1 e.1); [|done]. apply list_elem_of_lookup_2 in Hx. by apply Hl in Hx. }
  unfold updated in *. rewrite fmap_app, fmap_cons, Nat.eqb_refl. rewrite !Hl; [done| |].
  - intros x Hx He. apply Hd2. rewrite <-He. apply list_elem_of_fmap. by exists x.
  - intros x Hx He. apply (Hd1 x.1); [apply list_elem_of_fmap; by exists x|rewrite He; by left].
Qed.

Lemma sends_ok limit now a s : session_ok limit (a, s) → next_send s ≤ now → now + 2 ^ 31 ≤ limit ≤ 2 ^ 62 →
  session_ok limit (a, sends s) ∧ next_send (sends s) = next_send s + usec_per_pkt s ∧ due now (sends s) = due now s - 1.
Proof.
  intros [Ha Hu Hr Ht] Hn Hl. cbn [snd fst] in *. assert (next_send (sends s) = next_send s + usec_per_pkt s) as Hs.
  { unfold sends. cbn. unfold u64. rewrite Z.mod_small by lia. done. }
  split_and!; [|done|].
  - split; cbn [fst snd]; [done|done|done|lia].
  - unfold due. rewrite Hs. change (usec_per_pkt (sends s)) with (usec_per_pkt s). destruct (Z.leb_spec (next_send s) now); [|lia].
    destruct (Z.leb_spec (next_send s + usec_per_pkt s) now).
    + replace (now - (next_send s + usec_per_pkt s)) with (now - next_send s + (-1) * usec_per_pkt s) by lia. rewrite Z.div_add by lia. lia.
    + rewrite (Z.div_small (now - next_send s)) by lia. lia.
Qed.
Lemma DIFF64_small x y : 0 ≤ x < 2 ^ 62 → 0 ≤ y < 2 ^ 62 → DIFF64 x y = x - y.
Proof. intros. unfold DIFF64. apply s64_id. lia. Qed.

(** What a round of sending does to the world. *)
Record sent_due (limit now : Z) (w w' : world) : Prop := {
  sd_ok : sessions_ok limit (sessions w');
  sd_later : ∀ e, e ∈ session_map (sessions w') → now < next_send e.2.2;
  sd_cookies : cookies (sessions w') = cookies (sessions w);
  sd_from : ∀ e, e ∈ session_map (sessions w') → ∃ s, (e.1, (e.2.1, s)) ∈ session_map (sessions w);
  sd_sent : ∃ out, sent w' = sent w ++ out ∧ Z.of_nat (length out) ≤ total_due now (session_map (sessions w)) ∧
    ((∀ e, e ∈ session_map (sessions w) → silent now e.2.2 = false) → Z.of_nat (length out) = total_due now (session_map (sessions w)));
}.
Lemma due_pos now s : 0 < usec_per_pkt s → next_send s ≤ now → 1 ≤ due now s.
Proof.
  intros Hu Hn. unfold due. destruct (Z.leb_spec (next_send s) now); [|lia].
  pose proof (Z.div_pos (now - next_send s) (usec_per_pkt s)). lia.
Qed.

(** One packet was sent, and its session deleted. *)
Lemma sent_due_evicted limit now w w1 w' n a s x m1 m2 :
  session_map (sessions w) = m1 ++ (n, (a, s)) :: m2 → session_map (sessions w1) = m1 ++ m2 →
  cookies (sessions w1) = cookies (sessions w) → sent w1 = sent w ++ [x] → silent now s = true → 1 ≤ due now s →
  sent_due limit now w1 w' → sent_due limit now w w'.
Proof.
  intros Hm Hm1 Hck Hx Hsil Hdue [A B C D (out & E1 & E2 & _)]. rewrite Hm1 in D, E2. split; [done|done|by rewrite C| |].
  - intros e He. destruct (D e He) as [s0 Hs0]. exists s0. rewrite Hm. set_solver.
  - exists ([x] ++ out). rewrite (assoc_L (++)), <-Hx. split; [exact E1|]. split.
    + rewrite Hm, total_due_app. rewrite total_due_app in E2. cbn [app length total_due fst snd]. lia.
    + intros Hno. specialize (Hno (n, (a, s))). cbn [snd] in Hno. rewrite Hno in Hsil; [done|rewrite Hm; set_solver].
Qed.
(** One packet was sent, and its session put back. *)
Lemma sent_due_kept limit now w w1 w' n a s s' x :
  NoDup (session_map (sessions w)).*1 → (n, (a, s)) ∈ session_map (sessions w) → session_map (sessions w1) = updated n s' (session_map (sessions w)) →
  cookies (sessions w1) = cookies (sessions w) → sent w1 = sent w ++ [x] → silent now s' = false → due now s' = due now s - 1 →
  total_due now (session_map (sessions w1)) = total_due now (session_map (sessions w)) - 1 ∧
  (sent_due limit now w1 w' → sent_due limit now w w').
Proof.
  intros Hids Hin Hm1 Hck Hx Hsil Hdue.
  assert (total_due now (session_map (sessions w1)) = total_due now (session_map (sessions w)) - 1) as Htot.
  { destruct (list_elem_of_split _ _ Hin) as (m1 & m2 & Hm). rewrite Hm1, Hm. rewrite Hm in Hids.
    rewrite updated_split by done. rewrite !total_due_app. cbn. lia. }
  split; [done|]. intros [A B C D (out & E1 & E2 & E3)]. rewrite Hm1 in D. split; [done|done|by rewrite C| |].
  - intros e He. destruct (D e He) as [s0 Hs0]. apply elem_of_updated in Hs0 as ([b y] & Hy & Hb). cbn in Hy, Hb. subst b. by exists y.
  - exists ([x] ++ out). rewrite (assoc_L (++)), <-Hx. split; [exact E1|]. cbn [app length]. split; [lia|].
    intros Hno. rewrite Nat2Z.inj_succ, E3; [lia|]. intros [k [b y]] He. rewrite Hm1 in He. unfold updated in He.
    apply list_elem_of_fmap in He as ([k' [b' y']] & Heq & He). cbn in Heq. destruct (Nat.eqb k' n); simplify_eq; [exact Hsil|]. by apply (Hno _ He).
Qed.

Lemma send_all limit now fuel : 0 ≤ now → now + 2 ^ 31 ≤ limit ≤ 2 ^ 62 → ∀ w, sessions_ok limit (sessions w) →
  total_due now (session_map (sessions w)) < Z.of_nat fuel →
  ∃ w', send_waiting_packets fuel now true w = Ret (0, w') ∧ sent_due limit now w w'.
Proof.
  intros Hnow Hlim. induction fuel as [|fuel IH]; intros w Hok Hfuel.
  { pose proof (total_due_nonneg limit now _ (ok_each _ _ Hok)). lia. }
  pose proof (ok_each _ _ Hok) as Heach. pose proof (ok_ids _ _ Hok) as Hids.
  assert ((∀ e, e ∈ session_map (sessions w) → now < next_send e.2.2) → sent_due limit now w w) as Hdone.
  { intros Hl. split; [done|done|done|intros [n [a s]] He; by exists s|]. exists []. rewrite app_nil_r, (total_due_0 limit now _ Heach Hl). done. }
  destruct (decide (next_sends (sessions w) = [])) as [Hq|Hq].
  { exists w. split; [by apply send_done|]. apply Hdone. pose proof (ok_queue _ _ Hok) as Hp. rewrite Hq in Hp. cbn in Hp.
    symmetry in Hp. apply Permutation_nil_r, fmap_nil_inv in Hp. rewrite Hp. by intros e ?%not_elem_of_nil. }
  destruct (top_run limit (sessions w) Hok Hq) as (n & a & s & i & Htop & Hin & <- & Hi & Hmin).
  rewrite Forall_forall in Heach. pose proof (Heach _ Hin) as Hs. pose proof Hs as [_ [Hu _] _ Ht]. cbn [snd] in Hu, Ht.
  destruct (Z.ltb_spec now (next_send s)) as [Hlt|Hle].
  { exists w. split; [apply (send_wait _ _ _ n s Hq Htop); rewrite DIFF64_small by lia; lia|]. apply Hdone. intros e He. specialize (Hmin e He). lia. }
  destruct (sends_ok limit now a s Hs Hle Hlim) as (Hs' & _ & Hdue). pose proof (due_pos now s Hu Hle) as Hpos.
  assert (0 ≤ DIFF64 now (next_send s)) as HD by (rewrite DIFF64_small by lia; lia). destruct (silent now s) eqn:Hsil.
  - destruct (evict limit (sessions w) n a s (sends s) Hok Hin Hi (so_addr _ _ Hs)) as (st1 & Hpop & Hok1 & Hck & m1 & m2 & Hm & Hm').
    rewrite (send_step fuel now w n s st1 Hq Htop Hpop HD). cbv zeta. rewrite Hsil. set (w1 := with_sessions _ _).
    destruct (IH w1 Hok1) as (w' & Hrun & Hsent).
    { change (session_map (sessions w1)) with (session_map (map_erase (remoteaddr (sends s)) (map_update n (sends s) st1))). rewrite Hm'.
      rewrite Hm, total_due_app in Hfuel. cbn in Hfuel. rewrite total_due_app. lia. }
    exists w'. split; [done|]. by apply (sent_due_evicted limit now w w1 w' n a s _ m1 m2 Hm Hm' Hck eq_refl).
  - destruct (requeue limit (sessions w) n a s (sends s) Hok Hin Hi Hs') as (st' & Hq' & Hok1 & Hm' & Hck).
    apply outcome_bind_Ret in Hq' as (st1 & Hpop & Hpush).
    rewrite (send_step fuel now w n s st1 Hq Htop Hpop HD). cbv zeta. rewrite Hsil. cbn [after_send sessions]. rewrite Hpush, M_bind_lift.
    set (w1 := Build_world st' (sent w ++ [(Some (remoteaddr s), tx (sends s))]) (printed w)).
    change ((put_sessions st';; send_waiting_packets fuel now true) _) with (send_waiting_packets fuel now true w1).
    assert (∀ w', _) as Hkept by exact (λ w', sent_due_kept limit now w w1 w' n a s (sends s) _ Hids Hin Hm' Hck eq_refl Hsil Hdue).
    destruct (IH w1 Hok1) as (w' & Hrun & Hsent); [rewrite (proj1 (Hkept w)); lia|]. exists w'. split; [done|]. by apply Hkept.
Qed.
End sending.

(** ** Receiving *)

Section receiving.
Context {hp : Heap} {hl : HeapLaws} {ho : HostOrder} {fl : Flags} {dg : Digest} {dl : DigestLaws} {rn : Rng} {sn : Sends}.

(** Only the map and the queue matter. *)
Lemma sessions_ok_same limit st st' : session_map st' = session_map st → next_node st' = next_node st → next_sends st' = next_sends st →
  sessions_ok limit st → sessions_ok limit st'.
Proof.
  intros Hm Hn Hq [A B C D E F]. split; rewrite ?Hm, ?Hn, ?Hq; try done. unfold heap_ok in *. rewrite Hq.
  assert (∀ e, entry_ok st' e = entry_ok st e) as He by (intros e; unfold entry_ok, node_of; by rewrite Hm).
  clear -He F. induction (next_sends st) as [|e q IH]; [done|]. cbn in *. apply andb_prop in F as [F1 F2]. rewrite He, F1. by apply IH.
Qed.

(** A session that keeps its time may change. *)
Lemma update_same limit st n a s s' : sessions_ok limit st → (n, (a, s)) ∈ session_map st →
  session_ok limit (a, s') → next_send s' = next_send s → sessions_ok limit (map_update n s' st).
Proof.
  intros [Hids Hnext Hkeys Heach Hq Hheap] Hin Hs' Ht. split.
  - by rewrite update_ids.
  - apply Forall_fmap. eapply Forall_impl; [exact Hnext|]. intros e He. cbn. by destruct (Nat.eqb e.1 n).
  - by apply updated_keys.
  - by apply (updated_ok limit n a s).
  - by rewrite update_ids.
  - apply heap_ok_spec. intros e He. destruct (proj1 (heap_ok_spec st) Hheap e He) as (x & Hx & Hk). rewrite node_of_update, Hx. cbn.
    eexists. split; [done|]. destruct (Nat.eqb_spec e.1 n) as [Hn|]; [|done]. cbn. rewrite Ht, <-Hk.
    rewrite Hn in Hx. apply (node_of_elem st n x Hids) in Hx. apply (node_of_elem st n (a, s) Hids) in Hin. apply (node_of_elem st n x Hids) in Hx.
    rewrite Hin in Hx. by injection Hx as <-.
Qed.

(** [handle_ack_packet] on a session of the map. *)
Lemma ack_packet_ok limit w n a s s0 p now : sessions_ok limit (sessions w) → (n, (a, s0)) ∈ session_map (sessions w) → session_ok limit (a, s) →
  next_send s = next_send s0 → rx s = Some p → packet_type p = PACKET_TYPE_ACK →
  ∃ w' s', ack_packet_at n now s w = Ret (tt, w') ∧ sessions w' = map_update n s' (sessions w) ∧ sessions_ok limit (sessions w') ∧ sent w' = sent w ∧
    fixed s' = fixed s.
Proof.
  intros Hok Hin [Ha Hu Hr Ht] Hns Hrx Hty. cbn [fst snd] in *.
  destruct (handle_ack_run now s p Hrx Hty Hr) as (s' & out & Hrun & Hfix & _ & _ & Hring & _).
  unfold ack_packet_at. rewrite Hrun, M_bind_lift. eexists _, s'. split; [reflexivity|]. split; [done|]. split; [|split; [done|exact Hfix]].
  unfold fixed in Hfix. injection Hfix as F1 F2 F3 F4 F5 F6 F7 F8. unfold ring in Hring. injection Hring as _ Hi.
  apply (update_same limit _ n a s0); [done|done| |cbn; congruence].
  split; cbn [fst snd]; [congruence|by rewrite F1| |by rewrite F7]. rewrite Hi. by apply Z.mod_pos_bound.
Qed.

Lemma map_find_None a st : map_find a st = None → ∀ e, e ∈ session_map st → same_key e.2.1 a = false.
Proof. unfold map_find. intros Hf e He. apply list_elem_of_In in He. by apply (List.find_none _ _ Hf) in He. Qed.
Lemma map_put_perm e m : map_put e m ≡ₚ e :: m.
Proof. induction m as [|x m IH]; [done|]. cbn. destruct (CompareSockaddr _ _); [done|]. rewrite IH. apply Permutation_swap. Qed.

(** A session for an address that has none. *)
Lemma NewSession_run limit st first usec addr : sessions_ok limit st → map_find addr st = None →
  session_ok limit (addr, new_session first usec addr) →
  ∃ st', NewSession first usec addr st = Ret (next_node st, st') ∧ sessions_ok limit st' ∧
    session_map st' ≡ₚ (next_node st, (addr, new_session first usec addr)) :: session_map st ∧
    cookie_epoch st' = cookie_epoch st ∧ last_secret_update_time st' = last_secret_update_time st ∧
    cookie_secret st' = cookie_secret st ∧ prev_cookie st' = prev_cookie st.
Proof.
  intros [Hids Hnext Hkeys Heach Hq Hheap] Hf Hs. set (s := new_session first usec addr) in *. set (n := next_node st) in *.
  unfold NewSession. rewrite Hf. fold s n. set (st1 := with_map _ _ st). pose proof (map_put_perm (n, (addr, s)) (session_map st)) as Hp.
  change (map_put _ _) with (session_map st1) in Hp.
  assert (n ∉ (session_map st).*1) as Hfresh.
  { intros ([k x] & Hk & Hin)%list_elem_of_fmap. cbn in Hk. subst k. rewrite Forall_forall in Hnext. specialize (Hnext _ Hin). cbn in Hnext. lia. }
  assert (NoDup (session_map st1).*1) as Hids1 by (rewrite Hp, fmap_cons; by constructor).
  assert (∀ k x, node_of st k = Some x → node_of st1 k = Some x) as Hold.
  { intros k x Hx%node_of_elem; [|done]. apply node_of_elem; [done|]. rewrite Hp. by right. }
  assert (node_of st1 n = Some (addr, s)) as Hn by (apply node_of_elem; [done|]; rewrite Hp; by left).
  unfold push. rewrite Hn. cbn [fst snd]. set (st2 := with_sends _ st1). assert (heap_ok st2 = true) as Hheap2.
  { apply heap_ok_spec. intros e [He|He]%elem_of_app.
    - destruct (proj1 (heap_ok_spec st) Hheap e He) as (x & Hx & Hk). exists x. split; [|done]. by apply (Hold e.1 x) in Hx.
    - apply list_elem_of_singleton in He as ->. by exists (addr, s). }
  rewrite Hheap2. cbn [mbind outcome_bind]. exists st2. split; [done|]. change (session_map st2) with (session_map st1). split; [|done].
  split; change (session_map st2) with (session_map st1); [done| | | | |done].
  - rewrite Hp. constructor; [cbn; lia|]. eapply Forall_impl; [exact Hnext|]. cbn. unfold n. lia.
  - intros x y Hx Hy. rewrite Hp in Hx, Hy. apply elem_of_cons in Hx as [->|Hx], Hy as [->|Hy]; intros Hne; cbn [fst snd] in *.
    + done.
    + rewrite same_key_sym. by apply (map_find_None addr st).
    + by apply (map_find_None addr st).
    + by apply Hkeys.
  - rewrite Hp. by constructor.
  - change (next_sends st2) with (next_sends st ++ [(n, next_send s)]). rewrite fmap_app, Hp, fmap_cons. cbn [fst]. rewrite Hq.
    change ([(n, next_send s)].*1) with [n]. by rewrite Permutation_app_comm.
Qed.
End receiving.

(** ** Cookies *)

Lemma memcmp_eq a : ∀ b, length a = length b → memcmp a b = 0 ↔ a = b.
Proof.
  induction a as [|x a IH]; intros [|y b] Hl; cbn in *; try done. destruct (Z.eqb_spec x y) as [->|Hne].
  - rewrite IH by lia. split; [by intros ->|by intros [= ->]].
  - split; [lia|by intros [= ->]].
Qed.
Lemma length_slice off n l : 0 ≤ off → 0 ≤ n → off + n ≤ strlen l → strlen (slice off n l) = n.
Proof. unfold slice, strlen. intros. rewrite length_take, length_drop. lia. Qed.

Section cookie_laws.
Context {ho : HostOrder} {dg : Digest} {dl : DigestLaws} {rn : Rng}.

Lemma length_host_bytes n v : length (host_bytes n v) = n.
Proof. unfold host_bytes. case_match; [apply length_net_bytes|apply length_le_split]. Qed.
Lemma host_word_bytes v : 0 ≤ v < 2 ^ 32 → host_word (host_bytes 4 v) = v.
Proof. intros Hv. unfold host_word, host_bytes. case_match; [by apply net_word_bytes|by apply le_combine_split]. Qed.

Lemma hs_cookie_set c p : strlen c = COOKIE_SIZE → length (data p) = 512%nat → hs_cookie (set_hs_cookie c p) = c.
Proof.
  intros Hc Hp. unfold COOKIE_SIZE, strlen in Hc. unfold hs_cookie, set_hs_cookie, with_data, with_type_data. cbn [data].
  rewrite slice_splice_in by (rewrite ?Hp; lia || (unfold COOKIE_SIZE; lia)). change (8 - 8) with 0. unfold slice. rewrite drop_0. apply take_ge. unfold COOKIE_SIZE. lia.
Qed.
Lemma hs_cookie_epoch_other v p : length (data p) = 512%nat → hs_cookie (set_hs_cookie_epoch v p) = hs_cookie p.
Proof.
  intros Hp. unfold hs_cookie, set_hs_cookie_epoch, with_data, with_type_data. cbn [data]. apply slice_splice; rewrite length_host_bytes, ?Hp; lia.
Qed.
Lemma hs_epoch_set v p : 0 ≤ v < 2 ^ 32 → length (data p) = 512%nat → hs_cookie_epoch (set_hs_cookie_epoch v p) = v.
Proof.
  intros Hv Hp. unfold hs_cookie_epoch, set_hs_cookie_epoch, with_data, with_type_data. cbn [data].
  rewrite slice_splice_in by (rewrite ?length_host_bytes, ?Hp; lia). change (4 - 4) with 0. unfold slice. rewrite drop_0, take_ge by (by rewrite length_host_bytes).
  by apply host_word_bytes.
Qed.
Lemma length_set_cookie c p : strlen c = COOKIE_SIZE → length (data p) = 512%nat → length (data (set_hs_cookie c p)) = 512%nat.
Proof. intros Hc Hp. unfold strlen, COOKIE_SIZE in Hc. cbn. rewrite length_splice; lia. Qed.

(** Making a cookie. *)
Lemma cookie_made p addr secret st : packet_type p = PACKET_TYPE_HANDSHAKE →
  CalculateCookieWithSecret p addr secret st =
    (true, set_hs_cookie_epoch (cookie_epoch st) (set_hs_cookie (sha256 (cookie_text secret p addr)) p)).
Proof.
  intros Hp. unfold CalculateCookieWithSecret. rewrite Hp, digest_init_ok, sha256_length. done.
Qed.
(** Accepting one: of the present epoch, or of the last one. *)
Definition cookie_valid (p : Packet) (addr : sockaddr) (st : Sessions) (pe : Z) (ps : bytes) : Prop :=
  (hs_cookie_epoch p = cookie_epoch st ∨ hs_cookie_epoch p = pe) ∧
  hs_cookie p = sha256 (cookie_text (if hs_cookie_epoch p =? pe then ps else cookie_secret st) p addr).
#[export] Instance cookie_valid_dec p addr st pe ps : Decision (cookie_valid p addr st pe ps).
Proof. unfold cookie_valid. apply _. Defined.
Lemma cookie_compared p addr secret st : length (data p) = 512%nat →
  let golden := Build_Packet 0 0 0 0 (p_usec_per_pkt p) 0 PACKET_TYPE_HANDSHAKE 0 (replicate 512 0) in
  (memcmp (hs_cookie (CalculateCookieWithSecret golden addr secret st).2) (hs_cookie p) =? 0) =
  bool_decide (hs_cookie p = sha256 (cookie_text secret p addr)).
Proof.
  intros Hp golden. rewrite cookie_made by done. cbn [snd].
  rewrite hs_cookie_epoch_other by (apply length_set_cookie; [apply sha256_length|done]). rewrite hs_cookie_set by (apply sha256_length || done).
  change (cookie_text secret golden addr) with (cookie_text secret p addr). set (c := sha256 _).
  assert (length c = length (hs_cookie p)) as Hl.
  { apply Nat2Z.inj. fold (strlen c) (strlen (hs_cookie p)). unfold c. rewrite sha256_length. unfold hs_cookie. rewrite length_slice; [done|done|done|unfold strlen; rewrite Hp; done]. }
  destruct (Z.eqb_spec (memcmp c (hs_cookie p)) 0) as [He|He]; symmetry.
  - apply bool_decide_eq_true. symmetry. by apply memcmp_eq.
  - apply bool_decide_eq_false. intros Heq. apply He. by apply memcmp_eq.
Qed.
Lemma validate_run p addr st pe ps : prev_cookie st = Some (pe, ps) → length (data p) = 512%nat →
  ValidateCookie p addr st = Ret (bool_decide (cookie_valid p addr st pe ps)).
Proof.
  intros Hprev Hp. unfold ValidateCookie. rewrite Hprev, digest_init_ok. unfold cookie_valid. rewrite cookie_compared by done.
  destruct (Z.eqb_spec (hs_cookie_epoch p) (cookie_epoch st)) as [He|He]; destruct (Z.eqb_spec (hs_cookie_epoch p) pe) as [He'|He']; cbn [negb andb];
    apply (f_equal Ret); first [apply bool_decide_ext; destruct (Z.eqb_spec (hs_cookie_epoch p) pe); tauto|symmetry; apply bool_decide_eq_false; tauto].
Qed.
End cookie_laws.

(** ** The server *)

Section server.
Context {hp : Heap} {hl : HeapLaws} {ho : HostOrder} {fl : Flags} {dg : Digest} {dl : DigestLaws} {rn : Rng} {sn : Sends}.

(** The packet of a handshake that a round brings. *)
Definition handshake_of (i : round) : option (Packet * sockaddr) :=
  match recvd i with
  | Recv got p a =>
      if (0 <? nfds i) && (got =? SIZEOF_PACKET) && (magic p =? MAGIC) && (packet_type p =? PACKET_TYPE_HANDSHAKE) then Some (p, a) else None
  | Recv_err _ => None
  end.
Definition secret (k : nat) : bytes := rng_bytes k ++ rng_bytes (S k).
(** The address returned a cookie: the digest of a secret of the server, the rate it asks for and the address. *)
Definition granted (h : list round) (a : sockaddr) : Prop :=
  ∃ i p k, i ∈ h ∧ handshake_of i = Some (p, a) ∧ hs_cookie_epoch p ≠ 0 ∧ hs_cookie p = sha256 (cookie_text (secret k) p a).

(** The clock is past its first second, time() past 1970, a packet has its size; a client that
    returns a cookie asks for a positive 32-bit period. *)
Definition round_ok (i : round) : Prop :=
  1000000 < time2 i < 2 ^ 61 ∧ u32 (Z.shiftr (unix_time i) 6) ≠ 0 ∧
  ∀ got p a, recvd i = Recv got p a → length (data p) = 512%nat ∧
    (packet_type p = PACKET_TYPE_HANDSHAKE → hs_cookie_epoch p ≠ 0 → 1 ≤ p_usec_per_pkt p < 2 ^ 31).
(** No handshake comes from an address that has returned a cookie before. *)
Definition no_restart (x y : round) : Prop :=
  ∀ p a q b, handshake_of x = Some (p, a) → handshake_of y = Some (q, b) → same_key a b = true → hs_cookie_epoch p = 0.

Definition LIMIT : Z := 2 ^ 62.
Record server_ok (h : list round) (st : Sessions) : Prop := {
  sv_ok : sessions_ok LIMIT st;
  sv_size : (length (session_map st) ≤ length h)%nat;
  sv_granted : ∀ e, e ∈ session_map st → granted h e.2.1;
  sv_secret : ∃ k, cookie_secret st = secret k;
  sv_prev : match prev_cookie st with
            | Some (_, s) => ∃ k, s = secret k
            | None => last_secret_update_time st = 0 ∧ cookie_epoch st = 0
            end;
}.
Lemma granted_mono h i a : granted h a → granted (h ++ [i]) a.
Proof. intros (j & p & k & Hj & Hr). exists j, p, k. split; [set_solver|done]. Qed.

Lemma server_start : server_ok [] Sessions_init.
Proof.
  split.
  - split; try done; try constructor.
    + intros x y Hx. by apply not_elem_of_nil in Hx.
  - done.
  - by intros e ?%not_elem_of_nil.
  - by exists 0%nat.
  - done.
Qed.

(** Nothing but the map, the queue and the cookies matters. *)
Lemma server_ok_same h st st' : session_map st' = session_map st → next_sends st' = next_sends st → cookies st' = cookies st →
  server_ok h st → server_ok h st'.
Proof.
  intros Hm Hq Hc [A B C D E]. unfold cookies in Hc. injection Hc as Hn He Hl Hs Hp Hr.
  split; rewrite ?Hm, ?Hs, ?Hp, ?Hl, ?He; try done. by apply (sessions_ok_same LIMIT st).
Qed.
Lemma server_ok_more h i st : server_ok h st → server_ok (h ++ [i]) st.
Proof.
  intros [A B C D E]. split; try done; [rewrite length_app; cbn; lia|]. intros e He. apply granted_mono. auto.
Qed.

Lemma rotate_ok h i st : server_ok h st → round_ok i →
  let st' := MaybeRotateCookieSecrets (time2 i) (unix_time i) true st in
  server_ok h st' ∧ prev_cookie st' ≠ None ∧ session_map st' = session_map st ∧ next_sends st' = next_sends st.
Proof.
  intros Hsv (Ht & Hu & _). pose proof Hsv as [A B C [k D] E]. unfold MaybeRotateCookieSecrets. cbn [andb].
  destruct (Z.ltb_spec 1000000 (u64 (time2 i - last_secret_update_time st))) as [Hlt|Hge].
  - destruct (Z.eqb_spec (u32 (Z.shiftr (unix_time i) 6)) (cookie_epoch st)) as [He|He]; cbn [negb].
    + split_and!; [|cbn|done|done].
      * split; cbn; try done; [by apply (sessions_ok_same LIMIT st)|by exists k|]. destruct (prev_cookie st) as [[]|]; [done|]. destruct E as [_ E]. congruence.
      * intros Hn. rewrite Hn in E. destruct E as [_ E]. congruence.
    + split_and!; [|done|done|done]. split; cbn; try done; [by apply (sessions_ok_same LIMIT st)| |by exists k]. by exists (rng_count st).
  - split_and!; [done| |done|done]. intros Hn. rewrite Hn in E. destruct E as [E _]. rewrite E in Hge. unfold u64 in Hge. rewrite Z.mod_small in Hge; lia.
Qed.

(** A round of sending keeps the invariant. *)
Lemma sent_ok h now w w' : server_ok h (sessions w) → sent_due LIMIT now w w' → server_ok h (sessions w').
Proof.
  intros [A B C D E] [A' _ Hck Hfrom _]. unfold cookies in Hck. injection Hck as Hn He Hl Hs Hp Hr. split; rewrite ?Hs, ?Hp, ?Hl, ?He; try done.
  - etrans; [|exact B]. rewrite <-(length_fmap fst), <-(length_fmap fst (session_map (sessions w))). apply submseteq_length, NoDup_submseteq; [apply (ok_ids _ _ A')|].
    intros k ([k' x] & -> & Hin)%list_elem_of_fmap. destruct (Hfrom _ Hin) as [s Hs']. apply list_elem_of_fmap. by exists (k', (x.1, s)).
  - intros e He'. destruct (Hfrom e He') as [s Hs']. by apply (C (e.1, (e.2.1, s))).
Qed.
Lemma due_bound now s : 0 ≤ now < 2 ^ 61 → 0 ≤ next_send s → 0 < usec_per_pkt s → due now s ≤ 2 ^ 61.
Proof.
  intros Hn Hs Hu. unfold due. destruct (Z.leb_spec (next_send s) now); [|lia].
  assert ((now - next_send s) / usec_per_pkt s ≤ now - next_send s) by (apply Z.div_le_upper_bound; nia). lia.
Qed.
Lemma total_due_bound now m : 0 ≤ now < 2 ^ 61 → Forall (λ e : node, session_ok LIMIT e.2) m → total_due now m ≤ Z.of_nat (length m) * 2 ^ 61.
Proof.
  intros Hn. induction 1 as [|e m [_ Hu _ Ht] _ IH]; [done|]. cbn [total_due length]. pose proof (due_bound now e.2.2 Hn). lia.
Qed.

Lemma update_server_ok h n s st : server_ok h st → sessions_ok LIMIT (map_update n s st) → server_ok h (map_update n s st).
Proof.
  intros [A B C D E] A'. split; try done.
  - cbn. by rewrite length_fmap.
  - intros e (x & Hx & <-)%elem_of_updated. by apply (C (e.1, x)).
Qed.
Lemma erase_nothing addr st : map_find addr st = None → map_erase addr st = st.
Proof.
  intros Hf. pose proof (map_find_None addr st Hf) as Hn. unfold map_erase.
  assert (List.filter (λ e : node, negb (same_key e.2.1 addr)) (session_map st) = session_map st) as ->; [|by destruct st].
  clear Hf. induction (session_map st) as [|e m IH]; [done|]. cbn. rewrite Hn by (by left). cbn. f_equal. apply IH. intros e' He'. apply Hn. by right.
Qed.

(** A client that has no session returns a cookie. *)
Lemma establish limit w p a pe ps now : sessions_ok limit (sessions w) → map_find a (sessions w) = None → prev_cookie (sessions w) = Some (pe, ps) →
  length (data p) = 512%nat → hs_cookie_epoch p ≠ 0 → cookie_valid p a (sessions w) pe ps → 1 ≤ p_usec_per_pkt p < 2 ^ 31 →
  0 ≤ now → now + 2 ^ 31 ≤ limit ≤ 2 ^ 62 →
  ∃ w' s, handle_new_client_handshake_packet p a now w = Ret (tt, w') ∧ sessions_ok limit (sessions w') ∧
    session_map (sessions w') ≡ₚ (next_node (sessions w), (a, s)) :: session_map (sessions w) ∧
    usec_per_pkt s = p_usec_per_pkt p ∧ handshake_state s = ESTABLISHED ∧
    cookie_epoch (sessions w') = cookie_epoch (sessions w) ∧ last_secret_update_time (sessions w') = last_secret_update_time (sessions w) ∧
    cookie_secret (sessions w') = cookie_secret (sessions w) ∧ prev_cookie (sessions w') = prev_cookie (sessions w).
Proof.
  intros Hok Hfind Hp Hlen He Hv Hrate Hnow Hlim. unfold handle_new_client_handshake_packet. destruct (Z.eqb_spec (hs_cookie_epoch p) 0) as [|_]; [done|].
  rewrite M_bind_unfold. cbn [gets]. rewrite (validate_run p a _ pe ps Hp Hlen), M_bind_lift. rewrite bool_decide_true by done. cbn [negb].
  set (t := u64 (now + 10 * 1000)). assert (t = now + 10000) as Htt by (unfold t, u64; rewrite Z.mod_small; lia).
  assert (session_ok limit (a, new_session t (p_usec_per_pkt p) a)) as Hs by (split; cbn; [done|rewrite s32_id; lia|done|lia]).
  destruct (NewSession_run limit (sessions w) t _ a Hok Hfind Hs) as (st' & -> & Hok' & Hperm & E1 & E2 & E3 & E4).
  rewrite M_bind_lift. set (s := new_session t (p_usec_per_pkt p) a) in *. set (n := next_node (sessions w)) in *.
  assert ((n, (a, s)) ∈ session_map st') as Hin by (rewrite Hperm; by left).
  rewrite M_bind_unfold. unfold put_sessions, on_sessions, modify. cbn [sessions sent printed].
  rewrite (proj2 (node_of_elem st' n (a, s) (ok_ids _ _ Hok')) Hin). set (s' := set_rx _ _). set (w1 := Build_world st' (sent w) (printed w)).
  destruct (ack_packet_ok limit w1 n a s' s (clear_acks (with_type_data PACKET_TYPE_ACK (data p) p)) now) as (w' & s2 & Hrun & Hw' & Hok2 & _ & Hfix);
    [exact Hok'|exact Hin|by destruct Hs; split|done..|].
  exists w', s2. split; [exact Hrun|]. split; [done|]. unfold fixed in Hfix. injection Hfix as Hu _ _ Hst _ _ _ _.
  assert (usec_per_pkt s2 = p_usec_per_pkt p) as Hu2 by (rewrite Hu; apply s32_id; lia).
  rewrite Hw'. split; [|by split_and!].
  change (session_map (map_update n s2 (sessions w1))) with (updated n s2 (session_map st')). unfold updated. rewrite Hperm, fmap_cons. cbn [fst snd]. rewrite Nat.eqb_refl.
  f_equiv. clear -Hok. pose proof (ok_next _ _ Hok) as Hnext. subst n. generalize dependent (next_node (sessions w)).
  intros n Hnext. induction Hnext as [|e m Hm _ IH]; [done|]. rewrite fmap_cons, IH. destruct (Nat.eqb_spec e.1 n); [lia|done].
Qed.
Lemma handshake_ok h i w p a : server_ok h (sessions w) → prev_cookie (sessions w) ≠ None → round_ok i → handshake_of i = Some (p, a) →
  length (data p) = 512%nat → (hs_cookie_epoch p ≠ 0 → 1 ≤ p_usec_per_pkt p < 2 ^ 31) → map_find a (sessions w) = None →
  ∃ w', handle_new_client_handshake_packet p a (time2 i) w = Ret (tt, w') ∧ server_ok (h ++ [i]) (sessions w').
Proof.
  intros Hsv Hprev (Ht & _ & _) Hh Hlen Hrate Hfind. destruct (decide (hs_cookie_epoch p = 0)) as [He|He].
  { unfold handle_new_client_handshake_packet. rewrite He. cbn [Z.eqb]. eexists. split; [reflexivity|]. cbn [sessions]. rewrite (erase_nothing a) by done. by apply server_ok_more. }
  destruct (prev_cookie (sessions w)) as [[pe ps]|] eqn:Hp; [|done]. destruct (decide (cookie_valid p a (sessions w) pe ps)) as [Hv|Hv].
  - pose proof Hsv as [Hok Hsize Hgr [k Hsec] Hpv]. rewrite Hp in Hpv. destruct Hpv as [k' Hpv].
    destruct (establish LIMIT w p a pe ps (time2 i)) as (w' & s & Hrun & Hok' & Hperm & _ & _ & E1 & E2 & E3 & E4); try done; [by apply Hrate|lia|unfold LIMIT; lia|].
    exists w'. split; [done|]. split; [done| |..].
    + rewrite Hperm, length_app. cbn. lia.
    + intros e. rewrite Hperm. intros [->|Hin']%elem_of_cons; [|by apply granted_mono, Hgr]. destruct Hv as [_ Hc]. cbn [fst snd]. exists i, p.
      destruct (hs_cookie_epoch p =? pe); [exists k'|exists k]; (split; [set_solver|]); (split; [done|]); (split; [done|]); rewrite Hc; congruence.
    + exists k. congruence.
    + rewrite E4, Hp. by exists k'.
  - exists w. split; [|by apply server_ok_more]. unfold handle_new_client_handshake_packet. destruct (Z.eqb_spec (hs_cookie_epoch p) 0) as [|_]; [done|].
    rewrite M_bind_unfold. cbn [gets]. rewrite (validate_run p a _ pe ps Hp Hlen), M_bind_lift. by rewrite bool_decide_false.
Qed.

Lemma receive_ok h i w : server_ok h (sessions w) → prev_cookie (sessions w) ≠ None → round_ok i → 0 < nfds i → (∀ x, x ∈ h → no_restart x i) →
  ∃ r w', read_incoming_packet (recvd i) (time2 i) true w = Ret (r, w') ∧ server_ok (h ++ [i]) (sessions w').
Proof.
  intros Hsv Hprev Hi Hn Hfresh. pose proof (server_ok_more h i _ Hsv) as Hmore. unfold read_incoming_packet.
  destruct (recvd i) as [e|got p a] eqn:Hr; [by exists e, w|].
  destruct (Hi) as (_ & _ & Hp). destruct (Hp got p a Hr) as [Hlen Hrate].
  destruct (negb (got =? SIZEOF_PACKET) || negb (magic p =? MAGIC)) eqn:Hgood; [by exists EINVAL, w|]. apply orb_false_elim in Hgood as [Hg1 Hg2].
  destruct (Z.eqb_spec (packet_type p) PACKET_TYPE_HANDSHAKE) as [Hty|Hty]; cbn [orb negb].
  - assert (handshake_of i = Some (p, a)) as Hh.
    { unfold handshake_of. rewrite Hr, Hty. destruct (Z.ltb_spec 0 (nfds i)); [|lia]. apply negb_false_iff in Hg1, Hg2. by rewrite Hg1, Hg2. }
    assert (∀ node, handle_packet node p a (time2 i) true = handle_new_client_handshake_packet p a (time2 i)) as Hhp.
    { intros node. unfold handle_packet. by rewrite Hty. }
    rewrite M_bind_unfold. cbn [gets]. destruct (map_find a (sessions w)) as [[n [b s]]|] eqn:Hf.
    + rewrite M_bind_unfold, Hhp. apply List.find_some in Hf as [Hin Hk]. apply list_elem_of_In in Hin. cbn [snd fst] in Hk.
      destruct (sv_granted _ _ Hsv _ Hin) as (j & q & k & Hj & Hhj & Hq & _). cbn [snd fst] in Hhj.
      exfalso. apply Hq. by apply (Hfresh j Hj q b p a).
    + destruct (handshake_ok h i w p a Hsv Hprev Hi Hh Hlen (Hrate Hty) Hf) as (w' & Hrun & Hsv').
      rewrite M_bind_unfold, Hhp, Hrun. by exists 0, w'.
  - destruct (Z.eqb_spec (packet_type p) PACKET_TYPE_ACK) as [Hta|Hta]; cbn [negb]; [|by exists EINVAL, w].
    rewrite M_bind_unfold. cbn [gets]. destruct (map_find a (sessions w)) as [[n [b s]]|] eqn:Hf.
    + apply List.find_some in Hf as [Hin _]. apply list_elem_of_In in Hin. pose proof (sv_ok _ _ Hsv) as Hok.
      pose proof (ok_each _ _ Hok) as Heach. rewrite Forall_forall in Heach. pose proof (Heach _ Hin) as [S1 S2 S3 S4]. cbn [fst snd] in *.
      assert (handle_packet (Some (n, s)) p a (time2 i) true = ack_packet_at n (time2 i) (set_rx (Some p) s)) as Hhp.
      { unfold handle_packet. rewrite Hta. cbn [Z.eqb]. by destruct (handshake_state (set_rx (Some p) s)). }
      rewrite M_bind_unfold, Hhp. destruct (ack_packet_ok LIMIT w n b (set_rx (Some p) s) s p (time2 i)) as (w' & s2 & -> & Hw' & Hok2 & _); [done|done|by split|done..|].
      exists 0, w'. split; [done|]. rewrite Hw' in *. by apply update_server_ok.
    + eexists _, _. split; [reflexivity|]. done.
Qed.

(** A round, and any number of them. *)
Lemma round_run h i w fuel : server_ok h (sessions w) → round_ok i → (∀ x, x ∈ h → no_restart x i) →
  Z.of_nat (length h) * 2 ^ 61 < Z.of_nat fuel →
  ∃ r w', main_round fuel true i w = Ret (r, w') ∧ server_ok (h ++ [i]) (sessions w').
Proof.
  intros Hsv Hi Hfresh Hfuel. unfold main_round. pose proof (server_ok_more h i _ Hsv) as Hmore. destruct (die i); [by exists (Some 0), w|].
  rewrite M_bind_unfold. cbn [gets].
  assert (∃ t, next_send_time (sessions w) = Ret t) as [t ->].
  { unfold next_send_time. destruct (next_sends (sessions w)) as [|e q] eqn:Hq; [by exists 0|].
    destruct (top_run LIMIT (sessions w) (sv_ok _ _ Hsv)) as (n & a & s & j & -> & _); [by rewrite Hq|]. by exists (next_send s). }
  rewrite M_bind_lift. destruct ((nfds i <? 0) && negb (select_errno i =? EINTR)); [by exists (Some 1), w|].
  destruct (rotate_ok h i (sessions w) Hsv Hi) as (Hsv1 & Hprev1 & Hm1 & _). set (st1 := MaybeRotateCookieSecrets _ _ _ _) in *.
  rewrite M_bind_unfold. unfold on_sessions, modify. fold st1. set (w1 := Build_world st1 (sent w) (printed w)).
  destruct Hi as (Ht & Hi). destruct (send_all LIMIT (time2 i) fuel ltac:(lia) ltac:(unfold LIMIT; lia) w1 (sv_ok _ _ Hsv1)) as (w2 & Hrun & Hsent).
  { change (session_map (sessions w1)) with (session_map st1). pose proof (total_due_bound (time2 i) (session_map st1) ltac:(lia) (ok_each _ _ (sv_ok _ _ Hsv1))).
    pose proof (sv_size _ _ Hsv1). nia. }
  rewrite M_bind_unfold, Hrun. cbn [negb Z.eqb]. pose proof (sent_ok h _ w1 w2 Hsv1 Hsent) as Hsv2.
  assert (prev_cookie (sessions w2) ≠ None) as Hprev2.
  { destruct Hsent as [_ _ Hck _ _]. unfold cookies in Hck. injection Hck as _ _ _ _ Hpc _. rewrite Hpc. exact Hprev1. }
  destruct (Z.ltb_spec 0 (nfds i)) as [Hn|Hn]; [|exists None, w2; split; [done|by apply server_ok_more]].
  destruct (receive_ok h i w2 Hsv2 Hprev2 (conj Ht Hi) Hn Hfresh) as (r & w3 & Hrec & Hsv3). rewrite M_bind_unfold, Hrec.
  exists None, w3. by split.
Qed.
Lemma loop_run l : ∀ h w fuel, server_ok h (sessions w) → Forall round_ok l →
  (∀ i j x y, (i < j)%nat → (h ++ l) !! i = Some x → (h ++ l) !! j = Some y → no_restart x y) →
  Z.of_nat (length (h ++ l)) * 2 ^ 61 < Z.of_nat fuel →
  ∃ r w' h', main_loop fuel true l w = Ret (r, w') ∧ h' `prefix_of` h ++ l ∧ server_ok h' (sessions w').
Proof.
  induction l as [|i l IH]; intros h w fuel Hsv Hl Hfresh Hfuel.
  { exists None, w, h. rewrite app_nil_r. by split_and!. }
  apply Forall_cons in Hl as [Hi Hl]. cbn [main_loop]. rewrite M_bind_unfold.
  destruct (round_run h i w fuel Hsv Hi) as (r & w1 & -> & Hsv1).
  - intros x [j Hj]%list_elem_of_lookup. apply (Hfresh j (length h)); [by apply lookup_lt_Some in Hj|by apply lookup_app_l_Some|by apply list_lookup_middle].
  - rewrite length_app in Hfuel. cbn [length] in Hfuel. lia.
  - assert ((h ++ [i]) ++ l = h ++ i :: l) as Hh by by rewrite <-(assoc_L (++)).
    destruct r as [v|].
    + exists (Some v), w1, (h ++ [i]). split; [done|]. split; [|done]. exists l. by rewrite Hh.
    + rewrite <-Hh in *. by apply (IH (h ++ [i]) w1 fuel).
Qed.

End server.
