(* ===== verification/IsopingHandshake.v ===== *)
(** * Isochronous ping: the handshake, and what goes wrong

    A client and the server agree on a session in three packets; packets are sent when
    they are due; and the inputs that the code does not withstand. *)

From S2P Require Import Prelude Isoping IsopingSession IsopingServer.
Open Scope Z_scope.

(** ** Three packets *)

Section handshake.
Context {hp : Heap} {hl : HeapLaws} {ho : HostOrder} {dg : Digest} {dl : DigestLaws} {rn : Rng} {sn : Sends}.
(** The flags of the server and of the client. *)
Context (fs fc : Flags).

(** The client's program: one session, in the queue with its time. *)
Definition client_world (n : nat) (a : sockaddr) (c : Session) (w : world) : Prop :=
  session_map (sessions w) = [(n, (a, c))] ∧ next_sends (sessions w) = [(n, next_send c)].
(** The server still knows the secret [s] of the epoch [e]. *)
Definition remembers (e : Z) (s : bytes) (st : Sessions) : Prop :=
  ∃ pe ps, prev_cookie st = Some (pe, ps) ∧ ((pe = e ∧ ps = s) ∨ (pe ≠ e ∧ cookie_epoch st = e ∧ cookie_secret st = s)).

(** The session of the client once it has the packet [r]. *)
Definition with_cookie (now : Z) (r : Packet) (s : Session) : Session :=
  let s := set_next_tx_id 1 s in
  let s := set_rcv (Build_receipt 0 (num_lost (rcv s)) (last_rxtime (rcv s))) s in
  let t := with_type_data PACKET_TYPE_HANDSHAKE (data (tx s)) (tx s) in
  let t := set_hs_cookie_epoch (hs_cookie_epoch r) t in
  let s := set_tx (set_hs_cookie (hs_cookie r) t) s in
  set_next_send now (set_handshake_state COOKIE_GENERATED (set_usec_per_pkt (s32 (p_usec_per_pkt r)) s)).

Lemma node_of_single st n x : session_map st = [(n, x)] → node_of st n = Some x.
Proof. intros Hm. unfold node_of. rewrite Hm. cbn [List.find fst]. by rewrite Nat.eqb_refl. Qed.
Lemma heap_ok_single st n a c : session_map st = [(n, (a, c))] → next_sends st = [(n, next_send c)] → heap_ok st = true.
Proof.
  intros Hm Hq. unfold heap_ok. rewrite Hq. cbn [forallb]. unfold entry_ok. cbn [fst snd]. rewrite (node_of_single st n (a, c) Hm). cbn [snd]. by rewrite Z.eqb_refl.
Qed.
Lemma heap_top_single e : heap_top [e] = 0%nat.
Proof. destruct (heap_top_first [e]) as (e' & He & _); [done|]. by destruct (heap_top [e]) as [|[]]. Qed.

Lemma client_gets_cookie now r n a c w : client_world n a c w →
  ∃ w', handle_server_handshake_packet r now w = Ret (tt, w') ∧ client_world n a (with_cookie now r c) w' ∧ sent w' = sent w.
Proof.
  intros [Hm Hq]. unfold handle_server_handshake_packet. rewrite M_bind_unfold. cbn [gets]. rewrite Hm, Hq.
  unfold pop. rewrite (heap_ok_single _ n a c Hm Hq), Hq, heap_top_single. cbn [andb negb Nat.eqb length delete list_delete]. rewrite M_bind_lift.
  set (s' := set_next_send now _). change s' with (with_cookie now r c). clear s'. set (st1 := map_update n _ _).
  assert (session_map st1 = [(n, (a, with_cookie now r c))]) as Hm1.
  { unfold st1. cbn [session_map map_update with_map with_sends]. rewrite Hm. cbn. by rewrite Nat.eqb_refl. }
  unfold push. rewrite (node_of_single st1 n _ Hm1). cbn [snd].
  rewrite (heap_ok_single _ n a (with_cookie now r c)) by done. rewrite M_bind_lift. eexists. split; [reflexivity|]. split; [by split|done].
Qed.

(** The first packet of a client, and a reply to it. *)
Lemma data_zero c : data (tx c) = replicate 512 0 → handshake_state c ≠ ESTABLISHED →
  let p := tx (prepare_tx_packet c) in data p = replicate 512 0 ∧ hs_cookie_epoch p = 0 ∧ packet_type p = PACKET_TYPE_HANDSHAKE.
Proof.
  intros Hd Hs. cbn [tx prepare_tx_packet set_next_tx_id set_tx data packet_type]. split_and!; [done| |by destruct (handshake_state c)].
  unfold hs_cookie_epoch. cbn [data]. rewrite Hd. unfold slice. rewrite drop_replicate, take_replicate. unfold host_word, net_word. by destruct big_endian.
Qed.
Definition agreed (c : Session) : Z := Z.max (u32 (usec_per_pkt c)) (@flag_usec_per_pkt fs).
Definition reply (ask : Packet) (addr : sockaddr) (now : Z) (st : Sessions) : Packet :=
  let p := @prepare_handshake_reply_packet _ fs ask now in
  set_hs_cookie_epoch (cookie_epoch st) (set_hs_cookie (sha256 (cookie_text (cookie_secret st) p addr)) p).
Lemma server_replies ask addr now w : hs_cookie_epoch ask = 0 →
  @handle_new_client_handshake_packet _ fs _ ask addr now w =
    Ret (tt, Build_world (map_erase addr (sessions w)) (sent w ++ [(Some addr, reply ask addr now (sessions w))]) (printed w)).
Proof.
  intros He. unfold handle_new_client_handshake_packet. rewrite He. cbn [Z.eqb].
  unfold send_initial_handshake_reply, CalculateCookie, on_sessions, transmit, modify. rewrite !M_bind_unfold. cbn [gets sessions].
  by rewrite cookie_made.
Qed.

Lemma hs_epoch_other c p : strlen c = COOKIE_SIZE → length (data p) = 512%nat → hs_cookie_epoch (set_hs_cookie c p) = hs_cookie_epoch p.
Proof.
  unfold strlen, COOKIE_SIZE. intros Hc Hp. unfold hs_cookie_epoch, set_hs_cookie, with_data, with_type_data. cbn [data]. f_equal.
  apply slice_splice; [lia|]. left. done.
Qed.
(** What the client sends back is what the server gave it. *)
Lemma cookie_returned ask addr now now' st c : length (data (tx c)) = 512%nat → 0 ≤ cookie_epoch st < 2 ^ 32 → 0 < p_usec_per_pkt (reply ask addr now st) < 2 ^ 31 →
  let r := reply ask addr now st in
  let p := tx (prepare_tx_packet (with_cookie now' r c)) in
  hs_cookie_epoch p = cookie_epoch st ∧ hs_cookie p = sha256 (cookie_text (cookie_secret st) p addr) ∧
  p_usec_per_pkt p = p_usec_per_pkt r ∧ packet_type p = PACKET_TYPE_HANDSHAKE ∧ length (data p) = 512%nat.
Proof.
  intros Hd He Hu r p. set (q := @prepare_handshake_reply_packet _ fs ask now). assert (length (data q) = 512%nat) as Hq by done.
  assert (length (data (set_hs_cookie (sha256 (cookie_text (cookie_secret st) q addr)) q)) = 512%nat) as Hq' by (apply length_set_cookie; [apply sha256_length|done]).
  assert (hs_cookie_epoch r = cookie_epoch st) as Hre by (by apply hs_epoch_set).
  assert (hs_cookie r = sha256 (cookie_text (cookie_secret st) q addr)) as Hrc.
  { unfold r, reply. fold q. rewrite hs_cookie_epoch_other by done. apply hs_cookie_set; [apply sha256_length|done]. }
  assert (length (data (set_hs_cookie_epoch (hs_cookie_epoch r) (tx c))) = 512%nat) as Ht.
  { cbn. rewrite length_splice; rewrite ?length_host_bytes, ?Hd; cbn; lia. }
  assert (p_usec_per_pkt p = p_usec_per_pkt r) as Hup.
  { unfold p. cbn [tx prepare_tx_packet set_next_tx_id set_tx p_usec_per_pkt usec_per_pkt with_cookie set_next_send set_handshake_state set_usec_per_pkt].
    rewrite s32_id by (fold r in Hu; lia). apply u32_small. fold r in Hu. lia. }
  assert (strlen (hs_cookie r) = COOKIE_SIZE) as Hlc by (rewrite Hrc; apply sha256_length).
  set (t0 := with_type_data PACKET_TYPE_HANDSHAKE (data (tx c)) (tx c)). set (t := set_hs_cookie (hs_cookie r) (set_hs_cookie_epoch (hs_cookie_epoch r) t0)).
  assert (length (data t) = 512%nat) as Hlt by (by apply length_set_cookie).
  assert (hs_cookie t = hs_cookie r) as Hct by (by apply hs_cookie_set).
  assert (hs_cookie_epoch t = cookie_epoch st) as Het by (unfold t; rewrite hs_epoch_other by done; rewrite Hre; by apply hs_epoch_set).
  split_and!; [exact Het| |done|done|exact Hlt].
  change (hs_cookie p) with (hs_cookie t). rewrite Hct, Hrc. unfold cookie_text. f_equal. f_equal. f_equal. by rewrite Hup.
Qed.

(** C11: Three packets make a session, and both sides agree on its rate.  A client that asks gets a
    cookie from the server, which keeps nothing of it; the client sends it back whenever
    it has it; and while the server still knows the secret, of the present epoch or
    of the one before, it then has a session for that address.  Both use the slower of
    the two periods. *)
Theorem handshake_agrees c addr now w :
  data (tx c) = replicate 512 0 → handshake_state c ≠ ESTABLISHED → 0 < agreed c < 2 ^ 31 → 0 < cookie_epoch (sessions w) < 2 ^ 32 →
  ∃ r, @handle_new_client_handshake_packet _ fs _ (tx (prepare_tx_packet c)) addr now w =
         Ret (tt, Build_world (map_erase addr (sessions w)) (sent w ++ [(Some addr, r)]) (printed w)) ∧
  ∀ n a c2 wc now2, client_world n a c2 wc → length (data (tx c2)) = 512%nat →
  ∃ wc' c3, handle_server_handshake_packet r now2 wc = Ret (tt, wc') ∧ client_world n a c3 wc' ∧
    handshake_state c3 = COOKIE_GENERATED ∧ usec_per_pkt c3 = agreed c ∧
  ∀ w2 limit now3, sessions_ok limit (sessions w2) → map_find addr (sessions w2) = None →
    remembers (cookie_epoch (sessions w)) (cookie_secret (sessions w)) (sessions w2) → 0 ≤ now3 → now3 + 2 ^ 31 ≤ limit ≤ 2 ^ 62 →
  ∃ w3 s, @handle_new_client_handshake_packet _ fs _ (tx (prepare_tx_packet c3)) addr now3 w2 = Ret (tt, w3) ∧
    session_map (sessions w3) ≡ₚ (next_node (sessions w2), (addr, s)) :: session_map (sessions w2) ∧
    handshake_state s = ESTABLISHED ∧ usec_per_pkt s = agreed c.
Proof.
  intros Hd Hst Hag Hep. destruct (data_zero c Hd Hst) as (_ & He0 & _). set (ask := tx (prepare_tx_packet c)) in *.
  assert (p_usec_per_pkt (reply ask addr now (sessions w)) = agreed c) as Hu by done.
  exists (reply ask addr now (sessions w)). split; [by apply server_replies|]. intros n a c2 wc now2 Hwc Hlen.
  destruct (client_gets_cookie now2 (reply ask addr now (sessions w)) n a c2 wc Hwc) as (wc' & Hrun & Hwc' & _).
  exists wc', (with_cookie now2 (reply ask addr now (sessions w)) c2). split_and!; try done.
  { change (s32 (p_usec_per_pkt (reply ask addr now (sessions w))) = agreed c). rewrite Hu. apply s32_id. lia. }
  intros w2 limit now3 Hok Hfind (pe & ps & Hp & Hrem) Hnow Hlim.
  destruct (cookie_returned ask addr now now2 (sessions w) c2 Hlen) as (E1 & E2 & E3 & E4 & E5); [lia|rewrite Hu; lia|].
  set (p := tx (prepare_tx_packet (with_cookie _ _ _))) in *.
  assert (cookie_valid p addr (sessions w2) pe ps) as Hv.
  { unfold cookie_valid. rewrite E1, E2. destruct Hrem as [[-> ->]|(Hne & -> & ->)].
    - split; [by right|]. by rewrite Z.eqb_refl.
    - split; [by left|]. destruct (Z.eqb_spec (cookie_epoch (sessions w)) pe); [congruence|done]. }
  destruct (@establish _ fs _ _ limit w2 p addr pe ps now3) as (w3 & s & Hrun3 & _ & Hperm & Hus & Hss & _); try done; [lia|rewrite E3, Hu; lia|].
  exists w3, s. split_and!; [done|done|done|congruence].
Qed.
End handshake.

(** ** When packets are sent *)

Section sending.
Context {hp : Heap} {hl : HeapLaws} {sn : Sends}.


(** A server with the session [s] alone. *)
Definition alone (n : nat) (a : sockaddr) (s : Session) (w : world) : Prop :=
  session_map (sessions w) = [(n, (a, s))] ∧ next_sends (sessions w) = [(n, next_send s)].
Lemma alone_top n a s w : alone n a s w → top (sessions w) = Ret (n, s) ∧ pop (sessions w) = Ret (with_sends [] (sessions w)).
Proof.
  intros [Hm Hq]. unfold top, pop. rewrite (heap_ok_single _ n a s Hm Hq), Hq, heap_top_single. cbn [lookup list_lookup fst andb negb length Nat.eqb].
  by rewrite (node_of_single _ n (a, s) Hm).
Qed.
Lemma alone_push n a s s' w : alone n a s w →
  ∃ st, push n (map_update n s' (with_sends [] (sessions w))) = Ret st ∧ session_map st = [(n, (a, s'))] ∧ next_sends st = [(n, next_send s')].
Proof.
  intros [Hm Hq]. unfold push. set (st1 := map_update n s' _). assert (session_map st1 = [(n, (a, s'))]) as Hm1.
  { unfold st1. cbn [session_map map_update with_map with_sends]. rewrite Hm. cbn. by rewrite Nat.eqb_refl. }
  rewrite (node_of_single st1 n _ Hm1). cbn [snd]. rewrite (heap_ok_single _ n a s') by done. by eexists.
Qed.

(** A client may ask for a period of 2^31 microseconds or more: it is kept as a negative
    number, the time of the next packet goes back, and the loop sends without end. *)
Lemma negative_period_floods fuel : ∀ n a s w now, alone n a s w → -2 ^ 31 ≤ usec_per_pkt s ≤ 0 → silent now s = false →
  0 ≤ now < 2 ^ 61 → 0 ≤ next_send s + Z.of_nat fuel * usec_per_pkt s → next_send s ≤ now →
  send_waiting_packets fuel now true w = OutOfFuel.
Proof.
  induction fuel as [|fuel IH]; intros n a s w now Hw Hu Hsil Hnow H0 Hdue; [done|].
  destruct (alone_top n a s w Hw) as [Htop Hpop]. rewrite (send_step fuel now w n s _ ltac:(by rewrite (proj2 Hw)) Htop Hpop) by (rewrite DIFF64_small by nia; lia).
  cbv zeta. rewrite Hsil. cbn [after_send sessions]. destruct (alone_push n a s (sends s) w Hw) as (st & Hpush & Hm & Hq). rewrite Hpush, M_bind_lift.
  set (w1 := Build_world st (sent w ++ [(Some (remoteaddr s), tx (sends s))]) (printed w)).
  change ((put_sessions st;; send_waiting_packets fuel now true) _) with (send_waiting_packets fuel now true w1).
  assert (next_send (sends s) = next_send s + usec_per_pkt s) as Hs by (unfold sends; cbn; unfold u64; rewrite Z.mod_small by nia; done).
  apply (IH n a (sends s)); [by split|done|done|done| |lia]. change (usec_per_pkt (sends s)) with (usec_per_pkt s). lia.
Qed.
End sending.

(** ** What the code does not withstand *)

Section findings.
Context {hp : Heap} {hl : HeapLaws} {ho : HostOrder} {fl : Flags} {dg : Digest} {rn : Rng} {sn : Sends}.

(** A handshake without a cookie, from the address of a session, deletes the session but not its
    entry in the queue: the next round uses an iterator that is not valid. *)
Lemma restart_dangles limit w addr n a s p now fuel i :
  sessions_ok limit (sessions w) → map_find addr (sessions w) = Some (n, (a, s)) → hs_cookie_epoch p = 0 → die i = false →
  ∃ w', handle_new_client_handshake_packet p addr now w = Ret (tt, w') ∧ main_round fuel true i w' = Ub.
Proof.
  intros Hok Hf He Hdie. unfold handle_new_client_handshake_packet. rewrite He. eexists. split; [reflexivity|].
  unfold map_find in Hf. apply List.find_some in Hf as [Hin Hk]. apply list_elem_of_In in Hin. cbn [snd fst] in Hk.
  unfold main_round. rewrite Hdie, M_bind_unfold. cbn [gets sessions]. set (st := map_erase addr (sessions w)).
  assert (n ∈ (next_sends st).*1) as ([n' k] & Hn & Hq)%list_elem_of_fmap.
  { change (next_sends st) with (next_sends (sessions w)). rewrite (ok_queue _ _ Hok). apply list_elem_of_fmap. by exists (n, (a, s)). }
  cbn in Hn. subst n'. assert (heap_ok st = false) as Hheap.
  { apply not_true_iff_false. intros Hheap. destruct (proj1 (heap_ok_spec st) Hheap _ Hq) as (x & Hx & _). cbn [fst] in Hx.
    assert (NoDup (session_map st).*1) as Hnd.
    { pose proof (ok_ids _ _ Hok) as Hids. unfold st. cbn [session_map map_erase with_map]. clear -Hids.
      induction (session_map (sessions w)) as [|e m IH]; [done|]. rewrite fmap_cons in Hids. apply NoDup_cons in Hids as [Hni Hids]. cbn [List.filter].
      destruct (negb _); [|by apply IH]. rewrite fmap_cons. constructor; [|by apply IH]. intros ([k y] & Hk & Hy)%list_elem_of_fmap. apply Hni, list_elem_of_fmap.
      exists (k, y). split; [done|]. apply list_elem_of_In in Hy. apply List.filter_In in Hy as [Hy _]. by apply list_elem_of_In. }
    apply (node_of_elem st n x Hnd) in Hx. apply list_elem_of_In, List.filter_In in Hx as [Hx Hne]. cbn [fst snd] in Hne.
    apply list_elem_of_In in Hx. apply (node_of_elem _ n x (ok_ids _ _ Hok)) in Hx. apply (node_of_elem _ n (a, s) (ok_ids _ _ Hok)) in Hin.
    rewrite Hx in Hin. injection Hin as ->. cbn [fst] in Hne. by rewrite Hk in Hne. }
  unfold next_send_time, top. rewrite Hheap. destruct (next_sends st); [by apply not_elem_of_nil in Hq|reflexivity].
Qed.

(** A second packet with a valid cookie, which a client sends every period until it has an answer,
    puts a second entry for its session into the queue. *)
Lemma second_cookie_duplicates limit first usec addr n a s st :
  sessions_ok limit st → map_find addr st = Some (n, (a, s)) →
  ∃ st', NewSession first usec addr st = Ret (n, st') ∧ next_sends st' = next_sends st ++ [(n, next_send s)] ∧ ¬ NoDup (next_sends st').*1.
Proof.
  intros Hok Hf. unfold NewSession. rewrite Hf. unfold map_find in Hf. apply List.find_some in Hf as [Hin _]. apply list_elem_of_In in Hin.
  pose proof (proj2 (node_of_elem st n (a, s) (ok_ids _ _ Hok)) Hin) as Hn. unfold push. rewrite Hn. cbn [snd]. set (st1 := with_sends _ st).
  assert (heap_ok st1 = true) as ->.
  { apply heap_ok_spec. intros e [He|He]%elem_of_app; [by apply (proj1 (heap_ok_spec st) (ok_heap _ _ Hok))|].
    apply list_elem_of_singleton in He as ->. by exists (a, s). }
  cbn [mbind outcome_bind]. exists st1. split; [done|]. split; [done|]. change (next_sends st1) with (next_sends st ++ [(n, next_send s)]).
  rewrite fmap_app. intros (_ & Hd & _)%NoDup_app. apply (Hd n); [|by left]. rewrite (ok_queue _ _ Hok). apply list_elem_of_fmap. by exists (n, (a, s)).
Qed.

(** Until the first change of the secret the epoch before the present one is read although
    it was never set. *)
Lemma first_cookie_unset p addr : ValidateCookie p addr Sessions_init = Ub.
Proof. done. Qed.

(** The time in the reply is not in network order. *)
Lemma reply_time_swapped p : big_endian = false → p_txtime (prepare_handshake_reply_packet p 1) = 2 ^ 24.
Proof. intros Hb. cbn. unfold ntohl, host_bytes. by rewrite Hb. Qed.
End findings.

(** The difference of two IPv4 addresses is never negative: addresses that differ are one key. *)
Lemma ipv4_addresses_confused a b : ss_family a = AF_INET → ss_family b = AF_INET →
  u32 (net_word (sin_addr a) - net_word (sin_addr b)) ≠ 0 → same_key a b = true.
Proof.
  intros Ha Hb Hne. assert (∀ x y, ss_family x = AF_INET → ss_family y = AF_INET → u32 (net_word (sin_addr x) - net_word (sin_addr y)) ≠ 0 →
    CompareSockaddr x y = false) as Hc.
  { intros x y Hx Hy Hd. unfold CompareSockaddr. rewrite Hx, Hy. cbn [Z.eqb negb AF_INET]. change (AF_INET =? AF_INET) with true. cbn [negb].
    destruct (Z.eqb_spec (u32 (net_word (sin_addr x) - net_word (sin_addr y))) 0); [done|].
    apply Z.ltb_ge. unfold u32. by apply Z.mod_pos_bound. }
  unfold same_key. rewrite !Hc; [done|done|done| |done|done|done]. intros H0. apply Hne. unfold u32 in *.
  replace (net_word (sin_addr a) - net_word (sin_addr b)) with (- (net_word (sin_addr b) - net_word (sin_addr a))) by lia. by apply Z_mod_zero_opp_full.
Qed.

(** ** Examples *)

Fixpoint earliest (q : list (nat * Z)) : nat :=
  match q with
  | [] => 0
  | e :: q => match q !! earliest q with Some e' => if e.2 <=? e'.2 then 0 else S (earliest q) | None => 0 end
  end.
Definition sample_heap : Heap := {| heap_top := earliest |}.
Lemma sample_heap_laws : @HeapLaws sample_heap.
Proof.
  split. intros q. induction q as [|e q IH]; [done|]. intros _. cbn [heap_top sample_heap earliest] in *. destruct q as [|e2 q].
  - exists e. split; [done|]. intros e' [->|He]%elem_of_cons; [lia|by apply not_elem_of_nil in He].
  - destruct (IH ltac:(done)) as (m & Hm & Hmin). cbn [heap_top sample_heap] in Hm, Hmin. rewrite Hm. destruct (Z.leb_spec e.2 m.2).
    + exists e. split; [done|]. intros e' [->|He]%elem_of_cons; [lia|]. specialize (Hmin e' He). lia.
    + exists m. split; [exact Hm|]. intros e' [->|He]%elem_of_cons; [lia|]. by apply Hmin.
Qed.
Definition sample_order : HostOrder := {| big_endian := false |}.
Definition sample_digest : Digest := {| digest_init := true; sha256 := λ m, take 32 (rev m ++ replicate 32 0) |}.
Lemma sample_digest_laws : @DigestLaws sample_digest.
Proof. split; [done|]. intros m. unfold strlen. cbn [sha256 sample_digest]. rewrite length_take, length_app, length_rev, length_replicate. unfold COOKIE_SIZE. lia. Qed.
Definition sample_rng : Rng := {| rng_bytes := λ k, le_split 8 (Z.of_nat k * 1000003) |}.
Definition sample_sends : Sends := {| send_errno := λ _, None |}.
Definition sample_client : sockaddr := {| ss_family := AF_INET6; sin_port := 7; sin_flow := [0; 0; 0; 0]; sin_addr := replicate 15 0 ++ [2]; sin_scope := [0; 0; 0; 0] |}.

(** A server that has just changed its secret for the epoch 5. *)
Definition sample_world : world := Build_world (@MaybeRotateCookieSecrets sample_rng 2000000 320 true (@Sessions_init sample_rng)) [] [].
Definition sample_ask : Packet := tx (prepare_tx_packet (@new_session sample_flags 0 250 sample_client)).
Definition sample_reply : Packet := @reply sample_order sample_digest sample_flags sample_ask sample_client 2000000 (sessions sample_world).
Definition sample_answer : Packet :=
  tx (prepare_tx_packet (@with_cookie sample_order 3000000 sample_reply (@new_session sample_flags 0 250 sample_client))).

Definition sample_rounds : list round :=
  [Round 2000000 1 0 2000000 320 (Recv SIZEOF_PACKET sample_ask sample_client) false;
   Round 3000000 1 0 3000000 321 (Recv SIZEOF_PACKET sample_answer sample_client) false;
   Round 4000000 0 0 4000000 322 (Recv_err 0) false].


Lemma handshake_agrees_witness : ∃ r wc' c3,
  @handle_new_client_handshake_packet sample_order sample_flags sample_digest sample_ask sample_client 2000000 sample_world =
    Ret (tt, Build_world (map_erase sample_client (sessions sample_world)) [(Some sample_client, r)] []) ∧
  @handle_server_handshake_packet sample_order sample_heap r 3000000
    (Build_world (with_sends [(0%nat, 0)] (with_map [(0%nat, (sample_addr, @new_session sample_flags 0 250 sample_addr))] 1 (@Sessions_init sample_rng))) [] []) = Ret (tt, wc') ∧
  client_world 0 sample_addr c3 wc' ∧ usec_per_pkt c3 = 250.
Proof.
  destruct (@handshake_agrees sample_heap sample_heap_laws sample_order sample_digest sample_digest_laws sample_flags
    (@new_session sample_flags 0 250 sample_client) sample_client 2000000 sample_world) as (r & H1 & H2).
  - reflexivity.
  - discriminate.
  - split; reflexivity.
  - split; vm_compute; reflexivity.
  - destruct (H2 0%nat sample_addr (@new_session sample_flags 0 250 sample_addr)
      (Build_world (with_sends [(0%nat, 0)] (with_map [(0%nat, (sample_addr, @new_session sample_flags 0 250 sample_addr))] 1 (@Sessions_init sample_rng))) [] []) 3000000)
      as (wc' & c3 & H3 & H4 & _ & H5 & _); [split; reflexivity|reflexivity|].
    exists r, wc', c3. split; [exact H1|]. split; [exact H3|]. split; [exact H4|]. rewrite H5. vm_compute. reflexivity.
Defined.

(** A session whose packets of the times 100, 150, 200 and 250 are due. *)
Definition sample_due : world :=
  Build_world (with_sends [(0%nat, 100)] (with_map [(0%nat, (sample_client, @new_session sample_flags 100 50 sample_client))] 1 (@Sessions_init sample_rng))) [] [].
Lemma sample_due_ok : sessions_ok LIMIT (sessions sample_due).
Proof.
  split.
  - by constructor; [apply not_elem_of_nil|constructor].
  - by repeat constructor.
  - intros x y Hx%list_elem_of_singleton Hy%list_elem_of_singleton Hne. by subst.
  - constructor; [|constructor]. split; [reflexivity|split; reflexivity|split; [discriminate|reflexivity]|split; [discriminate|reflexivity]].
  - reflexivity.
  - vm_compute. reflexivity.
Qed.

(** The whole exchange as the server sees it: two packets are sent, the reply and the first of the session. *)
Example sample_served :
  match @main_loop sample_order sample_heap sample_flags sample_digest sample_rng sample_sends 4500 true sample_rounds (Build_world (@Sessions_init sample_rng) [] []) with
  | Ret (r, w) => r = None ∧ length (session_map (sessions w)) = 1%nat ∧ (2 <= length (sent w))%nat
  | _ => False
  end.
Proof. vm_compute. split_and!; [reflexivity|reflexivity|lia]. Qed.

(** A client that asks for 2^32 - 1 microseconds makes the server send on and on. *)
Definition greedy_client : Session := @new_session sample_flags 0 (2 ^ 32 - 1) sample_client.
Definition greedy_ask : Packet := tx (prepare_tx_packet greedy_client).
Definition greedy_reply : Packet := @reply sample_order sample_digest sample_flags greedy_ask sample_client 2000000 (sessions sample_world).
Definition greedy_rounds : list round :=
  [Round 2000000 1 0 2000000 320 (Recv SIZEOF_PACKET greedy_ask sample_client) false;
   Round 3000000 1 0 3000000 321 (Recv SIZEOF_PACKET (tx (prepare_tx_packet (@with_cookie sample_order 3000000 greedy_reply greedy_client))) sample_client) false;
   Round 4000000 0 0 4000000 322 (Recv_err 0) false].
Example greedy_floods :
  @main_loop sample_order sample_heap sample_flags sample_digest sample_rng sample_sends 1000 true greedy_rounds (Build_world (@Sessions_init sample_rng) [] []) = OutOfFuel.
Proof. vm_compute. reflexivity. Qed.
