(* ===== verification/Experiments.v ===== *)
(** * The experiments library: libexperiments/

    A program registers the experiments it knows by their names; files in a directory say
    which of them are requested, active or no longer requested.  Here are experiments.cc
    and the part of utils.cc that it uses, with the command that registers a name. *)

From stdpp Require Import gmap sorting.
From S2P Require Import Prelude.
Open Scope Z_scope.

(** ** utils.cc: commands *)

Definition kMaxRunCmdOutput : Z := 4 * 1024 * 1024.

(** [nice_snprintf(buf + bi, bufsize - bi, ...)] of the text [t]. *)
Definition nice_snprintf (buf : bytes) (bi size : Z) (t : bytes) : outcome (Z * bytes) :=
  '(n, buf) ← snprintf_at buf bi size t;
  Ret (if size <? n then size else n, buf).

Definition blank (c : Z) : bool := (c =? 32) || (c =? 10) || (c =? 13) || (c =? 9).
Definition isprint (c : Z) : bool := (32 <=? c) && (c <=? 126).
(** A character of a command, printed; %02x has a char, which is signed. *)
Definition shown_char (c : Z) : bytes :=
  if isprint c then [c] else if c =? 10 then lit "\n"
  else lit "\x" ++ pad 2 48 (hex_digits 8 (u32 (if c <? 128 then c else c - 256)) []).

Fixpoint snprintf_chars (item : bytes) (buf : bytes) (bi bufsize : Z) : outcome (Z * bytes) :=
  match item with
  | [] => Ret (bi, buf)
  | c :: item =>
      if bi <? bufsize then
        '(n, buf) ← nice_snprintf buf bi (bufsize - bi) (shown_char c);
        snprintf_chars item buf (bi + n) bufsize
      else Ret (bi, buf)
  end.
Definition quote_if (blanks : bool) (buf : bytes) (bi bufsize : Z) : outcome (Z * bytes) :=
  if blanks then '(n, buf) ← nice_snprintf buf bi (bufsize - bi) [34]; Ret (bi + n, buf) else Ret (bi, buf).
Fixpoint snprintf_items (cmd : list bytes) (buf : bytes) (bi bufsize : Z) : outcome (Z * bytes) :=
  match cmd with
  | [] => Ret (bi, buf)
  | item :: cmd =>
      let blanks := existsb blank item in
      '(bi, buf) ← quote_if blanks buf bi bufsize;
      '(bi, buf) ← snprintf_chars item buf bi bufsize;
      '(bi, buf) ← quote_if blanks buf bi bufsize;
      '(n, buf) ← nice_snprintf buf bi (bufsize - bi) [32];
      snprintf_items cmd buf (bi + n) bufsize
  end.
Definition snprintf_cmd (buf : bytes) (bufsize : Z) (cmd : list bytes) : outcome (Z * bytes) :=
  buf ← buf_set buf 0 NUL;
  snprintf_items cmd buf 0 bufsize.

(** What read answers on a pipe, and select on both. *)
Inductive got := Data (d : bytes) | Read_error.
Inductive round := Sel_timeout | Sel_eintr | Sel_error | Sel_ready (o e : option got).

(** What happens to a command: the pipes, fork, the input that is taken, the rounds of the
    loop, and the status that wait stores if it succeeds. *)
Record script := Script {
  pipes_ok : bool; forked : Z; wrote : Z; rounds : list round; waited : option Z;
}.
(** The loop's state: the two ends that are still open, what was read, the code, and the
    processes that were killed. *)
Record reading := Reading {
  out_open : bool; err_open : bool; out : bytes; err : bytes; total_output : Z; retcode : Z; kills : list Z;
}.
Definition kill (pid : Z) (code : Z) (r : reading) : reading :=
  Reading (out_open r) (err_open r) (out r) (err r) (total_output r) code (kills r ++ [pid]).
Definition with_code (code : Z) (r : reading) : reading :=
  Reading (out_open r) (err_open r) (out r) (err r) (total_output r) code (kills r).

(** [read(fd, buf, sizeof(buf))] on one of the pipes that is set. *)
Definition read_out (g : option got) (r : reading) : reading :=
  match g with
  | None => r
  | Some g =>
      if negb (out_open r) then r
      else match g with
      | Read_error => Reading false (err_open r) (out r) (err r) (total_output r) (-1) (kills r)
      | Data d =>
          let d := take 1024 d in
          if strlen d <=? 0 then Reading false (err_open r) (out r) (err r) (total_output r) (retcode r) (kills r)
          else Reading true (err_open r) (out r ++ d) (err r) (s32 (total_output r + strlen d)) (retcode r) (kills r)
      end
  end.
Definition read_err (g : option got) (r : reading) : reading :=
  match g with
  | None => r
  | Some g =>
      if negb (err_open r) then r
      else match g with
      | Read_error => Reading (out_open r) false (out r) (err r) (total_output r) (-1) (kills r)
      | Data d =>
          let d := take 1024 d in
          if strlen d <=? 0 then Reading (out_open r) false (out r) (err r) (total_output r) (retcode r) (kills r)
          else Reading (out_open r) true (out r) (err r ++ d) (s32 (total_output r + strlen d)) (retcode r) (kills r)
      end
  end.

(** The fields of the timeout; select refuses microseconds that make a second. *)
Definition timeval (timeout_usec : Z) : option (Z * Z) :=
  if 0 <=? timeout_usec then Some (Z.quot timeout_usec 1000000, Z.rem timeout_usec 1000000 * 1000000) else None.
Definition select_takes (tv : option (Z * Z)) : bool :=
  match tv with Some (_, usec) => (0 <=? usec) && (usec <? 1000000) | None => true end.

Fixpoint read_loop (timeout_usec pid : Z) (rs : list round) (r : reading) : outcome reading :=
  if out_open r || err_open r then
    if kMaxRunCmdOutput <? total_output r then Ret (kill pid (-3) r)
    else if negb (select_takes (timeval timeout_usec)) then Ret (with_code (-1) r)
    else match rs with
    | [] => OutOfFuel
    | Sel_timeout :: _ => Ret (kill pid (-2) r)
    | Sel_eintr :: _ | Sel_error :: _ => Ret (with_code (-1) r)
    | Sel_ready o e :: rs => read_loop timeout_usec pid rs (read_err e (read_out o r))
    end
  else Ret r.

Definition WIFEXITED (s : Z) : bool := Z.land s 0x7f =? 0.
Definition WEXITSTATUS (s : Z) : Z := Z.shiftr (Z.land s 0xff00) 8.

(** The code, the status ([None] where the caller's variable is not set), what was read, the
    processes killed, and the command as it was logged.  The result of write is compared
    with a size_t. *)
Record ran := Ran {
  ret : Z; status : option Z; run_out : bytes; run_err : bytes; run_kills : list Z; logged : bytes;
}.
Definition run_cmd `{!CPlatform} (cmd : list bytes) (input : bytes) (timeout_usec : Z) (s : script) : outcome ran :=
  match cmd with
  | [] | [] :: _ => Ret (Ran (-1) (Some (-1)) [] [] [] [])
  | _ =>
      if negb (pipes_ok s) then Ret (Ran (-1) None [] [] [] [])
      else
        '(_, cmd_buf) ← snprintf_cmd (replicate 1024 0) 1024 cmd;
        text ← cstr cmd_buf;
        let pid := forked s in
        if negb (strlen input =? 0) && (ulong (wrote s) <? strlen input) then Ret (Ran (-4) None [] [] [pid] text)
        else
          r ← read_loop timeout_usec pid (rounds s) (Reading true true [] [] 0 0 []);
          let st := default 0 (waited s) in
          let st := if WIFEXITED st then WEXITSTATUS st else st in
          Ret (Ran (retcode r) (Some st) (out r) (err r) (kills r) text)
  end.

(** ** experiments.cc *)

Definition kUsecsPerSec : Z := 1000000.
Definition secs_to_usecs (secs : Z) : Z := s64 (secs * kUsecsPerSec).

(** What is outside: the files and directories by their paths (no marker is a directory), whether remove and rename
    succeed, the monotonic clock in microseconds, what will happen to the commands that are
    run, and the messages printed, without the text of an error number. *)
Record world := World {
  files : gset bytes; dirs : gset bytes;
  may_remove : bytes → bool; may_rename : bytes → bytes → bool;
  now : Z; scripts : list script; said : list bytes;
}.
Definition with_files (f : gset bytes) (w : world) : world :=
  World f (dirs w) (may_remove w) (may_rename w) (now w) (scripts w) (said w).
Definition log (t : bytes) (w : world) : world :=
  World (files w) (dirs w) (may_remove w) (may_rename w) (now w) (scripts w) (said w ++ [t]).
Definition with_scripts (l : list script) (w : world) : world :=
  World (files w) (dirs w) (may_remove w) (may_rename w) (now w) l (said w).

Definition us_elapse (start_time_us : Z) (w : world) : Z := u64 (now w - start_time_us).
Definition file_exists (name : bytes) (w : world) : bool := bool_decide (name ∈ files w).
Definition directory_exists (path : bytes) (w : world) : bool := bool_decide (path ∈ dirs w).
Definition rm_file (name : bytes) (w : world) : bool * world :=
  if bool_decide (name ∈ files w) && may_remove w name then (true, with_files (files w ∖ {[name]}) w)
  else (false, log (lit "Cannot rm file '" ++ name ++ lit "':") w).
Definition mv_file (from_name to_name : bytes) (w : world) : bool * world :=
  if bool_decide (from_name ∈ files w) && may_rename w from_name to_name then
    (true, with_files ({[to_name]} ∪ files w ∖ {[from_name]}) w)
  else (false, log (lit "Cannot mv file '" ++ from_name ++ lit "' to '" ++ to_name ++ lit "':") w).

(** Registers a name with the outside; the result is not 0 for success. *)
Definition experiments_register_func_t : Type := bytes → world → outcome (Z * world).
Definition DummyExperimentsRegisterFunc : experiments_register_func_t := fun _ w => Ret (1, w).
(** The status is printed also where run_cmd has not set it. *)
Definition DefaultExperimentsRegisterFunc `{!CPlatform} : experiments_register_func_t := fun name w =>
  match scripts w with
  | [] => OutOfFuel
  | s :: rest =>
      r ← run_cmd [lit "register_experiment"; name] [] (secs_to_usecs 5) s;
      let w := with_scripts rest (log (lit "run_cmd:running command: " ++ logged r) w) in
      match status r with
      | None => Ub
      | Some st =>
          if (ret r <? 0) || negb (st =? 0) then
            Ret (0, log (lit "experiments:Error-Cannot register '" ++ name ++ lit "', ret:" ++ dec (ret r) ++ lit " status:" ++ dec st ++
                         lit " stdout:" ++ nul_text (run_out r) ++ lit " stderr:" ++ nul_text (run_err r)) w)
          else Ret (1, w)
      end
  end.

(** std::set iterates in the order of std::string. *)
Fixpoint string_leb (a b : bytes) : bool :=
  match a, b with
  | [], _ => true
  | _ :: _, [] => false
  | x :: a, y :: b => (x <? y) || ((x =? y) && string_leb a b)
  end.
Definition string_le (a b : bytes) : Prop := string_leb a b = true.
#[export] Instance string_le_dec : RelDecision string_le.
Proof. intros a b. unfold string_le. apply _. Defined.
Definition in_order (X : gset bytes) : list bytes := merge_sort string_le (elements X).

Record Experiments := {
  initialized_ : bool;
  config_dir_ : bytes;
  register_func_ : option experiments_register_func_t;
  registered_experiments_ : gset bytes;
  enabled_experiments_ : gset bytes;
  min_time_between_refresh_usec_ : Z;
  last_time_refreshed_usec_ : Z;
}.
Definition new_Experiments : Experiments :=
  {| initialized_ := false; config_dir_ := []; register_func_ := None; registered_experiments_ := ∅;
     enabled_experiments_ := ∅; min_time_between_refresh_usec_ := 0; last_time_refreshed_usec_ := 0 |}.
Definition with_registered (X : gset bytes) (e : Experiments) : Experiments :=
  {| initialized_ := initialized_ e; config_dir_ := config_dir_ e; register_func_ := register_func_ e; registered_experiments_ := X;
     enabled_experiments_ := enabled_experiments_ e; min_time_between_refresh_usec_ := min_time_between_refresh_usec_ e;
     last_time_refreshed_usec_ := last_time_refreshed_usec_ e |}.
Definition with_enabled (X : gset bytes) (e : Experiments) : Experiments :=
  {| initialized_ := initialized_ e; config_dir_ := config_dir_ e; register_func_ := register_func_ e;
     registered_experiments_ := registered_experiments_ e; enabled_experiments_ := X;
     min_time_between_refresh_usec_ := min_time_between_refresh_usec_ e; last_time_refreshed_usec_ := last_time_refreshed_usec_ e |}.
Definition with_last_time (t : Z) (e : Experiments) : Experiments :=
  {| initialized_ := initialized_ e; config_dir_ := config_dir_ e; register_func_ := register_func_ e;
     registered_experiments_ := registered_experiments_ e; enabled_experiments_ := enabled_experiments_ e;
     min_time_between_refresh_usec_ := min_time_between_refresh_usec_ e; last_time_refreshed_usec_ := t |}.
(** The part of Initialize that cannot fail. *)
Definition configured (config_dir : bytes) (min_time : Z) (f : experiments_register_func_t) (e : Experiments) : Experiments :=
  {| initialized_ := true; config_dir_ := config_dir; register_func_ := Some f;
     registered_experiments_ := registered_experiments_ e; enabled_experiments_ := enabled_experiments_ e;
     min_time_between_refresh_usec_ := (if min_time <? 0 then 0 else min_time); last_time_refreshed_usec_ := last_time_refreshed_usec_ e |}.

(** The object and the outside. *)
Definition sys : Type := Experiments * world.
Definition say (t : bytes) (s : sys) : sys := (s.1, log t s.2).

Definition IsInRegisteredList (name : bytes) (e : Experiments) : bool := bool_decide (name ∈ registered_experiments_ e).
Definition IsInEnabledList (name : bytes) (e : Experiments) : bool := bool_decide (name ∈ enabled_experiments_ e).
(** The path of a marker of an experiment, as a C string. *)
Definition marker (e : Experiments) (name suffix : bytes) : bytes := nul_text (config_dir_ e ++ lit "/" ++ name ++ suffix).

Definition enable_if_active (name : bytes) (s : sys) : sys :=
  let '(e, w) := s in
  if file_exists (marker e name (lit ".active")) w then
    (with_enabled ({[name]} ∪ enabled_experiments_ e) e, log (lit "experiments:'" ++ nul_text name ++ lit "' is now enabled") w)
  else s.
Fixpoint Register_Locked (names : list bytes) : M sys bool := fun s =>
  match names with
  | [] => Ret (true, s)
  | name :: names =>
      if IsInRegisteredList name s.1 then
        Register_Locked names (say (lit "experiments:'" ++ nul_text name ++ lit "' already registered") s)
      else match register_func_ s.1 with
      | None => Ub
      | Some f =>
          '(ok, w) ← f (nul_text name) s.2;
          if ok =? 0 then Ret (false, (s.1, w))
          else
            let e := with_registered ({[name]} ∪ registered_experiments_ s.1) s.1 in
            let s := (e, log (lit "experiments:Registered '" ++ nul_text name ++ lit "'") w) in
            Register_Locked names (enable_if_active name s)
      end
  end.
Definition Initialize (config_dir : bytes) (min_time : Z) (register_func : option experiments_register_func_t)
    (names_to_register : list bytes) : M sys bool := fun s =>
  let s := say (lit "experiments:initializing - config_dir:" ++ nul_text config_dir ++ lit " min_time_between_refresh:" ++ dec min_time ++ lit " us") s in
  match register_func with
  | None => Ret (false, say (lit "experiments:Error-register_func is NULL") s)
  | Some f =>
      if negb (directory_exists (nul_text config_dir) s.2) then
        Ret (false, say (lit "experiments:Error-config_dir '" ++ nul_text config_dir ++ lit "' does not exist") s)
      else
        let s := (configured config_dir min_time f s.1, s.2) in
        match names_to_register with
        | [] => Ret (true, s)
        | _ => Register_Locked names_to_register s
        end
  end.
(** Register takes the lock, by Register_Unlocked. *)
Definition Register (names : list bytes) : M sys bool := fun s =>
  if negb (initialized_ s.1) then Ret (false, say (lit "experiments:Cannot register, not initialized!") s)
  else Register_Locked names s.
Definition IsRegistered (name : bytes) : M sys bool := gets (λ s, IsInRegisteredList name s.1).
Definition GetNumOfRegisteredExperiments : M sys Z := gets (λ s, s32 (Z.of_nat (size (registered_experiments_ s.1)))).

Definition UpdateState (name : bytes) (s : sys) : sys :=
  let '(e, w) := s in
  if negb (IsInRegisteredList name e) then say (lit "experiments:'" ++ nul_text name ++ lit "' not registered") s
  else if IsInEnabledList name e then
    let file_unrequested := marker e name (lit ".unrequested") in
    if file_exists file_unrequested w then
      let w := snd (rm_file (marker e name (lit ".active")) w) in
      let w := snd (rm_file file_unrequested w) in
      (with_enabled (enabled_experiments_ e ∖ {[name]}) e, log (lit "experiments:'" ++ nul_text name ++ lit "' is now disabled") w)
    else s
  else
    let file_requested := marker e name (lit ".requested") in
    if file_exists file_requested w then
      let w := snd (mv_file file_requested (marker e name (lit ".active")) w) in
      (with_enabled ({[name]} ∪ enabled_experiments_ e) e, log (lit "experiments:'" ++ nul_text name ++ lit "' is now enabled") w)
    else s.
Definition Refresh (s : sys) : sys :=
  let s := foldl (λ s name, UpdateState name s) s (in_order (registered_experiments_ s.1)) in
  (with_last_time (us_elapse 0 s.2) s.1, s.2).
Definition IsEnabled (name : bytes) : M sys bool := fun s =>
  if negb (initialized_ s.1) then Ret (false, s)
  else
    let s := if min_time_between_refresh_usec_ s.1 <=? us_elapse (last_time_refreshed_usec_ s.1) s.2 then Refresh s else s in
    Ret (IsInEnabledList name s.1, s).

(** *** The functions for C programs

    The global object, if there is one. *)
Definition global : Type := option Experiments * world.
(** A method of the object; [no] is the answer without one. *)
Definition on_object {A} (m : M sys A) (no : A) : M global A := fun g =>
  match g.1 with
  | None => Ret (no, g)
  | Some e => '(a, s) ← m (e, g.2); Ret (a, (Some s.1, s.2))
  end.
Definition experiments_initialize `{!CPlatform} (config_dir : bytes) (min_time : Z) (register_func : option experiments_register_func_t) :
    M global bool := fun g =>
  let f := default DefaultExperimentsRegisterFunc register_func in
  '(ok, s) ← Initialize config_dir min_time (Some f) [] (new_Experiments, g.2);
  Ret (ok, (Some s.1, s.2)).
Definition experiments_is_initialized : M global bool := on_object (gets (λ s, initialized_ s.1)) false.
Definition experiments_register (name : bytes) : M global bool := on_object (Register [name]) false.
Definition experiments_is_registered (name : bytes) : M global bool := on_object (IsRegistered name) false.
Definition experiments_get_num_of_registered_experiments : M global Z := on_object GetNumOfRegisteredExperiments 0.
Definition experiments_is_enabled (name : bytes) : M global bool := on_object (IsEnabled name) false.
