(* ===== verification/ExperimentsSpec.v ===== *)
(** * The experiments library: what it promises

    The experiments as a machine that knows of each name whether it is on and which of its
    three markers are set, that the library is that machine, and what follows; the
    command that registers a name, and what is logged of it. *)

From stdpp Require Import gmap sorting.
From S2P Require Import Prelude Experiments.
Open Scope Z_scope.

(** ** Markers *)

Inductive mark := Active | Requested | Unrequested.
#[export] Instance mark_eq_dec : EqDecision mark.
Proof. solve_decision. Defined.
Definition suffix (m : mark) : bytes :=
  match m with Active => lit ".active" | Requested => lit ".requested" | Unrequested => lit ".unrequested" end.
Definition path (dir name : bytes) (m : mark) : bytes := dir ++ lit "/" ++ name ++ suffix m.

Lemma path_inj dir n m n' m' : path dir n m = path dir n' m' → n = n' ∧ m = m'.
Proof.
  unfold path. intros H. do 2 apply app_inv_head in H.
  assert (m = m') as <-; [|by apply app_inv_tail in H].
  apply (f_equal (@reverse Z)) in H. rewrite !reverse_app in H. by destruct m, m'.
Qed.
Lemma marker_path e n m : nonul (config_dir_ e) → nonul n → marker e n (suffix m) = path (config_dir_ e) n m.
Proof.
  intros Hd Hn. apply nul_text_id. apply nonul_app; [done|]. apply nonul_app; [by repeat constructor|]. apply nonul_app; [done|].
  destruct m; repeat constructor; done.
Qed.

(** ** The machine *)

Record status := Status { on : bool; active : bool; requested : bool; unrequested : bool }.
Definition set_mark (m : mark) (b : bool) (v : status) : status :=
  match m with
  | Active => Status (on v) b (requested v) (unrequested v)
  | Requested => Status (on v) (active v) b (unrequested v)
  | Unrequested => Status (on v) (active v) (requested v) b
  end.
(** What a scan of the directory makes of an experiment. *)
Definition scanned (v : status) : status :=
  if on v then if unrequested v then Status false false (requested v) false else v
  else if requested v then Status true true false (unrequested v) else v.
(** ... and its registration. *)
Definition taken_up (v : status) : status := Status (on v || active v) (active v) (requested v) (unrequested v).

Record machine := Machine { known : gset bytes; state : bytes → status; scanned_at : Z; time : Z; interval : Z }.
Definition upd (n : bytes) (f : status → status) (st : bytes → status) : bytes → status :=
  λ k, if decide (k = n) then f (st k) else st k.

Inductive event :=
  | Ask (n : bytes)                      (* IsEnabled *)
  | Know (n : bytes)                     (* IsRegistered *)
  | Take_up (ns : list bytes)            (* Register *)
  | Mark (n : bytes) (m : mark) (b : bool)   (* a marker is created or removed by another program *)
  | Wait (usecs : Z).

Definition scan (m : machine) : machine :=
  Machine (known m) (λ n, if decide (n ∈ known m) then scanned (state m n) else state m n) (time m) (time m) (interval m).
Fixpoint take_up (accepts : bytes → bool) (ns : list bytes) (m : machine) : bool * machine :=
  match ns with
  | [] => (true, m)
  | n :: ns =>
      if decide (n ∈ known m) then take_up accepts ns m
      else if accepts n then
        take_up accepts ns (Machine ({[n]} ∪ known m) (upd n taken_up (state m)) (scanned_at m) (time m) (interval m))
      else (false, m)
  end.
Definition machine_step (accepts : bytes → bool) (ev : event) (m : machine) : option bool * machine :=
  match ev with
  | Ask n => let m := if interval m <=? time m - scanned_at m then scan m else m in (Some (on (state m n)), m)
  | Know n => (Some (bool_decide (n ∈ known m)), m)
  | Take_up ns => let '(b, m) := take_up accepts ns m in (Some b, m)
  | Mark n k b => (None, Machine (known m) (upd n (set_mark k b) (state m)) (scanned_at m) (time m) (interval m))
  | Wait t => (None, Machine (known m) (state m) (scanned_at m) (time m + t) (interval m))
  end.
Fixpoint machine_run (accepts : bytes → bool) (evs : list event) (m : machine) : list (option bool) * machine :=
  match evs with
  | [] => ([], m)
  | ev :: evs => let '(a, m) := machine_step accepts ev m in let '(l, m) := machine_run accepts evs m in (a :: l, m)
  end.

(** ** The library, among other programs *)

Definition with_now (t : Z) (w : world) : world :=
  World (files w) (dirs w) (may_remove w) (may_rename w) t (scripts w) (said w).
Definition sys_step (ev : event) : M sys (option bool) := fun s =>
  match ev with
  | Ask n => '(b, s) ← IsEnabled n s; Ret (Some b, s)
  | Know n => '(b, s) ← IsRegistered n s; Ret (Some b, s)
  | Take_up ns => '(b, s) ← Register ns s; Ret (Some b, s)
  | Mark n m b =>
      let p := path (config_dir_ s.1) n m in
      Ret (None, (s.1, with_files (if b then {[p]} ∪ files s.2 else files s.2 ∖ {[p]}) s.2))
  | Wait t => Ret (None, (s.1, with_now (now s.2 + t) s.2))
  end.
Fixpoint sys_run (evs : list event) : M sys (list (option bool)) := fun s =>
  match evs with
  | [] => Ret ([], s)
  | ev :: evs => '(a, s) ← sys_step ev s; '(l, s) ← sys_run evs s; Ret (a :: l, s)
  end.

(** What the library has of an experiment. *)
Definition view (s : sys) (n : bytes) : status :=
  let p m := bool_decide (path (config_dir_ s.1) n m ∈ files s.2) in
  Status (bool_decide (n ∈ enabled_experiments_ s.1)) (p Active) (p Requested) (p Unrequested).

(** The directory can be changed, and the clock is a clock. *)
Definition working (w : world) : Prop := (∀ x, may_remove w x = true) ∧ (∀ x y, may_rename w x y = true).

Record frame (s s' : sys) : Prop := {
  fr_init : initialized_ s'.1 = initialized_ s.1;
  fr_dir : config_dir_ s'.1 = config_dir_ s.1;
  fr_func : register_func_ s'.1 = register_func_ s.1;
  fr_reg : registered_experiments_ s'.1 = registered_experiments_ s.1;
  fr_min : min_time_between_refresh_usec_ s'.1 = min_time_between_refresh_usec_ s.1;
  fr_last : last_time_refreshed_usec_ s'.1 = last_time_refreshed_usec_ s.1;
  fr_now : now s'.2 = now s.2;
  fr_dirs : dirs s'.2 = dirs s.2;
  fr_work : working s.2 → working s'.2;
}.
#[export] Instance frame_preorder : PreOrder frame.
Proof. split; [by intros s; split|]. intros a b c [] []. split; try congruence. auto. Qed.

Lemma rm_file_files x w : working w → files (snd (rm_file x w)) = files w ∖ {[x]}.
Proof.
  intros [Hr _]. unfold rm_file. rewrite Hr, andb_true_r. case_bool_decide; [done|]. cbn. set_solver.
Qed.
Lemma rm_file_frame x w : working w → let w' := snd (rm_file x w) in
  working w' ∧ now w' = now w ∧ dirs w' = dirs w.
Proof. intros [Hr Hm]. unfold rm_file. by case_match. Qed.

Lemma status_eq v w : on v = on w → active v = active w → requested v = requested w → unrequested v = unrequested w → v = w.
Proof. destruct v, w. cbn. by intros -> -> -> ->. Qed.

(** A scan of one experiment leaves the others alone. *)
Lemma view_others e e' w w' n k : config_dir_ e' = config_dir_ e →
  (∀ x, x ≠ n → x ∈ enabled_experiments_ e' ↔ x ∈ enabled_experiments_ e) →
  (∀ x, (∀ m, x ≠ path (config_dir_ e) n m) → x ∈ files w' ↔ x ∈ files w) →
  k ≠ n → view (e', w') k = view (e, w) k.
Proof.
  intros Hd He Hf Hk. unfold view. cbn [fst snd]. rewrite Hd.
  apply status_eq; cbn; apply bool_decide_ext; [by apply He|..]; apply Hf; intros m Hm; apply path_inj in Hm as [??]; done.
Qed.
Lemma UpdateState_view s n : working s.2 → nonul (config_dir_ s.1) → nonul n → n ∈ registered_experiments_ s.1 →
  frame s (UpdateState n s) ∧ ∀ k, view (UpdateState n s) k = upd n scanned (view s) k.
Proof.
  destruct s as [e w]. cbn [fst snd]. intros Hw Hd Hn Hreg. unfold UpdateState, IsInRegisteredList, IsInEnabledList, file_exists.
  rewrite bool_decide_true by done. cbn [negb].
  rewrite !(marker_path e n Active Hd Hn : marker e n (lit ".active") = _), !(marker_path e n Requested Hd Hn : marker e n (lit ".requested") = _),
    !(marker_path e n Unrequested Hd Hn : marker e n (lit ".unrequested") = _).
  assert (∀ m m', path (config_dir_ e) n m = path (config_dir_ e) n m' ↔ m = m') as Hp by (split; [by intros [_ ?]%path_inj|by intros ->]).
  assert (scanned (view (e, w) n) = view (e, w) n → frame (e, w) (e, w) ∧ ∀ k, view (e, w) k = upd n scanned (view (e, w)) k) as Hsame.
  { intros Heq. split; [done|]. intros k. unfold upd. case_decide; [by subst k|done]. }
  case_bool_decide as Hon; case_bool_decide as Hmark.
  - destruct (rm_file_frame (path (config_dir_ e) n Active) w Hw) as (Hw1 & Hn1 & Hd1).
    destruct (rm_file_frame (path (config_dir_ e) n Unrequested) _ Hw1) as (Hw2 & Hn2 & Hd2).
    pose proof (rm_file_files (path (config_dir_ e) n Unrequested) _ Hw1) as Hf. rewrite (rm_file_files _ w Hw) in Hf.
    remember (snd (rm_file (path (config_dir_ e) n Unrequested) _)) as w2 eqn:E2. clear E2.
    split; [split; cbn; by rewrite ?Hn2, ?Hd2|]. intros k. unfold upd. case_decide as Hk.
    + subst k. unfold scanned, view. cbn [fst snd on requested unrequested log files with_enabled config_dir_ enabled_experiments_]. rewrite Hf.
      rewrite (bool_decide_true (n ∈ enabled_experiments_ e)), (bool_decide_true (path _ n Unrequested ∈ files w)) by done.
      apply status_eq; cbn [on active requested unrequested]; (apply bool_decide_ext || apply bool_decide_false); set_unfold; rewrite ?Hp; naive_solver.
    + apply (view_others e _ w _ n); [done| | |done]; cbn; intros x Hx; [set_solver|]. rewrite Hf.
      pose proof (Hx Active). pose proof (Hx Unrequested). set_solver.
  - apply Hsame. unfold scanned, view. cbn [fst snd on unrequested]. by rewrite (bool_decide_true (n ∈ _)), (bool_decide_false (path _ n Unrequested ∈ _)) by done.
  - unfold mv_file. rewrite bool_decide_true by done. rewrite (proj2 Hw). cbn [andb snd]. split; [by split|]. intros k. unfold upd. case_decide as Hk.
    + subst k. unfold scanned, view. cbn [fst snd on requested unrequested log files with_files with_enabled config_dir_ enabled_experiments_].
      rewrite (bool_decide_false (n ∈ enabled_experiments_ e)), (bool_decide_true (path _ n Requested ∈ files w)) by done.
      apply status_eq; cbn [on active requested unrequested]; (apply bool_decide_ext || apply bool_decide_false || apply bool_decide_true); set_unfold; rewrite ?Hp; naive_solver.
    + apply (view_others e _ w _ n); [done| | |done]; cbn; intros x Hx; [set_solver|].
      pose proof (Hx Active). pose proof (Hx Requested). set_solver.
  - apply Hsame. unfold scanned, view. cbn [fst snd on requested]. by rewrite (bool_decide_false (n ∈ _)), (bool_decide_false (path _ n Requested ∈ _)) by done.
Qed.

Lemma scan_views l : ∀ s, NoDup l → (∀ n, n ∈ l → nonul n ∧ n ∈ registered_experiments_ s.1) → working s.2 → nonul (config_dir_ s.1) →
  let s' := foldl (λ s name, UpdateState name s) s l in
  frame s s' ∧ ∀ k, view s' k = if decide (k ∈ l) then scanned (view s k) else view s k.
Proof.
  induction l as [|n l IH]; intros s Hnd Hl Hw Hd; [split; [done|]; intros k; by rewrite decide_False by set_solver|].
  apply NoDup_cons in Hnd as [Hn Hnd]. destruct (Hl n) as [Hnn Hreg]; [set_solver|].
  destruct (UpdateState_view s n Hw Hd Hnn Hreg) as [Hf Hv]. pose proof Hf as [_ Hdir _ Hr _ _ _ _ Hwk]. cbn [foldl].
  destruct (IH (UpdateState n s) Hnd) as [Hf' Hv']; [rewrite Hr; set_solver|auto|by rewrite Hdir|].
  split; [by etrans|]. intros k. rewrite Hv', Hv. unfold upd. repeat case_decide; set_solver.
Qed.
Lemma in_order_spec X : NoDup (in_order X) ∧ ∀ n, n ∈ in_order X ↔ n ∈ X.
Proof.
  unfold in_order. pose proof (merge_sort_Permutation string_le (elements X)) as Hp.
  split; [rewrite Hp; apply NoDup_elements|]. intros n. rewrite Hp. apply elem_of_elements.
Qed.

(** ** The refinement *)

(** A registering function that does not meddle with the directory, and the names it takes. *)
Definition registrar (accepts : bytes → bool) (f : experiments_register_func_t) : Prop := ∀ n w, nonul n →
  ∃ r w', f n w = Ret (r, w') ∧ (r =? 0) = negb (accepts n) ∧
    files w' = files w ∧ dirs w' = dirs w ∧ now w' = now w ∧ (working w → working w').
Record models (accepts : bytes → bool) (dir : bytes) (m : machine) (s : sys) : Prop := {
  mo_init : initialized_ s.1 = true;
  mo_work : working s.2;
  mo_config : config_dir_ s.1 = dir;
  mo_dir : nonul dir ∧ dir ∈ dirs s.2;
  mo_func : ∃ f, register_func_ s.1 = Some f ∧ registrar accepts f;
  mo_known : registered_experiments_ s.1 = known m;
  mo_names : ∀ n, n ∈ known m → nonul n;
  mo_state : ∀ n, view s n = state m n;
  mo_interval : min_time_between_refresh_usec_ s.1 = interval m;
  mo_last : last_time_refreshed_usec_ s.1 = scanned_at m;
  mo_now : now s.2 = time m;
  mo_range : 0 ≤ scanned_at m ≤ time m ∧ time m < 2 ^ 64;
}.

Lemma config_nonul accepts dir m s : models accepts dir m s → nonul (config_dir_ s.1).
Proof. intros []. rewrite mo_config0. tauto. Qed.
Lemma frame_models accepts (dir : bytes) m s s' st : models accepts dir m s → frame s s' → (∀ n, view s' n = st n) →
  models accepts dir (Machine (known m) st (scanned_at m) (time m) (interval m)) s'.
Proof. intros [] [] Hv. split; cbn; try congruence; auto. by rewrite fr_func0. Qed.

Lemma Refresh_models accepts (dir : bytes) m s : models accepts dir m s → models accepts dir (scan m) (Refresh s).
Proof.
  intros Hm. destruct (in_order_spec (registered_experiments_ s.1)) as [Hnd Hin].
  destruct (scan_views (in_order (registered_experiments_ s.1)) s Hnd) as [Hf Hv].
  { intros n ?%Hin. split; [|done]. apply (mo_names _ _ _ _ Hm). by rewrite <-(mo_known _ _ _ _ Hm). }
  { apply Hm. }
  { by eapply config_nonul. }
  unfold Refresh. set (s' := foldl _ _ _) in *. pose proof (mo_range _ _ _ _ Hm) as Hrange.
  assert (us_elapse 0 s'.2 = time m) as Hel.
  { unfold us_elapse, u64. rewrite (fr_now _ _ Hf), (mo_now _ _ _ _ Hm), Z.mod_small by lia. lia. }
  pose proof (frame_models accepts dir m s s' (state (scan m)) Hm Hf) as Hm'. cbn [state scan] in Hm'.
  destruct Hm' as [].
  { intros n. rewrite Hv, (mo_state _ _ _ _ Hm), <-(mo_known _ _ _ _ Hm). repeat case_decide; naive_solver. }
  split; cbn in *; try done. lia.
Qed.

Lemma view_taken e w n : nonul (config_dir_ e) → nonul n → 
  let e' := with_registered ({[n]} ∪ registered_experiments_ e) e in
  frame (e', w) (enable_if_active n (e', w)) ∧ ∀ k, view (enable_if_active n (e', w)) k = upd n taken_up (view (e, w)) k.
Proof.
  intros Hd Hn e'. unfold enable_if_active, file_exists. rewrite (marker_path e' n Active Hd Hn : marker e' n (lit ".active") = _).
  change (config_dir_ e') with (config_dir_ e). case_bool_decide as Ha.
  - split; [by split|]. intros k. unfold upd. case_decide as Hk; unfold view, taken_up; apply status_eq; try done; cbn.
    + subst k. rewrite (bool_decide_true (path _ _ _ ∈ _)), orb_true_r by done. apply bool_decide_true. set_solver.
    + apply bool_decide_ext. set_solver.
  - split; [done|]. intros k. unfold upd. case_decide as Hk; [|done]. subst k. unfold view, taken_up; apply status_eq; try done; cbn.
    by rewrite (bool_decide_false (path _ _ _ ∈ _)), orb_false_r by done.
Qed.

Lemma say_models accepts (dir : bytes) m s t : models accepts dir m s → models accepts dir m (say t s).
Proof. intros []. by split. Qed.
Lemma Register_models accepts (dir : bytes) ns : ∀ m s, models accepts dir m s → Forall nonul ns →
  ∃ s', Register_Locked ns s = Ret ((take_up accepts ns m).1, s') ∧ models accepts dir (take_up accepts ns m).2 s'.
Proof.
  induction ns as [|n ns IH]; intros m s Hm Hns; [by exists s|]. apply Forall_cons in Hns as [Hn Hns].
  cbn [Register_Locked take_up]. unfold IsInRegisteredList. rewrite (mo_known _ _ _ _ Hm).
  destruct (decide (n ∈ known m)) as [Hk|Hk]; [rewrite bool_decide_true by done|rewrite bool_decide_false by done].
  { apply IH; [by apply say_models|done]. }
  destruct (mo_func _ _ _ _ Hm) as (f & Hf & Hreg). rewrite Hf, (nul_text_id n Hn).
  destruct (Hreg n s.2 Hn) as (r & w' & -> & Hr & Hfiles & Hdirs & Hnow & Hwork). cbn [mbind outcome_bind]. rewrite Hr.
  destruct (accepts n); cbn [negb].
  - set (s1 := (_, log _ w')).
    destruct (view_taken s.1 (log (lit "experiments:Registered '" ++ n ++ lit "'") w') n (config_nonul _ _ _ _ Hm) Hn) as [Hfr Hv].
    rewrite (mo_known _ _ _ _ Hm) in Hfr, Hv. fold s1 in Hfr, Hv. apply IH; [|done].
    assert (∀ k, view (s.1, log (lit "experiments:Registered '" ++ n ++ lit "'") w') k = state m k) as Hs.
    { intros k. rewrite <-(mo_state _ _ _ _ Hm). unfold view. cbn [fst snd files log]. by rewrite Hfiles. }
    generalize dependent (enable_if_active n s1). intros s2 Hfr Hv. destruct Hm, Hfr. subst s1. cbn [fst snd] in *.
    split; cbn [known state scanned_at time interval]; try (cbn in *; congruence); try done.
    + apply fr_work0. by apply Hwork.
    + exists f. cbn in *. by rewrite fr_func0.
    + set_solver.
    + intros k. rewrite Hv. unfold upd. by rewrite Hs.
  - exists (s.1, w'). split; [done|]. destruct Hm. split; cbn [fst snd]; try congruence; auto.
    intros k. rewrite <-mo_state0. unfold view. cbn [fst snd]. by rewrite Hfiles.
Qed.

Lemma take_up_time accepts ns : ∀ m, time (take_up accepts ns m).2 = time m.
Proof. induction ns as [|n ns IH]; intros m; [done|]. cbn. repeat case_match; rewrite ?IH; done. Qed.
Definition event_ok (ev : event) : Prop :=
  match ev with Take_up ns => Forall nonul ns | Wait t => 0 ≤ t | _ => True end.
Fixpoint waiting (evs : list event) : Z :=
  match evs with [] => 0 | Wait u :: evs => u + waiting evs | _ :: evs => waiting evs end.
Lemma waiting_nonneg evs : Forall event_ok evs → 0 ≤ waiting evs.
Proof. induction 1 as [|ev evs H _ IH]; [done|]. destruct ev; cbn in *; lia. Qed.

(** A marker that another program sets or clears. *)
Lemma mark_files (dir n j : bytes) (k k' : mark) (b : bool) (F : gset bytes) :
  bool_decide (path dir j k' ∈ (if b then {[path dir n k]} ∪ F else F ∖ {[path dir n k]})) =
  if decide (j = n ∧ k' = k) then b else bool_decide (path dir j k' ∈ F).
Proof.
  destruct (decide (j = n ∧ k' = k)) as [[-> ->]|Hne].
  - destruct b; [apply bool_decide_true|apply bool_decide_false]; set_solver.
  - assert (path dir j k' ≠ path dir n k) as Hp by (intros Hp; apply path_inj in Hp; done).
    destruct b; apply bool_decide_ext; set_solver.
Qed.
Lemma step_models accepts (dir : bytes) ev m s : models accepts dir m s → event_ok ev → time m + waiting [ev] < 2 ^ 64 →
  ∃ s', sys_step ev s = Ret ((machine_step accepts ev m).1, s') ∧ models accepts dir (machine_step accepts ev m).2 s' ∧
        time (machine_step accepts ev m).2 = time m + waiting [ev].
Proof.
  intros Hm Hok Ht. destruct ev as [n|n|ns|n k b|t]; cbn [sys_step machine_step waiting] in *.
  - unfold IsEnabled. rewrite (mo_init _ _ _ _ Hm). cbn [negb]. rewrite (mo_interval _ _ _ _ Hm).
    pose proof (mo_range _ _ _ _ Hm) as Hr.
    assert (us_elapse (last_time_refreshed_usec_ s.1) s.2 = time m - scanned_at m) as ->.
    { unfold us_elapse, u64. rewrite (mo_last _ _ _ _ Hm), (mo_now _ _ _ _ Hm). apply Z.mod_small. lia. }
    eexists. cbn [mbind outcome_bind]. split; [|split].
    + do 2 f_equal. unfold IsInEnabledList. destruct (interval m <=? _).
      * change (bool_decide _) with (on (view (Refresh s) n)). by rewrite (mo_state _ _ _ _ (Refresh_models _ _ _ _ Hm)).
      * change (bool_decide _) with (on (view s n)). by rewrite (mo_state _ _ _ _ Hm).
    + cbn [snd]. destruct (interval m <=? _); [by apply Refresh_models|done].
    + cbn [snd]. destruct (interval m <=? _); cbn; lia.
  - exists s. unfold IsRegistered, gets, IsInRegisteredList. rewrite (mo_known _ _ _ _ Hm). split_and!; [done|done|cbn; lia].
  - destruct (Register_models accepts dir ns m s Hm Hok) as (s' & Hs & Hm'). unfold Register. rewrite (mo_init _ _ _ _ Hm). cbn [negb].
    rewrite Hs. destruct (take_up accepts ns m) as [b m'] eqn:E. exists s'. cbn in *. split_and!; [done|done|].
    pose proof (take_up_time accepts ns m) as H. rewrite E in H. cbn in H. lia.
  - eexists. split; [done|]. cbn [snd]. split; [|cbn; lia]. destruct Hm. split; cbn [fst snd known state scanned_at time interval]; try done.
    intros j. unfold upd. rewrite <-mo_state0. unfold view. cbn [fst snd with_files files]. rewrite !mark_files.
    destruct (decide (j = n)) as [->|Hj].
    + by destruct k; repeat first [rewrite decide_True by done|rewrite decide_False by (by intros [_ ?])].
    + rewrite !decide_False by (by intros [? _]). done.
  - cbn [event_ok] in Hok. eexists. split; [done|]. cbn [snd time]. split; [|lia]. destruct Hm. split; cbn [fst snd known state scanned_at time interval]; try done; cbn; lia.
Qed.

Lemma run_models accepts (dir : bytes) evs : ∀ m s, models accepts dir m s → Forall event_ok evs → time m + waiting evs < 2 ^ 64 →
  ∃ s', sys_run evs s = Ret ((machine_run accepts evs m).1, s') ∧ models accepts dir (machine_run accepts evs m).2 s'.
Proof.
  induction evs as [|ev evs IH]; intros m s Hm Hok Ht; [by exists s|]. apply Forall_cons in Hok as [Hev Hok].
  pose proof (waiting_nonneg evs Hok) as Hw.
  assert (waiting (ev :: evs) = waiting [ev] + waiting evs) as Hsum by (destruct ev; cbn [waiting]; lia). rewrite Hsum in Ht.
  destruct (step_models accepts dir ev m s Hm Hev) as (s1 & Hs1 & Hm1 & Ht1); [lia|]. cbn [sys_run machine_run]. rewrite Hs1.
  destruct (machine_step accepts ev m) as [a m1]. cbn [fst snd mbind outcome_bind] in *.
  destruct (IH m1 s1 Hm1 Hok) as (s2 & Hs2 & Hm2); [lia|]. rewrite Hs2. destruct (machine_run accepts evs m1) as [l m2].
  by exists s2.
Qed.

(** What a new object finds in the directory. *)
Definition on_disk (dir : bytes) (w : world) (n : bytes) : status :=
  let p m := bool_decide (path dir n m ∈ files w) in Status false (p Active) (p Requested) (p Unrequested).
Definition new_machine (dir : bytes) (min_time : Z) (w : world) : machine :=
  Machine ∅ (on_disk dir w) 0 (now w) (if min_time <? 0 then 0 else min_time).
Record usable (accepts : bytes → bool) (dir : bytes) (f : experiments_register_func_t) (w : world) : Prop := {
  us_dir : nonul dir ∧ dir ∈ dirs w;
  us_work : working w;
  us_func : registrar accepts f;
  us_now : 0 ≤ now w < 2 ^ 64;
}.
Lemma Initialize_models accepts dir min_time f names w : usable accepts dir f w → Forall nonul names →
  let r := take_up accepts names (new_machine dir min_time w) in
  ∃ s, Initialize dir min_time (Some f) names (new_Experiments, w) = Ret (r.1, s) ∧ models accepts dir r.2 s.
Proof.
  intros [[Hd Hdir] Hw Hf Hnow] Hns. unfold Initialize, directory_exists. rewrite (nul_text_id dir Hd).
  cbn [say snd log dirs]. rewrite bool_decide_true by done. cbn [negb].
  set (s := (configured _ _ _ _, _)). assert (models accepts dir (new_machine dir min_time w) s) as Hm.
  { split; cbn; try done; [by exists f|lia]. }
  destruct names as [|n names]; [by exists s|]. by apply Register_models.
Qed.

(** C19: The library is the machine: whatever a program asks and registers after Initialize, while other
    programs create and remove markers and time passes, it answers what the machine
    answers, and its sets and the files of the directory are the machine's, for every order in which
    a scan visits the experiments, if the directory can be changed. *)
Theorem library_refines accepts dir min_time f names w evs :
  usable accepts dir f w → Forall nonul names → Forall event_ok evs → now w + waiting evs < 2 ^ 64 →
  let r := take_up accepts names (new_machine dir min_time w) in
  let run := machine_run accepts evs r.2 in
  ∃ s s', Initialize dir min_time (Some f) names (new_Experiments, w) = Ret (r.1, s) ∧
    sys_run evs s = Ret (run.1, s') ∧
    registered_experiments_ s'.1 = known run.2 ∧ (∀ n, view s' n = state run.2 n) ∧ last_time_refreshed_usec_ s'.1 = scanned_at run.2.
Proof.
  intros Hu Hns Hok Ht r run. destruct (Initialize_models accepts dir min_time f names w Hu Hns) as (s & Hs & Hm).
  destruct (run_models accepts dir evs r.2 s Hm Hok) as (s' & Hs' & Hm'); [unfold r; by rewrite take_up_time|].
  exists s, s'. split_and!; [done|done|apply Hm'..].
Qed.

(** ** A restart *)

(** What is on is marked active, and nothing is on that is not registered. *)
Definition settled (m : machine) : Prop :=
  ∀ n, on (state m n) = bool_decide (n ∈ known m) && active (state m n).
Definition hands_off (ev : event) : Prop := match ev with Mark _ Active _ => False | _ => True end.

Lemma take_up_settled accepts ns : ∀ m, settled m → settled (take_up accepts ns m).2.
Proof.
  induction ns as [|n ns IH]; intros m Hm; [done|]. cbn [take_up]. destruct (decide (n ∈ known m)) as [Hk|Hk]; [by apply IH|].
  destruct (accepts n); [|done]. apply IH. intros k. cbn [known state]. unfold upd. destruct (decide (k = n)) as [->|Hkn].
  - rewrite bool_decide_true by set_solver. cbn [taken_up on active andb]. by rewrite (Hm n), (bool_decide_false (n ∈ known m)).
  - rewrite (Hm k). f_equal. apply bool_decide_ext. set_solver.
Qed.
Lemma scan_settled m : settled m → settled (scan m).
Proof.
  intros Hm n. cbn [known state scan]. specialize (Hm n). case_decide as Hk; [|done].
  rewrite (bool_decide_true _ Hk) in Hm |- *. cbn [andb] in *. unfold scanned. destruct (state m n) as [[] [] [] []]; cbn in *; done.
Qed.
Lemma run_settled accepts evs : ∀ m, settled m → Forall hands_off evs → settled (machine_run accepts evs m).2.
Proof.
  induction evs as [|ev evs IH]; intros m Hm Hok; [done|]. apply Forall_cons in Hok as [Hev Hok]. cbn [machine_run].
  assert (settled (machine_step accepts ev m).2) as Hm1.
  { destruct ev as [n|n|ns|n k b|t]; cbn [machine_step]; try done.
    - cbn [snd]. case_match; [by apply scan_settled|done].
    - pose proof (take_up_settled accepts ns m Hm). by destruct (take_up accepts ns m).
    - intros j. cbn [snd known state]. specialize (Hm j). unfold upd. destruct (decide (j = n)); [|done]. destruct k; [destruct Hev|done..]. }
  destruct (machine_step accepts ev m) as [a m1]. specialize (IH m1 Hm1 Hok). by destruct (machine_run accepts evs m1).
Qed.
Lemma take_up_all accepts ns : ∀ m, Forall (λ n, accepts n = true) ns →
  let r := take_up accepts ns m in
  r.1 = true ∧ (∀ n, n ∈ known r.2 ↔ n ∈ ns ∨ n ∈ known m) ∧ (∀ n, active (state r.2 n) = active (state m n)).
Proof.
  induction ns as [|n ns IH]; intros m Hns; [split_and!; set_solver|]. apply Forall_cons in Hns as [Hn Hns]. cbn [take_up]. rewrite Hn.
  destruct (decide (n ∈ known m)) as [Hk|Hk].
  - destruct (IH m Hns) as (H1 & H2 & H3). split_and!; [done|set_solver|done].
  - edestruct IH as (H1 & H2 & H3); [exact Hns|]. split_and!; [exact H1|intros k; rewrite H2; cbn; set_solver|].
    intros k. rewrite H3. cbn. unfold upd. by case_decide.
Qed.

(** C21: A restart changes no experiment: at any moment, whatever was asked, registered,
    requested and withdrawn before (so long as no other program touches the .active
    markers), a new object that registers the same names has the same ones enabled. *)
Theorem enabled_survives_restart accepts dir min_time f names w evs names' min_time' :
  usable accepts dir f w → Forall nonul names → Forall event_ok evs → Forall hands_off evs → now w + waiting evs < 2 ^ 64 →
  Forall nonul names' → Forall (λ n, accepts n = true) names' →
  ∃ b s, (Initialize dir min_time (Some f) names (new_Experiments, w) = Ret (b, s)) ∧
  ∃ l s', sys_run evs s = Ret (l, s') ∧
  (registered_experiments_ s'.1 = list_to_set names' →
   ∃ s2, Initialize dir min_time' (Some f) names' (new_Experiments, s'.2) = Ret (true, s2) ∧
         registered_experiments_ s2.1 = registered_experiments_ s'.1 ∧ enabled_experiments_ s2.1 = enabled_experiments_ s'.1).
Proof.
  intros Hu Hns Hok Hoff Ht Hns' Hacc. destruct (Initialize_models accepts dir min_time f names w Hu Hns) as (s & Hs & Hm).
  eexists _, s. split; [exact Hs|].
  assert (settled (take_up accepts names (new_machine dir min_time w)).2) as Hset by (apply take_up_settled; intros n; done).
  change (now w) with (time (new_machine dir min_time w)) in Ht. rewrite <-(take_up_time accepts names) in Ht.
  destruct (run_models accepts dir evs _ s Hm Hok Ht) as (s' & Hs' & Hm'). eexists _, s'. split; [exact Hs'|]. intros Hreg.
  pose proof (run_settled accepts evs _ Hset Hoff) as Hset'. set (m' := (machine_run _ _ _).2) in *.
  assert (usable accepts dir f s'.2) as Hu'.
  { split; [split; apply Hu || apply Hm'|apply Hm'|apply Hu|]. rewrite (mo_now _ _ _ _ Hm'). pose proof (mo_range _ _ _ _ Hm'). lia. }
  destruct (Initialize_models accepts dir min_time' f names' s'.2 Hu' Hns') as (s2 & Hs2 & Hm2).
  destruct (take_up_all accepts names' (new_machine dir min_time' s'.2) Hacc) as (Ht1 & Hk & Ha).
  pose proof (take_up_settled accepts names' (new_machine dir min_time' s'.2)) as Hset2. rewrite Ht1 in Hs2.
  set (m2 := (take_up accepts names' _).2) in *. exists s2. split; [done|].
  assert (known m2 = known m') as Hkn by (rewrite <-(mo_known _ _ _ _ Hm'), Hreg; apply set_eq; intros n; rewrite Hk; cbn; set_solver).
  split; [by rewrite (mo_known _ _ _ _ Hm2), (mo_known _ _ _ _ Hm')|]. apply set_eq. intros n.
  assert (∀ s m, models accepts dir m s → n ∈ enabled_experiments_ s.1 ↔ on (state m n) = true) as Hon.
  { intros s0 m0 H0. rewrite <-(mo_state _ _ _ _ H0). cbn. by rewrite bool_decide_eq_true. }
  rewrite (Hon _ _ Hm2), (Hon _ _ Hm'), (Hset' n), (Hset2 ltac:(by intros k) n), Hkn, Ha. cbn [new_machine state on_disk active].
  rewrite <-(mo_state _ _ _ _ Hm' n). unfold view. by rewrite (mo_config _ _ _ _ Hm').
Qed.

Lemma machine_request accepts m n k t : n ∈ known m →
  let due := interval m <=? time m + t - scanned_at m in
  let v := (if due then scanned else id) (set_mark k true (state m n)) in
  let r := machine_run accepts [Mark n k true; Wait t; Ask n] m in
  r.1 = [None; None; Some (on v)] ∧ state r.2 n = v.
Proof.
  intros Hn due v. cbn [machine_run machine_step interval time scanned_at]. fold due.
  assert (∀ st, upd n (set_mark k true) st n = set_mark k true (st n)) as Hupd by (intros st; unfold upd; by destruct (decide (n = n))).
  unfold v. destruct due; cbn [fst snd scan known state]; [destruct (decide (n ∈ known m)); [|done]|]; by rewrite Hupd.
Qed.

(** C20: A request takes effect: of a registered experiment that is off, the first question that
    comes at least the interval after the last scan is answered yes once its .requested
    marker is there, and the .active marker is then in its place; a withdrawal is
    answered no, with both markers gone; a question that comes earlier is answered as before. *)
Theorem requests_take_effect accepts dir m s n k t :
  models accepts dir m s → n ∈ known m → (k = Requested ∧ on (state m n) = false) ∨ (k = Unrequested ∧ on (state m n) = true) →
  0 ≤ t → time m + t < 2 ^ 64 →
  let due := interval m <=? time m + t - scanned_at m in
  ∃ s', sys_run [Mark n k true; Wait t; Ask n] s = Ret ([None; None; Some (if due then bool_decide (k = Requested) else on (state m n))], s') ∧
    (due = true → (path dir n k ∉ files s'.2) ∧ (path dir n Active ∈ files s'.2 ↔ k = Requested)).
Proof.
  intros Hm Hn Hk Ht Hmax due.
  destruct (run_models accepts dir [Mark n k true; Wait t; Ask n] m s Hm) as (s' & Hs' & Hm'); [by repeat constructor|cbn; lia|].
  destruct (machine_request accepts m n k t Hn) as [Ha Hst]. rewrite Ha in Hs'. exists s'. rewrite Hs'.
  pose proof (mo_state _ _ _ _ Hm' n) as Hv. rewrite Hst in Hv. unfold view in Hv. rewrite (mo_config _ _ _ _ Hm') in Hv. fold due in Hv |- *.
  destruct (state m n) as [o a r u]; destruct Hk as [[-> Hon]|[-> Hon]]; cbn [on set_mark] in Hon |- *; subst o; destruct due; (split; [done|intros [=]]).
  all: cbn in Hv; injection Hv as _ Ha' Hr' Hu'; rewrite ?bool_decide_eq_true, ?bool_decide_eq_false in *; naive_solver.
Qed.

(** ** The command *)

(** A command as text: items with blanks in quotes, a space behind each. *)
Definition quoted (item : bytes) : bytes := if existsb blank item then [34] else [].
Definition item_text (item : bytes) : bytes := quoted item ++ flat_map shown_char item ++ quoted item ++ [32].
Definition cmd_text (cmd : list bytes) : bytes := flat_map item_text cmd.

(** The beginning of [t] is in the array, as much as fits. *)
Definition holds (size : Z) (t : bytes) (x : Z * bytes) : Prop :=
  x.1 = Z.min (strlen t) size ∧ strlen x.2 = size ∧ ∃ rest, x.2 = take (Z.to_nat (size - 1)) t ++ NUL :: rest.
Definition steps (size : Z) (t : bytes) (m : bytes → Z → outcome (Z * bytes)) (u : bytes) : Prop :=
  ∀ bi buf, holds size t (bi, buf) → ∃ x, m buf bi = Ret x ∧ holds size (t ++ u) x.

Lemma holds_full size t u x : size ≤ strlen t → holds size t x → holds size (t ++ u) x.
Proof.
  intros Ht (Hbi & Hlen & rest & Hb). unfold holds, strlen in *. rewrite length_app.
  split_and!; [lia|done|]. exists rest. rewrite take_app_le by lia. done.
Qed.
Lemma nice_snprintf_run size t u bi buf : 0 < size → holds size t (bi, buf) →
  ∃ n buf', nice_snprintf buf bi (size - bi) u = Ret (n, buf') ∧ holds size (t ++ u) (bi + n, buf').
Proof.
  intros Hs Hh. pose proof Hh as (Hbi & Hlen & rest & Hb). cbn [fst snd] in *. unfold nice_snprintf.
  destruct (decide (size ≤ strlen t)) as [Hfull|Hroom].
  - assert (bi = size) as -> by lia. exists 0, buf. rewrite Z.sub_diag. unfold snprintf_at. cbn [Z.leb Z.compare mbind outcome_bind].
    split; [|rewrite Z.add_0_r; by apply holds_full]. destruct u; [done|]. cbn [length]. by destruct (Z.ltb_spec 0 (Z.of_nat (S (length u)))); [|lia].
  - assert (bi = strlen t) as -> by lia.
    destruct (snprintf_at_run buf (strlen t) (size - strlen t) u) as (rest' & Hr & Hl); unfold strlen in *; [lia..|].
    rewrite Hr. cbn [mbind outcome_bind]. do 2 eexists. split; [reflexivity|].
    assert (take (Z.to_nat (Z.of_nat (length t))) buf = t) as Ht.
    { rewrite Hb, Nat2Z.id, take_app_le by (rewrite length_take; lia). rewrite take_take. apply take_ge. lia. }
    rewrite Ht in *. unfold holds, strlen. cbn [fst snd]. split_and!.
    + rewrite length_app. destruct (Z.ltb_spec (size - Z.of_nat (length t)) (Z.of_nat (length u))); lia.
    + rewrite Hl. lia.
    + exists rest'. rewrite take_app_ge by lia. rewrite <-(assoc_L (++)). do 3 f_equal. lia.
Qed.
Lemma quote_if_run size t item : 0 < size → steps size t (λ buf bi, quote_if (existsb blank item) buf bi size) (quoted item).
Proof.
  intros Hs bi buf Hh. unfold quote_if, quoted. destruct (existsb blank item).
  - destruct (nice_snprintf_run size t [34] bi buf Hs Hh) as (n & buf' & -> & H). by eexists.
  - rewrite app_nil_r. by eexists.
Qed.
Lemma snprintf_chars_run size item : 0 < size → ∀ t, steps size t (λ buf bi, snprintf_chars item buf bi size) (flat_map shown_char item).
Proof.
  intros Hs. induction item as [|c item IH]; intros t bi buf Hh; [rewrite app_nil_r; by eexists|]. cbn [snprintf_chars flat_map].
  destruct (Z.ltb_spec bi size) as [|Hfull].
  - destruct (nice_snprintf_run size t (shown_char c) bi buf Hs Hh) as (n & buf' & -> & Hn). cbn [mbind outcome_bind].
    rewrite (assoc_L (++)). by apply IH.
  - eexists. split; [done|]. apply holds_full; [|done]. destruct Hh as [Hbi _]. cbn [fst] in Hbi. lia.
Qed.
Lemma snprintf_items_run size cmd : 0 < size → ∀ t, steps size t (λ buf bi, snprintf_items cmd buf bi size) (cmd_text cmd).
Proof.
  intros Hs. induction cmd as [|item cmd IH]; intros t bi buf Hh; [rewrite app_nil_r; by eexists|].
  cbn [snprintf_items]. unfold cmd_text. cbn [flat_map]. fold (cmd_text cmd). unfold item_text.
  destruct (quote_if_run size t item Hs bi buf Hh) as ([bi1 buf1] & -> & H1). cbn [mbind outcome_bind].
  destruct (snprintf_chars_run size item Hs _ bi1 buf1 H1) as ([bi2 buf2] & -> & H2). cbn [mbind outcome_bind].
  destruct (quote_if_run size _ item Hs bi2 buf2 H2) as ([bi3 buf3] & -> & H3). cbn [mbind outcome_bind].
  destruct (nice_snprintf_run size _ [32] bi3 buf3 Hs H3) as (n & buf4 & -> & H4). cbn [mbind outcome_bind].
  destruct (IH _ _ _ H4) as (x & -> & Hx). exists x. split; [done|]. by rewrite <-!(assoc_L (++)) in *.
Qed.
Lemma snprintf_cmd_run buf cmd : 0 < strlen buf →
  ∃ n rest, snprintf_cmd buf (strlen buf) cmd = Ret (n, take (Z.to_nat (strlen buf - 1)) (cmd_text cmd) ++ NUL :: rest) ∧
            n = Z.min (strlen (cmd_text cmd)) (strlen buf).
Proof.
  intros Hs. unfold snprintf_cmd. destruct buf as [|b buf]; [done|].
  rewrite buf_set_in_range by (unfold strlen in Hs; lia). cbn [mbind outcome_bind]. change (<[Z.to_nat 0 := NUL]> (b :: buf)) with (NUL :: buf).
  destruct (snprintf_items_run (strlen (b :: buf)) cmd Hs [] 0 (NUL :: buf)) as ([n buf'] & -> & H1 & H2 & rest & H3).
  - unfold holds. cbn [fst snd]. rewrite take_nil. split_and!; [unfold strlen; cbn [length]; lia|done|by exists buf].
  - cbn [fst snd app] in *. subst buf'. by exists n, rest.
Qed.

(** Each time that select returns, one of the pipes that are still open has an answer. *)
Fixpoint answering (rs : list round) (r : reading) : Prop :=
  match rs with
  | Sel_ready o e :: rs =>
      (out_open r || err_open r = true → (out_open r = true ∧ is_Some o) ∨ (err_open r = true ∧ is_Some e)) ∧ answering rs (read_err e (read_out o r))
  | _ => True
  end.
(** What comes through a pipe before its end, or before an error. *)
Fixpoint stream (l : list (option got)) : bytes :=
  match l with
  | [] => []
  | None :: l => stream l
  | Some Read_error :: _ => []
  | Some (Data d) :: l => match take 1024 d with [] => [] | d => d ++ stream l end
  end.
Definition on_out (r : round) : option got := match r with Sel_ready o _ => o | _ => None end.
Definition on_err (r : round) : option got := match r with Sel_ready _ e => e | _ => None end.

Definition read_ok (r : reading) : Prop :=
  total_output r = strlen (out r) + strlen (err r) ∧ total_output r ≤ kMaxRunCmdOutput + 2048.
(** Rounds that may follow: bytes below the limit, and pipes that are open. *)
Definition left_over (r : reading) : Z :=
  Z.max 0 (kMaxRunCmdOutput + 1 - total_output r) + Z.b2z (out_open r) + Z.b2z (err_open r).

Lemma read_out_run g r : strlen (out r) + strlen (err r) = total_output r → total_output r < 2 ^ 31 - 1024 →
  let r' := read_out g r in
  err_open r' = err_open r ∧ err r' = err r ∧ kills r' = kills r ∧ total_output r' = strlen (out r') + strlen (err r') ∧
  total_output r ≤ total_output r' ≤ total_output r + 1024 ∧
  (∀ l, out r ++ (if out_open r then stream (g :: l) else []) = out r' ++ (if out_open r' then stream l else [])) ∧
  Z.b2z (out_open r') - total_output r' ≤ Z.b2z (out_open r) - total_output r - Z.b2z (out_open r && bool_decide (is_Some g)) ∧
  Z.b2z (out_open r') ≤ Z.b2z (out_open r).
Proof.
  intros Ht Hmax. unfold read_out. destruct r as [oo eo ot et tot code ks]. cbn [out_open err_open out err total_output kills retcode] in *.
  destruct g as [[d|]|]; destruct oo; cbn [negb];
    try (split_and!; [done|done|done|by symmetry|cbn [total_output]; lia|cbn [total_output]; lia|done|cbn -[Z.add Z.sub]; lia|done]).
  cbn [stream]. pose proof (length_take d 1024) as Hlen. assert (strlen (take 1024 d) ≤ 1024) as Hd by (unfold strlen; lia).
  destruct (take 1024 d) as [|b d'] eqn:E; cbn [out_open err_open out err total_output kills].
  - change (strlen [] <=? 0) with true. cbn [out_open err_open out err total_output kills]. split_and!; [done|done|done|by symmetry|lia|lia|done|cbn -[Z.add Z.sub]; lia|done].
  - assert (0 < strlen (b :: d')) as Hpos by (unfold strlen; cbn [length]; lia). destruct (Z.leb_spec (strlen (b :: d')) 0); [lia|].
    cbn [out_open err_open out err total_output kills]. rewrite s32_id by (unfold strlen in *; lia).
    split_and!; try done; [unfold strlen in *; rewrite length_app; lia|lia|lia|intros l; by rewrite (assoc_L (++))|cbn; lia].
Qed.
Definition swap (r : reading) : reading :=
  Reading (err_open r) (out_open r) (err r) (out r) (total_output r) (retcode r) (kills r).
Lemma read_err_swap g r : read_err g r = swap (read_out g (swap r)).
Proof. destruct r as [oo [] o e t c ks], g as [[d|]|]; try done. unfold read_err, read_out, swap. cbn [out_open err_open negb]. by destruct (_ <=? 0). Qed.
Lemma read_err_run g r : strlen (out r) + strlen (err r) = total_output r → total_output r < 2 ^ 31 - 1024 →
  let r' := read_err g r in
  out_open r' = out_open r ∧ out r' = out r ∧ kills r' = kills r ∧ total_output r' = strlen (out r') + strlen (err r') ∧
  total_output r ≤ total_output r' ≤ total_output r + 1024 ∧
  (∀ l, err r ++ (if err_open r then stream (g :: l) else []) = err r' ++ (if err_open r' then stream l else [])) ∧
  Z.b2z (err_open r') - total_output r' ≤ Z.b2z (err_open r) - total_output r - Z.b2z (err_open r && bool_decide (is_Some g)) ∧
  Z.b2z (err_open r') ≤ Z.b2z (err_open r).
Proof.
  intros Ht Hmax r'. destruct (read_out_run g (swap r)) as (H1 & H2 & H3 & H4 & H5 & H6 & H7 & H8); [cbn; lia|done|].
  unfold r'. rewrite read_err_swap. cbn [swap out_open err_open out err total_output kills] in *. split_and!; try done; lia.
Qed.

(** The loop ends when what comes is more than the limit, and it reads all that comes before
    the ends of both pipes. *)
Lemma read_loop_run timeout pid rs : ∀ r, read_ok r → answering rs r → left_over r < Z.of_nat (length rs) → kills r = [] →
  ∃ r', read_loop timeout pid rs r = Ret r' ∧ read_ok r' ∧ Forall (λ p, p = pid) (kills r') ∧
    (retcode r' = 0 → out r' = out r ++ (if out_open r then stream (on_out <$> rs) else []) ∧
                      err r' = err r ++ (if err_open r then stream (on_err <$> rs) else [])).
Proof.
  induction rs as [|x rs IH]; intros r [Htot Hle] Hans Hleft Hk; cbn [length] in Hleft.
  { exfalso. unfold left_over in Hleft. destruct (out_open r), (err_open r); cbn -[Z.max] in Hleft; lia. }
  cbn [read_loop]. destruct (out_open r || err_open r) eqn:Hopen.
  2: { apply orb_false_iff in Hopen as [Ho He]. exists r. rewrite Ho, He. cbv iota. rewrite !app_nil_r. split_and!; [done|by split|by rewrite Hk|done]. }
  destruct (Z.ltb_spec kMaxRunCmdOutput (total_output r)) as [|Hroom].
  { eexists. split; [done|]. split_and!; [by split|cbn [kill kills]; rewrite Hk; by repeat constructor|discriminate]. }
  destruct (negb _).
  { eexists. split; [done|]. split_and!; [by split|cbn [with_code kills]; by rewrite Hk|discriminate]. }
  destruct x as [| | |o e]; try (eexists; split; [done|]; split_and!; [by split|cbn [kill with_code kills]; rewrite Hk; by repeat constructor|discriminate]).
  destruct Hans as [Hans Hans']. specialize (Hans Hopen). cbn [fmap list_fmap on_out on_err].
  destruct (read_out_run o r) as (E1 & E2 & E3 & E4 & E5 & E6 & E7 & E8); [lia|unfold kMaxRunCmdOutput in *; lia|].
  set (r1 := read_out o r) in *.
  destruct (read_err_run e r1) as (F1 & F2 & F3 & F4 & F5 & F6 & F7 & F8); [lia|unfold kMaxRunCmdOutput in *; lia|].
  set (r2 := read_err e r1) in *.
  destruct (IH r2) as (r' & Hr & Hok & Hkill & Hcode); [split; lia|done| |by rewrite F3, E3|].
  - unfold left_over in *. rewrite F1. rewrite E1 in F7, F8.
    assert (1 ≤ Z.b2z (out_open r && bool_decide (is_Some o)) + Z.b2z (err_open r && bool_decide (is_Some e))).
    { destruct Hans as [[-> Ho]|[-> He]]; [rewrite (bool_decide_true (is_Some o)) by done|rewrite (bool_decide_true (is_Some e)) by done]; cbn [andb];
        [destruct (err_open r && _)|destruct (out_open r && _)]; cbn; lia. }
    lia.
  - exists r'. split_and!; [done|done|done|]. intros H0. destruct (Hcode H0) as [-> ->].
    rewrite E1, E2 in F6. by rewrite E6, F1, F2, F6.
Qed.

Lemma shown_char_nonul c : nonul (shown_char c).
Proof.
  unfold shown_char. destruct (isprint c) eqn:E.
  - unfold isprint in E. repeat constructor. apply andb_prop in E as [H%Z.leb_le _]. unfold NUL. lia.
  - destruct (c =? 10); [by repeat constructor|]. apply nonul_app; [by repeat constructor|]. unfold pad. apply nonul_app; [by apply Forall_replicate|].
    generalize (u32 (if c <? 128 then c else c - 256)). intros v. assert (∀ fuel n acc, nonul acc → nonul (hex_digits fuel n acc)) as H; [|apply H; constructor].
    induction fuel as [|fuel IH]; intros n acc Ha; [done|]. cbn [hex_digits].
    assert (nonul ((if n mod 16 <? 10 then 48 + n mod 16 else 87 + n mod 16) :: acc)) as Hc.
    { constructor; [|done]. pose proof (Z.mod_pos_bound n 16). unfold NUL. case_match; lia. }
    destruct (n <? 16); [done|by apply IH].
Qed.
Lemma cmd_text_nonul cmd : nonul (cmd_text cmd).
Proof.
  unfold cmd_text. induction cmd as [|item cmd IH]; cbn [flat_map]; [constructor|]. cbn [flat_map]. apply nonul_app; [|done]. unfold item_text.
  assert (nonul (quoted item)) by (unfold quoted; case_match; by repeat constructor).
  assert (nonul (flat_map shown_char item)) as Hi.
  { clear. induction item as [|c item IH]; [constructor|]. cbn [flat_map]. apply nonul_app; [apply shown_char_nonul|done]. }
  repeat apply nonul_app; try done. by repeat constructor.
Qed.


(** ** What goes wrong *)

(** fork fails: both pipes are at their end at once, the status is the one that was stored
    before wait, and the name counts as registered although nothing was run. *)
Lemma fork_failure_registers `{!CPlatform} name w out_pipe err_pipe rest :
  scripts w = Script true (-1) out_pipe [Sel_ready (Some (Data [])) (Some (Data []))] err_pipe :: rest → err_pipe = None →
  ∃ w', DefaultExperimentsRegisterFunc name w = Ret (1, w').
Proof.
  intros Hs ->. unfold DefaultExperimentsRegisterFunc. rewrite Hs. unfold run_cmd. cbn [pipes_ok negb].
  destruct (snprintf_cmd_run (replicate 1024 0) [lit "register_experiment"; name]) as (n & text & Hp & _); [done|].
  change (strlen (replicate 1024 0)) with 1024 in Hp. rewrite Hp. cbn [mbind outcome_bind].
  rewrite cstr_app by apply Forall_take, cmd_text_nonul. by eexists.
Qed.
(** A timeout that is not in whole seconds is refused by select. *)
Lemma fractional_timeout_fails pid rs r : out_open r = true → total_output r ≤ kMaxRunCmdOutput →
  read_loop 1500000 pid rs r = Ret (with_code (-1) r).
Proof.
  intros Ho Ht. destruct rs; cbn [read_loop]; rewrite Ho; cbn [orb];
    (destruct (Z.ltb_spec kMaxRunCmdOutput (total_output r)); [lia|done]).
Qed.
(** A rename that fails is not noticed: the experiment is on, without its marker. *)
Lemma failed_rename_enables s n : nonul (config_dir_ s.1) → nonul n → n ∈ registered_experiments_ s.1 → n ∉ enabled_experiments_ s.1 →
  path (config_dir_ s.1) n Requested ∈ files s.2 → may_rename s.2 (path (config_dir_ s.1) n Requested) (path (config_dir_ s.1) n Active) = false →
  n ∈ enabled_experiments_ (UpdateState n s).1 ∧ files (UpdateState n s).2 = files s.2.
Proof.
  destruct s as [e w]. cbn [fst snd]. intros Hd Hn Hr Hoff Hreq Hfail. unfold UpdateState, IsInRegisteredList, IsInEnabledList, file_exists.
  rewrite bool_decide_true by done. cbn [negb]. rewrite bool_decide_false by done.
  rewrite (marker_path e n Requested Hd Hn : marker e n (lit ".requested") = _), (marker_path e n Active Hd Hn : marker e n (lit ".active") = _).
  unfold mv_file. rewrite Hfail, bool_decide_true by done. cbn. set_solver.
Qed.

(** ** A program with two experiments *)

Definition sample_dir : bytes := lit "/config/experiments".
Definition sample_world : world :=
  World {[path sample_dir (lit "a") Requested; path sample_dir (lit "b") Active]} {[sample_dir]} (λ _, true) (λ _ _, true) 1000 [] [].
Definition sample_names : list bytes := [lit "a"; lit "b"].
Definition sample_events : list event :=
  [Ask (lit "a"); Wait 60; Ask (lit "a"); Mark (lit "b") Unrequested true; Ask (lit "b"); Wait 60; Ask (lit "b"); Know (lit "c")].

Lemma sample_usable : usable (λ _, true) sample_dir DummyExperimentsRegisterFunc sample_world.
Proof.
  split; [split; [by repeat constructor|set_solver]|done| |cbn; lia].
  intros n w _. by exists 1, w.
Qed.
Example sample_answers :
  (machine_run (λ _, true) sample_events (take_up (λ _, true) sample_names (new_machine sample_dir 50 sample_world)).2).1 =
  [Some true; None; Some true; None; Some true; None; Some false; Some false].
Proof. vm_compute. reflexivity. Qed.

Lemma library_refines_witness :
  let r := take_up (λ _, true) sample_names (new_machine sample_dir 50 sample_world) in
  let run := machine_run (λ _, true) sample_events r.2 in
  ∃ s s', Initialize sample_dir 50 (Some DummyExperimentsRegisterFunc) sample_names (new_Experiments, sample_world) = Ret (r.1, s) ∧
    sys_run sample_events s = Ret (run.1, s') ∧
    registered_experiments_ s'.1 = known run.2 ∧ (∀ n, view s' n = state run.2 n) ∧ last_time_refreshed_usec_ s'.1 = scanned_at run.2.
Proof.
  apply (library_refines (λ _, true) sample_dir 50 DummyExperimentsRegisterFunc sample_names sample_world sample_events).
  - exact sample_usable.
  - by repeat constructor.
  - by repeat constructor.
  - reflexivity.
Defined.
Lemma enabled_survives_restart_witness :
  ∃ b s, (Initialize sample_dir 50 (Some DummyExperimentsRegisterFunc) sample_names (new_Experiments, sample_world) = Ret (b, s)) ∧
  ∃ l s', sys_run sample_events s = Ret (l, s') ∧
  (registered_experiments_ s'.1 = list_to_set sample_names →
   ∃ s2, Initialize sample_dir 0 (Some DummyExperimentsRegisterFunc) sample_names (new_Experiments, s'.2) = Ret (true, s2) ∧
         registered_experiments_ s2.1 = registered_experiments_ s'.1 ∧ enabled_experiments_ s2.1 = enabled_experiments_ s'.1).
Proof.
  apply (enabled_survives_restart (λ _, true) sample_dir 50 DummyExperimentsRegisterFunc sample_names sample_world sample_events sample_names 0).
  - exact sample_usable.
  - by repeat constructor.
  - by repeat constructor.
  - by repeat constructor.
  - reflexivity.
  - by repeat constructor.
  - by repeat constructor.
Defined.
Lemma requests_take_effect_witness : ∃ s : sys,
  ∃ s', sys_run [Mark (lit "a") Unrequested true; Wait 60; Ask (lit "a")] s = Ret ([None; None; Some false], s') ∧
    (true = true → (path sample_dir (lit "a") Unrequested ∉ files s'.2) ∧ (path sample_dir (lit "a") Active ∈ files s'.2 ↔ Unrequested = Requested)).
Proof.
  destruct (Initialize_models (λ _, true) sample_dir 50 DummyExperimentsRegisterFunc sample_names sample_world sample_usable) as (s & _ & Hm);
    [by repeat constructor|].
  destruct (run_models (λ _, true) sample_dir [Ask (lit "a")] _ s Hm) as (s1 & _ & Hm1); [by repeat constructor|reflexivity|].
  exists s1. apply (requests_take_effect (λ _, true) sample_dir _ s1 (lit "a") Unrequested 60 Hm1).
  - apply (bool_decide_unpack _). vm_compute. exact I.
  - right. vm_compute. split; reflexivity.
  - lia.
  - reflexivity.
Defined.

Definition quiet_script : script :=
  Script true 7 0 (replicate (Z.to_nat 4194308) (Sel_ready (Some (Data [])) (Some (Data [])))) (Some 0).
Lemma answering_both rs : ∀ r, Forall (λ x, is_Some (on_out x) ∧ is_Some (on_err x)) rs → answering rs r.
Proof.
  induction rs as [|x rs IH]; intros r Hrs; [done|]. apply Forall_cons in Hrs as [[Ho He] Hrs]. destruct x; try done. cbn in *.
  split; [|by apply IH]. destruct (out_open r); [by left|]. by right.
Qed.
