(* ===== verification/Mmap.v ===== *)
(** * The register tool: cmds/mmap.c

    A script opens files (the registers of PCI devices) into ten slots, reads and writes
    words of them, and talks to the devices on an MDIO bus behind two registers. *)

From S2P Require Import Prelude.
Open Scope Z_scope.

Definition MAXSLOTS : Z := 10.
Definition MAXARGS : Z := 10.

(** ** Outside *)

(** The files that can be mapped: opening (nothing when it fails, then the size unless fstat
    fails), mapping, in whole pages, and accesses of 1, 2, 4 or 8 bytes at an offset of a
    file, which may have effects; time that passes. *)
Class Machine (D : Type) := {
  page_size : Z;
  page_size_pos : 0 < page_size;
  dev_open : D → bytes → option (option Z);
  dev_mmap : D → bytes → Z → Z → bool;
  dev_read : bytes → Z → Z → D → Z * D;
  dev_write : bytes → Z → Z → Z → D → D;
  dev_sleep : Z → D → D;
}.
Inductive access := Rd (path : bytes) (off width v : Z) | Wr (path : bytes) (off width v : Z).

(** [map] as the program keeps it: NULL, MAP_FAILED, or the mapping. *)
Inductive mapping := NoMap | MapFailed | Mapped.
Record slot := Slot { path : bytes; fileLength : Z; map : mapping; addr : Z; length_ : Z }.
Definition closed_slot : slot := Slot [] 0 NoMap 0 0.

Section mmap.
Context {D : Type} `{!Machine D}.

(** The slots, the prefix of messages, what was printed, the device and the accesses to it. *)
Record state := State {
  slots : list slot; posPrefix : bytes; printed : bytes; complained : bytes; dev : D; accesses : list access;
}.
Definition set_slots (l : list slot) (s : state) : state := State l (posPrefix s) (printed s) (complained s) (dev s) (accesses s).
Definition set_prefix (t : bytes) (s : state) : state := State (slots s) t (printed s) (complained s) (dev s) (accesses s).
Definition set_dev (d : D) (s : state) : state := State (slots s) (posPrefix s) (printed s) (complained s) d (accesses s).
Definition record_access (a : access) (s : state) : state :=
  State (slots s) (posPrefix s) (printed s) (complained s) (dev s) (accesses s ++ [a]).
Definition printf (t : bytes) : M state unit :=
  modify (λ s, State (slots s) (posPrefix s) (printed s ++ t) (complained s) (dev s) (accesses s)).
Definition eprintf (t : bytes) : M state unit :=
  modify (λ s, State (slots s) (posPrefix s) (printed s) (complained s ++ t) (dev s) (accesses s)).
(** A message behind the prefix; perror leaves out the text of the error number. *)
Definition complain (t : bytes) : M state unit := p ← gets posPrefix; eprintf (p ++ t).
Definition perror (t : bytes) : M state unit := eprintf (t ++ lit ": ").

(** ** Numbers *)

Definition digit_val (c : Z) : Z :=
  if (48 <=? c) && (c <=? 57) then c - 48
  else if (97 <=? c) && (c <=? 122) then c - 87
  else if (65 <=? c) && (c <=? 90) then c - 55
  else 36.
Fixpoint take_digits (base : Z) (s : bytes) (acc : Z) : Z * bytes :=
  match s with
  | c :: s' => if digit_val c <? base then take_digits base s' (acc * base + digit_val c) else (acc, s)
  | [] => (acc, [])
  end.
Definition has_digit (base : Z) (s : bytes) : bool := match s with c :: _ => digit_val c <? base | [] => false end.
(** The base that a text stands in, and the text behind its mark. *)
Definition base_of (s : bytes) : Z * bytes :=
  match s with
  | 48 :: x :: s' => if ((x =? 120) || (x =? 88)) && has_digit 16 s' then (16, s') else (8, s)
  | 48 :: _ => (8, s)
  | _ => (10, s)
  end.
Definition ULLONG_MAX : Z := 2 ^ 64 - 1.
(** [strtoull(str, &end, 0)]: the value and the text at [end]; nothing when [end] is [str]. *)
Definition strtoull (str : bytes) : option (Z * bytes) :=
  let '(neg, s) := match skip_space str with 45 :: s => (true, s) | 43 :: s => (false, s) | s => (false, s) end in
  let '(base, s) := base_of s in
  if negb (has_digit base s) then None
  else
    let '(v, rest) := take_digits base s 0 in
    Some (if ULLONG_MAX <? v then ULLONG_MAX else if neg then u64 (- v) else v, rest).

Definition asUnsigned (str : bytes) : M state (option Z) :=
  match strtoull str with
  | Some (value, []) => mret (Some value)
  | _ => complain (lit "failed to parse '" ++ str ++ lit "' as unsigned (eg 0x10 or 16)" ++ [10]);; mret None
  end.

(** A slot of the array. *)
Definition get_slot (i : Z) : M state slot := fun s => match slots s !! Z.to_nat i with Some x => Ret (x, s) | None => Ub end.
Definition put_slot (i : Z) (x : slot) : M state unit := modify (λ s, set_slots (<[Z.to_nat i := x]> (slots s)) s).

Definition hex (v : Z) : bytes := hex_digits 16 v [].
Definition hexw (n : nat) (v : Z) : bytes := pad n 48 (hex v).

Definition asFileAddr (str : bytes) (slot : Z) : M state (option Z) :=
  o ← asUnsigned str;
  match o with
  | None => mret None
  | Some v =>
      sl ← get_slot slot;
      if u64 (fileLength sl) <=? v then complain (lit "address '" ++ str ++ lit "' exceeds bounds of file" ++ [10]);; mret None
      else mret (Some v)
  end.
Definition asFileLength (str : bytes) (slot fileAddr : Z) : M state (option Z) :=
  o ← asUnsigned str;
  match o with
  | None => mret None
  | Some v =>
      sl ← get_slot slot;
      if u64 (fileLength sl) <=? u64 (fileAddr + v) then complain (lit "length '" ++ str ++ lit "' exceeds bounds of file" ++ [10]);; mret None
      else mret (Some v)
  end.
Definition asAddr (str : bytes) (slot : Z) : M state (option Z) :=
  o ← asUnsigned str;
  match o with
  | None => mret None
  | Some v =>
      sl ← get_slot slot;
      if length_ sl <=? v then
        complain (lit "address '" ++ str ++ lit "' out of range 0x" ++ hex (addr sl) ++ lit "..0x" ++ hex (u64 (addr sl + length_ sl - 1)) ++ [10]);;
        mret None
      else mret (Some v)
  end.
Definition asLength (str : bytes) (slot a : Z) : M state (option Z) :=
  o ← asUnsigned str;
  match o with
  | None => mret None
  | Some v =>
      sl ← get_slot slot;
      if u64 (a + length_ sl) <=? u64 (a + v) then
        complain (lit "address '" ++ str ++ lit "' out of range 0..0x" ++ hex (u64 (length_ sl - 1)) ++ [10]);; mret None
      else mret (Some v)
  end.
Definition asWordLen (str : bytes) : M state (option Z) :=
  o ← asUnsigned str;
  match o with
  | None => mret None
  | Some v =>
      if negb (v =? 1) && negb (v =? 2) && negb (v =? 4) && negb (v =? 8) then
        complain (lit "length '" ++ str ++ lit "' must be 1, 2, 4 or 8" ++ [10]);; mret None
      else mret (Some v)
  end.
Definition is_null (m : mapping) : bool := match m with NoMap => true | _ => false end.
Definition asSlot (str : bytes) (wantOpen : bool) : M state (option Z) :=
  o ← asUnsigned str;
  match o with
  | None => mret None
  | Some v =>
      if MAXSLOTS <=? v then
        complain (lit "slot '" ++ str ++ lit "' is out of range 0-9 or is not open" ++ [10]);; mret None
      else
        sl ← get_slot v;
        if wantOpen && is_null (map sl) then complain (lit "slot '" ++ str ++ lit "' is not open" ++ [10]);; mret None
        else if negb wantOpen && negb (is_null (map sl)) then
          complain (lit "slot '" ++ str ++ lit "' is already open" ++ [10]);; mret None
        else mret (Some v)
  end.

(** ** Slots *)

Definition do_open (p : bytes) (slot fileAddr length : Z) : M state Z :=
  d ← gets dev;
  match dev_open d p with
  | None => perror p;; mret (-1)
  | Some None => perror (lit "fstat");; mret (-1)
  | Some (Some fileLength) =>
      if fileLength <? u64 (fileAddr + length) then
        complain (lit "mapped range (0x" ++ hex fileAddr ++ lit ",0x" ++ hex length ++ lit ") is outside of size of file (0x" ++
                  hex fileLength ++ lit ")" ++ [10]);;
        mret (-1)
      else
        let mm := if dev_mmap d p fileAddr length then Mapped else MapFailed in
        put_slot slot (Slot p fileLength mm fileAddr length);;
        mret 0
  end.
Definition do_close (slot : Z) : M state unit := put_slot slot closed_slot.

(** The bytes that a mapping has: whole pages. *)
Definition mapped_size (sl : slot) : Z := (length_ sl + page_size - 1) / page_size * page_size.
(** An access to [width] bytes at [a] in the mapping of a slot. *)
Definition at_mapping (slot a width : Z) : M state (bytes * Z) :=
  sl ← get_slot slot;
  match map sl with
  | Mapped => if (0 <=? a) && (a + width <=? mapped_size sl) then mret (path sl, addr sl + a) else stuck
  | _ => stuck
  end.
Definition load (slot a width : Z) : M state Z :=
  '(p, off) ← at_mapping slot a width;
  d ← gets dev;
  let '(v, d) := dev_read p off width d in
  modify (set_dev d);; modify (record_access (Rd p off width v));; mret v.
Definition store (slot a width v : Z) : M state unit :=
  '(p, off) ← at_mapping slot a width;
  let v := v mod 2 ^ (8 * width) in
  modify (λ s, record_access (Wr p off width v) (set_dev (dev_write p off width v (dev s)) s)).
Definition usleep (usec : Z) : M state unit := modify (λ s, set_dev (dev_sleep usec (dev s)) s).

(** The value, or the complaint about a length that has no type. *)
Definition do_read_helper (slot a wordlen : Z) : M state (option Z) :=
  if (wordlen =? 8) || (wordlen =? 4) || (wordlen =? 2) || (wordlen =? 1) then
    v ← load slot a wordlen; mret (Some v)
  else complain (lit "Can't find datatype for wordlen '" ++ dec wordlen ++ lit "'" ++ [10]);; mret None.
Definition do_read (slot a wordlen : Z) : M state Z :=
  o ← do_read_helper slot a wordlen;
  match o with
  | None => mret (-1)
  | Some value => printf (lit "0x" ++ hexw (Z.to_nat (2 * wordlen)) value ++ [10]);; mret 0
  end.
Definition do_write (slot a wordlen value : Z) : M state unit := store slot a wordlen value.

(** A line of the dump from the [j]th value on, and the status so far. *)
Fixpoint dump_line (n : nat) (slot a wordlen count i j err : Z) : M state Z :=
  match n with
  | O => mret err
  | S n =>
      if count <=? u64 (i + j) then mret err
      else
        o ← do_read_helper slot (u64 (a + u64 (i + j) * wordlen)) wordlen;
        printf (lit " 0x" ++ hexw (Z.to_nat (2 * wordlen)) (default 0 o));;
        dump_line n slot a wordlen count i (j + 1) (match o with None => -1 | Some _ => err end)
  end.
Fixpoint dump_lines (fuel : nat) (slot a wordlen count i err : Z) : M state Z :=
  match fuel with
  | O => lift OutOfFuel
  | S fuel =>
      if i <? count then
        let perline := Z.quot 16 wordlen in
        printf (pad 8 48 (hex (u64 (a + i * wordlen))) ++ lit ":");;
        err ← dump_line (Z.to_nat perline) slot a wordlen count i 0 err;
        printf [10];;
        dump_lines fuel slot a wordlen count (u64 (i + perline)) err
      else mret err
  end.
Definition do_hexdump (slot a wordlen count : Z) : M state Z :=
  dump_lines (S (Z.to_nat count)) slot a wordlen count 0 0.

(** [for (i = 0; i < max_tries; i++)], with the last value read. *)
Fixpoint wait_for_bits (max_tries : nat) (slot creg mask want usec_delay got : Z) : M state Z :=
  match max_tries with
  | O =>
      complain (lit "timeout waiting for bits: mask=0x" ++ pad 8 48 (hex mask) ++ lit " want=0x" ++ pad 8 48 (hex want) ++
                lit " got=0x" ++ pad 8 48 (hex got) ++ [10]);;
      mret (-1)
  | S n =>
      got ← load slot creg 4;
      if Z.land got mask =? want then mret 0
      else usleep usec_delay;; wait_for_bits n slot creg mask want usec_delay got
  end.

Definition CMD_ADDR_THEN_WRITE : Z := 5.
Definition CMD_ADDR_THEN_READ : Z := 7.
Definition CMD_BUSY : Z := Z.shiftl 1 30.
Definition wait_idle (slot creg : Z) : M state Z := wait_for_bits 100 slot creg CMD_BUSY 0 1000 0.
(** The word that issues a command. *)
Definition command (op dev port low : Z) : Z :=
  u32 (Z.lor (Z.lor (Z.lor (Z.shiftl op 26) (u64 (Z.shiftl dev 21))) (u64 (Z.shiftl port 16))) low).

Fixpoint do_mread (count : nat) (slot addr_reg cmd_reg port dev reg i : Z) : M state Z :=
  match count with
  | O => mret 0
  | S count =>
      let rreg := u32 (reg + i) in
      r ← wait_idle slot cmd_reg;
      if r <? 0 then mret (-1)
      else
        store slot addr_reg 4 rreg;;
        store slot cmd_reg 4 (command CMD_ADDR_THEN_READ dev port 0);;
        r ← wait_idle slot cmd_reg;
        if r <? 0 then mret (-1)
        else
          value ← load slot cmd_reg 4;
          printf (hex port ++ lit "." ++ hex dev ++ lit "." ++ hexw 4 rreg ++ lit ": " ++
                  hexw 4 (Z.shiftr value 16) ++ lit " " ++ hexw 4 (Z.land value 0xffff) ++ [10]);;
          do_mread count slot addr_reg cmd_reg port dev reg (i + 1)
  end.
Definition do_mwrite (slot addr_reg cmd_reg port dev reg newVal : Z) : M state Z :=
  let value := u32 newVal in
  r ← wait_idle slot cmd_reg;
  if r <? 0 then mret (-1)
  else
    store slot addr_reg 4 reg;;
    store slot cmd_reg 4 (command CMD_ADDR_THEN_WRITE dev port (Z.land value 0xffff));;
    r ← wait_idle slot cmd_reg;
    if r <? 0 then mret (-1)
    else
      value ← load slot cmd_reg 4;
      printf (hex port ++ lit "." ++ hex dev ++ lit "." ++ hexw 4 reg ++ lit ": " ++
              hexw 4 (Z.shiftr value 16) ++ lit " " ++ hexw 4 (Z.land value 0xffff) ++ [10]);;
      mret 0.

(** ** Commands

    [av] are the words of the line, the command's name first. *)

Definition bytes_eqb (a b : bytes) : bool := bool_decide (a = b).
(** [ac > 1 && strcmp(av[1], "help") == 0], else the number of words. *)
Definition with_usage (usage : bytes) (ac : option nat) (av : list bytes) (m : M state Z) : M state Z :=
  match av with
  | _ :: w :: _ => if bytes_eqb w (lit "help") then printf ([9] ++ usage ++ [10]);; mret 0
                   else if bool_decide (ac = None ∨ ac = Some (length av)) then m
                   else eprintf (lit "Usage: " ++ usage ++ [10]);; mret (-1)
  | _ => if bool_decide (ac = None ∨ ac = Some (length av)) then m
         else eprintf (lit "Usage: " ++ usage ++ [10]);; mret (-1)
  end.
(** [if (... < 0) return -1] *)
Definition need {A} (m : M state (option A)) (k : A → M state Z) : M state Z :=
  o ← m; match o with None => mret (-1) | Some a => k a end.
Definition word (av : list bytes) (i : nat) : bytes := nth i av [].

Definition cmd_open (av : list bytes) : M state Z :=
  with_usage (lit "open slot file offset length") (Some 5%nat) av
    (need (asSlot (word av 1) false) (λ slot, need (asUnsigned (word av 3)) (λ offset, need (asUnsigned (word av 4)) (λ len,
     r ← do_open (word av 2) slot offset len; if r <? 0 then mret (-1) else mret 0)))).
Definition cmd_close (av : list bytes) : M state Z :=
  with_usage (lit "close slot") (Some 2%nat) av (need (asSlot (word av 1) true) (λ slot, do_close slot;; mret 0)).
Definition cmd_read (av : list bytes) : M state Z :=
  with_usage (lit "read slot addr wordlen") (Some 4%nat) av
    (need (asSlot (word av 1) true) (λ slot, need (asAddr (word av 2) slot) (λ a, need (asWordLen (word av 3)) (λ wordlen,
     r ← do_read slot a wordlen; if r <? 0 then mret (-1) else mret 0)))).
Definition cmd_write (av : list bytes) : M state Z :=
  with_usage (lit "write slot addr wordlen value") (Some 5%nat) av
    (need (asSlot (word av 1) true) (λ slot, need (asAddr (word av 2) slot) (λ a, need (asWordLen (word av 3)) (λ wordlen,
     need (asUnsigned (word av 4)) (λ value, do_write slot a wordlen value;; mret 0))))).
Definition cmd_dump (av : list bytes) : M state Z :=
  with_usage (lit "dump slot addr wordlen count") (Some 5%nat) av
    (need (asSlot (word av 1) true) (λ slot, need (asUnsigned (word av 2)) (λ a, need (asWordLen (word av 3)) (λ wordlen,
     need (asUnsigned (word av 4)) (λ count, r ← do_hexdump slot a wordlen count; if r <? 0 then mret (-1) else mret 0))))).
Definition cmd_msleep (av : list bytes) : M state Z :=
  with_usage (lit "msleep msecs") (Some 2%nat) av (need (asUnsigned (word av 1)) (λ msecs, usleep (u32 (msecs * 1000));; mret 0)).
Definition cmd_echo (av : list bytes) : M state Z :=
  with_usage (lit "echo text ...") None av (printf (flat_map (λ w, w ++ [32]) (tail av) ++ [10]);; mret 0).
(** The words that mread and mwrite share. *)
Definition mdio_words (av : list bytes) (k : Z → Z → Z → Z → Z → Z → Z → M state Z) : M state Z :=
  need (asSlot (word av 1) true) (λ slot, need (asAddr (word av 2) slot) (λ addr_reg, need (asAddr (word av 3) slot) (λ cmd_reg,
  need (asUnsigned (word av 4)) (λ port, need (asUnsigned (word av 5)) (λ dev, need (asUnsigned (word av 6)) (λ reg,
  need (asUnsigned (word av 7)) (λ last, r ← k slot addr_reg cmd_reg port dev reg last; if r <? 0 then mret (-1) else mret 0))))))).
Definition cmd_mread (av : list bytes) : M state Z :=
  with_usage (lit "mread slot addr_reg cmd_reg port dev reg count") (Some 8%nat) av
    (mdio_words av (λ slot addr_reg cmd_reg port dev reg count, do_mread (Z.to_nat count) slot addr_reg cmd_reg port dev reg 0)).
Definition cmd_mwrite (av : list bytes) : M state Z :=
  with_usage (lit "mwrite slot addr_reg cmd_reg port dev reg value") (Some 8%nat) av (mdio_words av do_mwrite).

Definition cmds : list (bytes * (list bytes → M state Z)) :=
  [(lit "open", cmd_open); (lit "close", cmd_close); (lit "read", cmd_read); (lit "write", cmd_write); (lit "dump", cmd_dump);
   (lit "msleep", cmd_msleep); (lit "echo", cmd_echo); (lit "mread", cmd_mread); (lit "mwrite", cmd_mwrite)].

(** ** Scripts *)

Definition LINE_SIZE : Z := 1024.
Definition is_delim (c : Z) : bool := (c =? 32) || (c =? 9) || (c =? 10).
(** The words of a line, as strtok gives them one after the other; [w] is the one begun. *)
Fixpoint strtok_words (line : bytes) (w : bytes) : list bytes :=
  match line with
  | [] => if bytes_eqb w [] then [] else [w]
  | c :: line =>
      if is_delim c then if bytes_eqb w [] then strtok_words line [] else w :: strtok_words line []
      else strtok_words line (w ++ [c])
  end.
(** [fgets(line, sizeof line, fp)]: the characters stored, and the rest of the file. *)
Fixpoint fgets (n : nat) (fp : bytes) : bytes * bytes :=
  match n, fp with
  | O, _ | _, [] => ([], fp)
  | S n, c :: fp => if c =? 10 then ([c], fp) else let '(l, rest) := fgets n fp in (c :: l, rest)
  end.
(** The loop that stores the words in [av]: each store, the last NULL included, is in the
    array; the words stored. *)
Fixpoint store_words (ws : list bytes) (ac : Z) : outcome (list bytes) :=
  if ac <? MAXARGS then
    match ws with
    | [] => Ret []
    | w :: ws => rest ← store_words ws (ac + 1); Ret (w :: rest)
    end
  else Ub.
Fixpoint all_help (cs : list (bytes * (list bytes → M state Z))) : M state unit :=
  match cs with [] => mret tt | (_, f) :: cs => f [[]; lit "help"];; all_help cs end.
(** The first command with the name; the number of errors. *)
Fixpoint dispatch (cs : list (bytes * (list bytes → M state Z))) (av : list bytes) (err : Z) : M state Z :=
  match cs with
  | [] => complain (lit "unknown command '" ++ word av 0 ++ lit "', try help" ++ [10]);; mret (s32 (err + 1))
  | (name, f) :: cs =>
      if bytes_eqb (word av 0) name then
        r ← f av;
        if r <? 0 then complain (lit "command '" ++ word av 0 ++ lit "' failed" ++ [10]);; mret (s32 (err + 1))
        else mret err
      else dispatch cs av err
  end.
(** What happens to a line that was read. *)
Definition do_line (quiet : bool) (stored : bytes) (err : Z) : M state Z :=
  let line := nul_text stored in
  match last line with
  | None => mret err
  | Some c =>
      if negb (c =? 10) then complain (lit "line too long" ++ [10]);; mret (s32 (err + 1))
      else if bool_decide (head line = Some 35) then mret err
      else
        (if quiet then mret tt else printf (lit "# " ++ line));;
        av ← lift (store_words (strtok_words line []) 0);
        match av with
        | [] => mret err
        | w :: _ => if bytes_eqb w (lit "help") then all_help cmds;; mret err else dispatch cmds av err
        end
  end.
Fixpoint line_loop (fuel : nat) (fpName : bytes) (isTTY quiet : bool) (fp : bytes) (lineno err : Z) : M state Z :=
  match fuel with
  | O => lift OutOfFuel
  | S fuel =>
      (if isTTY then printf (lit "mmap>> ") else mret tt);;
      match fp with
      | [] => mret err
      | _ =>
          let '(stored, fp) := fgets (Z.to_nat (LINE_SIZE - 1)) fp in
          let lineno := s32 (lineno + 1) in
          let prefix := fpName ++ lit ":" ++ dec lineno ++ lit ": " in
          if 128 <=? strlen prefix then stuck
          else
            modify (set_prefix prefix);;
            err ← do_line quiet stored err;
            line_loop fuel fpName isTTY quiet fp lineno err
      end
  end.
(** The contents of the files that can be opened for reading; a file that is a terminal. *)
Record inputs := Inputs { readable : bytes → option bytes; stdin : bytes; is_tty : bytes → bool }.
(** A script is read to its end; what is left of stdin. *)
Definition processFile (io : inputs) (file : option bytes) (quiet : bool) : M state (Z * inputs) :=
  let from_stdin := match file with None => true | Some f => bytes_eqb f (lit "-") end in
  let fpName := if from_stdin then lit "stdin" else default [] file in
  match (if from_stdin then Some (stdin io) else readable io fpName) with
  | None => perror fpName;; mret (-1, io)
  | Some content =>
      err ← line_loop (S (length content)) fpName (is_tty io fpName) quiet content 0 0;
      mret (if err =? 0 then 0 else -1, if from_stdin then Inputs (readable io) [] (is_tty io) else io)
  end.
Fixpoint process_files (io : inputs) (files : list bytes) (quiet : bool) (err : Z) : M state Z :=
  match files with
  | [] => mret err
  | f :: files =>
      '(r, io) ← processFile io (Some f) quiet;
      process_files io files quiet (if r <? 0 then s32 (err + 1) else err)
  end.

(** The options: q or another, and the file names behind them; the status. *)
Definition usage (prog : bytes) : bytes :=
  lit "Usage: " ++ prog ++ lit " [-q)uiet] [command-file ...]" ++ [10] ++
  [9] ++ lit "where command-file or stdin contains:" ++ [10] ++
  [9; 9] ++ lit "file 0 /sys/bus/pci/devices/0000:01:00.0/resource0 0 0x10000" ++ [10] ++
  [9; 9] ++ lit "file 2 /sys/bus/pci/devices/0000:01:00.0/resource2 0 0x10000" ++ [10] ++
  [9; 9] ++ lit "file 4 /sys/bus/pci/devices/0000:01:00.0/resource4 0 0x10000" ++ [10] ++
  [9; 9] ++ lit "read 2 16 4  # read file 2, addr 16, length 4" ++ [10] ++
  [9; 9] ++ lit "write 4 18 4 0xffff  # write file 4, addr 18, length 4, value 0xffff" ++ [10] ++
  [9; 9] ++ lit "dump 4 18 4 100  # dump file 4, addr 18, length 4, 100 values" ++ [10] ++
  [9; 9] ++ lit "close 0  # close a file" ++ [10].
Fixpoint only_q (opts : list Z) : bool := match opts with [] => true | c :: opts => (c =? 113) && only_q opts end.
Definition main (prog : bytes) (opts : list Z) (files : list bytes) (io : inputs) : M state Z :=
  if negb (only_q opts) then eprintf (usage prog);; mret 1
  else
    let quiet := bool_decide (opts ≠ []) in
    err ← (match files with
           | [] => '(r, _) ← processFile io None quiet; mret (if r <? 0 then 1 else 0)
           | _ => process_files io files quiet 0
           end);
    mret (if err =? 0 then 0 else 1).
End mmap.
