(* ===== verification/MmapSpec.v ===== *)
(** * The register tool: what its commands do

    The accesses of the MDIO commands, memory behind the mappings, numbers that are read
    back, the slots, and scripts as lists of lines. *)

From stdpp Require Import gmap.
From S2P Require Import Prelude Mmap.
Open Scope Z_scope.

Section spec.
Context {D : Type} `{!Machine D}.
Implicit Types s : state (D := D).

(** ** Accesses *)

(** [width] bytes at [a] in the slot are at [off] in the file [p]. *)
Definition in_mapping s (slot a width : Z) (p : bytes) (off : Z) : Prop :=
  ∃ sl, slots s !! Z.to_nat slot = Some sl ∧ map sl = Mapped ∧ path sl = p ∧ off = addr sl + a ∧ 0 ≤ a ∧ a + width ≤ mapped_size sl.
Lemma in_mapping_slots s s' slot a width p off : slots s' = slots s → in_mapping s slot a width p off → in_mapping s' slot a width p off.
Proof. unfold in_mapping. by intros ->. Qed.

Lemma at_mapping_run s slot a width p off : in_mapping s slot a width p off → at_mapping slot a width s = Ret ((p, off), s).
Proof.
  intros (sl & Hs & Hm & <- & -> & Ha & Hw). unfold at_mapping, get_slot. rewrite M_bind_unfold, Hs. cbn [mbind outcome_bind]. rewrite Hm.
  destruct (Z.leb_spec 0 a); [|lia]. by destruct (Z.leb_spec (a + width) (mapped_size sl)); [|lia].
Qed.
Lemma load_run s slot a width p off : in_mapping s slot a width p off →
  let '(v, d) := dev_read p off width (dev s) in
  load slot a width s = Ret (v, record_access (Rd p off width v) (set_dev d s)).
Proof.
  intros Hin. destruct (dev_read p off width (dev s)) as [v d] eqn:E. unfold load. rewrite M_bind_unfold, (at_mapping_run _ _ _ _ _ _ Hin).
  cbn [mbind outcome_bind]. unfold gets. rewrite M_bind_unfold. cbn [mbind outcome_bind]. by rewrite E.
Qed.
Lemma store_run s slot a width v p off : in_mapping s slot a width p off →
  store slot a width v s =
  Ret (tt, record_access (Wr p off width (v mod 2 ^ (8 * width))) (set_dev (dev_write p off width (v mod 2 ^ (8 * width)) (dev s)) s)).
Proof. intros Hin. unfold store. by rewrite M_bind_unfold, (at_mapping_run _ _ _ _ _ _ Hin). Qed.

(** *** Transactions on the MDIO bus *)

Definition idle (v : Z) : bool := Z.land v CMD_BUSY =? 0.
(** The command register is read until it is idle, or long enough. *)
Inductive polled (p : bytes) (off : Z) : bool → list access → Prop :=
  | polled_idle v : idle v = true → polled p off true [Rd p off 4 v]
  | polled_busy v b t : idle v = false → polled p off b t → polled p off b (Rd p off 4 v :: t)
  | polled_timeout : polled p off false [].

Definition quiet_since s (s2 : state (D := D)) (t : list access) : Prop :=
  slots s2 = slots s ∧ printed s2 = printed s ∧ accesses s2 = accesses s ++ t.
Lemma wait_for_bits_run n : ∀ s slot creg p off delay got, in_mapping s slot creg 4 p off →
  ∃ (b : bool) t s', wait_for_bits n slot creg CMD_BUSY 0 delay got s = Ret (if b then 0 else -1, s') ∧ quiet_since s s' t ∧
    polled p off b t ∧ (length t ≤ n)%nat ∧ (b = false → length t = n).
Proof.
  induction n as [|n IH]; intros s slot creg p off delay got Hin; cbn [wait_for_bits].
  - exists false, []. eexists. split; [reflexivity|]. split_and!; [split_and!; cbn; rewrite ?app_nil_r; done|constructor|done|done].
  - pose proof (load_run s slot creg 4 p off Hin) as Hl. destruct (dev_read p off 4 (dev s)) as [v d].
    rewrite M_bind_unfold, Hl. cbn [mbind outcome_bind]. fold (idle v). destruct (idle v) eqn:Hv.
    + exists true, [Rd p off 4 v]. eexists. split; [reflexivity|]. split_and!; [by split_and!|by constructor|cbn; lia|done].
    + unfold usleep. rewrite M_bind_unfold. cbn [modify mbind outcome_bind]. set (s1 := set_dev _ _).
      destruct (IH s1 slot creg p off delay v) as (b & t & s' & Hr & (Q1 & Q2 & Q3) & Hp & Hlen & Hb); [by apply (in_mapping_slots s)|].
      exists b, (Rd p off 4 v :: t), s'. split; [done|]. split_and!; [|by constructor|cbn; lia|intros; cbn; auto].
      unfold quiet_since. rewrite Q1, Q2, Q3. cbn. by rewrite <-(assoc_L (++)).
Qed.

(** A transaction: the device is idle, the register's address and the command are written,
    the device is idle again, its answer is read; or it stays busy in one of the two places. *)
Inductive transaction (p : bytes) (ar cr rreg cmd : Z) : option Z → list access → Prop :=
  | tx_done t1 t2 v : polled p cr true t1 → polled p cr true t2 → (length t1 ≤ 100)%nat → (length t2 ≤ 100)%nat →
      transaction p ar cr rreg cmd (Some v) (t1 ++ [Wr p ar 4 rreg; Wr p cr 4 cmd] ++ t2 ++ [Rd p cr 4 v])
  | tx_never t1 : polled p cr false t1 → length t1 = 100%nat → transaction p ar cr rreg cmd None t1
  | tx_stuck t1 t2 : polled p cr true t1 → polled p cr false t2 → (length t1 ≤ 100)%nat → length t2 = 100%nat →
      transaction p ar cr rreg cmd None (t1 ++ [Wr p ar 4 rreg; Wr p cr 4 cmd] ++ t2).
(** One after the other, until one fails: the registers, the answers, whether all succeed. *)
Inductive transactions (p : bytes) (ar cr cmd : Z) : list Z → list Z → bool → list access → Prop :=
  | txs_nil : transactions p ar cr cmd [] [] true []
  | txs_cons r rs v vs b t ts : transaction p ar cr r cmd (Some v) t → transactions p ar cr cmd rs vs b ts →
      transactions p ar cr cmd (r :: rs) (v :: vs) b (t ++ ts)
  | txs_fail r rs t : transaction p ar cr r cmd None t → transactions p ar cr cmd (r :: rs) [] false t.

(** The line that is printed of an answer. *)
Definition answer_line (port dev reg v : Z) : bytes :=
  hex port ++ lit "." ++ hex dev ++ lit "." ++ hexw 4 reg ++ lit ": " ++ hexw 4 (Z.shiftr v 16) ++ lit " " ++ hexw 4 (Z.land v 0xffff) ++ [10].
Definition answer_lines (port dev : Z) (regs vs : list Z) : bytes := concat (zip_with (answer_line port dev) regs vs).

(** The part of both commands that writes an address and a command between two waits. *)
Definition issue (slot ar cr reg cmd : Z) (k : Z → M state Z) : M (state (D := D)) Z :=
  r ← wait_idle slot cr;
  if r <? 0 then mret (-1)
  else
    store slot ar 4 reg;; store slot cr 4 cmd;;
    r ← wait_idle slot cr;
    if r <? 0 then mret (-1) else value ← load slot cr 4; k value.
Lemma issue_run s slot ar cr reg cmd k p oa oc : in_mapping s slot ar 4 p oa → in_mapping s slot cr 4 p oc →
  0 ≤ reg < 2 ^ 32 → 0 ≤ cmd < 2 ^ 32 →
  (∃ v t s', issue slot ar cr reg cmd k s = k v s' ∧ quiet_since s s' t ∧ transaction p oa oc reg cmd (Some v) t) ∨
  (∃ t s', issue slot ar cr reg cmd k s = Ret (-1, s') ∧ quiet_since s s' t ∧ transaction p oa oc reg cmd None t).
Proof.
  intros Ha Hc Hreg Hcmd. unfold issue, wait_idle.
  destruct (wait_for_bits_run 100 s slot cr p oc 1000 0 Hc) as (b & t1 & s1 & H1 & (Q1 & Q2 & Q3) & P1 & L1 & B1).
  rewrite M_bind_unfold, H1. cbn [mbind outcome_bind]. destruct b; cbn [Z.ltb Z.compare].
  2: { right. exists t1, s1. split_and!; [done|by split_and!|by constructor; auto]. }
  rewrite M_bind_unfold, (store_run s1 _ _ _ _ p oa) by (by apply (in_mapping_slots s)). cbn [mbind outcome_bind].
  rewrite (Z.mod_small reg) by (cbn; lia). set (s2 := record_access _ _).
  rewrite M_bind_unfold, (store_run s2 _ _ _ _ p oc) by (by apply (in_mapping_slots s)). cbn [mbind outcome_bind].
  rewrite (Z.mod_small cmd) by (cbn; lia). set (s3 := record_access _ _).
  destruct (wait_for_bits_run 100 s3 slot cr p oc 1000 0) as (b & t2 & s4 & H4 & (R1 & R2 & R3) & P2 & L2 & B2); [by apply (in_mapping_slots s)|].
  rewrite M_bind_unfold, H4. cbn [mbind outcome_bind].
  assert (quiet_since s s4 (t1 ++ [Wr p oa 4 reg; Wr p oc 4 cmd] ++ t2)) as Hq.
  { unfold quiet_since. rewrite R1, R2, R3. cbn. rewrite Q1, Q2, Q3. split_and!; [done..|]. by rewrite <-!(assoc_L (++)). }
  destruct b; cbn [Z.ltb Z.compare].
  2: { right. do 2 eexists. split_and!; [done|exact Hq|apply tx_stuck; auto]. }
  left. assert (in_mapping s4 slot cr 4 p oc) as Hc4 by (apply (in_mapping_slots s); [apply Hq|done]).
  pose proof (load_run s4 slot cr 4 p oc Hc4) as Hl. destruct (dev_read p oc 4 (dev s4)) as [v d].
  exists v, (t1 ++ [Wr p oa 4 reg; Wr p oc 4 cmd] ++ t2 ++ [Rd p oc 4 v]). eexists. rewrite M_bind_unfold, Hl.
  split_and!; [done| |by apply tx_done; auto].
  destruct Hq as (H1' & H2' & H3'). unfold quiet_since. cbn. rewrite H1', H2', H3'. split_and!; [done..|]. by rewrite <-!(assoc_L (++)).
Qed.

Lemma u32_lt x : 0 ≤ u32 x < 2 ^ 32.
Proof. unfold u32. apply Z.mod_pos_bound. lia. Qed.
Lemma do_mread_issue count slot ar cr port dev reg i :
  do_mread (S count) slot ar cr port dev reg i =
  issue slot ar cr (u32 (reg + i)) (command CMD_ADDR_THEN_READ dev port 0)
    (λ v, printf (answer_line port dev (u32 (reg + i)) v);; do_mread count slot ar cr port dev reg (i + 1)).
Proof. done. Qed.
Lemma do_mwrite_issue slot ar cr port dev reg newVal :
  do_mwrite slot ar cr port dev reg newVal =
  issue slot ar cr reg (command CMD_ADDR_THEN_WRITE dev port (Z.land (u32 newVal) 0xffff))
    (λ v, printf (answer_line port dev reg v);; mret 0).
Proof. done. Qed.

(** C22: mread is a series of transactions: for each register in turn the command register is read until
    it is not busy, then the register's number and the read command are written, and the
    answer is taken when it is not busy again; after a hundred busy answers it stops.
    Nothing else is written, whatever the device does, and a line is printed for each answer. *)
Theorem mread_transactions s slot ar cr port dev reg count p oa oc :
  in_mapping s slot ar 4 p oa → in_mapping s slot cr 4 p oc →
  ∃ (ok : bool) vs t s', do_mread count slot ar cr port dev reg 0 s = Ret (if ok then 0 else -1, s') ∧
    let regs := (λ i, u32 (reg + i)) <$> seqZ 0 (Z.of_nat count) in
    transactions p oa oc (command CMD_ADDR_THEN_READ dev port 0) regs vs ok t ∧
    accesses s' = accesses s ++ t ∧ slots s' = slots s ∧ printed s' = printed s ++ answer_lines port dev regs vs.
Proof.
  intros Ha Hc. change 0 with (Z.of_nat 0) at 1 3. generalize 0%nat. revert s Ha Hc.
  induction count as [|count IH]; intros s Ha Hc k.
  { exists true, [], [], s. cbn. rewrite !app_nil_r. split_and!; [done|constructor|done..]. }
  rewrite do_mread_issue. replace (Z.of_nat (S count)) with (Z.succ (Z.of_nat count)) by lia. rewrite seqZ_cons by lia. rewrite Z.pred_succ. cbn [fmap list_fmap].
  destruct (issue_run s slot ar cr (u32 (reg + Z.of_nat k)) (command CMD_ADDR_THEN_READ dev port 0)
    (λ v, printf (answer_line port dev (u32 (reg + Z.of_nat k)) v);; do_mread count slot ar cr port dev reg (Z.of_nat k + 1)) p oa oc Ha Hc)
    as [(v & t & s1 & Hrun & (Q1 & Q2 & Q3) & Ht)|(t & s1 & Hrun & (Q1 & Q2 & Q3) & Ht)]; [apply u32_lt|apply u32_lt| |].
  - rewrite Hrun. unfold printf. rewrite M_bind_unfold. cbn [modify mbind outcome_bind]. set (s2 := State _ _ _ _ _ _).
    replace (Z.of_nat k + 1) with (Z.of_nat (S k)) by lia. replace (Z.succ (Z.of_nat k)) with (Z.of_nat (S k)) by lia.
    destruct (IH s2 ltac:(by apply (in_mapping_slots s)) ltac:(by apply (in_mapping_slots s)) (S k)) as (ok & vs & ts & s' & Hr & Hts & H1 & H2 & H3).
    exists ok, (v :: vs), (t ++ ts), s'. split_and!; [done|by constructor| | |].
    + rewrite H1. cbn. by rewrite Q3, <-(assoc_L (++)).
    + by rewrite H2.
    + rewrite H3. cbn. by rewrite Q2, <-(assoc_L (++)).
  - rewrite Hrun. exists false, [], t, s1. split_and!; [done|by constructor|done|done|]. cbn. by rewrite app_nil_r.
Qed.

(** ** The words of a command *)

Definition means (t : bytes) (n : Z) : Prop := strtoull t = Some (n, []).
Lemma asUnsigned_run t n s : means t n → asUnsigned t s = Ret (Some n, s).
Proof. unfold means, asUnsigned. by intros ->. Qed.
Lemma get_slot_run i sl s : slots s !! Z.to_nat i = Some sl → get_slot i s = Ret (sl, s).
Proof. unfold get_slot. by intros ->. Qed.
Lemma asSlot_open t i sl s : means t i → i < MAXSLOTS → slots s !! Z.to_nat i = Some sl → map sl ≠ NoMap → asSlot t true s = Ret (Some i, s).
Proof.
  intros Ht Hi Hs Hm. unfold asSlot. rewrite M_bind_unfold, (asUnsigned_run t i s Ht). cbn [mbind outcome_bind].
  destruct (Z.leb_spec MAXSLOTS i); [lia|]. rewrite M_bind_unfold, (get_slot_run i sl s Hs). cbn [mbind outcome_bind negb andb].
  by destruct (map sl).
Qed.
Lemma asAddr_run t a slot sl s : means t a → slots s !! Z.to_nat slot = Some sl → a < length_ sl → asAddr t slot s = Ret (Some a, s).
Proof.
  intros Ht Hs Ha. unfold asAddr. rewrite M_bind_unfold, (asUnsigned_run t a s Ht). cbn [mbind outcome_bind].
  rewrite M_bind_unfold, (get_slot_run slot sl s Hs). cbn [mbind outcome_bind]. by destruct (Z.leb_spec (length_ sl) a); [lia|].
Qed.
Definition is_width (w : Z) : Prop := w = 1 ∨ w = 2 ∨ w = 4 ∨ w = 8.
Lemma asWordLen_run t w s : means t w → is_width w → asWordLen t s = Ret (Some w, s).
Proof.
  intros Ht Hw. unfold asWordLen. rewrite M_bind_unfold, (asUnsigned_run t w s Ht). cbn [mbind outcome_bind].
  by destruct Hw as [-> | [-> | [-> | ->]]].
Qed.
Lemma need_run {A} (m : M state (option A)) k (a : A) s : m s = Ret (Some a, s) → need m k s = k a s.
Proof. intros Hm. unfold need. by rewrite M_bind_unfold, Hm. Qed.

(** A numeral is not taken for the word help. *)
Lemma means_not_help t n : means t n → t ≠ lit "help".
Proof. by intros H ->. Qed.
Lemma with_usage_run us ac w0 w av m s : w ≠ lit "help" → (ac = None ∨ ac = Some (length (w0 :: w :: av))) →
  with_usage us ac (w0 :: w :: av) m s = m s.
Proof.
  intros Hw Hac. cbn [with_usage]. unfold bytes_eqb. rewrite bool_decide_false by done. by rewrite bool_decide_true by done.
Qed.

(** ** Memory *)

(** Files that keep what is written to them, byte by byte. *)
Class Memory := {
  mem : D → bytes → Z → Z;
  mem_byte d p x : is_byte (mem d p x);
  read_mem p off w d : (dev_read p off w d).1 = le_combine (mem d p <$> seqZ off w);
  read_same p off w d q x : mem (dev_read p off w d).2 q x = mem d q x;
  write_mem p off w v d q x : mem (dev_write p off w v d) q x =
    if decide (q = p ∧ off ≤ x < off + w) then nth (Z.to_nat (x - off)) (le_split (Z.to_nat w) v) 0 else mem d q x;
}.
Context `{!Memory}.

Lemma lookup_nth (l : bytes) i : (i < length l)%nat → l !! i = Some (nth i l 0).
Proof. intros Hi. destruct (lookup_lt_is_Some_2 l i Hi) as [x Hx]. by rewrite (nth_lookup_Some l i 0 x Hx). Qed.
(** What is at [off] after [w] bytes of [v] were written at [at_]. *)
Definition overlaid (d : D) (p : bytes) (at_ w v : Z) (off width : Z) : bytes :=
  (λ x, if decide (at_ ≤ x < at_ + w) then nth (Z.to_nat (x - at_)) (le_split (Z.to_nat w) v) 0 else mem d p x) <$> seqZ off width.
Lemma overlaid_same d p off w v : 0 ≤ w → 0 ≤ v < 256 ^ w → le_combine (overlaid d p off w v off w) = v.
Proof.
  intros Hw Hv. rewrite <-(le_combine_split (Z.to_nat w) v) at 2 by (by rewrite Z2Nat.id). f_equal. apply list_eq. intros i. unfold overlaid.
  rewrite list_lookup_fmap. destruct (decide (Z.of_nat i < w)).
  - rewrite lookup_seqZ_lt by lia. cbn [fmap option_fmap option_map]. rewrite decide_True by lia.
    symmetry. replace (Z.to_nat (off + Z.of_nat i - off)) with i by lia. apply lookup_nth. rewrite length_le_split. lia.
  - rewrite lookup_seqZ_ge by lia. symmetry. apply lookup_ge_None_2. rewrite length_le_split. lia.
Qed.

Lemma do_read_run s slot a w p off : in_mapping s slot a w p off → is_width w →
  ∃ s', do_read slot a w s = Ret (0, s') ∧ slots s' = slots s ∧ (∀ q x, mem (dev s') q x = mem (dev s) q x) ∧
    printed s' = printed s ++ lit "0x" ++ hexw (Z.to_nat (2 * w)) (le_combine (mem (dev s) p <$> seqZ off w)) ++ [10].
Proof.
  intros Hin Hw. unfold do_read, do_read_helper.
  assert ((w =? 8) || (w =? 4) || (w =? 2) || (w =? 1) = true) as -> by (by destruct Hw as [-> | [-> | [-> | ->]]]).
  pose proof (load_run s slot a w p off Hin) as Hl. pose proof (read_mem p off w (dev s)) as Hv. pose proof (read_same p off w (dev s)) as Hsame.
  destruct (dev_read p off w (dev s)) as [v d]. cbn [fst snd] in *. subst v. eexists. rewrite !M_bind_unfold, Hl. split; [reflexivity|].
  cbn [slots dev printed record_access set_dev]. by split_and!.
Qed.

(** C23: What is written is what is read: after write has put a value of 1, 2, 4 or 8 bytes
    somewhere, read prints, there or anywhere else, in this slot or in any other that
    maps the same file, the bytes as they were with those of the value in their place,
    the lowest first; at the same place it prints the value.  Both commands succeed. *)
Theorem written_is_read s i ti ta tw tv a w v p off j tj tb tx b x off' :
  means ti i → means ta a → means tw w → means tv v → means tj j → means tb b → means tx x →
  i < MAXSLOTS → j < MAXSLOTS → is_width w → is_width x →
  in_mapping s i a w p off → in_mapping s j b x p off' →
  (∀ sl, slots s !! Z.to_nat i = Some sl → a < length_ sl) → (∀ sl, slots s !! Z.to_nat j = Some sl → b < length_ sl) →
  ∃ s1 s2, cmd_write [lit "write"; ti; ta; tw; tv] s = Ret (0, s1) ∧ cmd_read [lit "read"; tj; tb; tx] s1 = Ret (0, s2) ∧
    let shown := le_combine (overlaid (dev s) p off w (v mod 2 ^ (8 * w)) off' x) in
    printed s2 = printed s ++ lit "0x" ++ hexw (Z.to_nat (2 * x)) shown ++ [10] ∧
    (off' = off → x = w → shown = v mod 2 ^ (8 * w)).
Proof.
  intros Hti Hta Htw Htv Htj Htb Htx Hi Hj Hw Hx Hin Hin' Hla Hlb.
  pose proof Hin as (sl & Hs & Hm & _). pose proof Hin' as (sl' & Hs' & Hm' & _). specialize (Hla sl Hs). specialize (Hlb sl' Hs').
  unfold cmd_write. rewrite with_usage_run by (by eapply means_not_help || by right).
  cbn [word nth]. rewrite (need_run _ _ i s) by (eapply asSlot_open; eauto; by rewrite Hm).
  rewrite (need_run _ _ a s) by (by eapply asAddr_run). rewrite (need_run _ _ w s) by (by apply asWordLen_run).
  rewrite (need_run _ _ v s) by (by apply asUnsigned_run). unfold do_write. rewrite M_bind_unfold, (store_run s i a w v p off Hin).
  cbn [mbind outcome_bind]. set (s1 := record_access _ _). exists s1.
  unfold cmd_read. rewrite with_usage_run by (by eapply means_not_help || by right).
  cbn [word nth]. rewrite (need_run _ _ j s1) by (eapply asSlot_open; eauto; by rewrite Hm').
  rewrite (need_run _ _ b s1) by (by eapply asAddr_run). rewrite (need_run _ _ x s1) by (by apply asWordLen_run).
  destruct (do_read_run s1 j b x p off') as (s2 & Hr & _ & _ & Hp); [by apply (in_mapping_slots s)|done|].
  exists s2. split; [done|]. split; [by rewrite M_bind_unfold, Hr|]. cbv zeta. split.
  - assert (mem (dev s1) p <$> seqZ off' x = overlaid (dev s) p off w (v mod 2 ^ (8 * w)) off' x) as Heq.
    { apply list_fmap_ext. intros _ y _. cbn [s1 record_access set_dev dev]. rewrite write_mem. repeat case_decide; naive_solver. }
    rewrite Hp, Heq. done.
  - intros -> ->. apply overlaid_same; [by destruct Hw as [-> | [-> | [-> | ->]]]|].
    replace (256 ^ w) with (2 ^ (8 * w)) by (by destruct Hw as [-> | [-> | [-> | ->]]]). apply Z.mod_pos_bound.
    by destruct Hw as [-> | [-> | [-> | ->]]].
Qed.

(** ** Numbers *)

Definition hex_value (l : bytes) (acc : Z) : Z := foldl (λ v c, v * 16 + digit_val c) acc l.
Definition hex_chars (l : bytes) : Prop := Forall (λ c, digit_val c < 16) l.
Lemma take_digits_hex l : ∀ acc, hex_chars l → take_digits 16 l acc = (hex_value l acc, []).
Proof.
  induction l as [|c l IH]; intros acc Hl; [done|]. apply Forall_cons in Hl as [Hc Hl]. cbn [take_digits].
  destruct (Z.ltb_spec (digit_val c) 16); [|lia]. by apply IH.
Qed.
Lemma digit_val_hex d : 0 ≤ d < 16 → digit_val (if d <? 10 then 48 + d else 87 + d) = d.
Proof.
  intros Hd. unfold digit_val. destruct (Z.ltb_spec d 10).
  - destruct (Z.leb_spec 48 (48 + d)), (Z.leb_spec (48 + d) 57); cbn [andb]; lia.
  - destruct (Z.leb_spec 48 (87 + d)), (Z.leb_spec (87 + d) 57), (Z.leb_spec 97 (87 + d)), (Z.leb_spec (87 + d) 122); cbn [andb]; lia.
Qed.
Lemma hex_digits_value fuel : ∀ n acc, 0 ≤ n < 16 ^ Z.of_nat fuel → (0 < fuel)%nat →
  ∃ ds, hex_digits fuel n acc = ds ++ acc ∧ ds ≠ [] ∧ hex_chars ds ∧ hex_value ds 0 = n.
Proof.
  induction fuel as [|fuel IH]; intros n acc Hn Hf; [lia|]. cbn [hex_digits].
  pose proof (Z.mod_pos_bound n 16 ltac:(lia)) as Hm. set (c := if n mod 16 <? 10 then _ else _).
  assert (digit_val c = n mod 16) as Hc by (by apply digit_val_hex).
  destruct (Z.ltb_spec n 16).
  - exists [c]. split_and!; [done|done|by repeat constructor; lia|]. unfold hex_value. cbn [foldl]. rewrite Hc, Z.mod_small; lia.
  - destruct fuel as [|fuel]; [cbn in Hn; lia|].
    destruct (IH (n / 16) (c :: acc)) as (ds & H1 & H2 & H3 & H4); [|lia|].
    { rewrite Nat2Z.inj_succ, Z.pow_succ_r in Hn by lia. split; [apply Z.div_pos; lia|apply Z.div_lt_upper_bound; lia]. }
    exists (ds ++ [c]). split_and!; [rewrite H1; by rewrite <-(assoc_L (++))|by destruct ds|apply Forall_app; split; [done|by repeat constructor; lia]|].
    unfold hex_value in *. rewrite foldl_snoc, H4, Hc. rewrite (Z.div_mod n 16) at 3 by lia. lia.
Qed.

(** A number that the tool prints is a number that it reads: for every 64-bit value and every
    width of the print, the text parses to the value. *)
Theorem printed_numbers_parse n v : 0 ≤ v < 2 ^ 64 → strtoull (lit "0x" ++ hexw n v) = Some (v, []).
Proof.
  intros Hv. destruct (hex_digits_value 16 v []) as (ds & H1 & H2 & H3 & H4); [cbn in *; lia|lia|]. rewrite app_nil_r in H1.
  unfold hexw, pad, hex. rewrite H1. set (z := replicate _ _).
  assert (hex_chars (z ++ ds)) as Hall by (apply Forall_app; split; [by apply Forall_replicate|done]).
  assert (∀ k acc, acc = 0 → hex_value (replicate k 48) acc = 0) as Hz.
  { intros k. induction k as [|k IH]; intros acc ->; [done|]. cbn. by apply IH. }
  assert (hex_value (z ++ ds) 0 = v) as Hval by (unfold z, hex_value in *; rewrite foldl_app, Hz by done; exact H4).
  assert (has_digit 16 (z ++ ds) = true) as Hhas.
  { destruct (z ++ ds) as [|c l] eqn:E; [by apply app_eq_nil in E as [_ ?]|]. apply Forall_cons in Hall as [Hc _]. by apply Z.ltb_lt. }
  unfold strtoull. change (lit "0x" ++ z ++ ds) with (48 :: 120 :: z ++ ds). cbn [skip_space isspace Z.eqb Z.leb Z.compare Pos.compare Pos.compare_cont Pos.eqb andb orb].
  unfold base_of. change ((120 =? 120) || (120 =? 88)) with true. rewrite Hhas. cbn [andb negb]. rewrite Hhas. cbn [negb].
  rewrite (take_digits_hex _ _ Hall), Hval. destruct (Z.ltb_spec ULLONG_MAX v) as [Hmax|]; [unfold ULLONG_MAX in Hmax; lia|done].
Qed.

(** ** Scripts *)

(** A line without its end: characters that are neither NUL nor the end of a line, few enough for
    the array, of fewer words than [av] has places. *)
Definition plain (l : bytes) : Prop := Forall (λ c, c ≠ NUL ∧ c ≠ 10) l ∧ strlen l < 1023 ∧ (length (strtok_words (l ++ [10%Z]) []) < 10)%nat.
Definition script_text (ls : list bytes) : bytes := flat_map (λ l, l ++ [10]) ls.

(** What a line means: nothing for a comment or without words, else the command of its first
    word, which succeeds or is an error. *)
Definition line_meaning (quiet : bool) (l : bytes) (err : Z) : M (state (D := D)) Z :=
  if bool_decide (head l = Some 35) then mret err
  else
    (if quiet then mret tt else printf (lit "# " ++ l ++ [10]));;
    match strtok_words l [] with
    | [] => mret err
    | w :: ws => if bytes_eqb w (lit "help") then all_help cmds;; mret err else dispatch cmds (w :: ws) err
    end.
Fixpoint script_meaning (name : bytes) (tty quiet : bool) (ls : list bytes) (lineno err : Z) : M (state (D := D)) Z :=
  (if tty then printf (lit "mmap>> ") else mret tt);;
  match ls with
  | [] => mret err
  | l :: ls =>
      modify (set_prefix (name ++ lit ":" ++ dec (lineno + 1) ++ lit ": "));;
      err ← line_meaning quiet l err;
      script_meaning name tty quiet ls (lineno + 1) err
  end.

Lemma strtok_words_end l : ∀ w, strtok_words (l ++ [10]) w = strtok_words l w.
Proof.
  induction l as [|c l IH]; intros w; cbn [app strtok_words].
  - change (is_delim 10) with true. cbn [strtok_words]. unfold bytes_eqb. by case_bool_decide.
  - by rewrite !IH.
Qed.
Lemma store_words_run ws : ∀ ac, 0 ≤ ac → ac + Z.of_nat (length ws) < MAXARGS → store_words ws ac = Ret ws.
Proof.
  induction ws as [|w ws IH]; intros ac Ha Hl; cbn [length store_words] in *; (destruct (Z.ltb_spec ac MAXARGS); [|lia]); [done|].
  by rewrite IH by lia.
Qed.
Lemma do_line_plain quiet l err s : plain l → do_line quiet (l ++ [10]) err s = line_meaning quiet l err s.
Proof.
  intros (Hl & _ & Hw). unfold do_line. assert (nul_text (l ++ [10]) = l ++ [10]) as ->.
  { apply nul_text_id, Forall_app. split; [eapply Forall_impl; [exact Hl|]; by intros c []|by repeat constructor]. }
  rewrite last_snoc. change (negb (10 =? 10)) with false. cbv iota. rewrite strtok_words_end in *.
  unfold line_meaning. assert (bool_decide (head (l ++ [10]) = Some 35) = bool_decide (head l = Some 35)) as -> by (by destruct l).
  destruct (bool_decide _); [done|]. rewrite !M_bind_unfold.
  assert ((if quiet then mret tt else printf (lit "# " ++ l ++ [10])) s = Ret (tt, if quiet then s else
    State (slots s) (posPrefix s) (printed s ++ lit "# " ++ l ++ [10]) (complained s) (dev s) (accesses s))) as Hecho by (by destruct quiet).
  rewrite Hecho. cbn [mbind outcome_bind]. rewrite M_bind_unfold. unfold lift.
  rewrite store_words_run by (unfold MAXARGS; lia). cbn [mbind outcome_bind]. by destruct (strtok_words l []).
Qed.
Lemma fgets_line l : ∀ n rest, Forall (λ c, c ≠ NUL ∧ c ≠ 10) l → (length l < n)%nat → fgets n (l ++ 10 :: rest) = (l ++ [10], rest).
Proof.
  induction l as [|c l IH]; intros [|n] rest Hl Hn; cbn [length] in Hn; try lia; [done|]. apply Forall_cons in Hl as [[_ Hc] Hl].
  cbn [app fgets]. destruct (Z.eqb_spec c 10); [done|]. by rewrite IH by (done || lia).
Qed.


(** ** What goes wrong *)

(** A line of ten words: the NULL behind them is stored behind the array, before the number
    of words is compared with its size. *)
Lemma ten_words_overrun ws : (10 ≤ length ws)%nat → store_words ws 0 = Ub.
Proof.
  intros Hl. enough (∀ ac ws, 0 ≤ ac ≤ MAXARGS → MAXARGS - ac ≤ Z.of_nat (length ws) → store_words ws ac = Ub) as Hall by (apply Hall; unfold MAXARGS; lia).
  clear. intros ac ws. revert ac. induction ws as [|w ws IH]; intros ac Ha Hl; cbn [length store_words] in *;
    (destruct (Z.ltb_spec ac MAXARGS); [|done]); [lia|]. by rewrite IH by lia.
Qed.
(** mmap reports a failure by MAP_FAILED, which is not NULL: open succeeds, the slot is taken
    for open, and the first access is to no mapping. *)
Lemma failed_map_opens s p slot off len size : dev_open (dev s) p = Some (Some size) → u64 (off + len) ≤ size →
  dev_mmap (dev s) p off len = false → 0 ≤ slot → (Z.to_nat slot < length (slots s))%nat →
  ∃ s', do_open p slot off len s = Ret (0, s') ∧ (∀ t, means t slot → slot < MAXSLOTS → asSlot t true s' = Ret (Some slot, s')) ∧
    ∀ a w, load slot a w s' = Ub.
Proof.
  intros Ho Hsize Hm Hslot Hlen. unfold do_open, gets. rewrite M_bind_unfold. cbn [mbind outcome_bind]. rewrite Ho.
  destruct (Z.ltb_spec size (u64 (off + len))); [lia|]. rewrite Hm. unfold put_slot. rewrite M_bind_unfold. cbn [modify mbind outcome_bind].
  set (s' := set_slots _ _). assert (slots s' !! Z.to_nat slot = Some (Slot p size MapFailed off len)) as Hs by (by apply list_lookup_insert_eq).
  exists s'. split_and!; [done| |].
  - intros t Ht Hmax. by eapply asSlot_open.
  - intros a w. unfold load, at_mapping. rewrite !M_bind_unfold, (get_slot_run slot _ _ Hs). done.
Qed.
(** The address of a word may be the last byte of the mapping: the rest of the word is behind
    it when the mapping fills its pages. *)
Lemma last_byte_overruns s t slot sl : slots s !! Z.to_nat slot = Some sl → map sl = Mapped → 0 < length_ sl → mapped_size sl = length_ sl →
  means t (length_ sl - 1) → asAddr t slot s = Ret (Some (length_ sl - 1), s) ∧ ∀ w, 1 < w → load slot (length_ sl - 1) w s = Ub.
Proof.
  intros Hs Hm Hpos Hsize Ht. split; [eapply asAddr_run; eauto; lia|]. intros w Hw. unfold load, at_mapping.
  rewrite !M_bind_unfold, (get_slot_run slot _ _ Hs). cbn [mbind outcome_bind]. rewrite Hm, Hsize.
  destruct (Z.leb_spec (length_ sl - 1 + w) (length_ sl)); [lia|]. by rewrite andb_false_r.
Qed.
(** The sum of offset and length is a 64-bit number: a range that wraps passes the check. *)
Lemma wrapped_range_passes s p slot off len size : dev_open (dev s) p = Some (Some size) → 0 ≤ size →
  off + len = 2 ^ 64 → ∃ s', do_open p slot off len s = Ret (0, s').
Proof.
  intros Ho Hsize Hsum. unfold do_open, gets. rewrite M_bind_unfold. cbn [mbind outcome_bind]. rewrite Ho, Hsum. change (u64 (2 ^ 64)) with 0.
  destruct (Z.ltb_spec size 0); [lia|]. by eexists.
Qed.
(** A line that does not fit is refused, but what is left of it is taken for the next line, even
    when it began as a comment. *)
Lemma long_line_continues l rest : Forall (λ c, c ≠ 10) l → strlen l = LINE_SIZE - 1 → fgets (Z.to_nat (LINE_SIZE - 1)) (l ++ rest) = (l, rest).
Proof.
  unfold strlen. intros Hl Hn. rewrite <-Hn, Nat2Z.id. clear Hn. induction Hl as [|c l Hc _ IH]; [by destruct rest|].
  cbn [length app fgets]. destruct (Z.eqb_spec c 10); [done|]. by rewrite IH.
Qed.
(** The prefix of messages is printed into an array of 128 bytes whatever the name of the file. *)
Lemma long_name_overflows fuel name tty quiet c fp s : 128 ≤ strlen name → line_loop (S fuel) name tty quiet (c :: fp) 0 0 s = Ub.
Proof.
  intros Hn. cbn [line_loop]. rewrite M_bind_unfold.
  assert (∃ s1, (if tty then printf (lit "mmap>> ") else mret tt) s = Ret (tt, s1)) as [s1 ->] by (destruct tty; by eexists).
  cbn [mbind outcome_bind]. destruct (fgets _ _). unfold strlen in *. rewrite length_app.
  by match goal with |- context [128 <=? ?x] => destruct (Z.leb_spec 128 x); [|lia] end.
Qed.
End spec.

(** ** Files as memory *)

Record ram := Ram { ram_files : list (bytes * Z); cells : bytes → Z → Z }.
Fixpoint ram_size (l : list (bytes * Z)) (p : bytes) : option Z :=
  match l with [] => None | (q, n) :: l => if bytes_eqb p q then Some n else ram_size l p end.
#[export] Instance ram_machine : Machine ram := {|
  page_size := 4096; page_size_pos := eq_refl;
  dev_open d p := match ram_size (ram_files d) p with Some n => Some (Some n) | None => None end;
  dev_mmap d p off len := (0 <? len) && (off mod 4096 =? 0);
  dev_read p off w d := (le_combine ((λ x, u8 (cells d p x)) <$> seqZ off w), d);
  dev_write p off w v d := Ram (ram_files d) (λ q x,
    if decide (q = p ∧ off ≤ x < off + w) then nth (Z.to_nat (x - off)) (le_split (Z.to_nat w) v) 0 else cells d q x);
  dev_sleep _ d := d;
|}.
#[export] Program Instance ram_memory : Memory (D := ram) := {| mem d p x := u8 (cells d p x) |}.
Next Obligation. intros. apply u8_byte. Qed.
Next Obligation. done. Qed.
Next Obligation. done. Qed.
Next Obligation.
  intros p off w v d q x. cbn. case_decide; [|done]. apply u8_id.
  destruct (decide (Z.to_nat (x - off) < length (le_split (Z.to_nat w) v))%nat) as [Hl|Hl].
  - pose proof (le_split_bytes (Z.to_nat w) v) as Hb. rewrite Forall_forall in Hb. apply Hb. apply list_elem_of_lookup. eexists. by apply lookup_nth.
  - rewrite nth_overflow by lia. unfold is_byte. lia.
Qed.

Definition with_files (fs : list (bytes * bytes)) : state (D := ram) :=
  State (replicate 10 closed_slot) [] [] []
    (Ram ((λ f, (f.1, strlen f.2)) <$> fs) (λ p x, default 0 (l ← list_find (λ f, p = f.1) fs; l.2.2 !! Z.to_nat x))) [].
Definition run_script (text : bytes) (s : state (D := ram)) : outcome (Z * state (D := ram)) :=
  main (lit "mmap") [] [] (Inputs (λ _, None) text (λ _, false)) s.
Definition text_of (ls : list String.string) : bytes := flat_map (λ l, lit l ++ [10]) ls.
Definition file_of (s : state (D := ram)) (p : bytes) (n : nat) : bytes := cells (dev s) p <$> seqZ 0 (Z.of_nat n).

(** The tests of the repository, tests.mmap/mread.test and write.test among them. *)
Definition test_file : bytes := lit "0123456789012345678901234567890123456789".
Example mread_test :
  let s := with_files [(lit "A", test_file); (lit "B", test_file)] in
  match run_script (text_of [""; "open 0 A 0 40"; "mread 0 4 8 1 2 3 2"; "close 0"]%string) s with
  | Ret (st, s') => st = 0 ∧ complained s' = [] ∧
      printed s' = text_of ["# "; "# open 0 A 0 40"; "# mread 0 4 8 1 2 3 2"; "1.2.0003: 1c41 0000"; "1.2.0004: 1c41 0000"; "# close 0"]%string ∧
      file_of s' (lit "A") 12 = lit "0123" ++ [4; 0; 0; 0; 0; 0; 0x41; 0x1c]
  | _ => False
  end.
Proof. vm_compute. split_and!; reflexivity. Qed.
Example dump_test :
  let s := with_files [(lit "A", lit "x" ++ test_file)] in
  match run_script (text_of ["open 0 A 0 40"; "dump 0 1 1 40"; "dump 0 1 8 5"; "close 0"; "close 0"]%string) s with
  | Ret (st, s') => st = 1 ∧
      complained s' = text_of ["stdin:5: slot '0' is not open"; "stdin:5: command 'close' failed"]%string ∧
      printed s' = text_of ["# open 0 A 0 40"; "# dump 0 1 1 40";
        "00000001: 0x30 0x31 0x32 0x33 0x34 0x35 0x36 0x37 0x38 0x39 0x30 0x31 0x32 0x33 0x34 0x35";
        "00000011: 0x36 0x37 0x38 0x39 0x30 0x31 0x32 0x33 0x34 0x35 0x36 0x37 0x38 0x39 0x30 0x31";
        "00000021: 0x32 0x33 0x34 0x35 0x36 0x37 0x38 0x39"; "# dump 0 1 8 5";
        "00000001: 0x3736353433323130 0x3534333231303938"; "00000011: 0x3332313039383736 0x3130393837363534";
        "00000021: 0x3938373635343332"; "# close 0"; "# close 0"]%string
  | _ => False
  end.
Proof. vm_compute. split_and!; reflexivity. Qed.
Example write_test :
  let s := with_files [(lit "A", test_file)] in
  match run_script (text_of ["open 0 A 0 40"; "write 0 0 1 0x41"; "write 0 2 2 0x4243"; "write 0 8 4 0x44454647"; "write 0 16 8 0x48494a4b4c4d4e4f"; "write 0 0 0 1"]%string) s with
  | Ret (st, s') => st = 1 ∧ file_of s' (lit "A") 40 = lit "A1CB4567GFED2345ONMLKJIH4567890123456789" ∧
      complained s' = text_of ["stdin:6: length '0' must be 1, 2, 4 or 8"; "stdin:6: command 'write' failed"]%string
  | _ => False
  end.
Proof. vm_compute. split_and!; reflexivity. Qed.

(** A file in two slots, the second from its second page on. *)
Definition sample_ram : state (D := ram) :=
  State [Slot (lit "R") 8192 Mapped 0 8192; Slot (lit "R") 8192 Mapped 4096 4096] [] [] [] (Ram [(lit "R", 8192)] (λ _ _, 0)) [].
Lemma mread_transactions_witness :
  ∃ (ok : bool) vs t s', do_mread 3 0 4 8 1 2 7 0 sample_ram = Ret (if ok then 0 else -1, s') ∧
    let regs := (λ i, u32 (7 + i)) <$> seqZ 0 (Z.of_nat 3) in
    transactions (lit "R") 4 8 (command CMD_ADDR_THEN_READ 2 1 0) regs vs ok t ∧
    accesses s' = accesses sample_ram ++ t ∧ slots s' = slots sample_ram ∧ printed s' = printed sample_ram ++ answer_lines 1 2 regs vs.
Proof.
  apply (mread_transactions sample_ram 0 4 8 1 2 7 3 (lit "R") 4 8); eexists; (split; [reflexivity|]); split_and!; reflexivity || discriminate.
Defined.
Lemma written_is_read_witness :
  ∃ s1 s2, cmd_write [lit "write"; lit "0"; lit "0x1004"; lit "4"; lit "0xdeadbeef"] sample_ram = Ret (0, s1) ∧
    cmd_read [lit "read"; lit "1"; lit "4"; lit "4"] s1 = Ret (0, s2) ∧
    let shown := le_combine (overlaid (dev sample_ram) (lit "R") 0x1004 4 (0xdeadbeef mod 2 ^ (8 * 4)) 0x1004 4) in
    printed s2 = printed sample_ram ++ lit "0x" ++ hexw (Z.to_nat (2 * 4)) shown ++ [10] ∧
    (0x1004 = 0x1004 → 4 = 4 → shown = 0xdeadbeef mod 2 ^ (8 * 4)).
Proof.
  apply (written_is_read sample_ram 0 (lit "0") (lit "0x1004") (lit "4") (lit "0xdeadbeef") 0x1004 4 0xdeadbeef (lit "R") 0x1004
    1 (lit "1") (lit "4") (lit "4") 4 4 0x1004); try reflexivity.
  - right. right. left. reflexivity.
  - right. right. left. reflexivity.
  - eexists. split; [reflexivity|]. split_and!; reflexivity || discriminate.
  - eexists. split; [reflexivity|]. split_and!; reflexivity || discriminate.
  - intros sl [= <-]. reflexivity.
  - intros sl [= <-]. reflexivity.
Defined.
Lemma printed_numbers_parse_witness : strtoull (lit "0x" ++ hexw 8 0xdeadbeef) = Some (0xdeadbeef, []).
Proof. apply (printed_numbers_parse 8 0xdeadbeef). lia. Defined.
Definition sample_lines : list bytes := [lit "# registers"; lit "write 0 16 4 0xff"; []; lit "read 0 16 2"].
