(* ===== verification/Isostream.v ===== *)
(** * Streams at a fixed rate: cmds/isostream.c

    The server sends data at a fixed average rate; the client measures how often, how much
    and for how long it is behind that average.  Here are both, the loop of the server that
    starts a child for each client, and the options.  What the operating system answers
    (clocks, sockets, select, sleeps, fork) is the input; the contents of the stream, which
    are random numbers, are not modelled. *)

From Stdlib Require Import Floats.SpecFloat.
From S2P Require Import Prelude.
Open Scope Z_scope.

Definition MAGIC : Z := 0x424c4f50.
Definition SERVER_PORT : Z := 4947.
Definition BUFSIZE : Z := 1024 * 1024.
Definition MIN_PERIODS_PER_SEC : Z := 10.
Definition DROPOUT_MIN_USEC : Z := 100 * 1000.
Definition MAX_CHILDREN : Z := 8.
Definition MAX_MBITS : Z := 1000.

(** What the programs do that can be seen: messages, perror (without the text of the
    error), the lines of the client, sleeps, the timeouts of select, and writes. *)
Inductive act :=
  | Say (t : bytes)
  | Perror (t : bytes)
  | Dropout_line (length depth : Z)
  | Status_line (elapsed offset disconnects disconnected drops maxlength maxdepth : Z)
  | Select (timeout : option (Z * Z))
  | Sleep (sec nsec : Z)
  | Send (l : bytes)
  | Write (len : Z).

(** clock_gettime: seconds and nanoseconds, or an error. *)
Abbreviation timespec := (option (Z * Z)).

(** [None]: the program exits with 98. *)
Definition monotime (ts : timespec) : option Z :=
  match ts with
  | None => None
  | Some (tv_sec, tv_nsec) =>
      let result := s64 (tv_sec * 1000000 + Z.quot tv_nsec 1000) in
      Some (if result =? 0 then 1 else result)
  end.

Definition usage (argv0 : bytes) : bytes :=
  [10] ++
  lit "Usage: " ++ argv0 ++ lit " <options...>              (server mode)" ++ [10] ++
  lit "   or: " ++ argv0 ++ lit " <options...> <server-ip>  (client mode)" ++ [10] ++ [10] ++
  lit "Server specific:" ++ [10] ++
  lit "      -P <number>     limit to this many parallel connections" ++ [10] ++
  lit "      -C <algo>       override TCP congestion control algorithm" ++ [10] ++
  lit "Client specific:" ++ [10] ++
  lit "      -b <Mbits/sec>  Mbits per second" ++ [10] ++
  lit "      -I <interface>  set source interface to specified interface" ++ [10] ++
  lit "      -s <number>     consider test sufficient after <number> seconds connected" ++ [10] ++
  lit "      -t <number>     maximum time in seconds to run for" ++ [10].

(** An address: what inet_ntop answers, and the port; or of another family. *)
Inductive sockaddr := Inet (text : option bytes) (port : Z) | Other_family.
(** [None]: the program exits with 98. *)
Definition sockaddr_to_str (sa : sockaddr) : option bytes :=
  match sa with
  | Other_family => Some (lit "unknown")
  | Inet None _ => None
  | Inet (Some t) port => Some (take 127 ([91] ++ t ++ lit "]:" ++ dec port))
  end.

Definition set_cong_ctl (cong_ctl : bytes) (ok : bool) : bool * list act :=
  if ok then (true, [Say (lit "tcp_congestion set to '" ++ cong_ctl ++ lit "'.")])
  else (false, [Perror (take 127 (lit "tcp_congestion('" ++ cong_ctl ++ lit "')"))]).

(** The timeout that do_select gives to select. *)
Definition do_select (usec_timeout : Z) : act :=
  Select (if 0 <=? usec_timeout then Some (Z.quot usec_timeout 1000000, Z.rem usec_timeout 1000000) else None).

(** ** The request *)

Definition htonl (x : Z) : bytes := rev (le_split 4 (u32 x)).
Definition ntohl (b : bytes) : Z := le_combine (rev b).

Record Request := Req { magic : bytes; megabits : bytes }.
Definition SIZEOF_REQUEST : nat := 8.
Definition request_bytes (r : Request) : bytes := magic r ++ megabits r.
Definition request_of (b : bytes) : Request := Req (take 4 b) (take 4 (drop 4 b)).
Definition make_request (megabits_per_sec : Z) : Request := Req (htonl MAGIC) (htonl megabits_per_sec).

Definition hex_upper (v : Z) : bytes :=
  (λ c, if (97 <=? c) && (c <=? 102) then c - 32 else c) <$> pad 8 48 (hex_digits 8 (u32 v) []).

(** ** The server *)

Section server.
Context `{!CPlatform}.

Inductive reading := Read_error | Read (b : bytes).

(** The checks of run_server on what it reads: the rate, if it goes on. *)
Definition read_request (r : reading) : list act * option Z :=
  match r with
  | Read_error => ([Perror (lit "read(req)")], None)
  | Read b =>
      let req := request_of b in
      if (length b <? SIZEOF_REQUEST)%nat then
        ([Say (lit "read(req): short read (got " ++ dec (Z.of_nat (length b)) ++ lit " bytes, expected 8)")], None)
      else if negb (ntohl (magic req) =? MAGIC) then
        ([Say (lit "read(req): wrong magic (got " ++ hex_upper (ntohl (magic req)) ++ lit ", expected " ++ hex_upper MAGIC ++ lit ")")], None)
      else
        let megabits_per_sec := sword (ntohl (megabits req)) in
        let m := dec megabits_per_sec in
        let asked := Say (lit "client requested " ++ m ++ lit " megabits/sec") in
        if (megabits_per_sec <? 0) || (MAX_MBITS <? megabits_per_sec) then
          ([asked; Say (lit "megabits/sec (" ++ m ++ lit ") must be > 0 and < " ++ dec MAX_MBITS ++ lit ", aborting.")], None)
        else ([asked], Some megabits_per_sec)
  end.

Definition bytes_per_period (megabits_per_sec : Z) : Z :=
  let b := Z.quot (Z.quot (megabits_per_sec * 1000000) 8) MIN_PERIODS_PER_SEC in
  if 65536 <? b then 65536 else b.

(** The bytes that should have been sent after [usec] microseconds. *)
Definition goal (megabits_per_sec usec : Z) : Z := Z.quot (s64 (usec * megabits_per_sec)) 8.

(** A round of the loop: whether a signal came before it, the clock, and what nanosleep or
    write answers. *)
Record turn := Turn { t_die : bool; t_time : timespec; t_slept : bool; t_wrote : Z }.

(** How a round ends: with the next one, by leaving the loop, or by leaving the program. *)
Inductive ends := Continue | Break | Exit (code : Z).

(** The delay in nanoseconds; a division by 0 is undefined. *)
Definition delay_nsec (megabits_per_sec to_write : Z) : outcome Z :=
  if megabits_per_sec =? 0 then Ub
  else Ret (Z.quot ((bytes_per_period megabits_per_sec - to_write) * 8 * 1000) megabits_per_sec).

Definition server_sleeps (nsec : Z) (slept : bool) : list act * ends :=
  let tv_sec := Z.quot nsec 1000000000 in
  ((if tv_sec =? 0 then [] else [Say (lit "Warning: client sleeping longer than 1 second.")]) ++
   Sleep tv_sec (Z.rem nsec 1000000000) :: (if slept then [] else [Perror (lit "nanosleep")]),
   if slept then Continue else Break).

(** One round of the loop, with the bytes sent so far: what it does, how it ends, and the
    bytes sent after it. *)
Definition server_turn (megabits_per_sec start : Z) (i : turn) (total : Z) : outcome (list act * ends * Z) :=
  if t_die i then Ret ([], Break, total)
  else
    match monotime (t_time i) with
    | None => Ret ([Perror (lit "clock_gettime")], Exit 98, total)
    | Some now =>
        let to_write := goal megabits_per_sec (now - start) - total in
        if to_write <? bytes_per_period megabits_per_sec then
          nsec ← delay_nsec megabits_per_sec to_write;
          Ret (server_sleeps nsec (t_slept i), total)
        else
          let to_write := if BUFSIZE <? to_write then BUFSIZE else to_write in
          if t_wrote i <? 0 then Ret ([Write to_write; Perror (lit "write")], Break, total)
          else Ret ([Write to_write], Continue, total + t_wrote i)
    end.

Fixpoint server_loop (megabits_per_sec start : Z) (l : list turn) (total : Z) : outcome (list act * ends * Z) :=
  match l with
  | [] => Ret ([], Continue, total)
  | i :: l =>
      '(o, e, total) ← server_turn megabits_per_sec start i total;
      match e with
      | Continue =>
          '(o', e, total) ← server_loop megabits_per_sec start l total;
          Ret (o ++ o', e, total)
      | _ => Ret (o, e, total)
      end
  end.

(** What a connection brings: the address of the client, the request, whether shutdown
    succeeds, the clock at the start, and the rounds. *)
Record connection := Connection {
  remoteaddr : sockaddr; request : reading; shutdown_ok : bool; start_clock : timespec; turns : list turn }.

(** [Break]: run_server returns.  [Continue]: the rounds that are given are over. *)
Definition run_server (i : connection) : outcome (list act * ends) :=
  match sockaddr_to_str (remoteaddr i) with
  | None => Ret ([Perror (lit "inet_ntop")], Exit 98)
  | Some a =>
      let hello := Say (lit "incoming connection from " ++ a) in
      let '(o, rate) := read_request (request i) in
      match rate with
      | None => Ret (hello :: o, Break)
      | Some megabits_per_sec =>
          if negb (shutdown_ok i) then Ret (hello :: o ++ [Perror (lit "shutdown(RD)")], Break)
          else
            match monotime (start_clock i) with
            | None => Ret (hello :: o ++ [Perror (lit "clock_gettime")], Exit 98)
            | Some start =>
                '(o', e, _) ← server_loop megabits_per_sec start (turns i) 0;
                Ret (hello :: o ++ o', e)
            end
      end
  end.
End server.

(** ** The client *)

Section client.

(** The variables that follow the dropouts, with their counters in [stats]. *)
Record dropping := Dropping {
  last_usec_offset : Z; drop_start_time : Z; drop_depth : Z;
  drop_count : Z; drop_maxdepth : Z; drop_maxlength : Z }.

(** The other variables of run_client: [sock] says whether the socket is open; [log] is
    what was done, from the first. *)
Record client := Client {
  want_to_die : bool; sock : bool; alive : bool;
  prestart_time : Z; start_time : Z; stop_time : Z; last_print_time : Z; now : Z;
  total : Z; usec_offset : Z; disconnect_count : Z; disconnect_usecs : Z;
  drops : dropping; log : list act }.

Definition client0 : client := Client false false false 0 0 0 0 0 0 0 0 0 (Dropping 0 0 0 0 0 0) [].

Definition set_want_to_die (c : client) : client :=
  Client true (sock c) (alive c) (prestart_time c) (start_time c) (stop_time c) (last_print_time c) (now c)
    (total c) (usec_offset c) (disconnect_count c) (disconnect_usecs c) (drops c) (log c).
Definition set_sock v (c : client) : client :=
  Client (want_to_die c) v (alive c) (prestart_time c) (start_time c) (stop_time c) (last_print_time c) (now c)
    (total c) (usec_offset c) (disconnect_count c) (disconnect_usecs c) (drops c) (log c).
Definition set_alive v (c : client) : client :=
  Client (want_to_die c) (sock c) v (prestart_time c) (start_time c) (stop_time c) (last_print_time c) (now c)
    (total c) (usec_offset c) (disconnect_count c) (disconnect_usecs c) (drops c) (log c).
Definition set_prestart_time v (c : client) : client :=
  Client (want_to_die c) (sock c) (alive c) v (start_time c) (stop_time c) (last_print_time c) (now c)
    (total c) (usec_offset c) (disconnect_count c) (disconnect_usecs c) (drops c) (log c).
Definition set_start_time v (c : client) : client :=
  Client (want_to_die c) (sock c) (alive c) (prestart_time c) v (stop_time c) (last_print_time c) (now c)
    (total c) (usec_offset c) (disconnect_count c) (disconnect_usecs c) (drops c) (log c).
Definition set_last_print_time v (c : client) : client :=
  Client (want_to_die c) (sock c) (alive c) (prestart_time c) (start_time c) (stop_time c) v (now c)
    (total c) (usec_offset c) (disconnect_count c) (disconnect_usecs c) (drops c) (log c).
Definition set_now v (c : client) : client :=
  Client (want_to_die c) (sock c) (alive c) (prestart_time c) (start_time c) (stop_time c) (last_print_time c) v
    (total c) (usec_offset c) (disconnect_count c) (disconnect_usecs c) (drops c) (log c).
Definition set_total v (c : client) : client :=
  Client (want_to_die c) (sock c) (alive c) (prestart_time c) (start_time c) (stop_time c) (last_print_time c) (now c)
    v (usec_offset c) (disconnect_count c) (disconnect_usecs c) (drops c) (log c).
Definition set_offset v d (c : client) : client :=
  Client (want_to_die c) (sock c) (alive c) (prestart_time c) (start_time c) (stop_time c) (last_print_time c) (now c)
    (total c) v (disconnect_count c) (disconnect_usecs c) d (log c).
(** The counters of [stats] for connections that end, with [stop_time]. *)
Definition set_disconnects stop n usecs (c : client) : client :=
  Client (want_to_die c) (sock c) (alive c) (prestart_time c) (start_time c) stop (last_print_time c) (now c)
    (total c) (usec_offset c) n usecs (drops c) (log c).
Definition add_log o (c : client) : client :=
  Client (want_to_die c) (sock c) (alive c) (prestart_time c) (start_time c) (stop_time c) (last_print_time c) (now c)
    (total c) (usec_offset c) (disconnect_count c) (disconnect_usecs c) (drops c) (log c ++ o).

(** A statement goes on, jumps to the label reopen, or ends the program with a status. *)
Inductive flow (A : Type) := Go (a : A) | Reopen | Leave (status : Z).
#[global] Arguments Go {A} a.
#[global] Arguments Reopen {A}.
#[global] Arguments Leave {A} status.

Definition C (A : Type) : Type := client → outcome (flow A * client).
#[global] Instance C_ret : MRet C := λ A a c, Ret (Go a, c).
#[global] Instance C_bind : MBind C := λ A B f m c,
  match m c with
  | Ret (Go a, c) => f a c
  | Ret (Reopen, c) => Ret (Reopen, c)
  | Ret (Leave n, c) => Ret (Leave n, c)
  | Ub => Ub
  | OutOfFuel => OutOfFuel
  end.
Definition get : C client := λ c, Ret (Go c, c).
Definition upd (f : client → client) : C unit := λ c, Ret (Go tt, f c).
Definition goto_reopen {A} : C A := λ c, Ret (Reopen, c).
Definition leave {A} (status : Z) : C A := λ c, Ret (Leave status, c).
Definition undefined {A} : C A := λ _, Ub.
Definition put (o : list act) : C unit := upd (add_log o).
(** [perror(t); goto reopen;] *)
Definition perror_reopen {A} (t : bytes) : C A := put [Perror t];; goto_reopen.

(** [now = monotime();] *)
Definition read_clock (ts : timespec) : C Z :=
  match monotime ts with
  | None => put [Perror (lit "clock_gettime")];; leave 98
  | Some t => upd (set_now t);; mret t
  end.

(** What follows the dropouts, at the time [t] and with the offset of this round: the new
    variables and the line that is printed. *)
Definition follow_dropouts (t offset : Z) (d : dropping) : dropping * list act :=
  let '(d, o) :=
    if (offset <? 0) && (0 <=? last_usec_offset d) then
      (Dropping (last_usec_offset d) t 0 (drop_count d) (drop_maxdepth d) (drop_maxlength d), [])
    else if (0 <=? offset) && (last_usec_offset d <? 0) then
      let drop_length := t - drop_start_time d in
      let longer := drop_maxlength d <? drop_length in
      let deeper := drop_depth d <? drop_maxdepth d in
      let interesting := (DROPOUT_MIN_USEC <=? drop_length) || longer || deeper in
      (Dropping (last_usec_offset d) 0 (drop_depth d)
         (if interesting then drop_count d + 1 else drop_count d)
         (if deeper then drop_depth d else drop_maxdepth d)
         (if longer then drop_length else drop_maxlength d),
       if interesting then [Dropout_line drop_length (drop_depth d)] else [])
    else (d, []) in
  (Dropping offset (drop_start_time d) (if offset <? drop_depth d then offset else drop_depth d)
     (drop_count d) (drop_maxdepth d) (drop_maxlength d), o).

(** How far the received bytes are ahead of the rate, in microseconds; a division by 0 is
    undefined. *)
Definition usec_ahead (megabits_per_sec bytes usec : Z) : outcome Z :=
  if megabits_per_sec =? 0 then Ub
  else
    let expected_bytes := goal megabits_per_sec usec in
    Ret (Z.quot (s64 ((bytes - expected_bytes) * 8)) megabits_per_sec).

(** Doubles: [(now - start_time) / 1e6 > sufficient], where 0 is no limit. *)
Definition double (z : Z) : spec_float := binary_normalize 53 1024 z 0 false.
Definition elapsed (usec : Z) : spec_float := SFdiv 53 1024 (double usec) (double 1000000).
Definition enough (sufficient : spec_float) (usec : Z) : bool :=
  negb (SFeqb sufficient (double 0)) && SFltb sufficient (elapsed usec).

(** The line that is printed every second; times in microseconds. *)
Definition print_status (t : Z) : C unit :=
  c ← get;
  if 1000000 <=? t - last_print_time c then
    put [Status_line (t - start_time c) (usec_offset c + disconnect_usecs c) (disconnect_count c)
      (disconnect_usecs c + (if stop_time c =? 0 then 0 else t - stop_time c))
      (drop_count (drops c)) (drop_maxlength (drops c)) (drop_maxdepth (drops c))];;
    upd (set_last_print_time t)
  else mret tt.

(** The first part of a round, when data has come already. *)
Definition measure (megabits_per_sec : Z) (sufficient : spec_float) (t : Z) : C unit :=
  c ← get;
  (if enough sufficient (t - start_time c) then upd set_want_to_die else mret tt);;
  match usec_ahead megabits_per_sec (total c) (t - start_time c) with
  | Ret offset =>
      let '(d, o) := follow_dropouts t offset (drops c) in
      put o;;
      upd (set_offset offset d);;
      print_status t
  | _ => undefined
  end.

(** What happens in a round: a signal before it, the clock, the calls that open the
    socket with the clock between them, the clock before and after select, its answer, what
    read answers, and whether the sleep before a new connection is whole. *)
Record round := Round {
  r_die : bool; time1 : timespec;
  socket_ok : bool; bind_ok : bool; connect_ok : bool; time_connected : timespec;
  request_written : Z; shut_ok : bool;
  time2 : timespec; nfds : Z; eintr : bool; time3 : timespec; got : Z; nap : bool }.

Definition open_socket (addr : sockaddr) (ifr_name : option bytes) (megabits_per_sec : Z) (i : round) : C unit :=
  if negb (socket_ok i) then put [Perror (lit "socket")];; leave 1
  else
    upd (set_sock true);;
    match ifr_name with
    | Some n => put [Say (lit "binding to interface " ++ n)]
    | None => mret tt
    end;;
    if bool_decide (is_Some ifr_name) && negb (bind_ok i) then
      put [Perror (lit "setsockopt(SO_BINDTODEVICE)")];; leave 1
    else
      match sockaddr_to_str addr with
      | None => put [Perror (lit "inet_ntop")];; leave 98
      | Some a =>
          put [Say (lit "connecting to " ++ a ++ lit "...")];;
          if negb (connect_ok i) then perror_reopen (lit "connect")
          else
            _ ← read_clock (time_connected i);
            upd (set_last_print_time 0);;
            put [Send (request_bytes (make_request megabits_per_sec))];;
            if negb (request_written i =? Z.of_nat SIZEOF_REQUEST) then perror_reopen (lit "write")
            else if negb (shut_ok i) then perror_reopen (lit "shutdown(WR)")
            else upd (set_alive true)
      end.

Definition select_delay (start t : Z) : Z := if start =? 0 then 1000000 else 1000000 - Z.rem (t - start) 1000000.

(** select says that there is something to read. *)
Definition receive (t len : Z) : C unit :=
  c ← get;
  (if start_time c =? 0 then upd (λ c, set_last_print_time t (set_start_time t c)) else mret tt);;
  (if stop_time c =? 0 then mret tt
   else upd (set_disconnects 0 (disconnect_count c) (disconnect_usecs c + (t - stop_time c))));;
  if len <? 0 then perror_reopen (lit "read")
  else if len =? 0 then put [Say (lit "received EOF")];; goto_reopen
  else upd (set_total (s64 (total c + len))).

(** It does not: a connection that brings nothing for ten seconds at the start is given up. *)
Definition nothing_received (t : Z) : C unit :=
  c ← get;
  if (start_time c =? 0) && (10 * 1000000 <? t - prestart_time c) then upd (set_alive false);; goto_reopen
  else mret tt.

(** The last part of a round. *)
Definition await (i : round) : C unit :=
  t ← read_clock (time2 i);
  c ← get;
  let delay := select_delay (start_time c) t in
  put [do_select (if 0 <? delay then delay else 0)];;
  if (nfds i <? 0) && negb (eintr i) then perror_reopen (lit "select")
  else
    t ← read_clock (time3 i);
    c ← get;
    (if prestart_time c =? 0 then upd (set_prestart_time t) else mret tt);;
    if 0 <? nfds i then receive t (got i) else nothing_received t.

(** The body of the loop up to the label. *)
Definition client_body (addr : sockaddr) (ifr_name : option bytes) (megabits_per_sec : Z) (sufficient : spec_float)
    (i : round) : C unit :=
  t ← read_clock (time1 i);
  c ← get;
  (if start_time c =? 0 then mret tt else measure megabits_per_sec sufficient t);;
  (if sock c then mret tt else open_socket addr ifr_name megabits_per_sec i);;
  await i.

(** What is behind the label reopen. *)
Definition reopen (nap : bool) : C unit :=
  c ← get;
  (if alive c then upd (λ c, set_alive false (set_disconnects (now c) (disconnect_count c + 1) (disconnect_usecs c) c))
   else mret tt);;
  put [Say (lit "retrying connection..."); Sleep 1 0];;
  (if nap then mret tt else put [Perror (lit "nanosleep")];; upd set_want_to_die);;
  upd (set_prestart_time 0);;
  upd (set_sock false).

Definition client_round (addr : sockaddr) (ifr_name : option bytes) (megabits_per_sec : Z) (sufficient : spec_float)
    (i : round) : C unit := λ c,
  match client_body addr ifr_name megabits_per_sec sufficient i c with
  | Ret (Reopen, c) => reopen (nap i) c
  | x => x
  end.

(** [Go]: the rounds that are given are over. *)
Fixpoint client_loop (addr : sockaddr) (ifr_name : option bytes) (megabits_per_sec : Z) (sufficient : spec_float)
    (l : list round) : C unit :=
  match l with
  | [] => mret tt
  | i :: l =>
      (if r_die i then upd set_want_to_die else mret tt);;
      c ← get;
      if want_to_die c then leave 0
      else
        client_round addr ifr_name megabits_per_sec sufficient i;;
        client_loop addr ifr_name megabits_per_sec sufficient l
  end.

(** What getaddrinfo answers: the text of an error, or an address. *)
Inductive lookup_answer := Lookup_error (text : bytes) | Looked_up (addr : sockaddr).

Definition run_client (remotename : bytes) (found : lookup_answer) (ifr_name : option bytes) (megabits_per_sec : Z)
    (sufficient : spec_float) (l : list round) : C unit :=
  match found with
  | Lookup_error text => put [Say (lit "getaddrinfo(" ++ remotename ++ lit "): " ++ text)];; leave 1
  | Looked_up addr => client_loop addr ifr_name megabits_per_sec sufficient l
  end.
End client.

(** ** The loop of the server *)

Section main.
Context `{!CPlatform}.

(** What happens in a round: a signal before it, the answer of select, whether the waitpid
    that blocks gives a child, how many children the one that does not block gives, whether
    accept and the congestion control succeed, the answer of fork with the sleep after its
    error, and what the child sees. *)
Record parent_round := Parent_round {
  p_die : bool; p_nfds : Z; waited : bool; reaped : nat; accept_ok : bool; cong_ok : bool;
  forked : Z; p_nap : bool; child : connection }.

Definition MAIN_TIMEOUT : Z := 1000 * 1000.

(** A round in the parent, with its number of children: what it does, how it ends, and the
    number after it.  The part before accept. *)
Definition count_children (max_children : Z) (i : parent_round) (numchildren : Z) : list act * Z * Z :=
  let '(o, nfds, n) :=
    if numchildren <? max_children then
      ([do_select (if numchildren =? 0 then -1 else MAIN_TIMEOUT)], p_nfds i, numchildren)
    else ([], 0, if waited i then numchildren - 1 else numchildren) in
  (o, nfds, n - Z.of_nat (reaped i)).

(** What the child does, which ends with its status. *)
Definition run_child (i : connection) : outcome (list act * ends) :=
  '(o, e) ← run_server i;
  match e with
  | Break => Ret (o ++ [Say (lit "client disconnected.")], Exit 0)
  | _ => Ret (o, e)
  end.

Definition accept_client (cong_ctl : option bytes) (i : parent_round) (numchildren : Z) : outcome (list act * ends * Z) :=
  if negb (accept_ok i) then Ret ([Perror (lit "accept")], Continue, numchildren)
  else
    let '(ok, o) := match cong_ctl with Some a => set_cong_ctl a (cong_ok i) | None => (true, []) end in
    if negb ok then Ret (o, Exit 1, numchildren)
    else if forked i <? 0 then
      if p_nap i then Ret (o ++ [Perror (lit "fork"); Sleep 1 0], Continue, numchildren)
      else Ret (o ++ [Perror (lit "fork"); Sleep 1 0; Perror (lit "nanosleep")], Exit 99, numchildren)
    else if 0 <? forked i then Ret (o, Continue, numchildren + 1)
    else
      '(o', e) ← run_child (child i);
      Ret (o ++ o', e, numchildren).

Definition parent_turn (max_children : Z) (cong_ctl : option bytes) (i : parent_round) (numchildren : Z) :
    outcome (list act * ends * Z) :=
  if p_die i then Ret ([], Break, numchildren)
  else
    let '(o, nfds, n) := count_children max_children i numchildren in
    if 0 <? nfds then
      '(o', e, n) ← accept_client cong_ctl i n;
      Ret (o ++ o', e, n)
    else Ret (o, Continue, n).

Fixpoint parent_loop (max_children : Z) (cong_ctl : option bytes) (l : list parent_round) (numchildren : Z) :
    outcome (list act * ends * Z) :=
  match l with
  | [] => Ret ([], Continue, numchildren)
  | i :: l =>
      '(o, e, n) ← parent_turn max_children cong_ctl i numchildren;
      match e with
      | Continue =>
          '(o', e, n) ← parent_loop max_children cong_ctl l n;
          Ret (o ++ o', e, n)
      | _ => Ret (o, e, n)
      end
  end.

(** The calls that set up the socket of the server, and its own address. *)
Record setup := Setup {
  l_socket : bool; l_reuse : bool; l_bind : bool; l_name : bool; l_cong : bool; l_listen : bool; listenaddr : sockaddr }.

Definition serve (s : setup) (max_children : Z) (cong_ctl : option bytes) (l : list parent_round) :
    outcome (list act * ends) :=
  let hello := Say (lit "server mode.") in
  let fails t := Ret ([hello; Perror (lit t)], Exit 1) in
  if negb (l_socket s) then fails "socket"%string
  else if negb (l_reuse s) then fails "setsockopt(SO_REUSEADDR)"%string
  else if negb (l_bind s) then fails "bind"%string
  else if negb (l_name s) then fails "getsockname"%string
  else
    let '(ok, o) := match cong_ctl with Some a => set_cong_ctl a (l_cong s) | None => (true, []) end in
    if negb ok then Ret (hello :: o, Exit 1)
    else if negb (l_listen s) then Ret (hello :: o ++ [Perror (lit "listen")], Exit 1)
    else
      match sockaddr_to_str (listenaddr s) with
      | None => Ret (hello :: o ++ [Perror (lit "inet_ntop")], Exit 98)
      | Some a =>
          '(o', e, _) ← parent_loop max_children cong_ctl l 0;
          Ret (hello :: o ++ Say (lit "server listening at " ++ a) :: o', match e with Break => Exit 0 | e => e end)
      end.

(** ** Options *)

Record settings := Settings {
  megabits_per_sec : Z; sufficient : spec_float; timeout : Z; max_children : Z;
  cong_ctl : option bytes; ifr_name : option bytes }.
Definition default_settings : settings := Settings 0 (double 0) 0 MAX_CHILDREN None None.

(** The answers of getopt; that of -s with the number that atof gives. *)
Inductive opt := Opt_b (arg : bytes) | Opt_I (arg : bytes) | Opt_P (arg : bytes) | Opt_C (arg : bytes)
  | Opt_s (arg : spec_float) | Opt_t (arg : bytes) | Opt_other.

(** [inr o]: the program exits with 99 after the messages [o]. *)
Definition option_step (argv0 : bytes) (o : opt) (s : settings) : outcome (settings + list act) :=
  match o with
  | Opt_b arg =>
      n ← atoi arg;
      if (MAX_MBITS <? n) || (n <? 1) then
        Ret (inr [Say (argv0 ++ lit ": megabits per second must be > 0 and < " ++ dec MAX_MBITS)])
      else Ret (inl (Settings n (sufficient s) (timeout s) (max_children s) (cong_ctl s) (ifr_name s)))
  | Opt_I arg => Ret (inl (Settings (megabits_per_sec s) (sufficient s) (timeout s) (max_children s) (cong_ctl s) (Some arg)))
  | Opt_P arg =>
      n ← atoi arg;
      if (MAX_CHILDREN <? n) || (n <? 1) then
        Ret (inr [Say (argv0 ++ lit ": max connections must be >= 0 and < " ++ dec MAX_CHILDREN)])
      else Ret (inl (Settings (megabits_per_sec s) (sufficient s) (timeout s) n (cong_ctl s) (ifr_name s)))
  | Opt_C arg => Ret (inl (Settings (megabits_per_sec s) (sufficient s) (timeout s) (max_children s) (Some arg) (ifr_name s)))
  | Opt_s x =>
      if SFltb x (double 1) then Ret (inr [Say (argv0 ++ lit ": sufficient time must be >= 1")])
      else Ret (inl (Settings (megabits_per_sec s) x (timeout s) (max_children s) (cong_ctl s) (ifr_name s)))
  | Opt_t arg =>
      n ← atoi arg;
      if n <? 0 then Ret (inr [Say (argv0 ++ lit ": timeout must be an integer >= 0, not '" ++ arg ++ lit "'")])
      else Ret (inl (Settings (megabits_per_sec s) (sufficient s) n (max_children s) (cong_ctl s) (ifr_name s)))
  | Opt_other => Ret (inr [Say (usage argv0)])
  end.

Fixpoint read_options (argv0 : bytes) (l : list opt) (s : settings) : outcome (settings + list act) :=
  match l with
  | [] => Ret (inl s)
  | o :: l =>
      r ← option_step argv0 o s;
      match r with inl s => read_options argv0 l s | inr o => Ret (inr o) end
  end.

(** The client, with the alarm that its timeout sets (a signal of the rounds). *)
Definition stream (argv0 remotename : bytes) (s : settings) (found : lookup_answer) (l : list round) :
    outcome (list act * ends) :=
  let hello := Say (lit "client mode.") in
  match cong_ctl s with
  | Some _ => Ret ([hello; Say (argv0 ++ lit ": can't set congestion control in client mode."); Say (usage argv0)], Exit 99)
  | None =>
      if megabits_per_sec s =? 0 then
        Ret ([hello; Say (argv0 ++ lit ": must specify -b in client mode"); Say (usage argv0)], Exit 99)
      else
        '(r, c) ← run_client remotename found (ifr_name s) (megabits_per_sec s) (sufficient s) l client0;
        Ret (hello :: log c, match r with Leave n => Exit n | _ => Continue end)
  end.

(** [main]: the options, the other arguments, and what the server or the client meets. *)
Definition main (argv0 : bytes) (opts : list opt) (args : list bytes)
    (s : setup) (serving : list parent_round) (found : lookup_answer) (streaming : list round) : outcome (list act * ends) :=
  r ← read_options argv0 opts default_settings;
  match r with
  | inr o => Ret (o, Exit 99)
  | inl conf =>
      match args with
      | [] => serve s (max_children conf) (cong_ctl conf) serving
      | [remotename] => stream argv0 remotename conf found streaming
      | _ => Ret ([Say (usage argv0)], Exit 99)
      end
  end.
End main.
