(* ===== verification/IsostreamSpec.v ===== *)
(** * Streams at a fixed rate: what the server keeps to and what the client measures *)

From Stdlib Require Import Floats.SpecFloat.
From S2P Require Import Prelude Isostream.
Open Scope Z_scope.

(** ** The rate of the server *)

(** Rates the server accepts, but for 0, and clocks for which nothing overflows (some 280
    years of microseconds). *)
Definition rate_ok (m : Z) : Prop := 1 ≤ m ≤ MAX_MBITS.
Definition time_ok (t : Z) : Prop := 0 ≤ t < 2 ^ 53.

Lemma goal_div m u : rate_ok m → time_ok u → goal m u = u * m / 8.
Proof.
  unfold rate_ok, time_ok, MAX_MBITS, goal. intros. rewrite s64_id by nia. apply Z.quot_div_nonneg; nia.
Qed.

Lemma goal_mono m u v : rate_ok m → time_ok v → 0 ≤ u ≤ v → goal m u ≤ goal m v.
Proof.
  intros Hm Hv Hu. rewrite !goal_div by (done || unfold time_ok in *; lia).
  apply Z.div_le_mono; [lia|]. unfold rate_ok in Hm. nia.
Qed.

Lemma per_period m : rate_ok m → bytes_per_period m = Z.min 65536 (12500 * m).
Proof.
  unfold rate_ok, MAX_MBITS, bytes_per_period, MIN_PERIODS_PER_SEC. intros Hm.
  rewrite !Z.quot_div_nonneg by (try apply Z.quot_pos; lia).
  rewrite Z.div_div by lia. replace (m * 1000000) with (12500 * m * 80) by lia.
  rewrite Z.div_mul by lia. destruct (Z.ltb_spec 65536 (12500 * m)); lia.
Qed.

(** A delay is never nothing, and never more than a tenth of a second. *)
Lemma delay_bounds m w : rate_ok m → 0 ≤ w < bytes_per_period m →
  ∃ d, delay_nsec m w = Ret d ∧ 0 < d ≤ 100000000.
Proof.
  intros Hm. rewrite per_period by done. intros Hw. unfold delay_nsec. unfold rate_ok, MAX_MBITS in Hm.
  destruct (Z.eqb_spec m 0); [lia|]. rewrite per_period by done. eexists. split; [done|].
  rewrite Z.quot_div_nonneg by lia. split.
  - apply Z.div_str_pos. lia.
  - apply Z.div_le_upper_bound; lia.
Qed.

Lemma server_sleeps_eq d b : 0 < d ≤ 100000000 →
  server_sleeps d b = (Sleep 0 d :: (if b then [] else [Perror (lit "nanosleep")]), if b then Continue else Break).
Proof. intros. unfold server_sleeps. rewrite Z.quot_small, Z.rem_small by lia. done. Qed.

(** The clock of the rounds does not run backwards, and does not fail. *)
Fixpoint clock_runs (t : Z) (l : list turn) : Prop :=
  match l with
  | [] => True
  | i :: l => ∃ now, monotime (t_time i) = Some now ∧ t ≤ now ∧ time_ok now ∧ clock_runs now l
  end.
Definition clock_of (i : turn) : Z := default 0 (monotime (t_time i)).
Definition last_clock (t : Z) (l : list turn) : Z := default t (clock_of <$> last l).

(** write does not answer more than it was asked. *)
Fixpoint write_obeys (m start : Z) (l : list turn) (total : Z) : Prop :=
  match l with
  | [] => True
  | i :: l =>
      match server_turn m start i total with
      | Ret (o, e, total') => (∀ n, Write n ∈ o → t_wrote i ≤ n) ∧ write_obeys m start l total'
      | _ => True
      end
  end.

(** What the server may do: writes of a period at least and of the buffer at most, and
    sleeps below a tenth of a second, without its warning. *)
Definition paced_act (m : Z) (a : act) : Prop :=
  match a with
  | Write n => bytes_per_period m ≤ n ≤ BUFSIZE
  | Sleep s ns => s = 0 ∧ 0 < ns ≤ 100000000
  | Perror _ => True
  | _ => False
  end.

Ltac all_acts := repeat (apply Forall_cons_2; [simpl; (done || lia)|]); apply Forall_nil_2; done.

Lemma server_turn_paced m start i total now :
  rate_ok m → 0 ≤ start ≤ now → time_ok now → monotime (t_time i) = Some now →
  0 ≤ total ≤ goal m (now - start) →
  (∀ o e total', server_turn m start i total = Ret (o, e, total') → ∀ n, Write n ∈ o → t_wrote i ≤ n) →
  ∃ o e total', server_turn m start i total = Ret (o, e, total') ∧
    Forall (paced_act m) o ∧ total ≤ total' ≤ goal m (now - start).
Proof.
  intros Hm Hs Hn Hi Ht Hw. unfold server_turn in *. destruct (t_die i); [exists [], Break, total; split_and!; [done|constructor|lia..]|].
  rewrite Hi in *. destruct (Z.ltb_spec (goal m (now - start) - total) (bytes_per_period m)).
  - destruct (delay_bounds m (goal m (now - start) - total) Hm) as (d & Hd & ?); [lia|]. rewrite Hd in *. simpl.
    rewrite server_sleeps_eq by done. eexists _, _, _. split; [done|]. split; [|lia].
    destruct (t_slept i); all_acts.
  - assert (bytes_per_period m ≤ BUFSIZE) as Hb by (rewrite per_period by done; unfold BUFSIZE; lia).
    set (n := if BUFSIZE <? _ then _ else _) in *.
    assert (bytes_per_period m ≤ n ≤ BUFSIZE ∧ n ≤ goal m (now - start) - total) as [Hn1 Hn2]
      by (subst n; destruct (Z.ltb_spec BUFSIZE (goal m (now - start) - total)); lia).
    destruct (Z.ltb_spec (t_wrote i) 0); (eexists _, _, _; split; [done|]; split; [all_acts|]); [lia|].
    assert (t_wrote i ≤ n) by (apply (Hw _ _ _ eq_refl); by left). lia.
Qed.

Lemma last_clock_cons t i l : last_clock t (i :: l) = last_clock (clock_of i) l.
Proof. unfold last_clock. destruct l as [|j l]; [done|]. rewrite !last_cons. by destruct (last l). Qed.

Lemma clock_runs_last t l : time_ok t → clock_runs t l → t ≤ last_clock t l ∧ time_ok (last_clock t l).
Proof.
  revert t. induction l as [|i l IH]; intros t Ht; [done|]. intros (now & Hi & ? & ? & Hl). rewrite last_clock_cons.
  replace (clock_of i) with now by (unfold clock_of; by rewrite Hi).
  destruct (IH now) as [??]; [done..|]. split; [lia|done].
Qed.

Lemma server_loop_paced m start t l total :
  rate_ok m → 0 ≤ start ≤ t → time_ok t → clock_runs t l → write_obeys m start l total →
  0 ≤ total ≤ goal m (t - start) →
  ∃ o e total', server_loop m start l total = Ret (o, e, total') ∧
    Forall (paced_act m) o ∧ total ≤ total' ≤ goal m (last_clock t l - start).
Proof.
  intros Hm. revert t total. induction l as [|i l IH]; intros t total Hs Ht.
  { intros _ _ ?. exists [], Continue, total. split; [done|]. split; [done|]. unfold last_clock. simpl. lia. }
  intros (now & Hi & Hle & Hn & Hl) Hw Htot. simpl in Hw.
  assert (goal m (t - start) ≤ goal m (now - start)) by (apply goal_mono; unfold time_ok in *; lia || done).
  destruct (server_turn_paced m start i total now) as (o & e & total1 & E & Ho & Htot1); [done|lia|done|done|lia| |].
  { intros o e total' E. rewrite E in Hw. apply Hw. }
  rewrite E in Hw. destruct Hw as [_ Hw].
  destruct (IH now total1) as (o2 & e2 & total2 & E2 & Ho2 & Htot2); [lia|done|done|done|lia|].
  rewrite last_clock_cons. replace (clock_of i) with now by (unfold clock_of; by rewrite Hi).
  destruct (clock_runs_last now l Hn Hl) as [??]. simpl. rewrite E. simpl.
  destruct e; [rewrite E2; simpl|..]; eexists _, _, _; (split; [done|]).
  - split; [by apply Forall_app|]. lia.
  - split; [done|]. assert (goal m (now - start) ≤ goal m (last_clock now l - start)); [|lia].
    apply goal_mono; unfold time_ok in *; lia || done.
  - split; [done|]. assert (goal m (now - start) ≤ goal m (last_clock now l - start)); [|lia].
    apply goal_mono; unfold time_ok in *; lia || done.
Qed.


(** ** What a dropout is *)

(** The client looks at its offset at certain times; [(t, o)] is the offset [o] at [t]. *)
Definition good (p : Z * Z) : Prop := 0 ≤ p.2.
Definition bad (p : Z * Z) : Prop := p.2 < 0.
Definition depth_of (l : list (Z * Z)) : Z := foldr Z.min 0 (snd <$> l).

Lemma depth_of_cons p l : depth_of (p :: l) = Z.min p.2 (depth_of l).
Proof. done. Qed.
Lemma depth_of_nonpos l : depth_of l ≤ 0.
Proof. induction l as [|p l IH]; [done|]. rewrite depth_of_cons. lia. Qed.

(** The dropouts of a series of looks, each with its length and depth: looks that find the
    stream behind, one after the other, until one finds it in time again.  The length is
    counted from the first of them to that one; what is not over yet does not count. *)
Inductive Dropouts : list (Z * Z) → list (Z * Z) → Prop :=
  | D_over g b : Forall good g → Forall bad b → Dropouts (g ++ b) []
  | D_next g t0 o0 b t o l ds :
      Forall good g → Forall bad ((t0, o0) :: b) → 0 ≤ o → Dropouts ((t, o) :: l) ds →
      Dropouts (g ++ (t0, o0) :: b ++ (t, o) :: l) ((t - t0, depth_of ((t0, o0) :: b)) :: ds).

(** Those that are reported: of a tenth of a second, longer or deeper than all before. *)
Fixpoint reported (maxlength maxdepth : Z) (ds : list (Z * Z)) : list (Z * Z) :=
  match ds with
  | [] => []
  | (l, d) :: ds =>
      let rest := reported (Z.max maxlength l) (Z.min maxdepth d) ds in
      if (DROPOUT_MIN_USEC <=? l) || (maxlength <? l) || (d <? maxdepth) then (l, d) :: rest else rest
  end.

(** Every series has its dropouts. *)
Lemma dropouts_from l : ∀ g, Forall good g → (∃ ds, Dropouts (g ++ l) ds) ∧
  (∀ t0 o0 b, Forall bad ((t0, o0) :: b) → ∃ ds, Dropouts (g ++ (t0, o0) :: b ++ l) ds).
Proof.
  induction l as [|[t o] l IH]; intros g Hg.
  - split; [exists []; apply D_over; [done|constructor]|].
    intros. rewrite app_nil_r. exists []. by apply D_over.
  - destruct (decide (0 ≤ o)) as [Ho|Ho].
    + destruct (IH [(t, o)]) as [[ds1 H1] _]; [by repeat constructor|]. split.
      * destruct (IH (g ++ [(t, o)])) as [[ds2 H2] _]; [apply Forall_app; split; [done|by repeat constructor]|].
        rewrite <-app_assoc in H2. by exists ds2.
      * intros t0 o0 b Hb. eexists. by apply D_next.
    + assert (bad (t, o)) by (unfold bad; simpl; lia). split.
      * destruct (IH g Hg) as [_ H2]. apply (H2 t o []). by repeat constructor.
      * intros t0 o0 b Hb. destruct (IH g Hg) as [_ H2]. destruct (H2 t0 o0 (b ++ [(t, o)])) as [ds Hds].
        { rewrite app_comm_cons. apply Forall_app. split; [done|by repeat constructor]. }
        exists ds. by rewrite <-(assoc_L (++)) in Hds.
Qed.

Lemma dropouts_exist l : ∃ ds, Dropouts l ds.
Proof. destruct (dropouts_from l []) as [H _]; [constructor|]. exact H. Qed.

(** ** What the client makes of them *)

Fixpoint follow_all (l : list (Z * Z)) (d : dropping) : dropping * list act :=
  match l with
  | [] => (d, [])
  | (t, o) :: l =>
      let '(d, lines) := follow_dropouts t o d in
      let '(d, lines') := follow_all l d in (d, lines ++ lines')
  end.

Lemma follow_all_app l1 l2 d :
  follow_all (l1 ++ l2) d =
    (let '(d, o) := follow_all l1 d in let '(d, o') := follow_all l2 d in (d, o ++ o')).
Proof.
  revert d. induction l1 as [|[t o] l1 IH]; intros d; simpl; [by destruct (follow_all l2 d)|].
  destruct (follow_dropouts t o d) as [d1 o1]. rewrite IH. destruct (follow_all l1 d1) as [d2 o2].
  destruct (follow_all l2 d2). by rewrite (assoc_L (++)).
Qed.

(** The counters. *)
Definition counters (d : dropping) : Z * Z * Z := (drop_count d, drop_maxdepth d, drop_maxlength d).
Definition in_time (d : dropping) : Prop := 0 ≤ last_usec_offset d ∧ drop_depth d ≤ 0.
Definition dropped (t0 depth : Z) (d : dropping) : Prop :=
  last_usec_offset d < 0 ∧ drop_start_time d = t0 ∧ drop_depth d = depth.

Lemma ltb_yes a b : a < b → (a <? b) = true.
Proof. apply Z.ltb_lt. Qed.
Lemma ltb_no a b : b ≤ a → (a <? b) = false.
Proof. apply Z.ltb_ge. Qed.
Lemma leb_yes a b : a ≤ b → (a <=? b) = true.
Proof. apply Z.leb_le. Qed.
Lemma leb_no a b : b < a → (a <=? b) = false.
Proof. apply Z.leb_gt. Qed.

(** Comparisons that the context decides, and all of them. *)
Ltac decide_offsets :=
  repeat (match goal with
    | |- context [?a <? ?b] => first [rewrite (ltb_yes a b) by lia | rewrite (ltb_no a b) by lia]
    | |- context [?a <=? ?b] => first [rewrite (leb_yes a b) by lia | rewrite (leb_no a b) by lia]
    end; simpl).
Ltac split_offsets :=
  repeat match goal with
  | |- context [?a <? ?b] => destruct (Z.ltb_spec a b)
  | |- context [?a <=? ?b] => destruct (Z.leb_spec a b)
  end; simpl; try lia.

Lemma follow_good g d : Forall good g → in_time d →
  ∃ d', follow_all g d = (d', []) ∧ in_time d' ∧ counters d' = counters d.
Proof.
  intros Hg. revert d. induction Hg as [|[t o] g Ho Hg IH]; intros d Hd; [by exists d|].
  unfold good in Ho. simpl in *. destruct Hd as [Hl Hd].
  unfold follow_dropouts. decide_offsets.
  destruct (IH (Dropping o (drop_start_time d) (drop_depth d) (drop_count d) (drop_maxdepth d) (drop_maxlength d)))
    as (d' & E & ? & Hc); [by split|]. rewrite E. exists d'. split_and!; [done|done|]. by rewrite Hc.
Qed.

Lemma follow_bad b d t0 depth : Forall bad b → dropped t0 depth d → depth ≤ 0 →
  ∃ d', follow_all b d = (d', []) ∧ dropped t0 (Z.min depth (depth_of b)) d' ∧ counters d' = counters d.
Proof.
  intros Hb. revert d depth. induction Hb as [|[t o] b Ho Hb IH]; intros d depth Hd Hdep.
  { exists d. unfold depth_of. simpl. rewrite Z.min_l by lia. done. }
  destruct Hd as (Hl & Hs & Hde). unfold bad in Ho. simpl in *.
  unfold follow_dropouts. decide_offsets.
  destruct (IH (Dropping o (drop_start_time d) (if o <? drop_depth d then o else drop_depth d)
    (drop_count d) (drop_maxdepth d) (drop_maxlength d)) (Z.min depth o)) as (d' & E & H1 & H2); [|lia|].
  { split_and!; [done|done|]. simpl. split_offsets. }
  exists d'. rewrite E. split_and!; [done| |done].
  by rewrite depth_of_cons, Z.min_assoc.
Qed.

(** The first look behind. *)
Lemma follow_first t o d : in_time d → o < 0 →
  ∃ d', follow_dropouts t o d = (d', []) ∧ dropped t o d' ∧ counters d' = counters d.
Proof.
  intros [Hl Hd] Ho. unfold follow_dropouts. decide_offsets. eexists. split; [done|]. done.
Qed.

(** The first look in time again. *)
Lemma follow_last t o d t0 depth : dropped t0 depth d → depth ≤ 0 → 0 ≤ o →
  ∃ d', follow_dropouts t o d =
      (d', if (DROPOUT_MIN_USEC <=? t - t0) || (drop_maxlength d <? t - t0) || (depth <? drop_maxdepth d)
           then [Dropout_line (t - t0) depth] else []) ∧ in_time d' ∧ last_usec_offset d' = o ∧
    counters d' =
      ((if (DROPOUT_MIN_USEC <=? t - t0) || (drop_maxlength d <? t - t0) || (depth <? drop_maxdepth d)
        then drop_count d + 1 else drop_count d),
       Z.min (drop_maxdepth d) depth, Z.max (drop_maxlength d) (t - t0)).
Proof.
  intros (Hl & <- & <-) Hd Ho. unfold follow_dropouts. decide_offsets.
  eexists. split; [done|]. split_and!; [split; simpl; lia|done|].
  unfold counters. simpl. f_equal; [f_equal|]; split_offsets.
Qed.

(** A second look at the same offset changes nothing. *)
Lemma follow_again t o d : in_time d → last_usec_offset d = o → follow_dropouts t o d = (d, []).
Proof. intros [Hl Hd] <-. unfold follow_dropouts. decide_offsets. by destruct d. Qed.

Definition lines_of (ds : list (Z * Z)) : list act := (λ p, Dropout_line p.1 p.2) <$> ds.

(** One after the other, the variables become the summary of the dropouts. *)
Lemma follow_dropouts_all l ds : Dropouts l ds → ∀ d, in_time d →
  ∃ d', follow_all l d = (d', lines_of (reported (drop_maxlength d) (drop_maxdepth d) ds)) ∧
    counters d' =
      (drop_count d + Z.of_nat (length (reported (drop_maxlength d) (drop_maxdepth d) ds)),
       foldl Z.min (drop_maxdepth d) (snd <$> ds), foldl Z.max (drop_maxlength d) (fst <$> ds)).
Proof.
  induction 1 as [g b Hg Hb|g t0 o0 b t o l ds Hg Hb Ho Hl IH]; intros d Hd; rewrite follow_all_app;
    destruct (follow_good g d Hg Hd) as (d1 & -> & Hd1 & Hc1).
  - assert (∃ d', follow_all b d1 = (d', []) ∧ counters d' = counters d1) as (d' & -> & Hc').
    { destruct Hb as [|[t o] b Ho Hb]; [by exists d1|]. unfold bad in Ho. simpl in *.
      destruct (follow_first t o d1 Hd1 Ho) as (d2 & -> & Hd2 & Hc2).
      destruct (follow_bad b d2 t o Hb Hd2) as (d3 & -> & _ & Hc3); [lia|]. exists d3. split; [done|]. by rewrite Hc3. }
    exists d'. split; [done|]. rewrite Hc', Hc1. simpl. by rewrite Z.add_0_r.
  - apply Forall_cons in Hb as [Ho0 Hb]. unfold bad in Ho0. simpl in Ho0. rewrite app_comm_cons, follow_all_app. simpl.
    destruct (follow_first t0 o0 d1 Hd1 Ho0) as (d2 & -> & Hd2 & Hc2).
    destruct (follow_bad b d2 t0 o0 Hb Hd2) as (d3 & -> & Hd3 & Hc3); [lia|]. simpl.
    pose proof (depth_of_nonpos b).
    rewrite depth_of_cons. simpl. destruct (follow_last t o d3 t0 (Z.min o0 (depth_of b)) Hd3) as (d4 & E4 & Hd4 & Hl4 & Hc4); [lia|done|].
    assert (counters d3 = counters d) as H3 by congruence. unfold counters in H3. injection H3 as Hn Hmd Hml.
    rewrite Hml, Hmd, Hn in *. unfold counters in Hc4. injection Hc4 as Hn4 Hmd4 Hml4.
    destruct (IH d4 Hd4) as (d5 & E5 & Hc5). simpl in E5. rewrite follow_again in E5 by done.
    rewrite Hml4, Hmd4, Hn4 in *. rewrite E4. clear IH. destruct (follow_all l d4) as [d6 o6].
    injection E5 as -> E5. simpl in E5. subst o6. exists d5. simpl. rewrite Hc5. clear.
    set (rest := reported _ _ ds). destruct (_ || _); simpl.
    + split; [done|]. by rewrite Nat2Z.inj_succ, <-Z.add_1_l, Z.add_assoc.
    + done.
Qed.

(** ** Runs of the client *)

(** Every run of [m] returns, and keeps to [R]. *)
Definition leads {A} (R : relation client) (m : C A) : Prop := ∀ c, ∃ r c', m c = Ret (r, c') ∧ R c c'.

Lemma C_bind_go {A B} (m : C A) (f : A → C B) c a c' : m c = Ret (Go a, c') → (m ≫= f) c = f a c'.
Proof. intros E. unfold mbind, C_bind. by rewrite E. Qed.

Section leads.
Context (R : relation client) `{!Reflexive R, !Transitive R}.

Lemma leads_ret {A} (a : A) : leads R (mret a).
Proof. intros c. exists (Go a), c. split; [done|reflexivity]. Qed.
Lemma leads_get : leads R get.
Proof. intros c. exists (Go c), c. split; [done|reflexivity]. Qed.
Lemma leads_upd f : (∀ c, R c (f c)) → leads R (upd f).
Proof. intros Hf c. by exists (Go tt), (f c). Qed.
Lemma leads_leave {A} n : leads (A:=A) R (leave n).
Proof. intros c. exists (Leave n), c. split; [done|reflexivity]. Qed.
Lemma leads_reopen {A} : leads (A:=A) R goto_reopen.
Proof. intros c. exists Reopen, c. split; [done|reflexivity]. Qed.
Lemma leads_bind {A B} (m : C A) (f : A → C B) : leads R m → (∀ a, leads R (f a)) → leads R (m ≫= f).
Proof.
  intros Hm Hf c. destruct (Hm c) as (r & c1 & E & H1). unfold mbind, C_bind. rewrite E.
  destruct r as [a| |n]; [|by eexists _, c1..].
  destruct (Hf a c1) as (r & c2 & E2 & H2). exists r, c2. split; [done|by etrans].
Qed.
End leads.

(** The lines about dropouts among what was done. *)
Definition dropout_lines (l : list act) : list act :=
  List.filter (λ a, match a with Dropout_line _ _ => true | _ => false end) l.

Lemma dropout_lines_app l1 l2 : dropout_lines (l1 ++ l2) = dropout_lines l1 ++ dropout_lines l2.
Proof. apply List.filter_app. Qed.
Lemma dropout_lines_of ds : dropout_lines (lines_of ds) = lines_of ds.
Proof. induction ds as [|p ds IH]; [done|]. unfold dropout_lines in *. simpl. by f_equal. Qed.

(** All but [measure] leaves the dropouts alone. *)
Definition undropped (c c' : client) : Prop := drops c' = drops c ∧ dropout_lines (log c') = dropout_lines (log c).
#[export] Instance undropped_refl : Reflexive undropped.
Proof. done. Qed.
#[export] Instance undropped_trans : Transitive undropped.
Proof. intros c1 c2 c3 [H1 H2] [H3 H4]. split; congruence. Qed.

Lemma leads_put o : dropout_lines o = [] → leads undropped (put o).
Proof.
  intros Ho. apply leads_upd. intros c. split; [done|]. simpl. by rewrite dropout_lines_app, Ho, app_nil_r.
Qed.

Create HintDb leads_db.
(** Split a goal along the structure of the program. *)
Ltac leads_auto :=
  repeat first
    [ solve [auto with leads_db nocore]
    | match goal with
      | |- leads _ (mret _) => apply leads_ret; apply _
      | |- leads _ get => apply leads_get; apply _
      | |- leads _ (leave _) => apply leads_leave; apply _
      | |- leads _ goto_reopen => apply leads_reopen; apply _
      | |- leads _ (put _) => apply leads_put; done
      | |- leads _ (upd _) => apply leads_upd; intros ?; done
      | |- leads _ (perror_reopen _) => unfold perror_reopen
      | |- leads _ (_ ≫= _) => apply leads_bind; [apply _| |intros ?]
      | |- leads _ (match ?x with _ => _ end) => destruct x
      end ].

Lemma read_clock_leads ts : leads undropped (read_clock ts).
Proof. unfold read_clock. leads_auto. Qed.
#[export] Hint Resolve read_clock_leads : leads_db.
Lemma open_socket_leads addr ifr m i : leads undropped (open_socket addr ifr m i).
Proof. unfold open_socket. leads_auto. Qed.
Lemma receive_leads t n : leads undropped (receive t n).
Proof. unfold receive. leads_auto. Qed.
Lemma nothing_received_leads t : leads undropped (nothing_received t).
Proof. unfold nothing_received. leads_auto. Qed.
#[export] Hint Resolve open_socket_leads receive_leads nothing_received_leads : leads_db.
Lemma await_leads i : leads undropped (await i).
Proof. unfold await. leads_auto. Qed.
Lemma reopen_leads b : leads undropped (reopen b).
Proof. unfold reopen. leads_auto. Qed.
Lemma print_status_leads t : leads undropped (print_status t).
Proof. unfold print_status. leads_auto. Qed.
#[export] Hint Resolve await_leads reopen_leads print_status_leads : leads_db.

Section run.
Context (addr : sockaddr) (ifr : option bytes) (m : Z) (suf : spec_float).

(** The offset that the client works out at the time [t]. *)
Definition offset_at (t : Z) (c : client) : Z :=
  match usec_ahead m (total c) (t - start_time c) with Ret o => o | _ => 0 end.
Definition look (t : Z) (c : client) : Z * Z := (t, offset_at t c).

(** When the client looks, and in which state: at the start of every round, once data
    has come. *)
Fixpoint looks (l : list round) (c : client) : list (Z * client) :=
  match l with
  | [] => []
  | i :: l =>
      let c := if r_die i then set_want_to_die c else c in
      if want_to_die c then []
      else
        match monotime (time1 i) with
        | None => []
        | Some t =>
            (if start_time c =? 0 then [] else [(t, c)]) ++
            match client_round addr ifr m suf i c with Ret (Go _, c') => looks l c' | _ => [] end
        end
  end.
Definition observations (l : list round) (c : client) : list (Z * Z) := (λ p, look p.1 p.2) <$> looks l c.

(** From [c] to [c'], what the client sees in [l] was followed. *)
Definition followed (l : list (Z * Z)) (c c' : client) : Prop :=
  drops c' = (follow_all l (drops c)).1 ∧
  dropout_lines (log c') = dropout_lines (log c) ++ (follow_all l (drops c)).2.

Lemma followed_nothing c c' : undropped c c' → followed [] c c'.
Proof. intros [H1 H2]. split; [done|]. by rewrite app_nil_r. Qed.
Lemma followed_app l1 l2 c c1 c2 : followed l1 c c1 → followed l2 c1 c2 → followed (l1 ++ l2) c c2.
Proof.
  intros [H1 H2] [H3 H4]. unfold followed. rewrite follow_all_app. rewrite H1 in *.
  destruct (follow_all l1 (drops c)) as [d1 o1]. simpl in *. destruct (follow_all l2 d1) as [d2 o2]. simpl in *.
  split; [done|]. by rewrite H4, H2, (assoc_L (++)).
Qed.
Lemma followed_then l c c1 c2 : followed l c c1 → undropped c1 c2 → followed l c c2.
Proof. intros H1 H2%followed_nothing. rewrite <-(app_nil_r l). by eapply followed_app. Qed.

Lemma follow_lines t o d : dropout_lines (follow_dropouts t o d).2 = (follow_dropouts t o d).2.
Proof.
  unfold follow_dropouts. destruct (_ && _); [done|]. destruct (_ && _); [|done]. simpl. by destruct (_ || _).
Qed.

Hypothesis Hm : m ≠ 0.

Lemma measure_follows t c : ∃ r c', measure m suf t c = Ret (r, c') ∧ followed [look t c] c c'.
Proof.
  unfold measure. rewrite (C_bind_go get _ c c c) by done.
  set (c1 := if enough suf (t - start_time c) then set_want_to_die c else c).
  rewrite (C_bind_go _ _ c tt c1) by (subst c1; by destruct (enough _ _)).
  assert (undropped c c1) as [_ Hl] by (subst c1; by destruct (enough _ _)).
  unfold look, offset_at, usec_ahead. destruct (Z.eqb_spec m 0); [done|]. cbn [fst snd].
  set (offset := Z.quot _ m). destruct (follow_dropouts t offset (drops c)) as [d o] eqn:E.
  rewrite (C_bind_go (put o) _ c1 tt (add_log o c1)) by done.
  rewrite (C_bind_go (upd _) _ _ tt (set_offset offset d (add_log o c1))) by done.
  destruct (print_status_leads t (set_offset offset d (add_log o c1))) as (r & c2 & E2 & Hc2).
  exists r, c2. split; [done|]. unfold followed. simpl. rewrite E. simpl. destruct Hc2 as [-> ->].
  split; [done|]. simpl. rewrite dropout_lines_app, Hl, app_nil_r. f_equal.
  pose proof (follow_lines t offset (drops c)) as H. by rewrite E in H.
Qed.

Lemma client_body_follows i c :
  ∃ r c', client_body addr ifr m suf i c = Ret (r, c') ∧
    match monotime (time1 i) with
    | None => (∃ n, r = Leave n) ∧ undropped c c'
    | Some t => followed (if start_time c =? 0 then [] else [look t c]) c c'
    end.
Proof.
  unfold client_body, read_clock. destruct (monotime (time1 i)) as [t|].
  2:{ eexists (Leave 98), _. split; [done|]. split; [by eexists|]. split; [done|]. simpl.
      by rewrite dropout_lines_app, app_nil_r. }
  rewrite (C_bind_go _ _ c t (set_now t c)) by done. rewrite (C_bind_go get _ _ (set_now t c) (set_now t c)) by done.
  cbn [start_time sock set_now].
  assert (∃ r c1, (if start_time c =? 0 then mret tt else measure m suf t) (set_now t c) = Ret (r, c1) ∧
    followed (if start_time c =? 0 then [] else [look t c]) c c1) as (r1 & c1 & E1 & H1).
  { destruct (start_time c =? 0); [by eexists _, _; split; [|apply followed_nothing]|].
    destruct (measure_follows t (set_now t c)) as (r & c1 & E & H). by exists r, c1. }
  unfold mbind at 1, C_bind at 1. rewrite E1. destruct r1 as [[]| |n]; [|by eexists _, _..].
  assert (leads undropped ((if sock c then mret tt else open_socket addr ifr m i);; await i)) as Hrest by leads_auto.
  destruct (Hrest c1) as (r2 & c2 & E2 & H2).
  eexists r2, c2. split; [exact E2|]. by eapply followed_then.
Qed.

Lemma client_round_follows i c :
  ∃ r c', client_round addr ifr m suf i c = Ret (r, c') ∧
    match monotime (time1 i) with
    | None => (∃ n, r = Leave n) ∧ undropped c c'
    | Some t => followed (if start_time c =? 0 then [] else [look t c]) c c'
    end.
Proof.
  unfold client_round. destruct (client_body_follows i c) as (r & c1 & -> & H).
  destruct r as [a| |n]; [by exists (Go a), c1| |by exists (Leave n), c1].
  destruct (reopen_leads (nap i) c1) as (r & c2 & -> & H2). exists r, c2. split; [done|].
  destruct (monotime (time1 i)) as [t|]; [by eapply followed_then|]. by destruct H as [(? & ?) _].
Qed.

(** Every run returns, and follows exactly what it sees. *)
Lemma client_loop_follows l c :
  ∃ r c', client_loop addr ifr m suf l c = Ret (r, c') ∧ followed (observations l c) c c'.
Proof.
  revert c. induction l as [|i l IH]; intros c; [by exists (Go tt), c; split; [|apply followed_nothing]|].
  unfold observations. cbn [looks client_loop].
  set (c0 := if r_die i then set_want_to_die c else c).
  rewrite (C_bind_go _ _ c tt c0) by (subst c0; by destruct (r_die i)).
  rewrite (C_bind_go get _ c0 c0 c0) by done.
  assert (followed [] c c0) as H0 by (subst c0; by destruct (r_die i); apply followed_nothing).
  destruct (want_to_die c0); [by exists (Leave 0), c0|].
  destruct (client_round_follows i c0) as (r & c1 & E & H1). unfold mbind, C_bind. rewrite E.
  assert (followed [] c0 c1 → followed [] c c1) by (intros; by apply (followed_app [] [] c c0)).
  destruct (monotime (time1 i)) as [t|].
  - destruct r as [[]| |n].
    + destruct (IH c1) as (r & c2 & -> & H2). exists r, c2. split; [done|].
      rewrite fmap_app. apply (followed_app _ _ c c1); [|done]. rewrite <-(app_nil_l (_ <$> _)).
      apply (followed_app [] _ c c0); [done|]. by destruct (start_time c0 =? 0).
    + exists Reopen, c1. split; [done|]. rewrite app_nil_r, <-(app_nil_l (_ <$> _)).
      apply (followed_app [] _ c c0); [done|]. by destruct (start_time c0 =? 0).
    + exists (Leave n), c1. split; [done|]. rewrite app_nil_r, <-(app_nil_l (_ <$> _)).
      apply (followed_app [] _ c c0); [done|]. by destruct (start_time c0 =? 0).
  - destruct H1 as [(n & ->) H1]. exists (Leave n), c1. split; [done|]. apply (followed_then _ c c0); done.
Qed.

(** The dropouts that a run has reported, and what it has counted. *)
Definition report (ds : list (Z * Z)) (d : dropping) (lines : list act) : Prop :=
  lines = lines_of (reported 0 0 ds) ∧
  counters d = (Z.of_nat (length (reported 0 0 ds)), foldl Z.min 0 (snd <$> ds), foldl Z.max 0 (fst <$> ds)).

(** C25: the client's report is that of the dropouts there were.  However long it runs, and
    whatever happens to its connections, the lines it has printed are one for every dropout
    of a tenth of a second, or longer or deeper than all before, with its length and its
    depth; it counts these, and keeps the greatest length and depth of all. *)
Theorem dropouts_reported l :
  ∃ r c, client_loop addr ifr m suf l client0 = Ret (r, c) ∧
    (∃ ds, Dropouts (observations l client0) ds) ∧
    ∀ ds, Dropouts (observations l client0) ds → report ds (drops c) (dropout_lines (log c)).
Proof.
  destruct (client_loop_follows l client0) as (r & c & E & Hd & Hl).
  exists r, c. split_and!; [done|apply dropouts_exist|]. intros ds Hds.
  destruct (follow_dropouts_all _ _ Hds (drops client0)) as (d & Ed & Hc); [done|].
  rewrite Ed in Hd, Hl. simpl in *. unfold report. rewrite Hd, Hl. by split.
Qed.
End run.

(** ** A smooth stream *)

(** The writes of the server: when, and the bytes sent after it. *)
Definition writes (o : list act) : bool := existsb (λ a, match a with Write _ => true | _ => false end) o.
Fixpoint history (m start : Z) (l : list turn) (total : Z) : list (Z * Z) :=
  match l with
  | [] => []
  | i :: l =>
      match server_turn m start i total with
      | Ret (o, e, total') =>
          (if writes o then [(clock_of i, total')] else []) ++
          match e with Continue => history m start l total' | _ => [] end
      | _ => []
      end
  end.
(** Every write is whole, and not cut to the length of the buffer. *)
Fixpoint writes_whole (m start : Z) (l : list turn) (total : Z) : Prop :=
  match l with
  | [] => True
  | i :: l =>
      match server_turn m start i total with
      | Ret (o, _, total') => Forall (λ a, match a with Write n => t_wrote i = n ∧ n < BUFSIZE | _ => True end) o ∧
          writes_whole m start l total'
      | _ => True
      end
  end.

Lemma server_turn_whole m start i total o e total' :
  rate_ok m → server_turn m start i total = Ret (o, e, total') → writes o = true →
  Forall (λ a, match a with Write n => t_wrote i = n ∧ n < BUFSIZE | _ => True end) o →
  total' = goal m (clock_of i - start).
Proof.
  intros Hm. unfold server_turn, clock_of. destruct (t_die i); [by intros [= <- _ _]|].
  destruct (monotime (t_time i)) as [now|]; [|by intros [= <- _ _]]. simpl.
  destruct (Z.ltb_spec (goal m (now - start) - total) (bytes_per_period m)).
  { destruct (delay_nsec m _) as [d| |]; [|done..]. unfold server_sleeps. simpl. intros [= <- _ _]. clear.
    destruct (_ =? 0), (t_slept i); done. }
  assert (0 < bytes_per_period m) by (rewrite per_period by done; unfold rate_ok in Hm; lia).
  destruct (Z.ltb_spec BUFSIZE (goal m (now - start) - total)), (Z.ltb_spec (t_wrote i) 0);
    intros [= <- _ <-] _ Hall; apply Forall_cons in Hall as [[? ?] _]; lia.
Qed.

(** After every write, what has been sent is what the rate asks for. *)
Lemma history_on_time m start t l total :
  rate_ok m → time_ok start → start ≤ t → clock_runs t l → writes_whole m start l total →
  Forall (λ p, p.2 = goal m (p.1 - start) ∧ start ≤ p.1 ∧ time_ok p.1) (history m start l total).
Proof.
  intros Hm Hs. revert t total. induction l as [|i l IH]; intros t total Ht Hc Hw; [constructor|].
  destruct Hc as (now & Hi & Hle & Hn & Hc). simpl in *.
  destruct (server_turn m start i total) as [[[o e] total']| |] eqn:E; [|constructor..].
  destruct Hw as [Hw1 Hw2]. apply Forall_app. split.
  - destruct (writes o) eqn:Ho; [|constructor]. apply Forall_singleton. simpl.
    rewrite (server_turn_whole m start i total o e total') by done. unfold clock_of. rewrite Hi. simpl.
    split_and!; [done|lia|done].
  - destruct e; [|constructor..]. apply (IH now); [lia|done|done].
Qed.

(** A client is served on time if, whenever it looks, it has what the server had sent not
    long ago: no longer than the server had been at work when data came first. *)
Definition served_on_time (start : Z) (h : list (Z * Z)) (p : Z * client) : Prop :=
  let '(t, c) := p in
  time_ok t ∧ start_time c ≤ t ∧ Exists (λ q, total c = q.2 ∧ t - q.1 ≤ start_time c - start) h.

Lemma on_time_offset m start h t c :
  rate_ok m → time_ok start → Forall (λ p, p.2 = goal m (p.1 - start) ∧ start ≤ p.1 ∧ time_ok p.1) h →
  served_on_time start h (t, c) → good (look m t c).
Proof.
  intros Hm Hs Hh (Ht & Hst & Hex). apply Exists_exists in Hex as ([w b] & Hin & Hb & Hlate).
  rewrite Forall_forall in Hh. specialize (Hh _ Hin) as (Hg & Hw & Htw). simpl in *. subst b.
  unfold look, good, offset_at, usec_ahead. simpl. destruct (Z.eqb_spec m 0); [unfold rate_ok in *; lia|].
  rewrite Hg. assert (goal m (t - start_time c) ≤ goal m (w - start)) by (apply goal_mono; unfold time_ok in *; lia || done).
  assert (0 ≤ goal m (t - start_time c)).
  { rewrite goal_div by (done || unfold time_ok in *; lia). apply Z.div_pos; unfold rate_ok in Hm; nia. }
  assert (8 * goal m (w - start) < 2 ^ 63).
  { rewrite goal_div by (done || unfold time_ok in *; lia). pose proof (Z.mul_div_le ((w - start) * m) 8).
    unfold rate_ok, MAX_MBITS, time_ok in *. nia. }
  rewrite s64_id by lia. apply Z.quot_pos; unfold rate_ok in Hm; lia.
Qed.


(** ** A connection that ends *)

(** The server starts a new connection from nothing, so what was missed is not made up:
    when more time has passed than the bytes so far are worth, the offset stays negative
    whatever a paced server sends, the dropout is never over, and nothing that happens to
    the stream is reported or counted any more. *)
Lemma disconnect_hides addr ifr suf m l c t0 t1 depth :
  rate_ok m → dropped t1 depth (drops c) → depth ≤ 0 →
  0 ≤ total c → start_time c ≤ t0 → 8 * total c + m + 8 ≤ m * (t0 - start_time c) →
  Forall (λ '(t, c'), start_time c' = start_time c ∧ 0 ≤ start_time c ∧ t0 ≤ t ∧ time_ok t ∧
    total c ≤ total c' ∧ 8 * (total c' - total c) ≤ m * (t - t0)) (looks addr ifr m suf l c) →
  ∃ r c', client_loop addr ifr m suf l c = Ret (r, c') ∧
    dropout_lines (log c') = dropout_lines (log c) ∧ counters (drops c') = counters (drops c).
Proof.
  intros Hm Hd Hdep Htot Hst Hbehind Hl.
  destruct (client_loop_follows addr ifr m suf) with (l := l) (c := c) as (r & c' & E & Hd' & Hlog).
  { unfold rate_ok in Hm. lia. }
  exists r, c'. split; [done|].
  assert (Forall bad (observations addr ifr m suf l c)) as Hbad.
  { unfold observations. apply Forall_fmap. eapply Forall_impl; [exact Hl|]. clear Hl.
    intros [t c1] (Hs & ? & Ht & Htime & Hle & Hpaced). unfold bad, look, offset_at, usec_ahead. simpl.
    destruct (Z.eqb_spec m 0); [unfold rate_ok in *; lia|]. rewrite Hs.
    rewrite goal_div by (done || unfold time_ok in *; lia).
    pose proof (Z.div_mod ((t - start_time c) * m) 8). pose proof (Z.mod_pos_bound ((t - start_time c) * m) 8).
    set (g := _ / 8) in *. unfold rate_ok, MAX_MBITS, time_ok in *.
    assert (8 * (total c1 - g) ≤ - m - 1) by nia.
    assert (8 * g < 2 ^ 63) by nia. rewrite s64_id by lia.
    assert (Z.quot ((total c1 - g) * 8) m ≤ -1); [|lia].
    rewrite <-(Z.opp_involutive ((total c1 - g) * 8)), Z.quot_opp_l by lia.
    assert (1 ≤ Z.quot (- ((total c1 - g) * 8)) m); [|lia]. apply Z.quot_le_lower_bound; lia. }
  destruct (follow_bad _ (drops c) t1 depth Hbad Hd Hdep) as (d & E2 & _ & Hcount).
  rewrite E2 in Hd', Hlog. simpl in *. by rewrite Hlog, Hd', Hcount, app_nil_r.
Qed.

(** A rate of 0 is accepted; then the period is empty, and the server writes nothing as
    fast as it can instead of sleeping. *)
Lemma zero_rate_accepted `{!CPlatform} : (read_request (Read (request_bytes (make_request 0)))).2 = Some 0.
Proof.
  assert (sword 0 = 0) as H0.
  { apply sword_id. pose proof ulong_bits_ge. pose proof (Z.pow_pos_nonneg 2 (ulong_bits - 1)). lia. }
  unfold read_request. cbv zeta. change (ntohl (megabits _)) with 0. by rewrite H0.
Qed.
Lemma zero_rate_spins start t l :
  clock_runs t l → Forall (λ i, t_die i = false ∧ t_wrote i = 0) l →
  server_loop 0 start l 0 = Ret (replicate (length l) (Write 0), Continue, 0).
Proof.
  revert t. induction l as [|i l IH]; intros t Hc Hl; [done|].
  destruct Hc as (now & Hi & _ & _ & Hc). apply Forall_cons in Hl as [[Hd Hw] Hl]. 
  assert (server_turn 0 start i 0 = Ret ([Write 0], Continue, 0)) as E.
  { unfold server_turn. rewrite Hd, Hi, Hw. unfold goal. by rewrite Z.mul_0_r. }
  cbn [server_loop]. rewrite E. simpl. by rewrite (IH now).
Qed.

(** ** The children of the server *)

(** waitpid gives no more children than there are. *)
Fixpoint kids_exist `{!CPlatform} (max : Z) (cong : option bytes) (l : list parent_round) (n : Z) : Prop :=
  match l with
  | [] => True
  | i :: l =>
      Z.of_nat (reaped i) ≤ (if (n <? max) || negb (waited i) then n else n - 1) ∧
      ∀ o e n', parent_turn max cong i n = Ret (o, e, n') → kids_exist max cong l n'
  end.

Section parent.
Context `{!CPlatform}.

Lemma accept_client_count cong i n o e n' :
  accept_client cong i n = Ret (o, e, n') → n' = n ∨ n' = n + 1.
Proof.
  unfold accept_client. destruct (negb (accept_ok i)); [intros [= _ _ <-]; by left|].
  destruct (match cong with Some a => set_cong_ctl a (cong_ok i) | None => (true, []) end) as [ok o1].
  destruct (negb ok); [intros [= _ _ <-]; by left|].
  destruct (forked i <? 0); [destruct (p_nap i); intros [= _ _ <-]; by left|].
  destruct (0 <? forked i); [intros [= _ _ <-]; by right|].
  destruct (run_child (child i)) as [[o2 e2]| |]; [|done..]. intros [= _ _ <-]. by left.
Qed.

(** The server never counts more clients than its limit. *)
Lemma children_limited max cong l n o e n' :
  1 ≤ max → 0 ≤ n ≤ max → kids_exist max cong l n → parent_loop max cong l n = Ret (o, e, n') → 0 ≤ n' ≤ max.
Proof.
  intros Hmax. revert n o e n'. induction l as [|i l IH]; intros n o e n' Hn Hk; [by intros [= _ _ <-]|].
  destruct Hk as [Hr Hk]. simpl. destruct (parent_turn max cong i n) as [[[o1 e1] n1]| |] eqn:E; [|done..].
  assert (0 ≤ n1 ≤ max) as Hn1.
  { revert E Hr. clear Hk IH. unfold parent_turn, count_children. destruct (p_die i); [by intros [= _ _ <-]|].
    destruct (Z.ltb_spec n max); simpl.
    - destruct (0 <? p_nfds i); [|intros [= _ _ <-]; lia].
      destruct (accept_client cong i _) as [[[o2 e2] n2]| |] eqn:E2; [|done..].
      intros [= _ _ <-]. apply accept_client_count in E2. lia.
    - destruct (waited i); simpl; intros [= _ _ <-]; lia. }
  simpl. destruct e1; [|by intros [= _ _ <-]..]. specialize (Hk _ _ _ eq_refl).
  destruct (parent_loop max cong l n1) as [[[o2 e2] n2]| |] eqn:E2; [|done..]. intros [= _ _ <-]. by eapply IH.
Qed.
End parent.

(** ** Options *)

Definition sane (s : settings) : Prop :=
  (megabits_per_sec s = 0 ∨ rate_ok (megabits_per_sec s)) ∧ 0 ≤ timeout s ∧ 1 ≤ max_children s ≤ MAX_CHILDREN.

Lemma read_options_sane argv0 l s s' :
  sane s → read_options argv0 l s = Ret (inl s') → sane s'.
Proof.
  revert s. induction l as [|o l IH]; intros s Hs; [by intros [= <-]|]. simpl.
  destruct (option_step argv0 o s) as [[s1|]| |] eqn:E; [|done..]. simpl. apply IH. clear IH.
  destruct Hs as (Hm & Ht & Hc). unfold option_step in E. destruct o as [a|a|a|a|x|a|].
  - destruct (atoi a) as [n| |]; [|done..]. simpl in E.
    destruct (Z.ltb_spec MAX_MBITS n), (Z.ltb_spec n 1); simpl in E; [done..|]. injection E as <-.
    split_and!; [right; split; simpl; lia|done|simpl; lia..].
  - by injection E as <-.
  - destruct (atoi a) as [n| |]; [|done..]. simpl in E.
    destruct (Z.ltb_spec MAX_CHILDREN n), (Z.ltb_spec n 1); simpl in E; [done..|]. injection E as <-.
    split_and!; [done|done|simpl; lia..].
  - by injection E as <-.
  - destruct (SFltb x (double 1)); [done|]. by injection E as <-.
  - destruct (atoi a) as [n| |]; [|done..]. simpl in E. destruct (Z.ltb_spec n 0); [done|]. injection E as <-.
    split_and!; [done|simpl; lia|simpl; lia..].
  - done.
Qed.

(** The client that main starts never divides by 0: it returns, for whatever it meets. *)
Lemma stream_returns argv0 remotename opts s found l :
  read_options argv0 opts default_settings = Ret (inl s) → ∃ o e, stream argv0 remotename s found l = Ret (o, e).
Proof.
  intros Hs%read_options_sane.
  2:{ split_and!; [by left|done|vm_compute; done..]. }
  unfold stream. destruct (cong_ctl s); [by eexists _, _|]. destruct (Z.eqb_spec (megabits_per_sec s) 0); [by eexists _, _|].
  unfold run_client. destruct found as [t|addr]; [by eexists _, _|].
  destruct (client_loop_follows addr (ifr_name s) (megabits_per_sec s) (sufficient s)) with (l := l) (c := client0)
    as (r & c & -> & _); [done|]. by eexists _, _.
Qed.

(** ** Runs *)

Definition at_usec (n : Z) : timespec := Some (n / 1000000, n mod 1000000 * 1000).
Definition turn_at (n wrote : Z) : turn := Turn false (at_usec n) true wrote.
(** A round that looks at [a], and gets [len] bytes at [b], or nothing. *)
Definition round_at (a b len : Z) : round :=
  Round false (at_usec a) true true true (at_usec a) 8 true (at_usec a) (if len =? 0 then 0 else 1) false (at_usec b) len true.
Definition at_eof (a b : Z) : round :=
  Round false (at_usec a) true true true (at_usec a) 8 true (at_usec a) 1 false (at_usec b) 0 true.

(** Ten megabits per second: a sleep of 52 milliseconds, a write, and again. *)
Definition sample_turns : list turn := [turn_at 1000 0; turn_at 54000 66250; turn_at 54001 0; turn_at 107000 66250].
Definition localhost : sockaddr := Inet (Some (lit "::1")) SERVER_PORT.
(** Data comes with the two writes; the client looks between them and behind. *)
Definition sample_rounds : list round :=
  [round_at 2000 54500 66250; round_at 60000 61000 0; round_at 61000 107500 66250; round_at 108100 109000 0].
(** The second part comes late. *)
Definition late_rounds : list round :=
  [round_at 2000 54500 66250; round_at 60000 300000 0; round_at 300000 400000 432000; round_at 400010 401000 0].

Example sample_stream_sent : server_loop 10 1000 sample_turns 0 =
  Ret ([Sleep 0 52428800; Write 66250; Sleep 0 52428000; Write 66250], Continue, 132500).
Proof. vm_compute. done. Qed.

Ltac sample_clock := repeat (eexists; split; [reflexivity|]; split; [vm_compute; done|]; split; [vm_compute; done|]).


Ltac sample_whole :=
  unfold sample_turns; cbn [writes_whole];
  repeat (match goal with
    | |- context [server_turn ?m ?s ?i ?t] =>
        let v := eval vm_compute in (server_turn m s i t) in change (server_turn m s i t) with v
    end; cbv beta iota; split; [repeat (apply Forall_cons_2; [done|]); apply Forall_nil_2|]); done.

(** One look in time, one behind, one in time again: a dropout of 100010 microseconds. *)
Example late_observations : observations localhost None 10 (double 0) late_rounds client0 =
  [(60000, 47500); (300000, -192500); (400010, 53090)].
Proof. vm_compute. done. Qed.

Lemma dropouts_reported_witness : ∃ r c, client_loop localhost None 10 (double 0) late_rounds client0 = Ret (r, c) ∧
  report [(100010, -192500)] (drops c) (dropout_lines (log c)) ∧
  dropout_lines (log c) = [Dropout_line 100010 (-192500)].
Proof.
  destruct (dropouts_reported localhost None 10 (double 0)) with (l := late_rounds) as (r & c & E & _ & H); [done|].
  exists r, c. assert (report [(100010, -192500)] (drops c) (dropout_lines (log c))) as Hr.
  { apply H. rewrite late_observations.
    apply (D_next [(60000, 47500)] 300000 (-192500) [] 400010 53090 [] []);
      [by repeat constructor|by repeat constructor|done|].
    apply (D_over [(400010, 53090)] []); [by repeat constructor|constructor]. }
  split_and!; [done|done|]. by destruct Hr as [-> _].
Defined.


(** A connection that ends before it has brought a byte starts the clock all the same:
    everything that comes later is behind by the time until then. *)
Example eof_starts_clock :
  let run := client_loop localhost None 10 (double 0) [at_eof 2000 3000] client0 in
  (λ r, (start_time r.2, total r.2, disconnect_count r.2)) <$> run = Ret (3000, 0, 1).
Proof. vm_compute. done. Qed.

(** After a connection that ended, a dropout of 300 milliseconds leaves no trace: the client is
    behind since the first connection, and the server does not make up for it. *)
Definition broken_rounds : list round :=
  [round_at 2000 54500 66250; at_eof 55000 60000; round_at 1100000 1153000 66250;
   round_at 1160000 1500000 433750; round_at 1500010 1500020 1; round_at 1500030 1500040 1].
Example dropout_after_disconnect :
  (λ r, (counters (drops r.2), dropout_lines (log r.2))) <$>
    client_loop localhost None 10 (double 0) broken_rounds client0 = Ret (0, 0, 0, []).
Proof. vm_compute. done. Qed.

(** The limits that the messages call exclusive are accepted, and the one they call
    inclusive is not. *)
Example limits_as_accepted :
  option_step (lit "isostream") (Opt_b (lit "1000")) default_settings =
    Ret (inl (Settings 1000 (double 0) 0 8 None None)) ∧
  option_step (lit "isostream") (Opt_P (lit "8")) default_settings =
    Ret (inl (Settings 0 (double 0) 0 8 None None)) ∧
  option_step (lit "isostream") (Opt_P (lit "0")) default_settings =
    Ret (inr [Say (lit "isostream: max connections must be >= 0 and < 8")]).
Proof. vm_compute. done. Qed.
